(** * Risk-neutral density pipeline: a shallow embedding and its properties

    The development follows the Python package [es_options]:
    - [utils/math_utils.py]            (module [MathUtils]),
    - [metrics/rnd_extractor.py]       (module [RndExtractor]),
    - [processing/smoothing.py]        (module [Smoothing]),
    - [processing/chain_cleaner.py]    (module [ChainCleaner]),
    - [pipelines/build_rnd_pipeline.py] (module [Pipeline]),
    - [viz/rnd_surface_plotter.py]     (module [Surface]).

    Floating point numbers are read as real numbers ([R]); NumPy arrays are
    lists; Python integers are [Z]; exceptions are [None] / [inl]. *)

From Stdlib Require Import String DecimalString.
From Stdlib Require Import Reals Lra Lia List ZArith Bool.
From Stdlib Require Import Permutation Sorted.
Import ListNotations.
Open Scope string_scope.
Open Scope list_scope.
Open Scope R_scope.

(** ** Exceptions

    A computation either raises, with the text of the exception, or returns. *)

Definition Exc (A : Type) : Type := (string + A)%type.

Definition raise {A : Type} (msg : string) : Exc A := inl msg.
Definition ret {A : Type} (a : A) : Exc A := inr a.

Definition bind {A B : Type} (m : Exc A) (k : A -> Exc B) : Exc B :=
  match m with
  | inl e => inl e
  | inr a => k a
  end.

Notation "x <- m ;; k" := (bind m (fun x => k))
  (at level 61, m at next level, right associativity).

(** [str(n)] for a length. *)
Definition str_of_nat (n : nat) : string := NilEmpty.string_of_uint (Nat.to_uint n).

(** ** Comparisons on floats, as booleans *)

Definition Rltb (a b : R) : bool := if Rlt_dec a b then true else false.
Definition Rleb (a b : R) : bool := if Rle_dec a b then true else false.
Definition Reqb (a b : R) : bool := if Req_dec_T a b then true else false.

(** ** NumPy primitives used by the package *)

Module Np.

(** [np.trapz(y, x)]: [sum (diff x * (y[1:] + y[:-1]) / 2)]. *)
Fixpoint trapz (y x : list R) : R :=
  match y, x with
  | y0 :: ((y1 :: _) as y'), x0 :: ((x1 :: _) as x') =>
      (x1 - x0) * (y1 + y0) / 2 + trapz y' x'
  | _, _ => 0
  end.

(** [np.cumsum], with the running total carried along. *)
Fixpoint cumsum_from (acc : R) (a : list R) : list R :=
  match a with
  | [] => []
  | v :: a' => (acc + v) :: cumsum_from (acc + v) a'
  end.

Definition cumsum (a : list R) : list R := cumsum_from 0 a.

(** [np.maximum(a, c)] against a scalar. *)
Definition maximum (a : list R) (c : R) : list R := map (fun v => Rmax v c) a.

(** [np.clip(v, lo, hi)] is [minimum(maximum(v, lo), hi)]. *)
Definition clip (v lo hi : R) : R := Rmin (Rmax v lo) hi.

(** [np.linspace(start, stop, num)]: [start + i * step] with
    [step = (stop - start) / (num - 1)]; a single sample is [start]. *)
Definition linspace (start stop : R) (num : nat) : list R :=
  match num with
  | O => []
  | S O => [start]
  | S d => map (fun i => start + INR i * ((stop - start) / INR d)) (seq 0 num)
  end.

(** Boolean-mask indexing [a[mask]]. *)
Fixpoint select {A : Type} (mask : list bool) (a : list A) : list A :=
  match mask, a with
  | b :: mask', v :: a' => if b then v :: select mask' a' else select mask' a'
  | _, _ => []
  end.

(** [mask.any()]. *)
Definition any (mask : list bool) : bool := existsb (fun b => b) mask.

(** [np.interp(x, xp, fp)] for one abscissa: the left value below [xp[0]],
    the right value from [xp[-1]] on, and on the segment
    [xp[j] <= x < xp[j+1]] the value [slope * (x - xp[j]) + fp[j]].
    For non-decreasing [xp] that segment is the one NumPy's search finds. *)
Fixpoint interp_from (x x0 f0 : R) (xp fp : list R) : R :=
  match xp, fp with
  | x1 :: xp', f1 :: fp' =>
      if Rltb x x1 then (f1 - f0) / (x1 - x0) * (x - x0) + f0
      else interp_from x x1 f1 xp' fp'
  | _, _ => f0
  end.

Definition interp1 (x : R) (xp fp : list R) : R :=
  match xp, fp with
  | x0 :: xp', f0 :: fp' => if Rltb x x0 then f0 else interp_from x x0 f0 xp' fp'
  | _, _ => 0
  end.

Definition interp (xs xp fp : list R) : list R :=
  map (fun x => interp1 x xp fp) xs.

End Np.

(** ** utils/math_utils.py *)

Module MathUtils.

Definition min_value : R := 1 / 10000000000.

(** The slice expression [f[2:] - 2 * f[1:-1] + f[:-2]]. *)
Fixpoint second_diffs (f : list R) : list R :=
  match f with
  | a :: ((b :: c :: _) as f') => (c - 2 * b + a) :: second_diffs f'
  | _ => []
  end.

(** [central_diff_2nd(f, h)] is total: the edge cells are written only
    when [n >= 3], and the interior slice is empty otherwise. *)
Definition central_diff_2nd (f : list R) (h : R) : list R :=
  let inner := map (fun v => v / h ^ 2) (second_diffs f) in
  match inner with
  | [] => map (fun _ => 0) f
  | s0 :: _ => s0 :: inner ++ [last inner 0]
  end.

(** [normalize_density(density, x, min_value=1e-10)]. *)
Definition normalize_density (density x : list R) : list R :=
  let density := Np.maximum density min_value in
  let integral := Np.trapz density x in
  if Rltb 0 integral then map (fun v => v / integral) density
  else map (fun _ => 1 / (last x 0 - hd 0 x)) density.

Record Moments := mkMoments {
  m_mean : R;
  m_std : R;
  m_skewness : R;
  m_kurtosis : R
}.

(** [compute_density_moments(density, x)]. *)
Definition compute_density_moments (density x : list R) : Moments :=
  let weighted (g : R -> R) := map (fun xd => g (fst xd) * snd xd) (combine x density) in
  let mean := Np.trapz (weighted (fun v => v)) x in
  let variance := Np.trapz (weighted (fun v => (v - mean) ^ 2)) x in
  let std := sqrt (Rmax variance 0) in
  if Rltb 0 std then
    mkMoments mean std
      (Np.trapz (weighted (fun v => (v - mean) ^ 3)) x / std ^ 3)
      (Np.trapz (weighted (fun v => (v - mean) ^ 4)) x / std ^ 4 - 3)
  else mkMoments mean std 0 0.

(** [compute_quantiles(density, x, quantiles)]: [x[1]] and [cdf[-1]] raise
    [IndexError] on arrays that are too short, and [np.interp] rejects
    sample arrays of different lengths. *)
Definition compute_quantiles (density x quantiles : list R) : Exc (list R) :=
  match x with
  | x0 :: x1 :: _ =>
      let dx := x1 - x0 in
      let cdf := map (fun v => v * dx) (Np.cumsum density) in
      match cdf with
      | [] => raise "index -1 is out of bounds"
      | c :: _ =>
          let total := last cdf c in
          let cdf := if Rltb 0 total then map (fun v => v / total) cdf else cdf in
          if (length cdf =? length x)%nat then ret (Np.interp quantiles cdf x)
          else raise "fp and xp are not of the same length"
      end
  | _ => raise "index 1 is out of bounds"
  end.

End MathUtils.

(** ** pandas frames

    A row carries every column the package reads or writes; [columns] lists
    the ones the frame really has, and a field whose name is not listed holds
    no data. Dates are day ordinals. *)

Module Pd.

Record Row := mkRow {
  expiry : Z;
  strike : R;
  right : string;
  bid : R;
  ask : R;
  volume : Z;
  open_interest : Z;
  mid : R;
  dte : Z;
  source : string
}.

Record DataFrame := mkDF {
  columns : list string;
  rows : list Row
}.

(** [name in df.columns]. *)
Definition has_col (name : string) (df : DataFrame) : bool :=
  existsb (String.eqb name) (columns df).

(** [df.empty]: an axis of length zero. *)
Definition empty (df : DataFrame) : bool :=
  match columns df, rows df with
  | [], _ => true
  | _, [] => true
  | _, _ => false
  end.

(** [df[name]] for a column that must be there. *)
Definition require (name : string) (df : DataFrame) : Exc unit :=
  if has_col name df then ret tt else raise ("KeyError: " ++ name)%string.

(** [df[mask]], with the mask computed row by row. *)
Definition filter_rows (keep : Row -> bool) (df : DataFrame) : DataFrame :=
  mkDF (columns df) (filter keep (rows df)).

Definition set_mid (v : R) (q : Row) : Row :=
  mkRow (expiry q) (strike q) (right q) (bid q) (ask q) (volume q)
        (open_interest q) v (dte q) (source q).

Definition set_dte (v : Z) (q : Row) : Row :=
  mkRow (expiry q) (strike q) (right q) (bid q) (ask q) (volume q)
        (open_interest q) (mid q) v (source q).

(** [df[name] = values], the values computed row by row: the column is
    appended when it is new and overwritten otherwise. *)
Definition assign (name : string) (update : Row -> Row) (df : DataFrame) : DataFrame :=
  mkDF (if has_col name df then columns df else columns df ++ [name])
       (map update (rows df)).

(** The float-valued columns, by name. *)
Definition float_col (name : string) : option (Row -> R) :=
  if String.eqb name "strike" then Some strike
  else if String.eqb name "bid" then Some bid
  else if String.eqb name "ask" then Some ask
  else if String.eqb name "mid" then Some mid
  else if String.eqb name "volume" then Some (fun q => IZR (volume q))
  else if String.eqb name "open_interest" then Some (fun q => IZR (open_interest q))
  else if String.eqb name "dte" then Some (fun q => IZR (dte q))
  else None.

(** [df.sort_values(...)], as a stable insertion sort under [le]. *)
Fixpoint insert_by {A : Type} (le : A -> A -> bool) (x : A) (l : list A) : list A :=
  match l with
  | [] => [x]
  | y :: l' => if le x y then x :: l else y :: insert_by le x l'
  end.

Definition sort_by {A : Type} (le : A -> A -> bool) (l : list A) : list A :=
  fold_right (insert_by le) [] l.

(** [Series.unique()] on dates: first occurrences, in order. *)
Fixpoint unique (l : list Z) : list Z :=
  match l with
  | [] => []
  | x :: l' => x :: filter (fun y => negb (Z.eqb x y)) (unique l')
  end.

End Pd.

(** ** processing/smoothing.py *)

Module Smoothing.

(** What the package uses of [scipy.interpolate.UnivariateSpline]: the
    spline as a function of log-strike, and [derivative(n)], which gives a
    spline again or raises. *)
Record UnivariateSpline := mkSpline {
  sp_call : R -> R;
  sp_derivative : nat -> option (R -> R)
}.

Record SmoothingResult := mkSmoothingResult {
  strikes : list R;
  prices : list R;
  smooth_fn : list R -> list R;
  spot_price : R;
  strike_min : R;
  strike_max : R;
  spline : option UnivariateSpline
}.

(** [ndarray.min()] and [ndarray.max()], on a non-empty array. *)
Definition np_min (a0 : R) (a : list R) : R := fold_left Rmin a a0.
Definition np_max (a0 : R) (a : list R) : R := fold_left Rmax a a0.

(** The dataclass constructor followed by [__post_init__]: a bound given
    as [0.0] is replaced by the extreme of [strikes]. *)
Definition SmoothingResult_init (strikes prices : list R)
    (smooth_fn : list R -> list R) (spot_price strike_min strike_max : R)
    (spline : option UnivariateSpline) : Exc SmoothingResult :=
  lo <- (if Reqb strike_min 0 then
           match strikes with
           | [] => raise "zero-size array to reduction operation minimum"
           | k :: ks => ret (np_min k ks)
           end
         else ret strike_min) ;;
  hi <- (if Reqb strike_max 0 then
           match strikes with
           | [] => raise "zero-size array to reduction operation maximum"
           | k :: ks => ret (np_max k ks)
           end
         else ret strike_max) ;;
  ret (mkSmoothingResult strikes prices smooth_fn spot_price lo hi spline).

Definition get_strike_grid (s : SmoothingResult) (num_points : nat) : list R :=
  Np.linspace (strike_min s) (strike_max s) num_points.

(** The closure [smooth_fn] built by [fit], at one strike. *)
Definition smooth_point (spl : UnivariateSpline) (log_k_min log_k_max : R) (K : R) : R :=
  let log_K := ln (Rmax K (1 / 10000000000)) in
  let log_K := Np.clip log_K log_k_min log_k_max in
  Rmax (sp_call spl log_K) 0.

(** [np.unique(a)]: the sorted distinct values. *)
Fixpoint drop_repeats (a : list R) : list R :=
  match a with
  | x :: ((y :: _) as a') => if Reqb x y then drop_repeats a' else x :: drop_repeats a'
  | _ => a
  end.

Definition np_unique (a : list R) : list R := drop_repeats (Pd.sort_by Rleb a).

Definition np_sum (a : list R) : R := fold_left Rplus a 0.

(** [np.var(a)]: the mean squared deviation from the mean. *)
Definition np_var (a : list R) : R :=
  let n := INR (length a) in
  let m := np_sum a / n in
  np_sum (map (fun v => (v - m) ^ 2) a) / n.

Record CallPriceSmoother := mkSmoother {
  smoothing_factor : option R;
  min_points : nat
}.

Definition default_smoother : CallPriceSmoother := mkSmoother None 10.

Section Fit.

(** [UnivariateSpline(x, y, k=3, s=s, ext=3)] of SciPy: the fitted spline,
    or an exception. *)
Variable make_spline : list R -> list R -> R -> Exc UnivariateSpline.

(** The first half of [fit]: the cleaned, sorted, de-duplicated
    [(strikes, prices)] arrays. *)
Definition fit_arrays (self : CallPriceSmoother) (chain : Pd.DataFrame)
    (price_col : string) : Exc (list R * list R) :=
  let calls := if Pd.has_col "right" chain
               then Pd.filter_rows (fun q => String.eqb (Pd.right q) "C") chain
               else chain in
  calls <- (if String.eqb price_col "mid" && negb (Pd.has_col "mid" calls)
            then _ <- Pd.require "bid" calls ;;
                 _ <- Pd.require "ask" calls ;;
                 ret (Pd.assign "mid"
                        (fun q => Pd.set_mid ((Pd.bid q + Pd.ask q) / 2) q) calls)
            else ret calls) ;;
  if (length (Pd.rows calls) <? min_points self)%nat then
    raise ("Need at least " ++ str_of_nat (min_points self) ++ " calls, got "
                            ++ str_of_nat (length (Pd.rows calls)))%string
  else
    _ <- Pd.require "strike" calls ;;
    let sorted := Pd.sort_by (fun a b => Rleb (Pd.strike a) (Pd.strike b)) (Pd.rows calls) in
    _ <- Pd.require price_col calls ;;
    price <- match Pd.float_col price_col with
             | Some get => ret get
             | None => raise "could not convert to float"
             end ;;
    let valid := filter (fun q => Rltb 0 (price q) && Rltb 0 (Pd.strike q)) sorted in
    let strikes := map Pd.strike valid in
    let prices := map price valid in
    let unique_strikes := np_unique strikes in
    let unique_prices :=
      map (fun u => let mask := map (Reqb u) strikes in
                    np_sum (Np.select mask prices)
                    / INR (length (Np.select mask prices)))
          unique_strikes in
    if (length unique_strikes <? min_points self)%nat then
      raise ("Not enough valid prices after cleaning: "
               ++ str_of_nat (length unique_strikes))%string
    else ret (unique_strikes, unique_prices).

(** The second half of [fit]: the spline in log-strike and the closure. *)
Definition fit_spline (self : CallPriceSmoother) (strikes prices : list R)
    (spot_price : option R) : Exc SmoothingResult :=
  spot <- match spot_price with
          | Some v => ret v
          | None => match nth_error strikes (length strikes / 2) with
                    | Some v => ret v
                    | None => raise "index 0 is out of bounds"
                    end
          end ;;
  let log_strikes := map ln strikes in
  let s := match smoothing_factor self with
           | Some f => f * INR (length strikes)
           | None => INR (length strikes) * np_var prices * (1 / 100)
           end in
  spline <- make_spline log_strikes prices s ;;
  match log_strikes, strikes with
  | l0 :: ls, k0 :: ks =>
      let log_k_min := np_min l0 ls in
      let log_k_max := np_max l0 ls in
      SmoothingResult_init strikes prices
        (map (smooth_point spline log_k_min log_k_max))
        spot (np_min k0 ks) (np_max k0 ks) (Some spline)
  | _, _ => raise "zero-size array to reduction operation minimum"
  end.

Definition fit (self : CallPriceSmoother) (chain : Pd.DataFrame)
    (spot_price : option R) (price_col : string) : Exc SmoothingResult :=
  arrays <- fit_arrays self chain price_col ;;
  fit_spline self (fst arrays) (snd arrays) spot_price.

End Fit.

End Smoothing.

(** ** metrics/rnd_extractor.py *)

Module RndExtractor.

Record DataQuality := mkDataQuality {
  num_raw_options : nat;
  num_otm_options : nat;
  num_calls : nat;
  num_puts_synthetic : nat;
  strike_range : R * R;
  strike_coverage : R;
  avg_strike_gap : R;
  max_strike_gap : R;
  moneyness_range : R * R;
  quality_score : R
}.

Definition quality_label (q : DataQuality) : string :=
  if Rleb (8 / 10) (quality_score q) then "HIGH"
  else if Rleb (5 / 10) (quality_score q) then "MEDIUM"
  else "LOW".

(** Dates are day ordinals. *)
Record RNDResult := mkRND {
  strikes : list R;
  density : list R;
  expiry : Z;
  time_to_expiry : R;
  spot_price : R;
  mean : R;
  std : R;
  skewness : R;
  kurtosis : R;
  data_quality : option DataQuality
}.

Definition set_data_quality (r : RNDResult) (q : DataQuality) : RNDResult :=
  mkRND (strikes r) (density r) (expiry r) (time_to_expiry r) (spot_price r)
        (mean r) (std r) (skewness r) (kurtosis r) (Some q).

Definition get_quantiles (r : RNDResult) (quantiles : list R) : Exc (list (R * R)) :=
  values <- MathUtils.compute_quantiles (density r) (strikes r) quantiles ;;
  ret (combine quantiles values).

Definition probability_below (r : RNDResult) (strike : R) : R :=
  let mask := map (fun k => Rleb k strike) (strikes r) in
  if negb (Np.any mask) then 0
  else Np.trapz (Np.select mask (density r)) (Np.select mask (strikes r)).

Definition probability_above (r : RNDResult) (strike : R) : R :=
  1 - probability_below r strike.

Record RNDExtractor := mkExtractor {
  r : R;
  num_points : nat
}.

Definition default_extractor : RNDExtractor := mkExtractor (5 / 100) 500.

(** [_finite_diff_2nd(C, strikes)]: indexing [strikes[1]] or [prices[2]]
    out of range raises [IndexError]. *)
Definition _finite_diff_2nd (C : list R -> list R) (strikes : list R) : Exc (list R) :=
  match strikes with
  | k0 :: k1 :: _ =>
      let dK := k1 - k0 in
      let prices := C strikes in
      match prices with
      | p0 :: p1 :: p2 :: _ =>
          let inner := map (fun v => v / dK ^ 2) (MathUtils.second_diffs prices) in
          ret ((p2 - 2 * p1 + p0) / dK ^ 2 :: inner ++ [last inner 0])
      | _ => raise "index 2 is out of bounds"
      end
  | _ => raise "index 1 is out of bounds"
  end.

(** The second derivative in strike, before the discount factor: the
    chain rule on the spline handle, and finite differences when there is
    no handle or the handle raises. *)
Definition d2C_dK2 (C : list R -> list R) (strikes : list R)
    (smooth_result : option Smoothing.SmoothingResult) : Exc (list R) :=
  match smooth_result with
  | Some sr =>
      match Smoothing.spline sr with
      | Some spline =>
          match Smoothing.sp_derivative spline 1, Smoothing.sp_derivative spline 2 with
          | Some d1, Some d2 =>
              ret (map (fun K => (d2 (ln K) - d1 (ln K)) / K ^ 2) strikes)
          | _, _ => _finite_diff_2nd C strikes
          end
      | None => _finite_diff_2nd C strikes
      end
  | None => _finite_diff_2nd C strikes
  end.

Definition _compute_density (self : RNDExtractor) (C : list R -> list R)
    (strikes : list R) (T : R)
    (smooth_result : option Smoothing.SmoothingResult) : Exc (list R) :=
  d2C <- d2C_dK2 C strikes smooth_result ;;
  let density := map (fun v => exp (r self * T) * v) d2C in
  ret (MathUtils.normalize_density density strikes).

Section Extract.

(** [str(date)]. *)
Variable date_str : Z -> string.

Definition extract (self : RNDExtractor) (smooth_result : Smoothing.SmoothingResult)
    (expiry trade_date : Z) : Exc RNDResult :=
  let T := IZR (expiry - trade_date) / 365 in
  if Rleb T 0 then
    raise ("Expiry " ++ date_str expiry ++ " must be after trade date "
                     ++ date_str trade_date)%string
  else
    let strikes := Smoothing.get_strike_grid smooth_result (num_points self) in
    density <- _compute_density self (Smoothing.smooth_fn smooth_result) strikes T
                                (Some smooth_result) ;;
    let m := MathUtils.compute_density_moments density strikes in
    ret (mkRND strikes density expiry T (Smoothing.spot_price smooth_result)
               (MathUtils.m_mean m) (MathUtils.m_std m)
               (MathUtils.m_skewness m) (MathUtils.m_kurtosis m) None).

End Extract.

End RndExtractor.

(** ** processing/chain_cleaner.py: quality metrics *)

Module ChainQuality.

Record ChainQualityMetrics := mkMetrics {
  num_raw : nat;
  num_after_clean : nat;
  num_otm : nat;
  num_calls : nat;
  num_puts_synthetic : nat;
  strikes : list R;
  spot : R
}.

(** [np.diff]. *)
Fixpoint np_diff (a : list R) : list R :=
  match a with
  | x :: ((y :: _) as a') => (y - x) :: np_diff a'
  | _ => []
  end.

(** [strikes.min()] and [strikes.max()] raise on an empty array. *)
Definition strikes_min (m : ChainQualityMetrics) : Exc R :=
  match strikes m with
  | [] => raise "zero-size array to reduction operation minimum"
  | k :: ks => ret (Smoothing.np_min k ks)
  end.

Definition strikes_max (m : ChainQualityMetrics) : Exc R :=
  match strikes m with
  | [] => raise "zero-size array to reduction operation maximum"
  | k :: ks => ret (Smoothing.np_max k ks)
  end.

Definition strike_range (m : ChainQualityMetrics) : Exc (R * R) :=
  lo <- strikes_min m ;; hi <- strikes_max m ;; ret (lo, hi).

Definition strike_coverage (m : ChainQualityMetrics) : Exc R :=
  hi <- strikes_max m ;; lo <- strikes_min m ;; ret ((hi - lo) / spot m).

Definition avg_strike_gap (m : ChainQualityMetrics) : R :=
  if (length (strikes m) <? 2)%nat then 0
  else let gaps := np_diff (Pd.sort_by Rleb (strikes m)) in
       Smoothing.np_sum gaps / INR (length gaps).

Definition max_strike_gap (m : ChainQualityMetrics) : R :=
  if (length (strikes m) <? 2)%nat then 0
  else match np_diff (Pd.sort_by Rleb (strikes m)) with
       | g :: gaps => Smoothing.np_max g gaps
       | [] => 0
       end.

Definition moneyness_range (m : ChainQualityMetrics) : Exc (R * R) :=
  lo <- strikes_min m ;; hi <- strikes_max m ;; ret (lo / spot m, hi / spot m).

(** The four sub-scores of [quality_score], in the order of the source. *)
Definition n_score (m : ChainQualityMetrics) : R :=
  Rmin (INR (num_otm m) / 30) 1.

Definition cov_score (m : ChainQualityMetrics) : Exc R :=
  c <- strike_coverage m ;; ret (Rmin (c / (6 / 10)) 1).

Definition gap_score (m : ChainQualityMetrics) : R :=
  Rmax 0 (1 - (max_strike_gap m - 5) / 45).

Definition balance_score (m : ChainQualityMetrics) : R :=
  if (0 <? num_otm m)%nat then
    let balance := INR (Nat.min (num_calls m) (num_puts_synthetic m))
                   / (INR (num_otm m) / 2) in
    Rmin balance 1
  else 0.

Definition quality_score (m : ChainQualityMetrics) : Exc R :=
  let n := n_score m in
  cov <- cov_score m ;;
  let gap := gap_score m in
  let balance := balance_score m in
  ret (3 / 10 * n + 3 / 10 * cov + 2 / 10 * gap + 2 / 10 * balance).

End ChainQuality.

(** ** Python built-ins *)

Module Py.

(** [int(x)] on a float: truncation towards zero. *)
Definition int (x : R) : Z :=
  if Rleb 0 x then Int_part x else (- Int_part (- x))%Z.

(** A [dict] with integer keys, in insertion order; assigning to a key
    that is present replaces its value. *)
Fixpoint dict_set {V : Type} (k : Z) (v : V) (d : list (Z * V)) : list (Z * V) :=
  match d with
  | [] => [(k, v)]
  | (k', v') :: d' => if Z.eqb k k' then (k, v) :: d' else (k', v') :: dict_set k v d'
  end.

Fixpoint dict_get {V : Type} (k : Z) (d : list (Z * V)) : option V :=
  match d with
  | [] => None
  | (k', v') :: d' => if Z.eqb k k' then Some v' else dict_get k d'
  end.

Definition dict_keys {V : Type} (d : list (Z * V)) : list Z := map fst d.

(** [sorted(...)] on integers. *)
Definition sorted (l : list Z) : list Z := Pd.sort_by Z.leb l.

(** [max(...)] and [min(...)] raise on an empty sequence. *)
Definition max (l : list Z) : Exc Z :=
  match l with
  | [] => raise "max() arg is an empty sequence"
  | x :: l' => ret (fold_left Z.max l' x)
  end.

Definition min (l : list Z) : Exc Z :=
  match l with
  | [] => raise "min() arg is an empty sequence"
  | x :: l' => ret (fold_left Z.min l' x)
  end.

End Py.

(** ** The object store

    Frames are mutable objects: a variable holds a reference into the heap,
    [df.copy()] and indexing allocate a new object, item assignment mutates
    the object in place. A computation threads the heap and may raise; what
    it did to the heap before raising stays done. *)

Module Mem.

Definition Heap : Type := list Pd.DataFrame.
Definition ref : Type := nat.

Definition M (A : Type) : Type := Heap -> Exc A * Heap.

Definition mret {A : Type} (a : A) : M A := fun h => (inr a, h).

Definition mraise {A : Type} (msg : string) : M A := fun h => (inl msg, h).

Definition mbind {A B : Type} (m : M A) (k : A -> M B) : M B :=
  fun h => match m h with
           | (inl e, h') => (inl e, h')
           | (inr a, h') => k a h'
           end.

Definition lift {A : Type} (e : Exc A) : M A := fun h => (e, h).

Definition alloc (df : Pd.DataFrame) : M ref :=
  fun h => (inr (length h), h ++ [df]).

Definition read (r : ref) : M Pd.DataFrame :=
  fun h => match nth_error h r with
           | Some df => (inr df, h)
           | None => (inl "dangling reference", h)
           end.

Fixpoint update (r : ref) (df : Pd.DataFrame) (h : Heap) : Heap :=
  match h, r with
  | [], _ => []
  | _ :: h', O => df :: h'
  | d :: h', S r' => d :: update r' df h'
  end.

Definition write (r : ref) (df : Pd.DataFrame) : M unit :=
  fun h => (inr tt, update r df h).

End Mem.

Notation "x <~ m ;; k" := (Mem.mbind m (fun x => k))
  (at level 61, m at next level, right associativity).

(** ** processing/chain_cleaner.py: the cleaner *)

Module ChainCleaner.

Import Mem.

(** [df.copy()]. *)
Definition copy (r : ref) : M ref := df <~ read r ;; alloc df.

(** [df[mask]]: a new frame with the rows the mask keeps. *)
Definition getitem (r : ref) (keep : Pd.Row -> bool) : M ref :=
  df <~ read r ;; alloc (Pd.filter_rows keep df).

(** [df[name] = ...]: the frame itself is changed. *)
Definition setitem (r : ref) (name : string) (update : Pd.Row -> Pd.Row) : M unit :=
  df <~ read r ;; write r (Pd.assign name update df).

(** Reading a column of the frame at [r] raises [KeyError] when it is
    missing. *)
Definition column (r : ref) (name : string) : M unit :=
  df <~ read r ;; lift (Pd.require name df).

Record ChainCleaner := mkCleaner {
  min_volume : Z;
  min_oi : Z;
  max_spread_pct : R;
  min_dte : Z;
  max_dte : Z
}.


Definition compute_mid (q : Pd.Row) : Pd.Row :=
  Pd.set_mid ((Pd.bid q + Pd.ask q) / 2) q.

(** [clean(chain, trade_date)]. *)
Definition clean (self : ChainCleaner) (chain : ref) (trade_date : option Z) : M ref :=
  c <~ read chain ;;
  if Pd.empty c then mret chain
  else
    df <~ copy chain ;;
    d <~ read df ;;
    _ <~ (if negb (Pd.has_col "mid" d)
          then _ <~ column df "bid" ;; _ <~ column df "ask" ;;
               setitem df "mid" compute_mid
          else mret tt) ;;
    _ <~ column df "bid" ;;
    _ <~ column df "ask" ;;
    df <~ getitem df (fun q => Rleb (Pd.bid q) (Pd.ask q) && Rleb 0 (Pd.bid q)
                               && Rltb 0 (Pd.ask q)) ;;
    df <~ (if (0 <? min_volume self)%Z
           then _ <~ column df "volume" ;;
                getitem df (fun q => (min_volume self <=? Pd.volume q)%Z)
           else mret df) ;;
    df <~ (if (0 <? min_oi self)%Z
           then _ <~ column df "open_interest" ;;
                getitem df (fun q => (min_oi self <=? Pd.open_interest q)%Z)
           else mret df) ;;
    df <~ (if Rltb 0 (max_spread_pct self)
           then _ <~ column df "ask" ;; _ <~ column df "bid" ;;
                _ <~ column df "mid" ;;
                getitem df (fun q => if Reqb (Pd.mid q) 0 then false
                                     else Rleb ((Pd.ask q - Pd.bid q) / Pd.mid q)
                                               (max_spread_pct self))
           else mret df) ;;
    d <~ read df ;;
    df <~ (match trade_date with
           | Some today =>
               if Pd.has_col "expiry" d
               then _ <~ setitem df "dte"
                           (fun q => Pd.set_dte (Pd.expiry q - today) q) ;;
                    getitem df (fun q => (min_dte self <=? Pd.dte q)%Z
                                         && (Pd.dte q <=? max_dte self)%Z)
               else mret df
           | None => mret df
           end) ;;
    copy df.

Definition filter_calls (chain : ref) : M ref :=
  _ <~ column chain "right" ;;
  df <~ getitem chain (fun q => String.eqb (Pd.right q) "C") ;; copy df.

Definition filter_puts (chain : ref) : M ref :=
  _ <~ column chain "right" ;;
  df <~ getitem chain (fun q => String.eqb (Pd.right q) "P") ;; copy df.

(** One entry of the [results] list of [build_otm_chain]. *)
Definition otm_record (expiry : Z) (strike mid : R) (source : string) : Pd.Row :=
  Pd.mkRow expiry strike "" 0 0 0 0 mid 0 source.

Definition otm_columns : list string := ["expiry"; "strike"; "mid"; "source"].

(** The loop state for one expiry: [expiry_results], [num_calls],
    [num_puts_synthetic]. *)
Record ExpiryState := mkState {
  expiry_results : list Pd.Row;
  num_calls : nat;
  num_puts_synthetic : nat
}.

Definition add_otm_call (expiry : Z) (st : ExpiryState) (row : Pd.Row) : ExpiryState :=
  mkState (expiry_results st
             ++ [otm_record expiry (Pd.strike row) (Pd.mid row) "call"])
          (S (num_calls st)) (num_puts_synthetic st).

Definition add_otm_put (expiry : Z) (spot r T : R) (st : ExpiryState) (row : Pd.Row)
    : ExpiryState :=
  let K := Pd.strike row in
  let P := Pd.mid row in
  let discount := exp (- r * T) in
  let C := P + spot - K * discount in
  if Rltb 0 C then
    mkState (expiry_results st ++ [otm_record expiry K C "put_synthetic"])
            (num_calls st) (S (num_puts_synthetic st))
  else st.

Definition add_atm_call (expiry : Z) (st : ExpiryState) (row : Pd.Row) : ExpiryState :=
  let existing := filter (fun r => Reqb (Pd.strike r) (Pd.strike row))
                         (expiry_results st) in
  match existing with
  | [] => mkState (expiry_results st
                     ++ [otm_record expiry (Pd.strike row) (Pd.mid row) "call"])
                  (S (num_calls st)) (num_puts_synthetic st)
  | _ :: _ => st
  end.

(** The body of the loop over expiries, for the rows [exp_df] of one
    expiry. *)
Definition process_expiry (exp_df : list Pd.Row) (expiry : Z) (spot r : R)
    : Exc ExpiryState :=
  match exp_df with
  | [] => raise "single positional indexer is out-of-bounds"
  | first :: _ =>
      let T := IZR (Pd.dte first) / 365 in
      let otm_calls := filter (fun q => String.eqb (Pd.right q) "C"
                                        && Rltb spot (Pd.strike q)) exp_df in
      let st := fold_left (add_otm_call expiry) otm_calls (mkState [] 0 0) in
      let otm_puts := filter (fun q => String.eqb (Pd.right q) "P"
                                       && Rltb (Pd.strike q) spot) exp_df in
      let st := fold_left (add_otm_put expiry spot r T) otm_puts st in
      let atm_calls := filter (fun q => String.eqb (Pd.right q) "C"
                                        && Rleb (spot * (99 / 100)) (Pd.strike q)
                                        && Rleb (Pd.strike q) (spot * (101 / 100)))
                              exp_df in
      ret (fold_left (add_atm_call expiry) atm_calls st)
  end.

Definition QualityDict : Type := list (Z * ChainQuality.ChainQualityMetrics).

(** The loop over [df["expiry"].unique()]: [results] and
    [quality_metrics]. *)
Fixpoint expiry_loop (rows : list Pd.Row) (spot r : R) (expiries : list Z)
    (results : list Pd.Row) (quality_metrics : QualityDict)
    : Exc (list Pd.Row * QualityDict) :=
  match expiries with
  | [] => ret (results, quality_metrics)
  | expiry :: rest =>
      let exp_df := filter (fun q => Z.eqb (Pd.expiry q) expiry) rows in
      st <- process_expiry exp_df expiry spot r ;;
      let results := results ++ expiry_results st in
      let quality_metrics :=
        match expiry_results st with
        | [] => quality_metrics
        | _ :: _ =>
            Py.dict_set expiry
              (ChainQuality.mkMetrics (length exp_df) (length exp_df)
                 (length (expiry_results st)) (num_calls st) (num_puts_synthetic st)
                 (map Pd.strike (expiry_results st)) spot)
              quality_metrics
        end in
      expiry_loop rows spot r rest results quality_metrics
  end.

(** [sort_values(["expiry", "strike"])]. *)
Definition by_expiry_strike (a b : Pd.Row) : bool :=
  (Pd.expiry a <? Pd.expiry b)%Z
  || ((Pd.expiry a =? Pd.expiry b)%Z && Rleb (Pd.strike a) (Pd.strike b)).

(** [build_otm_chain(chain, spot, r, return_quality)]; the metrics are
    returned only on request. *)
Definition build_otm_chain (chain : ref) (spot r : R) (return_quality : bool)
    : M (ref * option QualityDict) :=
  c <~ read chain ;;
  if Pd.empty c then
    mret (chain, if return_quality then Some [] else None)
  else
    df <~ copy chain ;;
    d <~ read df ;;
    _ <~ (if negb (Pd.has_col "mid" d)
          then _ <~ column df "bid" ;; _ <~ column df "ask" ;;
               setitem df "mid" compute_mid
          else mret tt) ;;
    d <~ read df ;;
    if negb (Pd.has_col "dte" d) then
      mraise "Chain must have 'dte' column. Run clean() first."
    else
      _ <~ column df "expiry" ;;
      _ <~ column df "right" ;;
      _ <~ column df "strike" ;;
      out <~ lift (expiry_loop (Pd.rows d) spot r
                     (Pd.unique (map Pd.expiry (Pd.rows d))) [] []) ;;
      match fst out with
      | [] =>
          res <~ alloc (Pd.mkDF otm_columns []) ;;
          mret (res, if return_quality then Some [] else None)
      | _ :: _ =>
          res <~ alloc (Pd.mkDF otm_columns (Pd.sort_by by_expiry_strike (fst out))) ;;
          mret (res, if return_quality then Some (snd out) else None)
      end.

End ChainCleaner.

(** ** viz/rnd_surface_plotter.py: the density matrix *)

Module Surface.

Import RndExtractor.

(** [int(r.time_to_expiry * 365)]. *)
Definition dte_of (res : RNDResult) : Z := Py.int (time_to_expiry res * 365).

(** [{int(r.time_to_expiry * 365): r for r in rnd_results}]. *)
Definition rnd_by_dte (rnd_results : list RNDResult) : list (Z * RNDResult) :=
  fold_left (fun d res => Py.dict_set (dte_of res) res d) rnd_results [].

(** [np.interp(grid, rnd.strikes, rnd.density)]; NumPy rejects an empty
    array of sample points. *)
Definition interp_density (grid : list R) (rnd : RNDResult) : Exc (list R) :=
  match strikes rnd, density rnd with
  | _ :: _, _ :: _ => ret (Np.interp grid (strikes rnd) (density rnd))
  | _, _ => raise "array of sample points is empty"
  end.

Definition dict_item (d : list (Z * RNDResult)) (k : Z) : Exc RNDResult :=
  match Py.dict_get k d with
  | Some res => ret res
  | None => raise "KeyError"
  end.

(** [(1 - weight) * z_low + weight * z_high], cell by cell. *)
Definition blend (weight : R) (z_low z_high : list R) : list R :=
  map (fun z => (1 - weight) * fst z + weight * snd z) (combine z_low z_high).

(** The body of the loop over target days, shared by [plot_from_results]
    (real-valued [dte]) and [plot_density_heatmap] (integer [d]): the
    density over [grid] at target DTE [dte]. *)
Definition density_column (grid : list R) (rnd_results : list RNDResult)
    (dte : R) : Exc (list R) :=
  let by_dte := rnd_by_dte rnd_results in
  let actual_dtes := Py.sorted (Py.dict_keys by_dte) in
  match actual_dtes with
  | [] => raise "list index out of range"
  | first :: _ =>
      let final := last actual_dtes first in
      if Rleb dte (IZR first) then
        rnd <- dict_item by_dte first ;; interp_density grid rnd
      else if Rleb (IZR final) dte then
        rnd <- dict_item by_dte final ;; interp_density grid rnd
      else
        lower_dte <- Py.max (filter (fun d => Rleb (IZR d) dte) actual_dtes) ;;
        upper_dte <- Py.min (filter (fun d => Rleb dte (IZR d)) actual_dtes) ;;
        if Z.eqb lower_dte upper_dte then
          rnd <- dict_item by_dte lower_dte ;; interp_density grid rnd
        else
          let weight := (dte - IZR lower_dte) / (IZR upper_dte - IZR lower_dte) in
          rnd_low <- dict_item by_dte lower_dte ;;
          rnd_high <- dict_item by_dte upper_dte ;;
          z_low <- interp_density grid rnd_low ;;
          z_high <- interp_density grid rnd_high ;;
          ret (blend weight z_low z_high)
  end.

Fixpoint for_each {A B : Type} (f : A -> Exc B) (l : list A) : Exc (list B) :=
  match l with
  | [] => ret []
  | a :: l' => b <- f a ;; bs <- for_each f l' ;; ret (b :: bs)
  end.

(** The common strike grid: [lo_frac * spot] and [hi_frac * spot] capped by
    the extreme strikes of all results, 200 points. *)
Definition strike_grid (lo_frac hi_frac : R) (rnd_results : list RNDResult) : Exc (list R) :=
  match rnd_results with
  | [] => raise "No RND results to plot"
  | first :: _ =>
      let spot := spot_price first in
      match concat (map strikes rnd_results) with
      | [] => raise "zero-size array to reduction operation minimum"
      | k :: ks =>
          let strike_min := Rmax (spot * lo_frac) (Smoothing.np_min k ks) in
          let strike_max := Rmin (spot * hi_frac) (Smoothing.np_max k ks) in
          ret (Np.linspace strike_min strike_max 200)
      end
  end.

Section Plots.

(** [scipy.ndimage.gaussian_filter(Z, sigma)]. *)
Variable gaussian_filter : list (list R) -> R -> list (list R).

(** [plot_from_results]: the matrix [Z], one row per target DTE, as the
    loop leaves it, and as it is plotted after smoothing. *)
Definition plot_from_results_Z (rnd_results : list RNDResult) : Exc (list (list R)) :=
  grid <- strike_grid (7 / 10) (13 / 10) rnd_results ;;
  let dtes := Py.sorted (map dte_of rnd_results) in
  lo <- Py.min dtes ;;
  hi <- Py.max dtes ;;
  let dte_grid := Np.linspace (IZR lo) (IZR hi) 100 in
  for_each (density_column grid rnd_results) dte_grid.

Definition plot_from_results (rnd_results : list RNDResult) (smooth_sigma : R)
    : Exc (list (list R)) :=
  Z <- plot_from_results_Z rnd_results ;;
  ret (gaussian_filter Z smooth_sigma).

(** [plot_density_heatmap]: the matrix [Z], one column per day from the
    trade date to the largest DTE. *)
Definition plot_density_heatmap_Z (rnd_results : list RNDResult) : Exc (list (list R)) :=
  grid <- strike_grid (75 / 100) (125 / 100) rnd_results ;;
  max_dte <- Py.max (map dte_of rnd_results) ;;
  let num_dates := Z.to_nat (max_dte + 1) in
  for_each (fun d => density_column grid rnd_results (INR d)) (seq 0 num_dates).

Definition plot_density_heatmap (rnd_results : list RNDResult) : Exc (list (list R)) :=
  Z <- plot_density_heatmap_Z rnd_results ;;
  ret (gaussian_filter Z (15 / 10)).

End Plots.

End Surface.

(** ** processing/arbitrage_checks.py *)

Module ArbitrageChecks.

Record ArbitrageCheckResult := mkArbitrageCheckResult {
  is_valid : bool;
  num_violations : nat;
  monotonicity_ok : bool;
  convexity_ok : bool
}.

Record ArbitrageChecker := mkChecker {
  monotonicity_tol : R;
  convexity_tol : R
}.

Definition default_checker : ArbitrageChecker :=
  mkChecker (1 / 1000000) (- (1 / 1000000)).

(** [a / b] on arrays: cell by cell; an array of length one is broadcast,
    other shapes that differ raise. *)
Definition np_divide (a b : list R) : Exc (list R) :=
  if (length a =? length b)%nat then
    ret (map (fun p => fst p / snd p) (combine a b))
  else
    match a, b with
    | [x], _ => ret (map (fun y => x / y) b)
    | _, [y] => ret (map (fun x => x / y) a)
    | _, _ => raise "operands could not be broadcast together"
    end.

(** [np.sum(mask)]. *)
Definition count (p : R -> bool) (a : list R) : nat := length (filter p a).

(** [check(smooth_fn, strikes)]. *)
Definition check (self : ArbitrageChecker) (smooth_fn : list R -> list R)
    (strikes : list R) : Exc ArbitrageCheckResult :=
  let prices := smooth_fn strikes in
  let dC := ChainQuality.np_diff prices in
  let dK := ChainQuality.np_diff strikes in
  first_deriv <- np_divide dC dK ;;
  let mono_violations := count (fun d => Rltb (monotonicity_tol self) d) first_deriv in
  let mono_ok := (mono_violations =? 0)%nat in
  dK_uniform <- match strikes with
                | k0 :: k1 :: _ => ret (k1 - k0)
                | _ => raise "index 1 is out of bounds"
                end ;;
  let second_deriv :=
    map (fun v => v / dK_uniform ^ 2) (MathUtils.second_diffs prices) in
  let conv_violations := count (fun d => Rltb d (convexity_tol self)) second_deriv in
  let conv_ok := (conv_violations =? 0)%nat in
  ret (mkArbitrageCheckResult (mono_ok && conv_ok)
         (mono_violations + conv_violations) mono_ok conv_ok).

End ArbitrageChecks.

(** ** pipelines/build_rnd_pipeline.py *)

Module Pipeline.

Import Mem.

Record RNDPipelineResult := mkResult {
  symbol : string;
  trade_date : Z;
  rnd_results : list RndExtractor.RNDResult;
  smoothing_results : list (Z * Smoothing.SmoothingResult);
  num_expiries : nat;
  success : bool;
  errors : list string
}.

(** The pipeline object, without its two collaborators: the data client
    and the file store are the [Variable]s of the section below. *)
Record RNDPipeline := mkPipeline {
  r : R;
  min_dte : Z;
  max_dte : Z;
  cleaner : ChainCleaner.ChainCleaner;
  smoother : Smoothing.CallPriceSmoother;
  arb_checker : ArbitrageChecks.ArbitrageChecker;
  rnd_extractor : RndExtractor.RNDExtractor
}.

(** [RNDPipeline(client, file_store, r, min_dte, max_dte)]. *)
Definition RNDPipeline_init (r : R) (min_dte max_dte : Z) : RNDPipeline :=
  mkPipeline r min_dte max_dte
    (ChainCleaner.mkCleaner 10 100 (20 / 100) min_dte max_dte)
    Smoothing.default_smoother
    ArbitrageChecks.default_checker
    (RndExtractor.mkExtractor r 500).

Definition _error_result (symbol : string) (trade_date : Z) (error : string)
    : RNDPipelineResult :=
  mkResult symbol trade_date [] [] 0 false [error].

(** [Series.median()] of a column with at least one value. *)
Definition median (a : list R) : R :=
  let sorted := Pd.sort_by Rleb a in
  let n := length sorted in
  if Nat.even n then (nth (n / 2 - 1) sorted 0 + nth (n / 2) sorted 0) / 2
  else nth (n / 2) sorted 0.

(** [DataQuality(num_raw_options=qm.num_raw, ...)]: the properties of the
    metrics are evaluated in the order of the keywords. *)
Definition data_quality_of (qm : ChainQuality.ChainQualityMetrics)
    : Exc RndExtractor.DataQuality :=
  strike_range <- ChainQuality.strike_range qm ;;
  strike_coverage <- ChainQuality.strike_coverage qm ;;
  let avg_strike_gap := ChainQuality.avg_strike_gap qm in
  let max_strike_gap := ChainQuality.max_strike_gap qm in
  moneyness_range <- ChainQuality.moneyness_range qm ;;
  quality_score <- ChainQuality.quality_score qm ;;
  ret (RndExtractor.mkDataQuality
         (ChainQuality.num_raw qm) (ChainQuality.num_otm qm)
         (ChainQuality.num_calls qm) (ChainQuality.num_puts_synthetic qm)
         strike_range strike_coverage avg_strike_gap max_strike_gap
         moneyness_range quality_score).

(** The three local variables the loop over expiries updates. *)
Record Locals := mkLocals {
  loc_smoothing_results : list (Z * Smoothing.SmoothingResult);
  loc_rnd_results : list RndExtractor.RNDResult;
  loc_errors : list string
}.

Definition set_smoothing (k : Z) (v : Smoothing.SmoothingResult) (st : Locals)
    : Locals :=
  mkLocals (Py.dict_set k v (loc_smoothing_results st)) (loc_rnd_results st)
           (loc_errors st).

Definition append_rnd (rnd : RndExtractor.RNDResult) (st : Locals) : Locals :=
  mkLocals (loc_smoothing_results st) (loc_rnd_results st ++ [rnd]) (loc_errors st).

Definition append_error (msg : string) (st : Locals) : Locals :=
  mkLocals (loc_smoothing_results st) (loc_rnd_results st) (loc_errors st ++ [msg]).

(** [try: ... except Exception as e: handler(e)] in the object store. *)
Definition try_except {A : Type} (body : M A) (handler : string -> M A) : M A :=
  fun h => match body h with
           | (inl e, h') => handler e h'
           | (inr a, h') => (inr a, h')
           end.

Section Run.

(** [UnivariateSpline(...)] of SciPy and [str(date)]. *)
Variable make_spline : list R -> list R -> R -> Exc Smoothing.UnivariateSpline.
Variable date_str : Z -> string.

(** The data client: [client.get_option_chain(symbol, trade_dt)] and
    [client.get_spot_price(symbol, trade_dt)]. *)
Variable get_option_chain : string -> Z -> M ref.
Variable get_spot_price : string -> Z -> M (option R).

(** [file_store.save_chain(df, symbol, trade_dt, stage)]. *)
Variable save_chain : ref -> string -> Z -> string -> M unit.

(** The body of the [try] of one expiry. What it has done to the local
    variables before raising stays done. *)
Definition try_expiry (self : RNDPipeline) (otm_chain : Pd.DataFrame)
    (quality_metrics : ChainCleaner.QualityDict) (spot_price : R) (trade_dt : Z)
    (expiry : Z) (st : Locals) : Exc unit * Locals :=
  let expiry_data :=
    Pd.filter_rows (fun q => Z.eqb (Pd.expiry q) expiry) otm_chain in
  if (length (Pd.rows expiry_data) <? 10)%nat then (ret tt, st)
  else
    match Smoothing.fit make_spline (smoother self) expiry_data (Some spot_price) "mid"
    with
    | inl e => (inl e, st)
    | inr smooth_result =>
        let st := set_smoothing expiry smooth_result st in
        let strike_grid := Smoothing.get_strike_grid smooth_result 200 in
        match ArbitrageChecks.check (arb_checker self)
                (Smoothing.smooth_fn smooth_result) strike_grid with
        | inl e => (inl e, st)
        | inr arb_result =>
            let st :=
              if negb (ArbitrageChecks.is_valid arb_result) then
                append_error
                  (date_str expiry ++ ": "
                     ++ str_of_nat (ArbitrageChecks.num_violations arb_result)
                     ++ " arb violations")%string st
              else st in
            match RndExtractor.extract date_str (rnd_extractor self) smooth_result
                    expiry trade_dt with
            | inl e => (inl e, st)
            | inr rnd =>
                match (match Py.dict_get expiry quality_metrics with
                       | Some qm =>
                           quality <- data_quality_of qm ;;
                           ret (RndExtractor.set_data_quality rnd quality)
                       | None => ret rnd
                       end) with
                | inl e => (inl e, st)
                | inr rnd => (ret tt, append_rnd rnd st)
                end
            end
        end
    end.

(** One turn of the loop: the [try] body and its [except Exception]. *)
Definition expiry_step (self : RNDPipeline) (otm_chain : Pd.DataFrame)
    (quality_metrics : ChainCleaner.QualityDict) (spot_price : R) (trade_dt : Z)
    (st : Locals) (expiry : Z) : Locals :=
  match try_expiry self otm_chain quality_metrics spot_price trade_dt expiry st with
  | (inr _, st') => st'
  | (inl e, st') => append_error (date_str expiry ++ ": " ++ e)%string st'
  end.

(** [for expiry in sorted(otm_chain["expiry"].unique()): ...]. *)
Definition expiry_loop (self : RNDPipeline) (otm_chain : Pd.DataFrame)
    (quality_metrics : ChainCleaner.QualityDict) (spot_price : R) (trade_dt : Z)
    (expiries : list Z) (st : Locals) : Locals :=
  fold_left (expiry_step self otm_chain quality_metrics spot_price trade_dt)
            expiries st.

(** [run(symbol, trade_date, spot_price, save)], the trade date already a
    date. The result of the first [try] is either the result [run] returns
    at once or the chain. *)
Definition run (self : RNDPipeline) (symbol : string) (trade_dt : Z)
    (spot_price : option R) (save : bool) : M RNDPipelineResult :=
  fetched <~ try_except
               (chain <~ get_option_chain symbol trade_dt ;;
                c <~ read chain ;;
                if Pd.empty c then
                  mret (inl (_error_result symbol trade_dt "Empty chain returned"))
                else mret (inr chain))
               (fun e => mret (inl (_error_result symbol trade_dt
                                      ("Failed to fetch chain: " ++ e)%string))) ;;
  match fetched with
  | inl result => mret result
  | inr chain =>
      spot_price <~ match spot_price with
                    | Some v => mret v
                    | None =>
                        v <~ get_spot_price symbol trade_dt ;;
                        match v with
                        | Some v => mret v
                        | None =>
                            _ <~ ChainCleaner.column chain "strike" ;;
                            c <~ read chain ;;
                            mret (median (map Pd.strike (Pd.rows c)))
                        end
                    end ;;
      clean_chain <~ ChainCleaner.clean (cleaner self) chain (Some trade_dt) ;;
      cc <~ read clean_chain ;;
      if Pd.empty cc then
        mret (_error_result symbol trade_dt "No valid options after cleaning")
      else
        built <~ ChainCleaner.build_otm_chain clean_chain spot_price (r self) true ;;
        match built with
        | (_, None) => mraise "too many values to unpack (expected 2)"
        | (otm_chain, Some quality_metrics) =>
            otm <~ read otm_chain ;;
            if Pd.empty otm then
              mret (_error_result symbol trade_dt "No valid OTM options")
            else
              _ <~ ChainCleaner.column otm_chain "expiry" ;;
              let st := expiry_loop self otm quality_metrics spot_price trade_dt
                          (Py.sorted (Pd.unique (map Pd.expiry (Pd.rows otm))))
                          (mkLocals [] [] []) in
              match loc_rnd_results st with
              | [] => mret (_error_result symbol trade_dt "No RNDs extracted")
              | _ :: _ =>
                  _ <~ (if save
                        then save_chain clean_chain symbol trade_dt "processed"
                        else mret tt) ;;
                  mret (mkResult symbol trade_dt (loc_rnd_results st)
                          (loc_smoothing_results st)
                          (length (loc_rnd_results st)) true (loc_errors st))
              end
        end
  end.

End Run.

End Pipeline.

(** ** data_sources/base_client.py *)

Module BaseClient.

(** [repr] of a list of strings. *)
Definition py_repr_list (l : list string) : string :=
  ("[" ++ String.concat ", " (map (fun c => "'" ++ c ++ "'") l) ++ "]")%string.

Definition required : list string := ["expiry"; "strike"; "right"; "bid"; "ask"].

(** [validate_chain(df)]. *)
Definition validate_chain (df : Pd.DataFrame) : Exc bool :=
  let missing := filter (fun col => negb (Pd.has_col col df)) required in
  match missing with
  | [] => ret true
  | _ :: _ =>
      raise ("Chain missing required columns: " ++ py_repr_list missing)%string
  end.

End BaseClient.

(** ** Notions used in the statements *)

(** The sum of an array, and the uniform grid [x0, x0 + dx, ...] of [n]
    points starting at index [s]. *)
Definition Rsum (l : list R) : R := fold_right Rplus 0 l.

Definition uniform_grid (x0 dx : R) (s n : nat) : list R :=
  map (fun j => x0 + INR j * dx) (seq s n).

(** Every object of [h0] is still in [h], unchanged, at the same
    reference. *)
Definition extends (h0 h : Mem.Heap) : Prop := exists ext, h = h0 ++ ext.

(** [r] is the newest object of [h], allocated after [h0], and its frame
    satisfies [P]. *)
Definition newest (h0 : Mem.Heap) (P : Pd.DataFrame -> Prop) (r : Mem.ref)
    (h : Mem.Heap) : Prop :=
  exists ext df, h = (h0 ++ ext) ++ [df] /\ r = length (h0 ++ ext) /\ P df.

(** A Hoare triple for a computation on the heap: from a heap satisfying
    [Pre], a normal return satisfies [Post] and a raise leaves a heap
    satisfying [Exn]. *)
Definition triple {A : Type} (Pre : Mem.Heap -> Prop) (m : Mem.M A)
    (Post : A -> Mem.Heap -> Prop) (Exn : Mem.Heap -> Prop) : Prop :=
  forall h, Pre h ->
    match m h with
    | (inr a, h') => Post a h'
    | (inl _, h') => Exn h'
    end.

(** The frame [build_otm_chain] works on: the copy of the chain, with the
    [mid] column computed when the chain has none. *)
Definition with_mid (c : Pd.DataFrame) : Pd.DataFrame :=
  if Pd.has_col "mid" c then c else Pd.assign "mid" ChainCleaner.compute_mid c.

(** The rows of a frame at one (expiry, strike). *)
Definition rows_at (e : Z) (K : R) (rows : list Pd.Row) : list Pd.Row :=
  filter (fun row => Z.eqb (Pd.expiry row) e && Reqb (Pd.strike row) K) rows.

(** The synthetic call that put-call parity derives from the put [p], and
    the puts of an expiry that give one at strike [K]. *)
Definition synthetic_call (e : Z) (spot r T : R) (p : Pd.Row) : Pd.Row :=
  ChainCleaner.otm_record e (Pd.strike p)
    (Pd.mid p + spot - Pd.strike p * exp (- r * T)) "put_synthetic".

Definition gives_synthetic_at (spot r T K : R) (q : Pd.Row) : bool :=
  String.eqb (Pd.right q) "P" && Rltb (Pd.strike q) spot
  && Rltb 0 (Pd.mid q + spot - Pd.strike q * exp (- r * T))
  && Reqb (Pd.strike q) K.

(** What one expiry adds to [rnd_results] and to [errors], from the turn
    of the loop run on empty local variables. *)
Definition expiry_contribution
    (make_spline : list R -> list R -> R -> Exc Smoothing.UnivariateSpline)
    (date_str : Z -> string) (self : Pipeline.RNDPipeline) (otm_chain : Pd.DataFrame)
    (quality_metrics : ChainCleaner.QualityDict) (spot_price : R) (trade_dt : Z)
    (expiry : Z) : list RndExtractor.RNDResult * list string :=
  let st := Pipeline.expiry_step make_spline date_str self otm_chain quality_metrics
              spot_price trade_dt (Pipeline.mkLocals [] [] []) expiry in
  (Pipeline.loc_rnd_results st, Pipeline.loc_errors st).

(** The tests of [clean] on one row: a valid quote, enough volume and open
    interest, a tight enough spread (each of the last three only when its
    threshold is positive), and days to expiry within the range. *)
Definition quote_ok (q : Pd.Row) : bool :=
  Rleb (Pd.bid q) (Pd.ask q) && Rleb 0 (Pd.bid q) && Rltb 0 (Pd.ask q).

Definition spread_ok (self : ChainCleaner.ChainCleaner) (q : Pd.Row) : bool :=
  if Reqb (Pd.mid q) 0 then false
  else Rleb ((Pd.ask q - Pd.bid q) / Pd.mid q) (ChainCleaner.max_spread_pct self).

Definition passes (self : ChainCleaner.ChainCleaner) (q : Pd.Row) : bool :=
  quote_ok q
  && (negb (0 <? ChainCleaner.min_volume self)%Z
      || (ChainCleaner.min_volume self <=? Pd.volume q)%Z)
  && (negb (0 <? ChainCleaner.min_oi self)%Z
      || (ChainCleaner.min_oi self <=? Pd.open_interest q)%Z)
  && (negb (Rltb 0 (ChainCleaner.max_spread_pct self)) || spread_ok self q).

Definition dte_ok (self : ChainCleaner.ChainCleaner) (q : Pd.Row) : bool :=
  (ChainCleaner.min_dte self <=? Pd.dte q)%Z
  && (Pd.dte q <=? ChainCleaner.max_dte self)%Z.

(** The frame [clean] returns for a non-empty chain [c]: the rows of [c],
    in their order, with [mid] filled in when the column is missing, that
    pass the tests; with a trade date and an [expiry] column, [dte] is the
    number of days from the trade date to the expiry. *)
Definition cleaned (self : ChainCleaner.ChainCleaner) (trade_date : option Z)
    (c : Pd.DataFrame) : Pd.DataFrame :=
  let kept := Pd.filter_rows (passes self) (with_mid c) in
  match trade_date with
  | Some today =>
      if Pd.has_col "expiry" c then
        Pd.filter_rows (dte_ok self)
          (Pd.assign "dte" (fun q => Pd.set_dte (Pd.expiry q - today) q) kept)
      else kept
  | None => kept
  end.

(** ** Sample inputs *)

Module Samples.

(** Two OTM rows, one call and one synthetic put, two points apart. *)
Definition narrow_gap_metrics : ChainQuality.ChainQualityMetrics :=
  ChainQuality.mkMetrics 2 2 2 1 1 [99; 101] 100.

(** Thirty-two OTM rows one point apart around a spot of 44.5: sixteen
    synthetic puts below the spot and sixteen calls above. *)
Definition dense_chain_metrics : ChainQuality.ChainQualityMetrics :=
  ChainQuality.mkMetrics 32 32 32 16 16
    [29; 30; 31; 32; 33; 34; 35; 36; 37; 38; 39; 40; 41; 42; 43; 44; 45; 46; 47; 48; 49; 50; 51; 52; 53; 54; 55; 56; 57; 58; 59; 60]
    (89 / 2).

(** Two expiries, 30 and 60 days out, on the strike grid [1, 2]. *)
Definition rnd_30d : RndExtractor.RNDResult :=
  RndExtractor.mkRND [1; 2] [1; 1] 30 (30 / 365) (3 / 2) 0 0 0 0 None.

Definition rnd_60d : RndExtractor.RNDResult :=
  RndExtractor.mkRND [1; 2] [2; 2] 60 (60 / 365) (3 / 2) 0 0 0 0 None.

(** A normalised density on the grid [0..4] with most of its mass at the
    left edge. *)
Definition left_heavy_rnd : RndExtractor.RNDResult :=
  RndExtractor.mkRND [0; 1; 2; 3; 4]
                     [32 / 23; 2 / 23; 2 / 23; 2 / 23; 2 / 23]
                     30 (30 / 365) 2 0 0 0 0 None.

(** A triangular density on the grid [0, 1, 2]. *)
Definition triangle_rnd : RndExtractor.RNDResult :=
  RndExtractor.mkRND (uniform_grid 0 1 0 3) [0; 1; 0] 30 (30 / 365) 1 0 0 0 0 None.

(** A cleaned chain with one expiry, 30 days out: a call and a put at the
    strike 99.5, inside the ATM band of a spot of 100. *)
Definition atm_call : Pd.Row := Pd.mkRow 30 (995 / 10) "C" 2 4 50 500 3 30 "".
Definition atm_put : Pd.Row := Pd.mkRow 30 (995 / 10) "P" 1 3 50 500 2 30 "".

Definition atm_chain : Pd.DataFrame :=
  Pd.mkDF ["expiry"; "strike"; "right"; "bid"; "ask"; "volume"; "open_interest";
           "mid"; "dte"]
          [atm_call; atm_put].

(** The same quotes as the data client delivers them, before [clean]. *)
Definition raw_chain : Pd.DataFrame :=
  Pd.mkDF ["expiry"; "strike"; "right"; "bid"; "ask"; "volume"; "open_interest"]
          [atm_call; atm_put].

(** A data client whose chain for every symbol and date is an empty frame,
    a spot price service without quotes, a spline fit that always fails and
    a file store that refuses every write. *)
Definition empty_chain : Pd.DataFrame :=
  Pd.mkDF ["expiry"; "strike"; "right"; "bid"; "ask"; "volume"; "open_interest"] [].

Definition empty_client (symbol : string) (trade_dt : Z) : Mem.M Mem.ref :=
  Mem.alloc empty_chain.

Definition no_spot (symbol : string) (trade_dt : Z) : Mem.M (option R) :=
  Mem.mret None.

Definition no_spline (x y : list R) (s : R) : Exc Smoothing.UnivariateSpline :=
  raise "fit failed".

Definition read_only_store (df : Mem.ref) (symbol : string) (trade_dt : Z)
    (stage : string) : Mem.M unit :=
  Mem.mraise "Read-only file system".

Definition day_number (d : Z) : string :=
  NilEmpty.string_of_int (Z.to_int d).


(** A quote of a call, 9 bid and 10 asked, and a ladder of ten strikes
    above the ATM band of a spot of 100. *)
Definition call_quote (e : Z) (K : R) : Pd.Row := Pd.mkRow e K "C" 9 10 50 500 0 0 "".

Definition ladder : list R := [102; 103; 104; 105; 106; 107; 108; 109; 110; 111].

(** The chain of a client with three expiries, the latest first: ten calls
    on the ladder 100 days out, ten quotes of the one strike 105 at 70 days,
    and ten calls on the ladder at 40 days. *)
Definition three_expiry_chain : Pd.DataFrame :=
  Pd.mkDF ["expiry"; "strike"; "right"; "bid"; "ask"; "volume"; "open_interest"]
          (map (call_quote 19100) ladder
           ++ map (call_quote 19070) (repeat 105 10)
           ++ map (call_quote 19040) ladder).

Definition three_expiry_client (symbol : string) (trade_dt : Z) : Mem.M Mem.ref :=
  Mem.alloc three_expiry_chain.

(** A spline fit that returns the constant price 1, with derivatives. *)
Definition constant_spline (x y : list R) (s : R) : Exc Smoothing.UnivariateSpline :=
  ret (Smoothing.mkSpline (fun _ => 1) (fun _ => Some (fun _ => 0))).

(** The rows of [clean] on the sample chain: every quote, with its mid
    price and its days to expiry. *)
Definition cleaned_quotes : list Pd.Row :=
  map (fun q => Pd.set_dte (Pd.expiry q - 19000) (ChainCleaner.compute_mid q))
      (Pd.rows three_expiry_chain).

(** The OTM records of an expiry of the sample. *)
Definition otm_group (e : Z) : list Pd.Row :=
  map (fun row => ChainCleaner.otm_record e (Pd.strike row) (Pd.mid row) "call")
      (filter (fun q => Z.eqb (Pd.expiry q) e) cleaned_quotes).

End Samples.

(** * Properties *)

(** ** Deciding float comparisons *)

Lemma Rltb_true (a b : R) : a < b -> Rltb a b = true.
Proof. intro H. unfold Rltb. destruct (Rlt_dec a b); [reflexivity | contradiction]. Qed.

Lemma Rltb_false (a b : R) : ~ a < b -> Rltb a b = false.
Proof. intro H. unfold Rltb. destruct (Rlt_dec a b); [contradiction | reflexivity]. Qed.

Lemma Rleb_true (a b : R) : a <= b -> Rleb a b = true.
Proof. intro H. unfold Rleb. destruct (Rle_dec a b); [reflexivity | contradiction]. Qed.

Lemma Rleb_false (a b : R) : ~ a <= b -> Rleb a b = false.
Proof. intro H. unfold Rleb. destruct (Rle_dec a b); [contradiction | reflexivity]. Qed.

Lemma Reqb_true (a b : R) : a = b -> Reqb a b = true.
Proof. intro H. unfold Reqb. destruct (Req_dec_T a b); [reflexivity | contradiction]. Qed.

Lemma Reqb_false (a b : R) : a <> b -> Reqb a b = false.
Proof. intro H. unfold Reqb. destruct (Req_dec_T a b); [contradiction | reflexivity]. Qed.

Lemma Rltb_spec (a b : R) : Rltb a b = true <-> a < b.
Proof. unfold Rltb. destruct (Rlt_dec a b); split; intros; try easy. Qed.

Lemma Rleb_spec (a b : R) : Rleb a b = true <-> a <= b.
Proof. unfold Rleb. destruct (Rle_dec a b); split; intros; try easy. Qed.

Lemma Reqb_spec (a b : R) : Reqb a b = true <-> a = b.
Proof. unfold Reqb. destruct (Req_dec_T a b); split; intros; try easy. Qed.

(** Settles every comparison of the goal whose outcome [lra] can decide. *)
Ltac rdecide :=
  repeat match goal with
  | |- context [Rltb ?a ?b] =>
      first [ rewrite (Rltb_true a b) by lra | rewrite (Rltb_false a b) by lra ]
  | |- context [Rleb ?a ?b] =>
      first [ rewrite (Rleb_true a b) by lra | rewrite (Rleb_false a b) by lra ]
  | |- context [Reqb ?a ?b] =>
      first [ rewrite (Reqb_true a b) by lra | rewrite (Reqb_false a b) by lra ]
  end.

(** Evaluates a closed term: list and string computation by [cbn], float
    comparisons by [rdecide]. *)
Ltac reval :=
  repeat first
    [ progress rdecide
    | progress cbn -[Rltb Rleb Reqb Rdiv Rmult Rplus Rminus Ropp Rinv IZR INR
                     ln exp sqrt Rmax Rmin pow] ].

(** Turns [INR] of a literal into the literal. *)
Ltac rnum :=
  repeat match goal with
  | |- context [INR ?n] =>
      let z := eval vm_compute in (Z.of_nat n) in
      replace (INR n) with (IZR z) by (rewrite INR_IZR_INZ; reflexivity)
  end.

(** Settles every [Rmin] and [Rmax] whose sides [lra] can compare. *)
Ltac rminmax :=
  repeat match goal with
  | |- context [Rmin ?a ?b] =>
      first [ rewrite (Rmin_left a b) by lra | rewrite (Rmin_right a b) by lra ]
  | |- context [Rmax ?a ?b] =>
      first [ rewrite (Rmax_left a b) by lra | rewrite (Rmax_right a b) by lra ]
  end.

(** ** [probability_below] *)

Section ProbabilityBelow.

Import RndExtractor.

Lemma mask_all_false (ks : list R) (K : R) :
  Forall (fun k => K < k) ks ->
  Np.any (map (fun k => Rleb k K) ks) = false.
Proof.
  induction 1 as [|k ks Hk _ IH]; simpl; [reflexivity|].
  rewrite Rleb_false by lra. exact IH.
Qed.

Lemma select_prefix {A : Type} (xs1 xs2 : list R) (a1 a2 : list A) (K : R) :
  length a1 = length xs1 ->
  Forall (fun k => k <= K) xs1 ->
  Forall (fun k => K < k) xs2 ->
  Np.select (map (fun k => Rleb k K) (xs1 ++ xs2)) (a1 ++ a2) = a1.
Proof.
  intros Hlen H1 H2. revert a1 Hlen.
  induction H1 as [|k xs1 Hk _ IH]; intros a1 Hlen.
  - destruct a1; [|discriminate]. simpl.
    revert a2. induction H2 as [|k xs2 Hk _ IH2]; intros a2; simpl.
    + reflexivity.
    + destruct a2; [reflexivity|]. rewrite Rleb_false by lra. apply IH2.
  - destruct a1 as [|v a1]; [discriminate|]. simpl.
    rewrite Rleb_true by lra. f_equal. apply IH. simpl in Hlen. lia.
Qed.

Lemma any_prefix (k : R) (xs : list R) (K : R) :
  k <= K -> Np.any (map (fun k => Rleb k K) (k :: xs)) = true.
Proof. intro H. simpl. rewrite Rleb_true by lra. reflexivity. Qed.

Lemma probability_below_split (res : RNDResult) (xs1 xs2 fs1 fs2 : list R) (K : R) :
  strikes res = xs1 ++ xs2 ->
  density res = fs1 ++ fs2 ->
  length fs1 = length xs1 ->
  xs1 <> [] ->
  Forall (fun k => k <= K) xs1 ->
  Forall (fun k => K < k) xs2 ->
  probability_below res K = Np.trapz fs1 xs1.
Proof.
  intros Es Ed Hl Hne H1 H2. unfold probability_below. rewrite Es, Ed.
  rewrite (select_prefix _ _ _ _ K Hl H1 H2).
  rewrite (select_prefix _ _ _ _ K eq_refl H1 H2).
  destruct xs1 as [|k xs1]; [contradiction|].
  inversion H1; subst. cbn [app]. rewrite any_prefix by assumption.
  reflexivity.
Qed.

Lemma sorted_nth_le (l : list R) :
  StronglySorted Rle l ->
  forall i j, (i <= j)%nat -> (j < length l)%nat -> nth i l 0 <= nth j l 0.
Proof.
  induction 1 as [|a l Hs IH Ha]; intros i j Hij Hj; simpl in Hj; [lia|].
  destruct j as [|j].
  - replace i with 0%nat by lia. simpl. lra.
  - destruct i as [|i]; simpl.
    + rewrite Forall_forall in Ha. apply Ha. apply nth_In. lia.
    + apply IH; lia.
Qed.

(** C10. Below the smallest grid strike the mask is empty and
    [probability_below] returns 0 (so [probability_above] returns 1); on an
    increasing grid, for [x_j <= K] and [K] below every later grid strike,
    [probability_below K] is the trapezoid sum over the grid points up to
    [x_j] only, which is also [probability_below x_j]. *)
Theorem probability_below_prefix (res : RNDResult) (K : R) :
  (Forall (fun k => K < k) (strikes res) ->
     probability_below res K = 0 /\ probability_above res K = 1)
  /\
  (forall j : nat,
     length (density res) = length (strikes res) ->
     StronglySorted Rle (strikes res) ->
     (j < length (strikes res))%nat ->
     nth j (strikes res) 0 <= K ->
     (forall i, (j < i < length (strikes res))%nat -> K < nth i (strikes res) 0) ->
     probability_below res K
       = Np.trapz (firstn (S j) (density res)) (firstn (S j) (strikes res))
     /\ probability_below res K = probability_below res (nth j (strikes res) 0)).
Proof.
  split.
  - intro Hall. unfold probability_above, probability_below.
    rewrite (mask_all_false _ _ Hall). simpl. split; lra.
  - intros j Hlen Hs Hj Hle Hgt.
    assert (Hpre : forall K',
               nth j (strikes res) 0 <= K' ->
               (forall i, (j < i < length (strikes res))%nat ->
                          K' < nth i (strikes res) 0) ->
               probability_below res K'
               = Np.trapz (firstn (S j) (density res)) (firstn (S j) (strikes res))).
    { intros K' Hle' Hgt'. unfold probability_below.
      assert (H1 : Forall (fun k => k <= K') (firstn (S j) (strikes res))).
      { apply Forall_nth. intros i d Hi. rewrite length_firstn in Hi.
        rewrite nth_firstn. replace (i <? S j)%nat with true
          by (symmetry; apply Nat.ltb_lt; lia).
        rewrite (nth_indep _ d 0) by lia.
        apply Rle_trans with (nth j (strikes res) 0); [|exact Hle'].
        apply sorted_nth_le; [exact Hs | lia | exact Hj]. }
      assert (H2 : Forall (fun k => K' < k) (skipn (S j) (strikes res))).
      { apply Forall_nth. intros i d Hi. rewrite length_skipn in Hi.
        rewrite nth_skipn. rewrite (nth_indep _ d 0) by lia.
        apply Hgt'. lia. }
      apply (probability_below_split res _ (skipn (S j) (strikes res))
                                         _ (skipn (S j) (density res)));
        try assumption.
      - symmetry; apply firstn_skipn.
      - symmetry; apply firstn_skipn.
      - rewrite !length_firstn. lia.
      - destruct (strikes res); [simpl in Hj; lia | discriminate]. }
    split.
    + apply Hpre; assumption.
    + rewrite (Hpre K Hle Hgt). symmetry. apply Hpre; [lra|].
      intros i Hi. destruct (Rle_lt_or_eq_dec _ _ Hle) as [Hlt|Heq].
      * specialize (Hgt i Hi). lra.
      * rewrite Heq. apply Hgt. exact Hi.
Qed.

End ProbabilityBelow.

Lemma probability_below_prefix_witness :
  let res := RndExtractor.mkRND [1; 2; 3] [1 / 2; 1 / 2; 1 / 2] 30 1 2 0 0 0 0 None in
  (RndExtractor.probability_below res 0 = 0 /\ RndExtractor.probability_above res 0 = 1)
  /\ RndExtractor.probability_below res (5 / 2) = Np.trapz [1 / 2; 1 / 2] [1; 2].
Proof.
  intro res. split.
  - apply (proj1 (probability_below_prefix res 0)).
    repeat constructor; simpl; lra.
  - apply (proj2 (probability_below_prefix res (5 / 2)) 1%nat).
    + reflexivity.
    + repeat constructor; simpl; lra.
    + simpl. lia.
    + simpl. lra.
    + intros i Hi. simpl in Hi. assert (i = 2%nat) by lia. subst i. simpl. lra.
Defined.

(** ** Trapezoid sums *)

Section Trapz.

Lemma trapz_scale (c : R) (y x : list R) :
  Np.trapz (map (fun v => v * c) y) x = c * Np.trapz y x.
Proof.
  revert x. induction y as [|y0 y IH]; intros x; simpl; [lra|].
  destruct y as [|y1 y]; simpl; [lra|].
  destruct x as [|x0 [|x1 x]]; try lra.
  specialize (IH (x1 :: x)). simpl in IH. rewrite IH. lra.
Qed.

Lemma trapz_nonneg (y x : list R) :
  Forall (fun v => 0 < v) y -> Sorted Rlt x -> 0 <= Np.trapz y x.
Proof.
  intros Hy. revert x. induction Hy as [|y0 y H0 Hy IH]; intros x Hx; simpl; [lra|].
  destruct y as [|y1 y]; [lra|]. destruct x as [|x0 [|x1 x]]; try lra.
  inversion Hx as [|? ? Hs Hh]; subst. inversion Hh; subst.
  inversion Hy; subst. specialize (IH (x1 :: x) Hs).
  change (0 <= (x1 - x0) * (y1 + y0) / 2 + Np.trapz (y1 :: y) (x1 :: x)).
  assert (0 < (x1 - x0) * (y1 + y0)) by (apply Rmult_lt_0_compat; lra). lra.
Qed.

Lemma trapz_pos (y0 y1 x0 x1 : R) (y x : list R) :
  Forall (fun v => 0 < v) (y0 :: y1 :: y) -> Sorted Rlt (x0 :: x1 :: x) ->
  0 < Np.trapz (y0 :: y1 :: y) (x0 :: x1 :: x).
Proof.
  intros Hy Hx. inversion Hy as [|? ? H0 Hy']; subst.
  inversion Hx as [|? ? Hs Hh]; subst. inversion Hh; subst.
  pose proof (trapz_nonneg _ _ Hy' Hs) as Hn. inversion Hy'; subst.
  change (0 < (x1 - x0) * (y1 + y0) / 2 + Np.trapz (y1 :: y) (x1 :: x)).
  assert (0 < (x1 - x0) * (y1 + y0)) by (apply Rmult_lt_0_compat; lra). lra.
Qed.

Lemma linspace_from_sorted (a h : R) (n s : nat) :
  0 < h -> Sorted Rlt (map (fun i => a + INR i * h) (seq s n)).
Proof.
  intro Hh. revert s. induction n as [|n IH]; intro s; cbn [seq map]; [constructor|].
  constructor; [apply IH|].
  destruct n; cbn [seq map]; constructor. rewrite S_INR. lra.
Qed.

Lemma linspace_sorted (a b : R) (n : nat) :
  a < b -> Sorted Rlt (Np.linspace a b n).
Proof.
  intro Hab. unfold Np.linspace. destruct n as [|[|d]].
  - constructor.
  - repeat constructor.
  - apply linspace_from_sorted. apply Rdiv_lt_0_compat; [lra|].
    apply lt_0_INR. lia.
Qed.

Lemma linspace_length (a b : R) (n : nat) : length (Np.linspace a b n) = n.
Proof.
  unfold Np.linspace. destruct n as [|[|d]]; try reflexivity.
  rewrite length_map, length_seq. reflexivity.
Qed.

End Trapz.

(** ** [normalize_density] and [RNDExtractor] *)

Section Extractor.

Import RndExtractor.

Lemma maximum_pos (d : list R) :
  Forall (fun v => 0 < v) (Np.maximum d MathUtils.min_value).
Proof.
  unfold Np.maximum. apply Forall_forall. intros v Hv.
  apply in_map_iff in Hv. destruct Hv as [u [<- _]].
  apply Rlt_le_trans with MathUtils.min_value; [|apply Rmax_r].
  unfold MathUtils.min_value. lra.
Qed.

Lemma normalize_density_length (d x : list R) :
  length (MathUtils.normalize_density d x) = length d.
Proof.
  unfold MathUtils.normalize_density, Np.maximum.
  destruct (Rltb 0 _); rewrite !length_map; reflexivity.
Qed.

(** On an increasing grid of at least two points the clipped density has a
    positive trapezoid sum, so the division branch is taken and the result
    integrates to one. *)
Lemma normalize_density_unit (d x : list R) :
  length d = length x -> (2 <= length x)%nat -> Sorted Rlt x ->
  Forall (fun v => 0 < v) (MathUtils.normalize_density d x)
  /\ Np.trapz (MathUtils.normalize_density d x) x = 1.
Proof.
  intros Hlen Hn Hx. unfold MathUtils.normalize_density.
  pose proof (maximum_pos d) as Hpos.
  assert (Hl : length (Np.maximum d MathUtils.min_value) = length x)
    by (unfold Np.maximum; rewrite length_map; exact Hlen).
  set (c := Np.maximum d MathUtils.min_value) in *.
  assert (HI : 0 < Np.trapz c x).
  { destruct x as [|x0 [|x1 x]]; simpl in Hn; try lia.
    destruct c as [|c0 [|c1 c]]; simpl in Hl; try lia.
    apply trapz_pos; assumption. }
  rewrite (Rltb_true _ _ HI). split.
  - apply Forall_forall. intros v Hv. apply in_map_iff in Hv.
    destruct Hv as [u [<- Hu]]. rewrite Forall_forall in Hpos.
    apply Rdiv_lt_0_compat; [apply Hpos; exact Hu | exact HI].
  - unfold Rdiv. rewrite trapz_scale. field. lra.
Qed.

Lemma nth_map_in (f : R -> R) (l : list R) (i : nat) :
  (i < length l)%nat -> nth i (map f l) 0 = f (nth i l 0).
Proof.
  revert i. induction l as [|a l IH]; intros i Hi; simpl in Hi; [lia|].
  destruct i; simpl; [reflexivity | apply IH; lia].
Qed.

Lemma second_diffs_length (p : list R) :
  length (MathUtils.second_diffs p) = (length p - 2)%nat.
Proof.
  induction p as [|a p IH]; [reflexivity|].
  destruct p as [|b [|c p]]; try reflexivity.
  change (S (length (MathUtils.second_diffs (b :: c :: p)))
          = (length (a :: b :: c :: p) - 2)%nat).
  rewrite IH. simpl. lia.
Qed.

Lemma second_diffs_nth (p : list R) (i : nat) :
  (i + 2 < length p)%nat ->
  nth i (MathUtils.second_diffs p) 0
  = nth (i + 2) p 0 - 2 * nth (i + 1) p 0 + nth i p 0.
Proof.
  revert i. induction p as [|a p IH]; intros i Hi; [simpl in Hi; lia|].
  destruct p as [|b [|c p]]; try (simpl in Hi; lia).
  change (MathUtils.second_diffs (a :: b :: c :: p))
    with ((c - 2 * b + a) :: MathUtils.second_diffs (b :: c :: p)).
  destruct i as [|i]; [reflexivity|].
  change (nth i (MathUtils.second_diffs (b :: c :: p)) 0
          = nth (i + 2) (b :: c :: p) 0 - 2 * nth (i + 1) (b :: c :: p) 0
            + nth i (b :: c :: p) 0).
  apply IH. simpl in Hi |- *. lia.
Qed.

(** What [_finite_diff_2nd] returns on at least three prices: the centred
    second difference with step [strikes[1] - strikes[0]] at the interior
    cells, and at each end the value of the neighbouring interior cell. *)
Lemma finite_diff_2nd_spec (C : list R -> list R) (k0 k1 p0 p1 p2 : R)
    (ks ps : list R) :
  let strikes := k0 :: k1 :: ks in
  let prices := p0 :: p1 :: p2 :: ps in
  C strikes = prices ->
  exists d2C,
    _finite_diff_2nd C strikes = inr d2C
    /\ length d2C = length prices
    /\ (forall i, (1 <= i)%nat -> (i + 1 < length prices)%nat ->
          nth i d2C 0
          = (nth (i + 1) prices 0 - 2 * nth i prices 0 + nth (i - 1) prices 0)
            / (k1 - k0) ^ 2)
    /\ nth 0 d2C 0 = nth 1 d2C 0
    /\ nth (length prices - 1) d2C 0 = nth (length prices - 2) d2C 0.
Proof.
  intros strikes prices HC. unfold _finite_diff_2nd. fold strikes. cbv zeta.
  rewrite HC. unfold prices at 1. fold prices.
  pose proof (second_diffs_length prices) as Hsl.
  pose proof (second_diffs_nth prices) as Hsn.
  set (dK := k1 - k0).
  set (inner := map (fun v => v / dK ^ 2) (MathUtils.second_diffs prices)).
  assert (Hlp : length prices = S (S (S (length ps)))) by reflexivity.
  assert (Hil : length inner = S (length ps))
    by (unfold inner; rewrite length_map, Hsl, Hlp; lia).
  assert (Hin : forall i, (i + 2 < length prices)%nat ->
                nth i inner 0
                = (nth (i + 2) prices 0 - 2 * nth (i + 1) prices 0 + nth i prices 0)
                  / dK ^ 2).
  { intros i Hi. unfold inner.
    rewrite nth_map_in by lia. rewrite Hsn by exact Hi. reflexivity. }
  exists ((p2 - 2 * p1 + p0) / dK ^ 2 :: inner ++ [last inner 0]).
  assert (H0 : nth 0 inner 0 = (p2 - 2 * p1 + p0) / dK ^ 2)
    by (rewrite Hin by lia; reflexivity).
  split; [reflexivity|]. split; [|split; [|split]].
  - cbn [length]. rewrite length_app, Hil. simpl. lia.
  - intros i Hi1 Hi2. destruct i as [|i]; [lia|].
    cbn [nth]. rewrite app_nth1 by lia.
    rewrite Hin by lia.
    replace (i + 2)%nat with (S i + 1)%nat by lia.
    replace (i + 1)%nat with (S i) by lia.
    replace (S i - 1)%nat with i by lia. reflexivity.
  - cbn [nth]. rewrite app_nth1 by lia. symmetry. exact H0.
  - rewrite Hlp.
    replace (S (S (S (length ps))) - 1)%nat with (S (S (length ps))) by lia.
    replace (S (S (S (length ps))) - 2)%nat with (S (length ps)) by lia.
    cbn [nth]. rewrite app_nth2 by lia. rewrite app_nth1 by lia.
    rewrite Hil. replace (S (length ps) - S (length ps))%nat with 0%nat by lia.
    cbn [nth].
    assert (Hne : inner <> []) by (intro E; rewrite E in Hil; simpl in Hil; lia).
    destruct (exists_last Hne) as [l' [a E]]. rewrite E.
    rewrite last_last.
    assert (Hl' : length l' = length ps).
    { rewrite E, length_app in Hil. simpl in Hil. lia. }
    rewrite app_nth2 by lia. replace (length ps - length l')%nat with 0%nat by lia.
    reflexivity.
Qed.

(** C2. Before normalisation the density at each grid strike [K] is
    [e^(rT) * (C''(log K) - C'(log K)) / K^2] when the smoothing result keeps a
    spline handle whose first and second derivatives are available; with no
    handle, or when taking a derivative raises, it is [e^(rT)] times the
    centred second difference of [C] over the grid with step
    [strikes[1] - strikes[0]] (end cells repeat their interior neighbour).
    Either array is then passed through [normalize_density]. *)
Theorem compute_density_breeden_litzenberger (self : RNDExtractor)
    (C : list R -> list R) (strikes : list R) (T : R)
    (smooth_result : option Smoothing.SmoothingResult) :
  0 < T ->
  (forall sr spl d1 d2,
     smooth_result = Some sr ->
     Smoothing.spline sr = Some spl ->
     Smoothing.sp_derivative spl 1 = Some d1 ->
     Smoothing.sp_derivative spl 2 = Some d2 ->
     _compute_density self C strikes T smooth_result
     = inr (MathUtils.normalize_density
              (map (fun K => exp (r self * T) * (d2 (ln K) - d1 (ln K)) / K ^ 2)
                   strikes)
              strikes))
  /\
  (match smooth_result with
   | None => True
   | Some sr =>
       match Smoothing.spline sr with
       | None => True
       | Some spl => Smoothing.sp_derivative spl 1 = None
                     \/ Smoothing.sp_derivative spl 2 = None
       end
   end ->
   forall k0 k1 ks p0 p1 p2 ps,
     strikes = k0 :: k1 :: ks ->
     C strikes = p0 :: p1 :: p2 :: ps ->
     exists d2C,
       _compute_density self C strikes T smooth_result
       = inr (MathUtils.normalize_density
                (map (fun v => exp (r self * T) * v) d2C) strikes)
       /\ length d2C = length (C strikes)
       /\ (forall i, (1 <= i)%nat -> (i + 1 < length (C strikes))%nat ->
             nth i d2C 0
             = (nth (i + 1) (C strikes) 0 - 2 * nth i (C strikes) 0
                + nth (i - 1) (C strikes) 0) / (k1 - k0) ^ 2)
       /\ nth 0 d2C 0 = nth 1 d2C 0
       /\ nth (length (C strikes) - 1) d2C 0 = nth (length (C strikes) - 2) d2C 0).
Proof.
  intros _. split.
  - intros sr spl d1 d2 -> Hs H1 H2. unfold _compute_density, d2C_dK2.
    rewrite Hs, H1, H2. cbn [bind ret]. rewrite map_map. unfold ret.
    do 2 f_equal. apply map_ext. intro K. unfold Rdiv. ring.
  - intros Hno k0 k1 ks p0 p1 p2 ps Ek Ep.
    assert (Hfd : d2C_dK2 C strikes smooth_result = _finite_diff_2nd C strikes).
    { unfold d2C_dK2. destruct smooth_result as [sr|]; [|reflexivity].
      destruct (Smoothing.spline sr) as [spl|]; [|reflexivity].
      destruct Hno as [-> | ->]; [reflexivity|].
      destruct (Smoothing.sp_derivative spl 1); reflexivity. }
    subst strikes.
    destruct (finite_diff_2nd_spec C k0 k1 p0 p1 p2 ks ps Ep)
      as [d2C [Hd [Hl [Hi [H0 Hn]]]]].
    exists d2C. unfold _compute_density. rewrite Hfd, Hd. cbn [bind ret].
    rewrite Ep. repeat split; assumption.
Qed.

Lemma compute_density_breeden_litzenberger_witness :
  let spl := Smoothing.mkSpline (fun x => x)
               (fun n => match n with
                         | 1%nat => Some (fun _ => 1)
                         | _ => Some (fun _ => 0)
                         end) in
  let C := map (fun K : R => 3 - K) in
  let sr := Smoothing.mkSmoothingResult [1; 2; 3] [2; 1; 0] C 2 1 3 (Some spl) in
  0 < 30 / 365
  /\ _compute_density default_extractor C [1; 2; 3] (30 / 365) (Some sr)
     = inr (MathUtils.normalize_density
              (map (fun K => exp (5 / 100 * (30 / 365)) * (0 - 1) / K ^ 2) [1; 2; 3])
              [1; 2; 3]).
Proof.
  intros spl C sr. split; [lra|].
  refine (proj1 (compute_density_breeden_litzenberger default_extractor C [1; 2; 3]
                   (30 / 365) (Some sr) _) sr spl (fun _ => 1) (fun _ => 0)
                eq_refl eq_refl eq_refl eq_refl).
  lra.
Defined.

Lemma d2C_dK2_returns (C : list R -> list R) (strikes : list R)
    (smooth_result : option Smoothing.SmoothingResult) :
  (3 <= length strikes)%nat ->
  length (C strikes) = length strikes ->
  exists d2C, d2C_dK2 C strikes smooth_result = inr d2C
              /\ length d2C = length strikes.
Proof.
  intros Hn HC.
  assert (Hfd : exists d2C, _finite_diff_2nd C strikes = inr d2C
                            /\ length d2C = length strikes).
  { destruct strikes as [|k0 [|k1 ks]] eqn:Es; try (simpl in Hn; lia).
    destruct (C (k0 :: k1 :: ks)) as [|p0 [|p1 [|p2 ps]]] eqn:Ep;
      try (simpl in HC, Hn; lia).
    destruct (finite_diff_2nd_spec C k0 k1 p0 p1 p2 ks ps Ep) as [d [Hd [Hl _]]].
    exists d. split; [exact Hd|]. rewrite Hl. exact HC. }
  unfold d2C_dK2. destruct smooth_result as [sr|]; [|exact Hfd].
  destruct (Smoothing.spline sr) as [spl|]; [|exact Hfd].
  destruct (Smoothing.sp_derivative spl 1) as [d1|]; [|exact Hfd].
  destruct (Smoothing.sp_derivative spl 2) as [d2|]; [|exact Hfd].
  eexists. split; [reflexivity|]. apply length_map.
Qed.

(** C1, as the code has it. When the smoothing result has bounds
    [strike_min < strike_max], its callable returns one price per strike
    and the grid has at least three points, [extract] returns for every
    [T > 0]; the density is positive at every grid index and its trapezoid
    integral over the strike grid is exactly 1. The division branch of
    [normalize_density] is the one taken. *)
Theorem extract_density_normalized (date_str : Z -> string) (self : RNDExtractor)
    (sr : Smoothing.SmoothingResult) (expiry trade_date : Z) :
  0 < IZR (expiry - trade_date) / 365 ->
  Smoothing.strike_min sr < Smoothing.strike_max sr ->
  (3 <= num_points self)%nat ->
  length (Smoothing.smooth_fn sr (Smoothing.get_strike_grid sr (num_points self)))
  = num_points self ->
  exists res,
    extract date_str self sr expiry trade_date = inr res
    /\ strikes res = Smoothing.get_strike_grid sr (num_points self)
    /\ length (density res) = length (strikes res)
    /\ Forall (fun f => 0 < f) (density res)
    /\ Np.trapz (density res) (strikes res) = 1.
Proof.
  intros HT Hb Hn HC. unfold extract.
  rewrite Rleb_false by lra.
  set (grid := Smoothing.get_strike_grid sr (num_points self)) in *.
  assert (Hgl : length grid = num_points self) by apply linspace_length.
  assert (Hgs : Sorted Rlt grid) by (apply linspace_sorted; exact Hb).
  destruct (d2C_dK2_returns (Smoothing.smooth_fn sr) grid (Some sr))
    as [d2C [Hd Hl]]; [lia | lia |].
  unfold _compute_density. rewrite Hd. cbn [bind ret].
  set (raw := map (fun v => exp (r self * (IZR (expiry - trade_date) / 365)) * v) d2C).
  assert (Hrl : length raw = length grid)
    by (unfold raw; rewrite length_map; exact Hl).
  destruct (normalize_density_unit raw grid Hrl) as [Hpos Hint]; [lia | exact Hgs |].
  eexists. split; [reflexivity|]. cbn [strikes density].
  repeat split; try assumption.
  rewrite normalize_density_length. exact Hrl.
Qed.

Lemma extract_density_normalized_witness :
  let sr := Smoothing.mkSmoothingResult [1; 3] [2; 0] (map (fun K : R => 3 - K))
              2 1 3 None in
  exists res,
    extract (fun _ => "") (mkExtractor (5 / 100) 3) sr 30 0 = inr res
    /\ strikes res = Np.linspace 1 3 3
    /\ length (density res) = length (strikes res)
    /\ Forall (fun f => 0 < f) (density res)
    /\ Np.trapz (density res) (strikes res) = 1.
Proof.
  intro sr.
  apply (extract_density_normalized (fun _ => "") (mkExtractor (5 / 100) 3) sr 30 0).
  - simpl. lra.
  - simpl. lra.
  - simpl. lia.
  - reflexivity.
Defined.

(** The fallback branch of [normalize_density] is reached when the bounds
    are in descending order, and the uniform density it returns is negative:
    here [-1] at each of the three grid points. *)
Lemma extract_fallback_negative :
  let sr := Smoothing.mkSmoothingResult [2; 1] [0; 0] (map (fun _ : R => 0))
              2 2 1 None in
  exists res,
    extract (fun _ => "") (mkExtractor (5 / 100) 3) sr 30 0 = inr res
    /\ density res = [-1; -1; -1]
    /\ ~ Forall (fun f => 0 <= f) (density res).
Proof.
  intro sr.
  assert (Hg : Smoothing.get_strike_grid sr 3 = [2; 3 / 2; 1]).
  { unfold Smoothing.get_strike_grid, Np.linspace. cbn.
    repeat (f_equal; try lra). }
  assert (Hd : _finite_diff_2nd (map (fun _ : R => 0)) [2; 3 / 2; 1] = inr [0; 0; 0]).
  { unfold _finite_diff_2nd. cbn. unfold ret.
    repeat (f_equal; try (unfold Rdiv; ring)). }
  assert (Hn : MathUtils.normalize_density
                 (map (fun v => exp (5 / 100 * (IZR (30 - 0) / 365)) * v) [0; 0; 0])
                 [2; 3 / 2; 1]
               = [-1; -1; -1]).
  { unfold MathUtils.normalize_density, Np.maximum. cbn [map].
    rewrite Rmult_0_r.
    rewrite (Rmax_right 0 MathUtils.min_value) by (unfold MathUtils.min_value; lra).
    cbn [Np.trapz last hd].
    rewrite Rltb_false by (unfold MathUtils.min_value; lra).
    cbn [map]. repeat (f_equal; try lra). }
  unfold extract. rewrite Rleb_false by (simpl; lra).
  unfold _compute_density, d2C_dK2.
  cbn [Smoothing.spline sr num_points r Smoothing.smooth_fn].
  rewrite Hg, Hd. cbn [bind ret]. rewrite Hn.
  eexists. split; [reflexivity|]. cbn [density]. split; [reflexivity|].
  intro H. inversion H; subst. lra.
Qed.

End Extractor.

(** ** The fitted call-price function *)

Section SmoothFn.

Import Smoothing.

Lemma fold_min_le_init (l : list R) (a : R) : fold_left Rmin l a <= a.
Proof.
  revert a. induction l as [|b l IH]; intro a; simpl; [lra|].
  apply Rle_trans with (Rmin a b); [apply IH | apply Rmin_l].
Qed.

Lemma fold_max_ge_init (l : list R) (a : R) : a <= fold_left Rmax l a.
Proof.
  revert a. induction l as [|b l IH]; intro a; simpl; [lra|].
  apply Rle_trans with (Rmax a b); [apply Rmax_l | apply IH].
Qed.

Lemma fold_min_pos (l : list R) (a : R) :
  0 < a -> Forall (fun v => 0 < v) l -> 0 < fold_left Rmin l a.
Proof.
  intros Ha Hl. revert a Ha. induction Hl as [|b l Hb _ IH]; intros a Ha; simpl.
  - exact Ha.
  - apply IH. apply Rmin_glb_lt; assumption.
Qed.

Lemma ln_Rmin (a b : R) : 0 < a -> 0 < b -> ln (Rmin a b) = Rmin (ln a) (ln b).
Proof.
  intros Ha Hb. unfold Rmin at 1. destruct (Rle_dec a b) as [H|H].
  - symmetry. apply Rmin_left. destruct H as [H|H].
    + left. apply ln_increasing; assumption.
    + rewrite H. lra.
  - symmetry. apply Rmin_right. left. apply ln_increasing; lra.
Qed.

Lemma ln_Rmax (a b : R) : 0 < a -> 0 < b -> ln (Rmax a b) = Rmax (ln a) (ln b).
Proof.
  intros Ha Hb. unfold Rmax at 1. destruct (Rle_dec a b) as [H|H].
  - symmetry. apply Rmax_right. destruct H as [H|H].
    + left. apply ln_increasing; assumption.
    + rewrite H. lra.
  - symmetry. apply Rmax_left. left. apply ln_increasing; lra.
Qed.

Lemma ln_np_min (l : list R) (a : R) :
  0 < a -> Forall (fun v => 0 < v) l ->
  np_min (ln a) (map ln l) = ln (np_min a l).
Proof.
  unfold np_min. intros Ha Hl. revert a Ha.
  induction Hl as [|b l Hb _ IH]; intros a Ha; simpl; [reflexivity|].
  rewrite <- ln_Rmin by assumption. apply IH. apply Rmin_glb_lt; assumption.
Qed.

Lemma ln_np_max (l : list R) (a : R) :
  0 < a -> Forall (fun v => 0 < v) l ->
  np_max (ln a) (map ln l) = ln (np_max a l).
Proof.
  unfold np_max. intros Ha Hl. revert a Ha.
  induction Hl as [|b l Hb _ IH]; intros a Ha; simpl; [reflexivity|].
  rewrite <- ln_Rmax by assumption. apply IH.
  apply Rlt_le_trans with a; [exact Ha | apply Rmax_l].
Qed.

Lemma ln_le_mono (a b : R) : 0 < a -> a <= b -> ln a <= ln b.
Proof.
  intros Ha [H|H]; [left; apply ln_increasing; assumption | rewrite H; lra].
Qed.

(** Flat extrapolation of the closure, for bounds [0 < K_min <= K_max]. *)
Lemma smooth_point_flat (spl : UnivariateSpline) (Kmin Kmax : R) :
  0 < Kmin -> Kmin <= Kmax ->
  let C := smooth_point spl (ln Kmin) (ln Kmax) in
  (forall K, K <= Kmin -> C K = C Kmin)
  /\ (forall K, Kmax <= K -> C K = C Kmax)
  /\ (forall K, 0 <= C K).
Proof.
  intros Hpos Hle C.
  pose proof (ln_le_mono _ _ Hpos Hle) as Hln.
  set (eps := 1 / 10000000000).
  assert (Heps : 0 < eps) by (unfold eps; lra).
  assert (Hclip_lo : forall K, K <= Kmin ->
            Np.clip (ln (Rmax K eps)) (ln Kmin) (ln Kmax)
            = Np.clip (ln (Rmax Kmin eps)) (ln Kmin) (ln Kmax)).
  { intros K HK. destruct (Rle_lt_dec eps Kmin) as [Hc|Hc].
    - rewrite (Rmax_left Kmin eps) by exact Hc. unfold Np.clip.
      assert (ln (Rmax K eps) <= ln Kmin).
      { apply ln_le_mono; [|apply Rmax_lub; assumption].
        apply Rlt_le_trans with eps; [exact Heps | apply Rmax_r]. }
      rewrite (Rmax_right (ln (Rmax K eps))) by assumption.
      rewrite (Rmax_left (ln Kmin)) by lra. reflexivity.
    - rewrite (Rmax_right K eps) by lra. rewrite (Rmax_right Kmin eps) by lra.
      reflexivity. }
  assert (Hclip_hi : forall K, Kmax <= K ->
            Np.clip (ln (Rmax K eps)) (ln Kmin) (ln Kmax) = ln Kmax).
  { intros K HK. unfold Np.clip.
    assert (ln Kmax <= ln (Rmax K eps)).
    { apply ln_le_mono; [lra|]. apply Rle_trans with K; [exact HK | apply Rmax_l]. }
    apply Rmin_right. apply Rle_trans with (ln (Rmax K eps)); [assumption|].
    apply Rmax_l. }
  split; [|split].
  - intros K HK. unfold C, smooth_point. cbv zeta. fold eps.
    rewrite (Hclip_lo K HK). reflexivity.
  - intros K HK. unfold C, smooth_point. cbv zeta. fold eps.
    rewrite (Hclip_hi K HK), (Hclip_hi Kmax) by lra. reflexivity.
  - intro K. unfold C, smooth_point. apply Rmax_r.
Qed.

Lemma In_insert_by {A : Type} (le : A -> A -> bool) (a x : A) (l : list A) :
  In x (Pd.insert_by le a l) <-> x = a \/ In x l.
Proof.
  induction l as [|y l IH]; simpl.
  - intuition.
  - destruct (le a y); simpl; intuition.
Qed.

Lemma In_sort_by {A : Type} (le : A -> A -> bool) (x : A) (l : list A) :
  In x (Pd.sort_by le l) <-> In x l.
Proof.
  induction l as [|y l IH]; simpl; [reflexivity|].
  rewrite In_insert_by, IH. intuition.
Qed.

Lemma In_drop_repeats (x : R) (l : list R) : In x (drop_repeats l) -> In x l.
Proof.
  induction l as [|a l IH]; [intros []|].
  destruct l as [|b l]; [exact (fun H => H)|].
  cbn [drop_repeats]. destruct (Reqb a b).
  - intro H. right. apply IH. exact H.
  - intros [H|H]; [left; exact H | right; apply IH; exact H].
Qed.

Lemma np_unique_Forall (P : R -> Prop) (l : list R) :
  Forall P l -> Forall P (np_unique l).
Proof.
  rewrite !Forall_forall. intros H x Hx. apply H.
  apply In_drop_repeats in Hx. apply In_sort_by in Hx. exact Hx.
Qed.

End SmoothFn.

Section FitResult.

Import Smoothing.

Variable make_spline : list R -> list R -> R -> Exc UnivariateSpline.

Lemma bind_inr {A B : Type} (m : Exc A) (k : A -> Exc B) (b : B) :
  bind m k = inr b -> exists a, m = inr a /\ k a = inr b.
Proof. destruct m as [e|a]; simpl; [discriminate|]. intro H. exists a. auto. Qed.

Lemma fit_arrays_positive (self : CallPriceSmoother) (chain : Pd.DataFrame)
    (price_col : string) (ks ps : list R) :
  fit_arrays self chain price_col = inr (ks, ps) -> Forall (fun k => 0 < k) ks.
Proof.
  unfold fit_arrays. cbv zeta. intro H.
  apply bind_inr in H. destruct H as [calls [_ H]].
  destruct (_ <? _)%nat; [discriminate|].
  apply bind_inr in H. destruct H as [_ [_ H]].
  apply bind_inr in H. destruct H as [_ [_ H]].
  apply bind_inr in H. destruct H as [price [_ H]].
  destruct (_ <? _)%nat; [discriminate|].
  injection H as <- _. apply np_unique_Forall.
  apply Forall_forall. intros k Hk. apply in_map_iff in Hk.
  destruct Hk as [q [<- Hq]]. apply filter_In in Hq. destruct Hq as [_ Hq].
  apply andb_true_iff in Hq. destruct Hq as [_ Hq]. apply Rltb_spec. exact Hq.
Qed.

Lemma fit_spline_flat (self : CallPriceSmoother) (strikes prices : list R)
    (spot_price : option R) (res : SmoothingResult) :
  Forall (fun k => 0 < k) strikes ->
  fit_spline make_spline self strikes prices spot_price = inr res ->
  exists spl,
    0 < strike_min res /\ strike_min res <= strike_max res
    /\ smooth_fn res
       = map (smooth_point spl (ln (strike_min res)) (ln (strike_max res))).
Proof.
  intros Hpos H. unfold fit_spline in H. cbv zeta in H.
  apply bind_inr in H. destruct H as [spot [_ H]].
  apply bind_inr in H. destruct H as [spl [_ H]].
  destruct strikes as [|k0 ks]; [discriminate|]. cbn [map] in H.
  inversion Hpos as [|? ? Hk0 Hks]; subst.
  assert (Hmin : 0 < np_min k0 ks) by (apply fold_min_pos; assumption).
  assert (Hle : np_min k0 ks <= np_max k0 ks).
  { apply Rle_trans with k0; [apply fold_min_le_init | apply fold_max_ge_init]. }
  rewrite ln_np_min, ln_np_max in H by assumption.
  unfold SmoothingResult_init in H.
  rewrite (Reqb_false (np_min k0 ks) 0) in H by lra.
  rewrite (Reqb_false (np_max k0 ks) 0) in H by lra.
  cbn [bind ret] in H. injection H as <-. exists spl. cbn. auto.
Qed.

(** C6. The callable of a fitted smoothing result is flat outside the
    strike bounds and never negative. *)
Theorem fit_flat_extrapolation (self : CallPriceSmoother) (chain : Pd.DataFrame)
    (spot_price : option R) (price_col : string) (res : SmoothingResult) :
  fit make_spline self chain spot_price price_col = inr res ->
  (forall K, K <= strike_min res -> smooth_fn res [K] = smooth_fn res [strike_min res])
  /\ (forall K, strike_max res <= K ->
                smooth_fn res [K] = smooth_fn res [strike_max res])
  /\ (forall Ks, Forall (fun c => 0 <= c) (smooth_fn res Ks)).
Proof.
  unfold fit. intro H. apply bind_inr in H. destruct H as [[ks ps] [Ha H]].
  cbn [fst snd] in H. apply fit_arrays_positive in Ha.
  destruct (fit_spline_flat _ _ _ _ _ Ha H) as [spl [Hpos [Hle ->]]].
  destruct (smooth_point_flat spl _ _ Hpos Hle) as [Hlo [Hhi Hnn]].
  split; [|split].
  - intros K HK. cbn [map]. rewrite (Hlo K HK). reflexivity.
  - intros K HK. cbn [map]. rewrite (Hhi K HK). reflexivity.
  - intro Ks. apply Forall_forall. intros c Hc. apply in_map_iff in Hc.
    destruct Hc as [K [<- _]]. apply Hnn.
Qed.

End FitResult.

Lemma fit_flat_extrapolation_witness :
  let make_spline := fun (_ _ : list R) (_ : R) =>
    @inr string _ (Smoothing.mkSpline (fun x => 1 - x) (fun _ => None)) in
  let quote := fun K m => Pd.mkRow 30 K "C" 0 0 0 0 m 30 "call" in
  let chain := Pd.mkDF ["strike"; "mid"] [quote 1 2; quote 2 1] in
  exists res,
    Smoothing.fit make_spline (Smoothing.mkSmoother None 2) chain (Some (3 / 2)) "mid"
    = inr res
    /\ (forall K, K <= Smoothing.strike_min res ->
          Smoothing.smooth_fn res [K] = Smoothing.smooth_fn res [Smoothing.strike_min res])
    /\ (forall K, Smoothing.strike_max res <= K ->
          Smoothing.smooth_fn res [K] = Smoothing.smooth_fn res [Smoothing.strike_max res])
    /\ (forall Ks, Forall (fun c => 0 <= c) (Smoothing.smooth_fn res Ks)).
Proof.
  intros make_spline quote chain.
  assert (Hfit : exists res,
             Smoothing.fit make_spline (Smoothing.mkSmoother None 2) chain
                           (Some (3 / 2)) "mid" = inr res).
  { unfold Smoothing.fit, Smoothing.fit_arrays, Smoothing.fit_spline,
      Smoothing.SmoothingResult_init, chain, quote.
    reval.
    repeat match goal with
           | |- context [Reqb ?a ?b] => destruct (Reqb a b)
           end; cbn [bind ret]; eexists; reflexivity. }
  destruct Hfit as [res Hres]. exists res. split; [exact Hres|].
  exact (fit_flat_extrapolation make_spline _ _ _ _ res Hres).
Defined.

(** ** Quality score *)

Section QualityScore.

Import ChainQuality.

Import Samples.

(** At a metrics object with a strike gap below five the gap sub-score is
    [1 + 3/45], above one. *)
Lemma gap_score_above_one :
  (1 <= num_otm narrow_gap_metrics)%nat
  /\ Forall (fun k => 0 < k) (strikes narrow_gap_metrics)
  /\ 0 < spot narrow_gap_metrics
  /\ max_strike_gap narrow_gap_metrics = 2
  /\ gap_score narrow_gap_metrics = 16 / 15
  /\ ~ gap_score narrow_gap_metrics <= 1.
Proof.
  assert (Hg : max_strike_gap narrow_gap_metrics = 2).
  { unfold max_strike_gap, narrow_gap_metrics. reval.
    unfold Smoothing.np_max. cbn [fold_left]. lra. }
  assert (Hs : gap_score narrow_gap_metrics = 16 / 15).
  { unfold gap_score. rewrite Hg. rminmax. lra. }
  split; [simpl; lia|]. split; [repeat constructor; simpl; lra|].
  split; [simpl; lra|]. split; [exact Hg|]. split; [exact Hs|].
  rewrite Hs. lra.
Qed.

(** C4, evaluated on a well-covered, balanced chain with one-point strike
    spacing ([num_otm >= 1], positive strikes and spot): the gap sub-score
    is [49/45] and the combined score is [229/225], both above one. *)
Theorem quality_score_above_one :
  (1 <= num_otm dense_chain_metrics)%nat
  /\ Forall (fun k => 0 < k) (strikes dense_chain_metrics)
  /\ 0 < spot dense_chain_metrics
  /\ gap_score dense_chain_metrics = 49 / 45
  /\ quality_score dense_chain_metrics = inr (229 / 225).
Proof.
  split; [simpl; lia|]. split; [repeat constructor; simpl; lra|].
  split; [simpl; lra|].
  assert (Hg : max_strike_gap dense_chain_metrics = 1).
  { unfold max_strike_gap, dense_chain_metrics. reval. rminmax. lra. }
  assert (Hc : cov_score dense_chain_metrics = inr 1).
  { unfold cov_score, strike_coverage, strikes_max, strikes_min,
      dense_chain_metrics, Smoothing.np_max, Smoothing.np_min.
    reval. rminmax. unfold ret. f_equal; lra. }
  split; [unfold gap_score; rewrite Hg; rminmax; lra|].
  unfold quality_score. rewrite Hc. cbn [bind].
  unfold gap_score. rewrite Hg.
  unfold n_score, balance_score, dense_chain_metrics. reval. rnum. rminmax.
  unfold ret. f_equal. field.
Qed.

End QualityScore.

(** ** Dictionaries, sorting and extrema *)

Section PyFacts.

Lemma dict_get_set {V : Type} (k k' : Z) (v : V) (d : list (Z * V)) :
  Py.dict_get k (Py.dict_set k' v d) = if Z.eqb k k' then Some v else Py.dict_get k d.
Proof.
  induction d as [|[k0 v0] d IH]; simpl.
  - reflexivity.
  - destruct (Z.eqb k' k0) eqn:E0; simpl.
    + apply Z.eqb_eq in E0. subst k0. destruct (Z.eqb k k'); reflexivity.
    + destruct (Z.eqb k k0) eqn:E1.
      * apply Z.eqb_eq in E1. subst k0.
        rewrite Z.eqb_sym, E0. reflexivity.
      * exact IH.
Qed.

Lemma dict_keys_set {V : Type} (k k' : Z) (v : V) (d : list (Z * V)) :
  In k (Py.dict_keys (Py.dict_set k' v d)) <-> k = k' \/ In k (Py.dict_keys d).
Proof.
  unfold Py.dict_keys. induction d as [|[k0 v0] d IH]; simpl.
  - intuition.
  - destruct (Z.eqb k' k0) eqn:E0; simpl.
    + apply Z.eqb_eq in E0. subst k0. intuition.
    + rewrite IH. intuition.
Qed.

Lemma dict_get_key {V : Type} (k : Z) (d : list (Z * V)) :
  In k (Py.dict_keys d) -> exists v, Py.dict_get k d = Some v.
Proof.
  unfold Py.dict_keys. induction d as [|[k0 v0] d IH]; simpl; [intros []|].
  intros [H|H]; destruct (Z.eqb k k0) eqn:E; eauto.
  subst k0. rewrite Z.eqb_refl in E. discriminate.
Qed.

Lemma insert_sorted (x : Z) (l : list Z) :
  StronglySorted Z.le l -> StronglySorted Z.le (Pd.insert_by Z.leb x l).
Proof.
  induction 1 as [|y l Hs IH Hy]; simpl.
  - repeat constructor.
  - destruct (Z.leb x y) eqn:E.
    + apply Z.leb_le in E. constructor; [constructor; assumption|].
      constructor; [exact E|]. eapply Forall_impl; [|exact Hy].
      intros z Hz. simpl in Hz. lia.
    + apply Z.leb_gt in E. constructor; [exact IH|].
      apply Forall_forall. intros z Hz. apply In_insert_by in Hz.
      destruct Hz as [->|Hz]; [lia|]. rewrite Forall_forall in Hy. apply Hy, Hz.
Qed.

Lemma sorted_StronglySorted (l : list Z) : StronglySorted Z.le (Py.sorted l).
Proof.
  unfold Py.sorted, Pd.sort_by. induction l as [|x l IH]; simpl.
  - constructor.
  - apply insert_sorted. exact IH.
Qed.

Lemma sorted_last_max (x d : Z) (l : list Z) :
  StronglySorted Z.le (x :: l) ->
  In (last (x :: l) d) (x :: l) /\ Forall (fun k => (k <= last (x :: l) d)%Z) (x :: l).
Proof.
  revert x. induction l as [|y l IH]; intros x Hs.
  - simpl. split; [auto|]. repeat constructor. lia.
  - apply StronglySorted_inv in Hs. destruct Hs as [Hs Hx].
    destruct (IH y Hs) as [Hin Hall].
    change (last (x :: y :: l) d) with (last (y :: l) d).
    split; [right; exact Hin|]. constructor; [|exact Hall].
    rewrite Forall_forall in Hx. apply Hx. exact Hin.
Qed.

Lemma fold_max_is (m x : Z) (l : list Z) :
  In m (x :: l) -> Forall (fun k => (k <= m)%Z) (x :: l) -> fold_left Z.max l x = m.
Proof.
  revert x. induction l as [|y l IH]; intros x Hin Hall; simpl.
  - destruct Hin as [H|[]]. exact H.
  - inversion Hall as [|? ? Hx Hall']; subst. inversion Hall' as [|? ? Hy Hl]; subst.
    apply IH.
    + destruct Hin as [H|[H|H]]; [left; lia | left; lia | right; exact H].
    + constructor; [lia | exact Hl].
Qed.

Lemma fold_min_is (m x : Z) (l : list Z) :
  In m (x :: l) -> Forall (fun k => (m <= k)%Z) (x :: l) -> fold_left Z.min l x = m.
Proof.
  revert x. induction l as [|y l IH]; intros x Hin Hall; simpl.
  - destruct Hin as [H|[]]. exact H.
  - inversion Hall as [|? ? Hx Hall']; subst. inversion Hall' as [|? ? Hy Hl]; subst.
    apply IH.
    + destruct Hin as [H|[H|H]]; [left; lia | left; lia | right; exact H].
    + constructor; [lia | exact Hl].
Qed.

Lemma py_max_is (m : Z) (l : list Z) :
  In m l -> Forall (fun k => (k <= m)%Z) l -> Py.max l = inr m.
Proof.
  destruct l as [|x l]; [intros []|]. intros Hin Hall. unfold Py.max, ret.
  f_equal. apply fold_max_is; assumption.
Qed.

Lemma py_min_is (m : Z) (l : list Z) :
  In m l -> Forall (fun k => (m <= k)%Z) l -> Py.min l = inr m.
Proof.
  destruct l as [|x l]; [intros []|]. intros Hin Hall. unfold Py.min, ret.
  f_equal. apply fold_min_is; assumption.
Qed.

End PyFacts.

(** ** Interpolation of the surface in DTE *)

Section SurfaceColumns.

Import RndExtractor Surface Samples.

Lemma fold_dict_get (rs : list RNDResult) (d0 : list (Z * RNDResult)) (k : Z)
    (res : RNDResult) :
  Py.dict_get k (fold_left (fun d r => Py.dict_set (dte_of r) r d) rs d0) = Some res ->
  (In res rs /\ dte_of res = k) \/ Py.dict_get k d0 = Some res.
Proof.
  revert d0. induction rs as [|r rs IH]; intros d0 H; simpl in H.
  - right. exact H.
  - apply IH in H. destruct H as [[Hin Hk]|H].
    + left. split; [right; exact Hin | exact Hk].
    + rewrite dict_get_set in H. destruct (Z.eqb k (dte_of r)) eqn:E.
      * apply Z.eqb_eq in E. injection H as <-. left. split; [left; reflexivity|].
        symmetry. exact E.
      * right. exact H.
Qed.

Lemma rnd_by_dte_get (rs : list RNDResult) (k : Z) (res : RNDResult) :
  Py.dict_get k (rnd_by_dte rs) = Some res -> In res rs /\ dte_of res = k.
Proof.
  intro H. apply fold_dict_get in H. destruct H as [H|H]; [exact H | discriminate].
Qed.

Lemma fold_dict_keys (rs : list RNDResult) (d0 : list (Z * RNDResult)) (k : Z) :
  In k (Py.dict_keys (fold_left (fun d r => Py.dict_set (dte_of r) r d) rs d0))
  <-> (exists r, In r rs /\ dte_of r = k) \/ In k (Py.dict_keys d0).
Proof.
  revert d0. induction rs as [|r rs IH]; intro d0; simpl.
  - split; [auto|]. intros [[r [[] _]]|H]. exact H.
  - rewrite IH, dict_keys_set. split.
    + intros [[r' [Hin Hk]]|[Hk|Hk]].
      * left. exists r'. auto.
      * left. exists r. auto.
      * right. exact Hk.
    + intros [[r' [[->|Hin] Hk]]|Hk].
      * right. left. symmetry. exact Hk.
      * left. exists r'. auto.
      * right. right. exact Hk.
Qed.

Lemma rnd_by_dte_keys (rs : list RNDResult) (k : Z) :
  In k (Py.sorted (Py.dict_keys (rnd_by_dte rs)))
  <-> exists r, In r rs /\ dte_of r = k.
Proof.
  unfold Py.sorted. rewrite In_sort_by. unfold rnd_by_dte. rewrite fold_dict_keys.
  simpl. intuition.
Qed.

Lemma dict_item_key (rs : list RNDResult) (k : Z) :
  In k (Py.sorted (Py.dict_keys (rnd_by_dte rs))) ->
  exists res, Py.dict_get k (rnd_by_dte rs) = Some res
              /\ dict_item (rnd_by_dte rs) k = inr res.
Proof.
  intro H. unfold Py.sorted in H. apply In_sort_by in H.
  destruct (dict_get_key _ _ H) as [res Hres]. exists res.
  split; [exact Hres|]. unfold dict_item. rewrite Hres. reflexivity.
Qed.

Lemma interp_length (xs xp fp : list R) : length (Np.interp xs xp fp) = length xs.
Proof. unfold Np.interp. apply length_map. Qed.

Lemma blend_zero (zl zh : list R) :
  length zl = length zh -> blend 0 zl zh = zl.
Proof.
  unfold blend. revert zh. induction zl as [|a zl IH]; intros [|b zh] H;
    try discriminate; [reflexivity|].
  simpl. f_equal; [ring|]. apply IH. simpl in H. lia.
Qed.

Lemma blend_one (zl zh : list R) :
  length zl = length zh -> blend 1 zl zh = zh.
Proof.
  unfold blend. revert zh. induction zl as [|a zl IH]; intros [|b zh] H;
    try discriminate; [reflexivity|].
  simpl. f_equal; [ring|]. apply IH. simpl in H. lia.
Qed.

Lemma interp_density_total (grid : list R) (res : RNDResult) :
  strikes res <> [] /\ density res <> [] ->
  interp_density grid res = inr (Np.interp grid (strikes res) (density res)).
Proof.
  intros [Hs Hd]. unfold interp_density.
  destruct (strikes res); [contradiction|]. destruct (density res); [contradiction|].
  reflexivity.
Qed.

(** C8. With [Dmin] and [Dmax] the smallest and largest actual DTE, the
    column at target DTE [d] is the density of the expiry at [Dmin] when
    [d <= Dmin], the density of the expiry at [Dmax] when [d >= Dmax], and
    for two consecutive actual DTEs [lo < hi] with [lo <= d <= hi] the blend
    [(1 - w) * z_lo + w * z_hi] with [w = (d - lo) / (hi - lo)]; every
    density is first interpolated onto the common strike grid. *)
Theorem density_column_interpolation (grid : list R)
    (rnd_results : list RNDResult) (d : R) :
  rnd_results <> [] ->
  Forall (fun r => strikes r <> [] /\ density r <> []) rnd_results ->
  let by_dte := rnd_by_dte rnd_results in
  let z := fun r => Np.interp grid (strikes r) (density r) in
  exists Dmin Dmax rmin rmax,
    (forall r, In r rnd_results -> (Dmin <= dte_of r <= Dmax)%Z)
    /\ (Py.dict_get Dmin by_dte = Some rmin /\ In rmin rnd_results /\ dte_of rmin = Dmin)
    /\ (Py.dict_get Dmax by_dte = Some rmax /\ In rmax rnd_results /\ dte_of rmax = Dmax)
    /\ (d <= IZR Dmin -> density_column grid rnd_results d = inr (z rmin))
    /\ (IZR Dmax <= d -> density_column grid rnd_results d = inr (z rmax))
    /\ (forall lo hi rlo rhi,
          Py.dict_get lo by_dte = Some rlo ->
          Py.dict_get hi by_dte = Some rhi ->
          (lo < hi)%Z ->
          (forall r, In r rnd_results -> (dte_of r <= lo \/ hi <= dte_of r)%Z) ->
          IZR lo <= d <= IZR hi ->
          density_column grid rnd_results d
          = inr (blend ((d - IZR lo) / (IZR hi - IZR lo)) (z rlo) (z rhi))).
Proof.
  intros Hne Hok by_dte z.
  pose proof (rnd_by_dte_keys rnd_results) as Hkeys.
  pose proof (sorted_StronglySorted (Py.dict_keys by_dte)) as Hsorted.
  assert (Hz : forall r, In r rnd_results -> interp_density grid r = inr (z r)).
  { intros r Hr. apply interp_density_total. rewrite Forall_forall in Hok.
    apply Hok, Hr. }
  unfold density_column. fold by_dte. cbv zeta.
  fold by_dte in Hkeys.
  destruct (Py.sorted (Py.dict_keys by_dte)) as [|first rest] eqn:Edtes.
  { destruct rnd_results as [|r0 rs]; [contradiction|].
    exfalso. apply (proj2 (Hkeys (dte_of r0))). exists r0. split; [left|]; reflexivity. }
  set (dtes := first :: rest) in *.
  set (final := last dtes first).
  assert (Hfirst : In first dtes) by (left; reflexivity).
  destruct (sorted_last_max first first rest Hsorted) as [Hfinal Hmax].
  fold dtes in Hfinal, Hmax. fold final in Hfinal, Hmax.
  assert (Hmin : Forall (fun k => (first <= k)%Z) dtes).
  { apply StronglySorted_inv in Hsorted. destruct Hsorted as [_ H].
    constructor; [lia | exact H]. }
  rewrite Forall_forall in Hmin, Hmax.
  assert (Hitem : forall k, In k dtes ->
            exists res, Py.dict_get k by_dte = Some res
                        /\ dict_item by_dte k = inr res
                        /\ In res rnd_results /\ dte_of res = k).
  { intros k Hk. destruct (dict_get_key k by_dte) as [res Hres].
    - rewrite <- Edtes in Hk. unfold Py.sorted in Hk. apply In_sort_by in Hk. exact Hk.
    - exists res. split; [exact Hres|]. split.
      + unfold dict_item. rewrite Hres. reflexivity.
      + apply rnd_by_dte_get. exact Hres. }
  assert (Hin : forall r, In r rnd_results -> In (dte_of r) dtes).
  { intros r Hr. apply Hkeys. exists r. auto. }
  destruct (Hitem first Hfirst) as [rmin [Hgmin [Himin [Hrmin Hdmin]]]].
  destruct (Hitem final Hfinal) as [rmax [Hgmax [Himax [Hrmax Hdmax]]]].
  assert (Hcase1 : d <= IZR first ->
            (if Rleb d (IZR first)
             then rnd <- dict_item by_dte first;; interp_density grid rnd
             else if Rleb (IZR final) d
                  then rnd <- dict_item by_dte final;; interp_density grid rnd
                  else lower_dte <- Py.max (filter (fun d0 => Rleb (IZR d0) d) dtes);;
                       upper_dte <- Py.min (filter (fun d0 => Rleb d (IZR d0)) dtes);;
                       (if (lower_dte =? upper_dte)%Z
                        then rnd <- dict_item by_dte lower_dte;; interp_density grid rnd
                        else rnd_low <- dict_item by_dte lower_dte;;
                             rnd_high <- dict_item by_dte upper_dte;;
                             z_low <- interp_density grid rnd_low;;
                             z_high <- interp_density grid rnd_high;;
                             ret (blend ((d - IZR lower_dte)
                                         / (IZR upper_dte - IZR lower_dte))
                                        z_low z_high)))
            = inr (z rmin)).
  { intro H. rewrite Rleb_true by exact H. rewrite Himin. cbn [bind].
    apply Hz. exact Hrmin. }
  assert (Hcase2 : IZR final <= d ->
            (if Rleb d (IZR first)
             then rnd <- dict_item by_dte first;; interp_density grid rnd
             else if Rleb (IZR final) d
                  then rnd <- dict_item by_dte final;; interp_density grid rnd
                  else lower_dte <- Py.max (filter (fun d0 => Rleb (IZR d0) d) dtes);;
                       upper_dte <- Py.min (filter (fun d0 => Rleb d (IZR d0)) dtes);;
                       (if (lower_dte =? upper_dte)%Z
                        then rnd <- dict_item by_dte lower_dte;; interp_density grid rnd
                        else rnd_low <- dict_item by_dte lower_dte;;
                             rnd_high <- dict_item by_dte upper_dte;;
                             z_low <- interp_density grid rnd_low;;
                             z_high <- interp_density grid rnd_high;;
                             ret (blend ((d - IZR lower_dte)
                                         / (IZR upper_dte - IZR lower_dte))
                                        z_low z_high)))
            = inr (z rmax)).
  { intro H. destruct (Rle_dec d (IZR first)) as [Hd|Hd].
    - assert (first = final).
      { specialize (Hmin final Hfinal). apply IZR_le in Hmin.
        apply eq_IZR. lra. }
      rewrite Hcase1 by exact Hd. do 2 f_equal.
      assert (Some rmin = Some rmax) by (rewrite <- Hgmin, <- Hgmax; congruence).
      congruence.
    - rewrite Rleb_false by exact Hd. rewrite Rleb_true by exact H.
      rewrite Himax. cbn [bind]. apply Hz. exact Hrmax. }
  exists first, final, rmin, rmax.
  split. { intros r Hr. split; [apply Hmin | apply Hmax]; apply Hin, Hr. }
  split; [auto|]. split; [auto|]. split; [exact Hcase1|]. split; [exact Hcase2|].
  intros lo hi rlo rhi Hglo Hghi Hlt Hsep [Hlo Hhi].
  destruct (rnd_by_dte_get _ _ _ Hglo) as [Hrlo Hdlo].
  destruct (rnd_by_dte_get _ _ _ Hghi) as [Hrhi Hdhi].
  assert (Hlo_in : In lo dtes) by (rewrite <- Hdlo; apply Hin, Hrlo).
  assert (Hhi_in : In hi dtes) by (rewrite <- Hdhi; apply Hin, Hrhi).
  clear Hdlo Hdhi.
  assert (Hilo : dict_item by_dte lo = inr rlo)
    by (unfold dict_item; rewrite Hglo; reflexivity).
  assert (Hihi : dict_item by_dte hi = inr rhi)
    by (unfold dict_item; rewrite Hghi; reflexivity).
  assert (Hsep' : forall k, In k dtes -> (k <= lo \/ hi <= k)%Z).
  { intros k Hk. apply Hkeys in Hk. destruct Hk as [r [Hr <-]]. apply Hsep, Hr. }
  assert (Hlen : length (z rlo) = length (z rhi))
    by (unfold z; rewrite !interp_length; reflexivity).
  assert (Hlt' : IZR lo < IZR hi) by (apply IZR_lt; exact Hlt).
  destruct (Rle_dec d (IZR first)) as [Hd1|Hd1].
  { (* the target is the first actual DTE *)
    assert (E : lo = first).
    { specialize (Hmin lo Hlo_in). apply IZR_le in Hmin. apply eq_IZR. lra. }
    subst lo. rewrite Hcase1 by exact Hd1. f_equal.
    replace d with (IZR first) by lra.
    replace ((IZR first - IZR first) / (IZR hi - IZR first)) with 0
      by (unfold Rdiv; ring).
    rewrite blend_zero by exact Hlen. congruence. }
  destruct (Rle_dec (IZR final) d) as [Hd2|Hd2].
  { (* the target is the last actual DTE *)
    assert (E : hi = final).
    { specialize (Hmax hi Hhi_in). apply IZR_le in Hmax. apply eq_IZR. lra. }
    subst hi. rewrite Hcase2 by exact Hd2. f_equal.
    replace d with (IZR final) by lra.
    replace ((IZR final - IZR lo) / (IZR final - IZR lo)) with 1 by (field; lra).
    rewrite blend_one by exact Hlen. congruence. }
  rewrite Rleb_false by exact Hd1. rewrite Rleb_false by exact Hd2.
  destruct (Req_dec_T d (IZR lo)) as [Ed|Nd];
    [|destruct (Req_dec_T d (IZR hi)) as [Ed|Nd']].
  - (* d = lo *)
    rewrite (py_max_is lo), (py_min_is lo).
    + cbn [bind]. rewrite Z.eqb_refl, Hilo. cbn [bind]. rewrite (Hz rlo Hrlo).
      f_equal. rewrite Ed.
      replace ((IZR lo - IZR lo) / (IZR hi - IZR lo)) with 0 by (unfold Rdiv; ring).
      rewrite blend_zero by exact Hlen. reflexivity.
    + apply filter_In. split; [exact Hlo_in | apply Rleb_true; lra].
    + apply Forall_forall. intros k Hk. apply filter_In in Hk.
      destruct Hk as [_ Hk]. apply Rleb_spec in Hk. apply le_IZR. lra.
    + apply filter_In. split; [exact Hlo_in | apply Rleb_true; lra].
    + apply Forall_forall. intros k Hk. apply filter_In in Hk.
      destruct Hk as [_ Hk]. apply Rleb_spec in Hk. apply le_IZR. lra.
  - (* d = hi *)
    rewrite (py_max_is hi), (py_min_is hi).
    + cbn [bind]. rewrite Z.eqb_refl, Hihi. cbn [bind]. rewrite (Hz rhi Hrhi).
      f_equal. rewrite Ed.
      replace ((IZR hi - IZR lo) / (IZR hi - IZR lo)) with 1 by (field; lra).
      rewrite blend_one by exact Hlen. reflexivity.
    + apply filter_In. split; [exact Hhi_in | apply Rleb_true; lra].
    + apply Forall_forall. intros k Hk. apply filter_In in Hk.
      destruct Hk as [_ Hk]. apply Rleb_spec in Hk. apply le_IZR. lra.
    + apply filter_In. split; [exact Hhi_in | apply Rleb_true; lra].
    + apply Forall_forall. intros k Hk. apply filter_In in Hk.
      destruct Hk as [_ Hk]. apply Rleb_spec in Hk. apply le_IZR. lra.
  - (* lo < d < hi *)
    rewrite (py_max_is lo), (py_min_is hi).
    + cbn [bind]. replace (lo =? hi)%Z with false by (symmetry; apply Z.eqb_neq; lia).
      rewrite Hilo, Hihi. cbn [bind]. rewrite (Hz rlo Hrlo), (Hz rhi Hrhi).
      reflexivity.
    + apply filter_In. split; [exact Hhi_in | apply Rleb_true; lra].
    + apply Forall_forall. intros k Hk. apply filter_In in Hk.
      destruct Hk as [Hk1 Hk]. apply Rleb_spec in Hk.
      destruct (Hsep' k Hk1) as [H|H]; [|exact H].
      apply IZR_le in H. lra.
    + apply filter_In. split; [exact Hlo_in | apply Rleb_true; lra].
    + apply Forall_forall. intros k Hk. apply filter_In in Hk.
      destruct Hk as [Hk1 Hk]. apply Rleb_spec in Hk.
      destruct (Hsep' k Hk1) as [H|H]; [exact H|].
      apply IZR_le in H. lra.
Qed.

Lemma py_int_IZR (x : R) (z : Z) : x = IZR z -> (0 <= z)%Z -> Py.int x = z.
Proof.
  intros -> Hz. unfold Py.int. rewrite Rleb_true by (apply IZR_le; exact Hz).
  symmetry. apply Int_part_spec. lra.
Qed.

Lemma density_column_interpolation_witness :
  density_column [1; 2] [rnd_30d; rnd_60d] 45
  = inr (blend ((45 - 30) / (60 - 30)) [1; 1] [2; 2]).
Proof.
  assert (E30 : dte_of rnd_30d = 30%Z)
    by (apply py_int_IZR; [simpl; field | lia]).
  assert (E60 : dte_of rnd_60d = 60%Z)
    by (apply py_int_IZR; [simpl; field | lia]).
  assert (Ed : rnd_by_dte [rnd_30d; rnd_60d] = [(30%Z, rnd_30d); (60%Z, rnd_60d)]).
  { unfold rnd_by_dte. cbn [fold_left]. rewrite E30, E60. reflexivity. }
  destruct (density_column_interpolation [1; 2] [rnd_30d; rnd_60d] 45)
    as [Dmin [Dmax [rmin [rmax [_ [_ [_ [_ [_ H]]]]]]]]].
  - discriminate.
  - repeat constructor; discriminate.
  - rewrite (H 30%Z 60%Z rnd_30d rnd_60d).
    + f_equal. f_equal.
      * unfold Np.interp, rnd_30d. reval. repeat (f_equal; try lra).
      * unfold Np.interp, rnd_60d. reval. repeat (f_equal; try lra).
    + rewrite Ed. reflexivity.
    + rewrite Ed. reflexivity.
    + lia.
    + intros r [<-|[<-|[]]]; [left; rewrite E30 | right; rewrite E60]; lia.
    + lra.
Defined.

End SurfaceColumns.

(** ** Quantile inversion *)

Section Quantiles.

Import RndExtractor Samples.

Lemma last_cons (a d : R) (l : list R) : last (a :: l) d = last l a.
Proof.
  revert a d. induction l as [|b l IH]; intros a d; [reflexivity|].
  change (last (a :: b :: l) d) with (last (b :: l) d).
  rewrite (IH b d), (IH b a). reflexivity.
Qed.

Lemma trapz_cons2 (y0 y1 x0 x1 : R) (y x : list R) :
  Np.trapz (y0 :: y1 :: y) (x0 :: x1 :: x)
  = (x1 - x0) * (y1 + y0) / 2 + Np.trapz (y1 :: y) (x1 :: x).
Proof. reflexivity. Qed.

Lemma trapz_uniform (x0 dx : R) (y : list R) (s : nat) (y0 : R) :
  Np.trapz (y0 :: y) (uniform_grid x0 dx s (S (length y)))
  = dx * (Rsum (y0 :: y) - (y0 + last y y0) / 2).
Proof.
  revert s y0. induction y as [|y1 y IH]; intros s y0.
  - simpl. lra.
  - specialize (IH (S s) y1). unfold uniform_grid in *.
    cbn [length seq map] in *. rewrite trapz_cons2, IH, S_INR.
    rewrite (last_cons y1 y0 y). cbn [Rsum fold_right]. lra.
Qed.

Lemma Rsum_app (l1 l2 : list R) : Rsum (l1 ++ l2) = Rsum l1 + Rsum l2.
Proof. induction l1 as [|a l1 IH]; simpl; [lra | rewrite IH; lra]. Qed.

Lemma Rsum_nonneg (l : list R) : Forall (fun v => 0 <= v) l -> 0 <= Rsum l.
Proof. induction 1; simpl; lra. Qed.

Lemma Rsum_ge_hd (l : list R) (d : R) :
  Forall (fun v => 0 <= v) l -> l <> [] -> hd d l <= Rsum l.
Proof.
  intros H Hne. destruct l as [|a l]; [contradiction|]. inversion H; subst.
  pose proof (Rsum_nonneg l H3). simpl. lra.
Qed.

Lemma Rsum_ge_last (l : list R) (d : R) :
  Forall (fun v => 0 <= v) l -> l <> [] -> last l d <= Rsum l.
Proof.
  intros H Hne. destruct (exists_last Hne) as [l' [a ->]].
  rewrite last_last, Rsum_app. apply Forall_app in H. destruct H as [H1 H2].
  inversion H2; subst. pose proof (Rsum_nonneg l' H1). simpl. lra.
Qed.

Lemma cumsum_from_app (acc : R) (l1 l2 : list R) :
  Np.cumsum_from acc (l1 ++ l2)
  = Np.cumsum_from acc l1 ++ Np.cumsum_from (acc + Rsum l1) l2.
Proof.
  revert acc. induction l1 as [|a l1 IH]; intro acc; simpl.
  - f_equal. lra.
  - rewrite IH. do 3 f_equal. lra.
Qed.

Lemma cumsum_from_bounds (acc : R) (l : list R) :
  Forall (fun v => 0 <= v) l ->
  Forall (fun c => acc <= c <= acc + Rsum l) (Np.cumsum_from acc l).
Proof.
  intro H. revert acc. induction H as [|a l Ha Hl IH]; intro acc; simpl.
  - constructor.
  - pose proof (Rsum_nonneg l Hl). constructor; [lra|].
    eapply Forall_impl; [|apply IH]. intros c Hc. simpl in Hc. lra.
Qed.

Lemma cumsum_from_length (acc : R) (l : list R) :
  length (Np.cumsum_from acc l) = length l.
Proof. revert acc. induction l; intro acc; simpl; [|rewrite IHl]; reflexivity. Qed.

Lemma interp_from_segment (q c0 x0 ca cb xa xb : R) (cpre cpost xpre xpost : list R) :
  length cpre = length xpre ->
  Forall (fun c => c <= q) cpre -> ca <= q -> q < cb ->
  Np.interp_from q c0 x0 (cpre ++ ca :: cb :: cpost) (xpre ++ xa :: xb :: xpost)
  = (xb - xa) / (cb - ca) * (q - ca) + xa.
Proof.
  intros Hlen Hpre Ha Hb. revert c0 x0 xpre Hlen.
  induction Hpre as [|c cpre Hc _ IH]; intros c0 x0 xpre Hlen.
  - destruct xpre; [|discriminate]. simpl.
    rewrite Rltb_false by lra. rewrite Rltb_true by lra. reflexivity.
  - destruct xpre as [|x xpre]; [discriminate|]. simpl.
    rewrite Rltb_false by lra. apply IH. simpl in Hlen. lia.
Qed.

Lemma interp1_segment (q ca cb xa xb : R) (cpre cpost xpre xpost : list R) :
  length cpre = length xpre ->
  Forall (fun c => c <= q) cpre -> ca <= q -> q < cb ->
  Np.interp1 q (cpre ++ ca :: cb :: cpost) (xpre ++ xa :: xb :: xpost)
  = (xb - xa) / (cb - ca) * (q - ca) + xa.
Proof.
  intros Hlen Hpre Ha Hb. destruct cpre as [|c0 cpre].
  - destruct xpre; [|discriminate]. simpl.
    rewrite Rltb_false by lra. rewrite Rltb_true by lra. reflexivity.
  - destruct xpre as [|x0 xpre]; [discriminate|]. inversion Hpre; subst. simpl.
    rewrite Rltb_false by lra. apply interp_from_segment; try assumption.
    simpl in Hlen. lia.
Qed.

Lemma interp_from_past_end (q c0 x0 : R) (c x : list R) :
  length c = length x -> Forall (fun v => v <= q) c ->
  Np.interp_from q c0 x0 c x = last x x0.
Proof.
  intros Hlen Hc. revert c0 x0 x Hlen.
  induction Hc as [|c1 c Hc1 _ IH]; intros c0 x0 x Hlen.
  - destruct x; [reflexivity | discriminate].
  - destruct x as [|x1 x]; [discriminate|]. simpl.
    rewrite Rltb_false by lra. rewrite IH by (simpl in Hlen; lia).
    symmetry. apply last_cons.
Qed.

Lemma interp1_past_end (q c0 x0 : R) (c x : list R) :
  length c = length x -> Forall (fun v => v <= q) (c0 :: c) ->
  Np.interp1 q (c0 :: c) (x0 :: x) = last x x0.
Proof.
  intros Hlen Hc. inversion Hc; subst. simpl.
  rewrite Rltb_false by lra. apply interp_from_past_end; assumption.
Qed.

Lemma trapz_uniform_list (x0 dx : R) (l : list R) (s : nat) (d : R) :
  l <> [] ->
  Np.trapz l (uniform_grid x0 dx s (length l))
  = dx * (Rsum l - (hd d l + last l d) / 2).
Proof.
  intro Hne. destruct l as [|y0 y]; [contradiction|].
  cbn [length hd]. rewrite trapz_uniform, last_cons. reflexivity.
Qed.

Lemma uniform_grid_app (x0 dx : R) (s n m : nat) :
  uniform_grid x0 dx s (n + m)
  = uniform_grid x0 dx s n ++ uniform_grid x0 dx (s + n) m.
Proof. unfold uniform_grid. rewrite seq_app, map_app. reflexivity. Qed.

Lemma uniform_grid_length (x0 dx : R) (s n : nat) :
  length (uniform_grid x0 dx s n) = n.
Proof. unfold uniform_grid. rewrite length_map, length_seq. reflexivity. Qed.

Lemma uniform_grid_below (x0 dx : R) (s n k : nat) :
  0 < dx -> (s + n <= S k)%nat ->
  Forall (fun x => x <= x0 + INR k * dx) (uniform_grid x0 dx s n).
Proof.
  intros Hdx Hk. unfold uniform_grid. apply Forall_forall. intros x Hx.
  apply in_map_iff in Hx. destruct Hx as [j [<- Hj]]. apply in_seq in Hj.
  assert (INR j <= INR k) by (apply le_INR; lia). nra.
Qed.

Lemma uniform_grid_above (x0 dx : R) (s n k : nat) :
  0 < dx -> (k < s)%nat ->
  Forall (fun x => x0 + INR k * dx < x) (uniform_grid x0 dx s n).
Proof.
  intros Hdx Hk. unfold uniform_grid. apply Forall_forall. intros x Hx.
  apply in_map_iff in Hx. destruct Hx as [j [<- Hj]]. apply in_seq in Hj.
  assert (INR k < INR j) by (apply lt_INR; lia). nra.
Qed.

Lemma uniform_grid_last (x0 dx d : R) (s n : nat) :
  last (uniform_grid x0 dx s (S n)) d = x0 + INR (s + n) * dx.
Proof.
  replace (S n) with (n + 1)%nat by lia. rewrite uniform_grid_app.
  unfold uniform_grid at 2. cbn [seq map]. apply last_last.
Qed.

Lemma cumsum_from_last (acc d : R) (l : list R) :
  l <> [] -> last (Np.cumsum_from acc l) d = acc + Rsum l.
Proof.
  intro Hne. destruct (exists_last Hne) as [l' [a ->]].
  rewrite cumsum_from_app. cbn [Np.cumsum_from]. rewrite last_last, Rsum_app.
  simpl. lra.
Qed.

Lemma last_map (g : R -> R) (l : list R) (d : R) :
  last (map g l) (g d) = g (last l d).
Proof.
  induction l as [|a l IH]; [reflexivity|].
  destruct l as [|b l]; [reflexivity|]. exact IH.
Qed.

Lemma hd_app_nonempty (l1 l2 : list R) (d : R) :
  l1 <> [] -> hd d (l1 ++ l2) = hd d l1.
Proof. destruct l1; [contradiction | reflexivity]. Qed.

(** The probability below the grid point of index [length fa], for a
    density [fa ++ fi :: fb] on a uniform grid. *)
Lemma probability_below_grid_point (res : RNDResult) (x0 dx fi : R)
    (fa fb : list R) :
  0 < dx ->
  strikes res = uniform_grid x0 dx 0 (length (fa ++ fi :: fb)) ->
  density res = fa ++ fi :: fb ->
  probability_below res (x0 + INR (length fa) * dx)
  = dx * (Rsum fa + fi - (hd fi fa + fi) / 2).
Proof.
  intros Hdx Hx Hf.
  rewrite (probability_below_split res
             (uniform_grid x0 dx 0 (S (length fa)))
             (uniform_grid x0 dx (S (length fa)) (length fb))
             (fa ++ [fi]) fb).
  - replace (S (length fa)) with (length (fa ++ [fi]))
      by (rewrite length_app; simpl; lia).
    rewrite (trapz_uniform_list x0 dx (fa ++ [fi]) 0 fi)
      by (destruct fa; discriminate).
    rewrite Rsum_app, last_last. f_equal.
    replace (hd fi (fa ++ [fi])) with (hd fi fa) by (destruct fa; reflexivity).
    simpl. lra.
  - rewrite Hx, length_app. cbn [length].
    replace (length fa + S (length fb))%nat with (S (length fa) + length fb)%nat by lia.
    apply uniform_grid_app.
  - rewrite Hf, <- app_assoc. reflexivity.
  - rewrite length_app, uniform_grid_length. simpl. lia.
  - unfold uniform_grid. discriminate.
  - apply uniform_grid_below; [exact Hdx | lia].
  - apply uniform_grid_above; [exact Hdx | lia].
Qed.

(** [compute_quantiles] on a uniform grid of at least two points, for a
    density with positive sum: the CDF handed to [np.interp] is the
    cumulative sum divided by the total sum. *)
Lemma compute_quantiles_uniform (f : list R) (x0 dx q : R) :
  0 < dx -> (2 <= length f)%nat -> 0 < Rsum f ->
  MathUtils.compute_quantiles f (uniform_grid x0 dx 0 (length f)) [q]
  = inr [Np.interp1 q (map (fun v => v * dx / (Rsum f * dx)) (Np.cumsum_from 0 f))
                      (uniform_grid x0 dx 0 (length f))].
Proof.
  intros Hdx Hn Hs.
  destruct f as [|f0 [|f1 f]]; try (simpl in Hn; lia).
  set (fs := f0 :: f1 :: f) in *.
  assert (Hg : uniform_grid x0 dx 0 (length fs)
               = (x0 + INR 0 * dx) :: (x0 + INR 1 * dx)
                 :: uniform_grid x0 dx 2 (length f)) by reflexivity.
  unfold MathUtils.compute_quantiles. rewrite Hg at 1.
  replace (x0 + INR 1 * dx - (x0 + INR 0 * dx)) with dx by (simpl; lra).
  unfold Np.cumsum.
  assert (Hc : Np.cumsum_from 0 fs = (0 + f0) :: Np.cumsum_from (0 + f0) (f1 :: f))
    by reflexivity.
  rewrite Hc at 1. cbn [map].
  pose proof (last_map (fun v => v * dx) (Np.cumsum_from 0 fs) (0 + f0)) as Hl.
  cbv beta in Hl. rewrite Hl. clear Hl.
  rewrite cumsum_from_last by discriminate.
  replace (0 + Rsum fs) with (Rsum fs) by lra.
  rewrite Rltb_true by (apply Rmult_lt_0_compat; assumption).
  rewrite map_map, length_map, cumsum_from_length, uniform_grid_length.
  rewrite Nat.eqb_refl. reflexivity.
Qed.

Lemma div_le_of_le_mul (a b w : R) : 0 < w -> a <= b * w -> a / w <= b.
Proof.
  intros Hw H. apply Rmult_le_reg_r with w; [exact Hw|].
  unfold Rdiv. rewrite Rmult_assoc, Rinv_l by lra. lra.
Qed.

Lemma div_lt_of_lt_mul (a b w : R) : 0 < w -> a < b * w -> a / w < b.
Proof.
  intros Hw H. apply Rmult_lt_reg_r with w; [exact Hw|].
  unfold Rdiv. rewrite Rmult_assoc, Rinv_l by lra. lra.
Qed.

Lemma lt_div_of_mul_lt (a b w : R) : 0 < w -> b * w < a -> b < a / w.
Proof.
  intros Hw H. apply Rmult_lt_reg_r with w; [exact Hw|].
  unfold Rdiv. rewrite Rmult_assoc, Rinv_l by lra. lra.
Qed.

Lemma last_app_cons (l1 l2 : list R) (a d : R) :
  last (l1 ++ a :: l2) d = last l2 a.
Proof.
  induction l1 as [|b l1 IH]; [apply last_cons|].
  cbn [app]. rewrite last_cons. rewrite <- IH.
  destruct (l1 ++ a :: l2) eqn:E; [destruct l1; discriminate|].
  rewrite !last_cons. reflexivity.
Qed.

Lemma interp1_past_end_list (q : R) (c x : list R) :
  c <> [] -> length c = length x -> Forall (fun v => v <= q) c ->
  Np.interp1 q c x = last x 0.
Proof.
  intros Hne Hlen Hc. destruct c as [|c0 c]; [contradiction|].
  destruct x as [|x0 x]; [discriminate|].
  rewrite interp1_past_end; [|simpl in Hlen; lia | exact Hc].
  symmetry. apply last_cons.
Qed.

(** The two inequalities that place the probability below [x_i] between
    the normalised CDF at [x_(i-1)] and at [x_i]: [a], [b], [c] are the
    rectangle masses before, at and after index [i], [e0] and [eN] those of
    the two end points, [W] the total rectangle mass. *)
Lemma round_trip_bracket (a b c e0 eN W q : R) :
  0 <= e0 <= a -> 0 <= eN <= c -> 0 < b -> e0 <= b -> eN <= b ->
  W = a + b + c -> W = 1 + (e0 + eN) / 2 -> q = a + b / 2 - e0 / 2 ->
  a <= q * W /\ q * W < a + b.
Proof.
  intros Ha Hc Hb H0 HN HW HT Hq.
  assert (Hq0 : a <= q) by lra.
  assert (Hq1 : q < 1) by lra.
  assert (HW1 : 1 <= W) by lra.
  split.
  - assert (0 <= q * (W - 1)) by (apply Rmult_le_pos; lra). lra.
  - replace (q * W) with (q + q * ((e0 + eN) / 2)) by (rewrite HT; ring).
    destruct (Req_dec_T (e0 + eN) 0) as [E|E].
    + rewrite E. lra.
    + assert (0 < (e0 + eN) / 2) by lra.
      assert (q * ((e0 + eN) / 2) < 1 * ((e0 + eN) / 2))
        by (apply Rmult_lt_compat_r; lra).
      lra.
Qed.

(** On the grid [0..4] with density [32/23, 2/23, 2/23, 2/23, 2/23] (positive,
    integrating to one) the probability below the grid point [2] is [19/23],
    and the quantile at that level is [12/23]: more than one grid step away
    from [2]. *)
Lemma quantile_round_trip_fails :
  Forall (fun f => 0 < f) (density left_heavy_rnd)
  /\ Np.trapz (density left_heavy_rnd) (strikes left_heavy_rnd) = 1
  /\ nth 2 (strikes left_heavy_rnd) 0 = 2
  /\ nth 1 (strikes left_heavy_rnd) 0 - nth 0 (strikes left_heavy_rnd) 0 = 1
  /\ probability_below left_heavy_rnd 2 = 19 / 23
  /\ MathUtils.compute_quantiles (density left_heavy_rnd) (strikes left_heavy_rnd)
       [probability_below left_heavy_rnd 2] = inr [12 / 23]
  /\ ~ Rabs (12 / 23 - 2) <= 1.
Proof.
  assert (Hp : probability_below left_heavy_rnd 2 = 19 / 23).
  { unfold probability_below, left_heavy_rnd. reval. lra. }
  split; [repeat constructor; simpl; lra|].
  split; [unfold left_heavy_rnd; simpl; lra|].
  split; [reflexivity|]. split; [simpl; lra|]. split; [exact Hp|].
  split.
  - rewrite Hp. unfold MathUtils.compute_quantiles, left_heavy_rnd, Np.cumsum.
    cbn [density strikes Np.cumsum_from map last].
    rewrite Rltb_true by lra. cbn [map length Nat.eqb]. unfold Np.interp, ret.
    cbn [map Np.interp1 Np.interp_from].
    rewrite (Rltb_false (19 / 23)) by lra.
    rewrite (Rltb_true (19 / 23)) by lra.
    do 2 f_equal. field.
  - rewrite Rabs_left by lra. lra.
Qed.

(** C7, as the code has it. On a uniform grid with positive step, for a
    non-negative density [fa ++ fi :: fb] that integrates to one and whose
    value [fi] at the grid point [x_i] (index [length fa]) is positive and
    at least the values at the two ends of the grid, the quantile at level
    [probability_below x_i] lies in [[x_i - dx, x_i]]. *)
Theorem quantile_round_trip (res : RNDResult) (x0 dx fi : R) (fa fb : list R) :
  let xi := x0 + INR (length fa) * dx in
  0 < dx ->
  (2 <= length (density res))%nat ->
  strikes res = uniform_grid x0 dx 0 (length (density res)) ->
  density res = fa ++ fi :: fb ->
  Forall (fun f => 0 <= f) (density res) ->
  Np.trapz (density res) (strikes res) = 1 ->
  hd fi fa <= fi -> last fb fi <= fi -> 0 < fi ->
  exists q,
    MathUtils.compute_quantiles (density res) (strikes res) [probability_below res xi]
    = inr [q]
    /\ xi - dx <= q <= xi.
Proof.
  intros xi Hdx Hn Hx Hf Hnn Hint H0 HN Hfi.
  pose proof Hx as Hx'. rewrite Hf in Hx'.
  pose proof (probability_below_grid_point res x0 dx fi fa fb Hdx Hx' Hf) as Hp.
  fold xi in Hp. rewrite Hp. clear Hp.
  rewrite Hx, Hf in Hint.
  rewrite (trapz_uniform_list x0 dx (fa ++ fi :: fb) 0 fi) in Hint
    by (destruct fa; discriminate).
  rewrite Rsum_app, last_app_cons in Hint. cbn [Rsum fold_right] in Hint.
  fold (Rsum fb) in Hint.
  replace (hd fi (fa ++ fi :: fb)) with (hd fi fa) in Hint
    by (destruct fa; reflexivity).
  rewrite Hf in Hnn. apply Forall_app in Hnn. destruct Hnn as [Hna Hnb].
  inversion Hnb as [|? ? _ Hnb']; subst. clear Hnb.
  pose proof (Rsum_nonneg fa Hna) as HSA. pose proof (Rsum_nonneg fb Hnb') as HSB.
  assert (HS : 0 < Rsum (fa ++ fi :: fb)).
  { rewrite Rsum_app. cbn [Rsum fold_right]. fold (Rsum fb). lra. }
  rewrite Hx, Hf. rewrite compute_quantiles_uniform; [|exact Hdx | rewrite <- Hf; exact Hn | exact HS].
  eexists. split; [reflexivity|].
  set (W := Rsum (fa ++ fi :: fb) * dx).
  assert (HW : 0 < W) by (apply Rmult_lt_0_compat; assumption).
  assert (HWe : W = Rsum fa * dx + fi * dx + Rsum fb * dx).
  { unfold W. rewrite Rsum_app. cbn [Rsum fold_right]. fold (Rsum fb). ring. }
  set (q := dx * (Rsum fa + fi - (hd fi fa + fi) / 2)).
  set (g := fun v => v * dx / W).
  assert (Hg : forall u v, u <= v -> g u <= g v).
  { intros u v Huv. unfold g, Rdiv. apply Rmult_le_compat_r.
    - left. apply Rinv_0_lt_compat. exact HW.
    - apply Rmult_le_compat_r; lra. }
  assert (Hcases : forall l : list R, l = [] \/ l <> [])
    by (intros [|? ?]; [left; reflexivity | right; discriminate]).
  destruct (Hcases fa) as [Efa|Hne].
  - (* the first grid point *)
    subst fa. subst xi q W. cbn [app length] in *. cbn [Np.cumsum_from map uniform_grid seq].
    unfold uniform_grid. cbn [seq map Np.interp1].
    rewrite Rltb_true.
    + simpl. lra.
    + cbn [hd Rsum fold_right].
      replace (dx * (0 + fi - (fi + fi) / 2)) with 0 by lra.
      apply Rdiv_lt_0_compat; [|exact HW]. apply Rmult_lt_0_compat; lra.
  - assert (HF0 : 0 <= hd fi fa <= Rsum fa).
    { split; [|apply Rsum_ge_hd; assumption].
      destruct fa; [contradiction|]. inversion Hna; subst. simpl. assumption. }
    destruct (Hcases fb) as [Efb|Hnb].
    + (* the last grid point *)
      subst fb. cbn [last Rsum fold_right] in Hint.
      assert (Hq : q = 1) by (unfold q; lra).
      rewrite interp1_past_end_list.
      * rewrite length_app. cbn [length].
        replace (length fa + 1)%nat with (S (length fa)) by lia.
        rewrite uniform_grid_last. unfold xi. cbn [Nat.add]. lra.
      * destruct fa; discriminate.
      * rewrite length_map, cumsum_from_length, uniform_grid_length. reflexivity.
      * apply Forall_forall. intros c Hc. apply in_map_iff in Hc.
        destruct Hc as [v [<- Hv]].
        assert (Hb : Forall (fun c => 0 <= c <= 0 + Rsum (fa ++ [fi]))
                            (Np.cumsum_from 0 (fa ++ [fi]))).
        { apply cumsum_from_bounds. apply Forall_app. split; [exact Hna|].
          repeat constructor. lra. }
        rewrite Forall_forall in Hb. pose proof (Hb v Hv) as Hv'.
        rewrite Hq. fold (g v).
        apply Rle_trans with (g (Rsum (fa ++ [fi]))); [apply Hg; lra|].
        unfold g, W. right. field. split; lra.
    + (* an interior grid point *)
      assert (HFN : 0 <= last fb fi <= Rsum fb).
      { split; [|apply Rsum_ge_last; assumption].
        destruct (exists_last Hnb) as [l [z E]]. rewrite E, last_last.
        rewrite E in Hnb'. apply Forall_app in Hnb'. destruct Hnb' as [_ Hz].
        inversion Hz; subst. assumption. }
      destruct (exists_last Hne) as [fa0 [fl Efl]].
      assert (Hfl : Rsum fa = Rsum fa0 + fl)
        by (rewrite Efl, Rsum_app; simpl; lra).
      assert (Hna0 : Forall (fun v => 0 <= v) fa0).
      { rewrite Efl in Hna. apply Forall_app in Hna. tauto. }
      assert (Hfl0 : 0 <= fl).
      { rewrite Efl in Hna. apply Forall_app in Hna. destruct Hna as [_ Hz].
        inversion Hz; subst. assumption. }
      destruct (round_trip_bracket (Rsum fa * dx) (fi * dx) (Rsum fb * dx)
                  (hd fi fa * dx) (last fb fi * dx) W q) as [Hlo Hhi]; try nra.
      { unfold q. lra. }
      assert (Hcum : Np.cumsum_from 0 (fa ++ fi :: fb)
                     = Np.cumsum_from 0 fa0
                       ++ Rsum fa :: (Rsum fa + fi)
                       :: Np.cumsum_from (Rsum fa + fi) fb).
      { rewrite Efl at 1. rewrite <- app_assoc. cbn [app].
        rewrite cumsum_from_app. cbn [Np.cumsum_from].
        rewrite Hfl. repeat f_equal; lra. }
      assert (Hgrid : uniform_grid x0 dx 0 (length (fa ++ fi :: fb))
                      = uniform_grid x0 dx 0 (length fa0)
                        ++ (x0 + INR (length fa0) * dx)
                        :: (x0 + INR (S (length fa0)) * dx)
                        :: uniform_grid x0 dx (S (S (length fa0))) (length fb)).
      { rewrite Efl at 1. rewrite <- app_assoc. cbn [app].
        rewrite length_app. cbn [length].
        replace (length fa0 + S (S (length fb)))%nat
          with (length fa0 + (S (S (length fb))))%nat by lia.
        rewrite uniform_grid_app. reflexivity. }
      rewrite Hcum, Hgrid, map_app. cbn [map].
      rewrite interp1_segment.
      * assert (Hi : INR (length fa) = INR (length fa0) + 1).
        { rewrite Efl, length_app, plus_INR. simpl. lra. }
        unfold xi. rewrite Hi, S_INR.
        assert (Hd : 0 < g (Rsum fa + fi) - g (Rsum fa)).
        { unfold g. replace ((Rsum fa + fi) * dx / W - Rsum fa * dx / W)
            with (fi * dx / W) by (field; lra).
          apply Rdiv_lt_0_compat; [apply Rmult_lt_0_compat|]; assumption. }
        fold (g (Rsum fa + fi)). fold (g (Rsum fa)).
        assert (Hqa : g (Rsum fa) <= q).
        { unfold g. apply div_le_of_le_mul; [exact HW | exact Hlo]. }
        assert (Hqb : q < g (Rsum fa + fi)).
        { unfold g. apply lt_div_of_mul_lt; [exact HW|]. lra. }
        set (t := (q - g (Rsum fa)) / (g (Rsum fa + fi) - g (Rsum fa))).
        assert (Ht : 0 <= t < 1).
        { unfold t. split.
          - apply Rmult_le_pos; [lra|]. left. apply Rinv_0_lt_compat. lra.
          - apply div_lt_of_lt_mul; lra. }
        replace ((x0 + (INR (length fa0) + 1) * dx - (x0 + INR (length fa0) * dx))
                 / (g (Rsum fa + fi) - g (Rsum fa)) * (q - g (Rsum fa))
                 + (x0 + INR (length fa0) * dx))
          with (x0 + INR (length fa0) * dx + dx * t)
          by (unfold t; field; lra).
        nra.
      * rewrite length_map, cumsum_from_length, uniform_grid_length. reflexivity.
      * apply Forall_forall. intros c Hc. apply in_map_iff in Hc.
        destruct Hc as [v [<- Hv]].
        pose proof (cumsum_from_bounds 0 fa0 Hna0) as Hb.
        rewrite Forall_forall in Hb. specialize (Hb v Hv).
        fold (g v). apply Rle_trans with (g (Rsum fa)).
        -- apply Hg. lra.
        -- unfold g. apply div_le_of_le_mul; [exact HW | exact Hlo].
      * apply div_le_of_le_mul; [exact HW | exact Hlo].
      * apply lt_div_of_mul_lt; [exact HW|]. lra.
Qed.

Lemma quantile_round_trip_witness :
  exists q,
    MathUtils.compute_quantiles (density triangle_rnd) (strikes triangle_rnd)
      [probability_below triangle_rnd (0 + INR 1 * 1)] = inr [q]
    /\ 0 + INR 1 * 1 - 1 <= q <= 0 + INR 1 * 1.
Proof.
  apply (quantile_round_trip triangle_rnd 0 1 1 [0] [0]).
  - lra.
  - simpl. lia.
  - reflexivity.
  - reflexivity.
  - repeat constructor; simpl; lra.
  - simpl. lra.
  - simpl. lra.
  - simpl. lra.
  - lra.
Defined.

End Quantiles.

(** ** Reasoning about the object store *)

Section HeapLogic.

Import Mem ChainCleaner.

Lemma extends_refl (h : Heap) : extends h h.
Proof. exists []. rewrite app_nil_r. reflexivity. Qed.

Lemma extends_lookup (h0 h : Heap) (r : ref) (df : Pd.DataFrame) :
  extends h0 h -> nth_error h0 r = Some df -> nth_error h r = Some df.
Proof.
  intros [ext ->] H. rewrite nth_error_app1; [exact H|].
  apply nth_error_Some. rewrite H. discriminate.
Qed.

Lemma newest_extends (h0 : Heap) (P : Pd.DataFrame -> Prop) (r : ref) (h : Heap) :
  newest h0 P r h -> extends h0 h.
Proof.
  intros [ext [df [-> _]]]. exists (ext ++ [df]). rewrite app_assoc. reflexivity.
Qed.

Lemma newest_fresh (h0 : Heap) (P : Pd.DataFrame -> Prop) (r : ref) (h : Heap) :
  newest h0 P r h -> (length h0 <= r)%nat.
Proof. intros [ext [df [_ [-> _]]]]. rewrite length_app. lia. Qed.

Lemma newest_lookup (h0 : Heap) (P : Pd.DataFrame -> Prop) (r : ref) (h : Heap) :
  newest h0 P r h -> exists df, nth_error h r = Some df /\ P df.
Proof.
  intros [ext [df [-> [-> HP]]]]. exists df. split; [|exact HP].
  rewrite nth_error_app2 by lia. rewrite Nat.sub_diag. reflexivity.
Qed.

Lemma update_newest (h : Heap) (df df' : Pd.DataFrame) :
  update (length h) df' (h ++ [df]) = h ++ [df'].
Proof. induction h as [|d h IH]; simpl; [reflexivity | rewrite IH; reflexivity]. Qed.

Lemma triple_bind {A B : Type} (Pre : Heap -> Prop) (m : M A) (k : A -> M B)
    (Mid : A -> Heap -> Prop) (Post : B -> Heap -> Prop) (Exn : Heap -> Prop) :
  triple Pre m Mid Exn ->
  (forall a, triple (Mid a) (k a) Post Exn) ->
  triple Pre (mbind m k) Post Exn.
Proof.
  intros Hm Hk h HP. unfold mbind. specialize (Hm h HP).
  destruct (m h) as [[e|a] h']; [exact Hm|]. apply (Hk a h' Hm).
Qed.

Lemma triple_ret {A : Type} (Pre : Heap -> Prop) (a : A)
    (Post : A -> Heap -> Prop) (Exn : Heap -> Prop) :
  (forall h, Pre h -> Post a h) -> triple Pre (mret a) Post Exn.
Proof. intros H h HP. apply H, HP. Qed.

Lemma triple_raise {A : Type} (Pre : Heap -> Prop) (msg : string)
    (Post : A -> Heap -> Prop) (Exn : Heap -> Prop) :
  (forall h, Pre h -> Exn h) -> triple Pre (mraise msg) Post Exn.
Proof. intros H h HP. apply H, HP. Qed.

Lemma triple_conseq {A : Type} (Pre Pre' : Heap -> Prop) (m : M A)
    (Post Post' : A -> Heap -> Prop) (Exn Exn' : Heap -> Prop) :
  triple Pre' m Post' Exn' ->
  (forall h, Pre h -> Pre' h) ->
  (forall a h, Post' a h -> Post a h) ->
  (forall h, Exn' h -> Exn h) ->
  triple Pre m Post Exn.
Proof.
  intros Hm H1 H2 H3 h HP. specialize (Hm h (H1 h HP)).
  destruct (m h) as [[e|a] h']; auto.
Qed.

(** The operations on the newest object. *)

Lemma triple_read_newest (h0 : Heap) (P : Pd.DataFrame -> Prop) (r : ref) :
  triple (newest h0 P r) (read r)
         (fun d h => P d /\ newest h0 (eq d) r h) (extends h0).
Proof.
  intros h [ext [df [-> [-> HP]]]]. unfold read.
  rewrite nth_error_app2 by lia. rewrite Nat.sub_diag. cbn.
  split; [exact HP|]. exists ext, df. auto.
Qed.

Lemma triple_alloc (h0 : Heap) (P : Pd.DataFrame -> Prop) (df : Pd.DataFrame) :
  P df ->
  triple (extends h0) (alloc df) (fun r h => newest h0 P r h) (extends h0).
Proof.
  intros HP h [ext ->]. unfold alloc. exists ext, df. auto.
Qed.

Lemma triple_getitem (h0 : Heap) (P Q : Pd.DataFrame -> Prop) (r : ref)
    (keep : Pd.Row -> bool) :
  (forall df, P df -> Q (Pd.filter_rows keep df)) ->
  triple (newest h0 P r) (getitem r keep) (fun r' h => newest h0 Q r' h) (extends h0).
Proof.
  intros HPQ h [ext [df [-> [-> HP]]]]. unfold getitem, mbind, read, alloc.
  rewrite nth_error_app2 by lia. rewrite Nat.sub_diag. cbn.
  exists (ext ++ [df]), (Pd.filter_rows keep df).
  rewrite !app_assoc. auto.
Qed.

Lemma triple_copy (h0 : Heap) (P : Pd.DataFrame -> Prop) (r : ref) :
  triple (newest h0 P r) (copy r) (fun r' h => newest h0 P r' h) (extends h0).
Proof.
  intros h [ext [df [-> [-> HP]]]]. unfold copy, mbind, read, alloc.
  rewrite nth_error_app2 by lia. rewrite Nat.sub_diag. cbn.
  exists (ext ++ [df]), df. rewrite !app_assoc. auto.
Qed.

Lemma triple_setitem (h0 : Heap) (P Q : Pd.DataFrame -> Prop) (r : ref)
    (name : string) (upd : Pd.Row -> Pd.Row) :
  (forall df, P df -> Q (Pd.assign name upd df)) ->
  triple (newest h0 P r) (setitem r name upd) (fun _ h => newest h0 Q r h) (extends h0).
Proof.
  intros HPQ h [ext [df [-> [-> HP]]]]. unfold setitem, mbind, read, write.
  rewrite nth_error_app2 by lia. rewrite Nat.sub_diag. cbn.
  rewrite update_newest. exists ext, (Pd.assign name upd df). auto.
Qed.

Lemma triple_column (h0 : Heap) (P : Pd.DataFrame -> Prop) (r : ref) (name : string) :
  triple (newest h0 P r) (column r name)
         (fun _ h => newest h0 (fun df => P df /\ Pd.has_col name df = true) r h)
         (extends h0).
Proof.
  intros h [ext [df [-> [-> HP]]]]. unfold column, mbind, read, lift.
  rewrite nth_error_app2 by lia. rewrite Nat.sub_diag. cbn. unfold Pd.require.
  destruct (Pd.has_col name df) eqn:E; cbn.
  - exists ext, df. auto.
  - exists (ext ++ [df]). rewrite app_assoc. reflexivity.
Qed.

Lemma newest_weaken (h0 : Heap) (P Q : Pd.DataFrame -> Prop) (r : ref) (h : Heap) :
  (forall df, P df -> Q df) -> newest h0 P r h -> newest h0 Q r h.
Proof. intros HPQ [ext [df [E [Er HP]]]]. exists ext, df. auto. Qed.

Lemma triple_read_old (h0 : Heap) (r : ref) (c : Pd.DataFrame) :
  nth_error h0 r = Some c ->
  triple (eq h0) (read r) (fun d h => d = c /\ h = h0) (extends h0).
Proof. intros H h <-. unfold read. rewrite H. auto. Qed.

Lemma triple_copy_old (h0 : Heap) (r : ref) (c : Pd.DataFrame) :
  nth_error h0 r = Some c ->
  triple (eq h0) (copy r) (fun r' h => newest h0 (eq c) r' h) (extends h0).
Proof.
  intros H h <-. unfold copy, mbind, read, alloc. rewrite H. cbn.
  exists [], c. rewrite app_nil_r. auto.
Qed.

Lemma has_col_assign_same (name : string) (upd : Pd.Row -> Pd.Row) (df : Pd.DataFrame) :
  Pd.has_col name (Pd.assign name upd df) = true.
Proof.
  unfold Pd.assign.
  destruct (Pd.has_col name df) eqn:E; unfold Pd.has_col in *; cbn [Pd.columns].
  - exact E.
  - rewrite existsb_app. cbn [existsb]. rewrite String.eqb_refl.
    apply orb_true_iff. right. reflexivity.
Qed.

Lemma has_col_assign_other (name name' : string) (upd : Pd.Row -> Pd.Row)
    (df : Pd.DataFrame) :
  Pd.has_col name df = true -> Pd.has_col name (Pd.assign name' upd df) = true.
Proof.
  intro H. unfold Pd.assign.
  destruct (Pd.has_col name' df); unfold Pd.has_col in *; cbn [Pd.columns].
  - exact H.
  - rewrite existsb_app, H. reflexivity.
Qed.

Lemma triple_pure {A : Type} (phi : Prop) (Pre : Heap -> Prop) (m : M A)
    (Post : A -> Heap -> Prop) (Exn : Heap -> Prop) :
  (phi -> triple Pre m Post Exn) -> triple (fun h => phi /\ Pre h) m Post Exn.
Proof. intros H h [Hphi HP]. apply (H Hphi h HP). Qed.

Lemma triple_newest_ret (h0 : Heap) (P Q : Pd.DataFrame -> Prop) (r : ref) :
  (forall df, P df -> Q df) ->
  triple (newest h0 P r) (mret r) (fun r' h => newest h0 Q r' h) (extends h0).
Proof. intros HPQ. apply triple_ret. intros h H. exact (newest_weaken _ _ _ _ _ HPQ H). Qed.

End HeapLogic.

(** ** The cleaner works on copies *)

Section CleanerFrames.

Import Mem ChainCleaner Samples.

(** One step [column ;; ...] or [_ <~ m ;; ...] of a triple. *)
Tactic Notation "step_with" uconstr(lem) := eapply triple_bind; [eapply lem|].

Lemma clean_triple (self : ChainCleaner) (chain : ref) (trade_date : option Z)
    (h0 : Heap) (c : Pd.DataFrame) :
  nth_error h0 chain = Some c ->
  triple (eq h0) (clean self chain trade_date)
    (fun res h =>
       if Pd.empty c then res = chain /\ h = h0
       else newest h0
              (fun df => Pd.has_col "mid" df = true
                         /\ (forall today, trade_date = Some today ->
                                           Pd.has_col "expiry" c = true ->
                                           Pd.has_col "dte" df = true))
              res h)
    (extends h0).
Proof.
  intro Hc. unfold clean.
  set (Inv := fun df : Pd.DataFrame =>
                Pd.has_col "mid" df = true
                /\ (Pd.has_col "expiry" c = true -> Pd.has_col "expiry" df = true)).
  set (Fin := fun df : Pd.DataFrame =>
                Pd.has_col "mid" df = true
                /\ (forall today, trade_date = Some today ->
                                  Pd.has_col "expiry" c = true ->
                                  Pd.has_col "dte" df = true)).
  step_with (triple_read_old h0 chain c Hc). intros d h [Hd Hh]. subst d h.
  destruct (Pd.empty c) eqn:Eempty; [cbn; auto|].
  refine ((_ : triple (eq h0) _ (fun res h => newest h0 Fin res h) (extends h0))
            h0 eq_refl).
  step_with (triple_copy_old h0 chain c Hc). intros df.
  step_with triple_read_newest. intros d. apply triple_pure. intros Hd. subst d.
  (* mid *)
  apply triple_bind with (Mid := fun _ h => newest h0 Inv df h).
  { destruct (Pd.has_col "mid" c) eqn:Em; cbn [negb].
    - apply triple_ret. intros h H. eapply newest_weaken; [|exact H].
      intros x Hx. subst x. split; auto.
    - step_with triple_column. intros []. step_with triple_column. intros [].
      eapply triple_setitem. intros x [[Hx _] _]. subst x. split.
      + apply has_col_assign_same.
      + intro He. apply has_col_assign_other. exact He. }
  intros [].
  step_with triple_column. intros []. step_with triple_column. intros [].
  (* valid quotes *)
  step_with (triple_getitem h0 _ Inv). { intros x [[HI _] _]. exact HI. }
  intros df1.
  (* volume *)
  apply triple_bind with (Mid := fun r h => newest h0 Inv r h).
  { destruct (0 <? min_volume self)%Z.
    - step_with triple_column. intros [].
      eapply (triple_getitem h0 _ Inv). intros x [HI _]. exact HI.
    - apply triple_newest_ret. auto. }
  intros df2.
  (* open interest *)
  apply triple_bind with (Mid := fun r h => newest h0 Inv r h).
  { destruct (0 <? min_oi self)%Z.
    - step_with triple_column. intros [].
      eapply (triple_getitem h0 _ Inv). intros x [HI _]. exact HI.
    - apply triple_newest_ret. auto. }
  intros df3.
  (* spread *)
  apply triple_bind with (Mid := fun r h => newest h0 Inv r h).
  { destruct (Rltb 0 (max_spread_pct self)).
    - step_with triple_column. intros []. step_with triple_column. intros [].
      step_with triple_column. intros [].
      eapply (triple_getitem h0 _ Inv). intros x [[[HI _] _] _]. exact HI.
    - apply triple_newest_ret. auto. }
  intros df4.
  step_with triple_read_newest. intros d. apply triple_pure. intros [Hmid Hexp].
  (* days to expiry *)
  apply triple_bind with (Mid := fun r h => newest h0 Fin r h).
  { destruct trade_date as [today|].
    - destruct (Pd.has_col "expiry" d) eqn:Ee.
      + step_with (triple_setitem h0 _ (fun x => Pd.has_col "mid" x = true
                                                 /\ Pd.has_col "dte" x = true)).
        { intros x Hx. subst x. split.
          - apply has_col_assign_other. exact Hmid.
          - apply has_col_assign_same. }
        intros []. eapply (triple_getitem h0 _ Fin). intros x [H1 H2].
        split; [exact H1|]. intros; exact H2.
      + apply triple_newest_ret. intros x Hx. subst x. split; [exact Hmid|].
        intros today' _ He. specialize (Hexp He). discriminate.
    - apply triple_newest_ret. intros x Hx. subst x. split; [exact Hmid|].
      discriminate. }
  intros df5. apply triple_copy.
Qed.

Lemma triple_lift {A : Type} (Pre : Heap -> Prop) (e : Exc A) (Exn : Heap -> Prop) :
  (forall h, Pre h -> Exn h) ->
  triple Pre (lift e) (fun a h => e = inr a /\ Pre h) Exn.
Proof. intros H h HP. unfold lift. destruct e; auto. Qed.

Lemma triple_alloc_newest (h0 : Heap) (P0 P : Pd.DataFrame -> Prop) (r0 : ref)
    (df : Pd.DataFrame) :
  P df ->
  triple (newest h0 P0 r0) (alloc df) (fun r h => newest h0 P r h) (extends h0).
Proof.
  intro HP. eapply triple_conseq; [apply (triple_alloc h0 P df HP)| | |]; auto.
  intros h H. exact (newest_extends _ _ _ _ H).
Qed.

Lemma build_otm_chain_triple (chain : ref) (spot r : R) (return_quality : bool)
    (h0 : Heap) (c : Pd.DataFrame) :
  nth_error h0 chain = Some c ->
  triple (eq h0) (build_otm_chain chain spot r return_quality)
    (fun res h =>
       if Pd.empty c then fst res = chain /\ h = h0
       else exists out,
              expiry_loop (Pd.rows (with_mid c)) spot r
                (Pd.unique (map Pd.expiry (Pd.rows (with_mid c)))) [] [] = inr out
              /\ newest h0
                   (eq (Pd.mkDF otm_columns (Pd.sort_by by_expiry_strike (fst out))))
                   (fst res) h)
    (extends h0).
Proof.
  intro Hc. unfold build_otm_chain.
  step_with (triple_read_old h0 chain c Hc). intros d h [Hd Hh]. subst d h.
  destruct (Pd.empty c) eqn:Eempty; [cbn; auto|].
  refine ((_ : triple (eq h0) _
                 (fun res h => exists out,
                    expiry_loop (Pd.rows (with_mid c)) spot r
                      (Pd.unique (map Pd.expiry (Pd.rows (with_mid c)))) [] []
                    = inr out
                    /\ newest h0
                         (eq (Pd.mkDF otm_columns
                                (Pd.sort_by by_expiry_strike (fst out))))
                         (fst res) h)
                 (extends h0))
            h0 eq_refl).
  step_with (triple_copy_old h0 chain c Hc). intros df.
  step_with triple_read_newest. intros d. apply triple_pure. intros Hd. subst d.
  apply triple_bind with (Mid := fun _ h => newest h0 (eq (with_mid c)) df h).
  { unfold with_mid. destruct (Pd.has_col "mid" c) eqn:Em; cbn [negb].
    - apply triple_ret. auto.
    - step_with triple_column. intros []. step_with triple_column. intros [].
      eapply triple_setitem. intros x [[Hx _] _]. subst x. reflexivity. }
  intros [].
  step_with triple_read_newest. intros d. apply triple_pure. intros Hd. subst d.
  destruct (negb (Pd.has_col "dte" (with_mid c))).
  { apply triple_raise. intros h H. exact (newest_extends _ _ _ _ H). }
  step_with triple_column. intros []. step_with triple_column. intros [].
  step_with triple_column. intros [].
  step_with triple_lift. { intros h H. exact (newest_extends _ _ _ _ H). }
  intros out. apply triple_pure. intro Hout.
  destruct (fst out) as [|row rows] eqn:Eout.
  - step_with (triple_alloc_newest h0 _ (eq (Pd.mkDF otm_columns []))).
    + reflexivity.
    + intros res. apply triple_ret. intros h H. exists out. split; [exact Hout|].
      rewrite Eout. exact H.
  - step_with (triple_alloc_newest h0 _
                 (eq (Pd.mkDF otm_columns
                        (Pd.sort_by by_expiry_strike (row :: rows))))).
    + reflexivity.
    + intros res. apply triple_ret. intros h H. exists out. split; [exact Hout|].
      rewrite Eout. exact H.
Qed.

(** C9. Whatever [clean] and [build_otm_chain] do, return or raise, the
    heap they leave extends the one they were given: every object the caller
    had, the input chain among them, is unchanged. For a non-empty chain
    [clean] returns a new object, which has the [mid] column and, given a
    trade date and an [expiry] column, the [dte] column. *)
Theorem cleaner_leaves_input_unchanged (self : ChainCleaner) (chain : ref)
    (trade_date : option Z) (spot r : R) (return_quality : bool)
    (h0 : Heap) (c : Pd.DataFrame) :
  nth_error h0 chain = Some c ->
  let cleaned := clean self chain trade_date h0 in
  let built := build_otm_chain chain spot r return_quality h0 in
  (extends h0 (snd cleaned) /\ nth_error (snd cleaned) chain = Some c)
  /\ (extends h0 (snd built) /\ nth_error (snd built) chain = Some c)
  /\ (forall res, fst cleaned = inr res -> Pd.empty c = false ->
        res <> chain
        /\ exists df, nth_error (snd cleaned) res = Some df
                      /\ Pd.has_col "mid" df = true
                      /\ (forall today, trade_date = Some today ->
                                        Pd.has_col "expiry" c = true ->
                                        Pd.has_col "dte" df = true)).
Proof.
  intros Hc cleaned built.
  pose proof (clean_triple self chain trade_date h0 c Hc h0 eq_refl) as Hclean.
  pose proof (build_otm_chain_triple chain spot r return_quality h0 c Hc h0 eq_refl)
    as Hbuilt.
  fold cleaned in Hclean. fold built in Hbuilt.
  assert (Hlt : (chain < length h0)%nat)
    by (apply nth_error_Some; rewrite Hc; discriminate).
  assert (E1 : extends h0 (snd cleaned)).
  { destruct cleaned as [[e|res] h1]; [exact Hclean|]. cbn [snd].
    destruct (Pd.empty c).
    - destruct Hclean as [_ ->]. apply extends_refl.
    - exact (newest_extends _ _ _ _ Hclean). }
  assert (E2 : extends h0 (snd built)).
  { destruct built as [[e|res] h2]; [exact Hbuilt|]. cbn [snd].
    destruct (Pd.empty c).
    - destruct Hbuilt as [_ ->]. apply extends_refl.
    - destruct Hbuilt as [out [_ H]]. exact (newest_extends _ _ _ _ H). }
  split; [split; [exact E1 | exact (extends_lookup _ _ _ _ E1 Hc)]|].
  split; [split; [exact E2 | exact (extends_lookup _ _ _ _ E2 Hc)]|].
  intros res Hres Hne. destruct cleaned as [[e|res'] h1]; [discriminate|].
  cbn [fst snd] in *. injection Hres as ->. rewrite Hne in Hclean.
  pose proof (newest_fresh _ _ _ _ Hclean) as Hfresh.
  split; [lia|]. destruct (newest_lookup _ _ _ _ Hclean) as [df [Hdf [Hm Hd]]].
  exists df. auto.
Qed.

Lemma cleaner_leaves_input_unchanged_witness :
  let h0 := [raw_chain] in
  let cleaned := clean (mkCleaner 10 100 (20 / 100) 1 365) 0%nat (Some 0%Z) h0 in
  let built := build_otm_chain 0%nat 100 0 true h0 in
  nth_error (snd cleaned) 0%nat = Some raw_chain
  /\ nth_error (snd built) 0%nat = Some raw_chain.
Proof.
  intros h0 cleaned built.
  destruct (cleaner_leaves_input_unchanged (mkCleaner 10 100 (20 / 100) 1 365) 0%nat
              (Some 0%Z) 100 0 true h0 raw_chain eq_refl)
    as [[_ H1] [[_ H2] _]].
  split; [exact H1 | exact H2].
Defined.

End CleanerFrames.

(** ** The OTM chain at an ATM strike *)

Section OtmChain.

Import Mem ChainCleaner Samples.

(** A call and a put both quoted at 99.5 with the spot at 100 (rate 0): the
    call, mid 3, is in the ATM band; the OTM chain has one row at that
    strike, the synthetic call from the put, mid 2.5. *)
Lemma real_call_does_not_win :
  Pd.right atm_call = "C"
  /\ 100 * (99 / 100) <= Pd.strike atm_call <= 100 * (101 / 100)
  /\ Pd.mid atm_call = 3
  /\ exists res h frame,
       build_otm_chain 0%nat 100 0 false [atm_chain] = (inr (res, None), h)
       /\ nth_error h res = Some frame
       /\ rows_at 30 (995 / 10) (Pd.rows frame)
          = [otm_record 30 (995 / 10) (5 / 2) "put_synthetic"]
       /\ Forall (fun row => Pd.mid row <> Pd.mid atm_call)
                 (rows_at 30 (995 / 10) (Pd.rows frame)).
Proof.
  split; [reflexivity|]. split; [simpl; lra|]. split; [reflexivity|].
  assert (Hexp : exp (- 0 * (30 / 365)) = 1).
  { replace (- 0 * (30 / 365)) with 0 by lra. apply exp_0. }
  assert (Hloop : expiry_loop [atm_call; atm_put] 100 0 [30%Z] [] []
                  = inr ([otm_record 30 (995 / 10) (5 / 2) "put_synthetic"],
                         [(30%Z, ChainQuality.mkMetrics 2 2 1 0 1 [995 / 10] 100)])).
  { unfold expiry_loop, process_expiry, atm_call, atm_put, add_otm_put,
      add_atm_call, add_otm_call, otm_record.
    reval. rewrite Hexp.
    replace (2 + 100 - 995 / 10 * 1) with (5 / 2) by lra. reval. reflexivity. }
  do 3 eexists. split; [|split; [|split]].
  - unfold build_otm_chain, copy, column, setitem, mbind, read, alloc, lift, mret.
    cbn [nth_error atm_chain Pd.empty Pd.columns Pd.rows length app Pd.has_col
         existsb String.eqb Ascii.eqb Bool.eqb negb orb Pd.require ret map
         Pd.expiry Pd.unique filter].
    cbn -[expiry_loop]. rewrite Hloop. cbn. reflexivity.
  - cbn. reflexivity.
  - unfold rows_at, otm_record. reval. reflexivity.
  - unfold rows_at, otm_record. reval. repeat constructor. simpl. lra.
Qed.

Lemma insert_by_perm {A : Type} (le : A -> A -> bool) (x : A) (l : list A) :
  Permutation (Pd.insert_by le x l) (x :: l).
Proof.
  induction l as [|y l IH]; simpl; [apply Permutation_refl|].
  destruct (le x y); [apply Permutation_refl|].
  apply perm_trans with (y :: x :: l); [apply perm_skip, IH | apply perm_swap].
Qed.

Lemma sort_by_perm {A : Type} (le : A -> A -> bool) (l : list A) :
  Permutation (Pd.sort_by le l) l.
Proof.
  induction l as [|x l IH]; simpl; [apply perm_nil|].
  apply perm_trans with (x :: Pd.sort_by le l);
    [apply insert_by_perm | apply perm_skip, IH].
Qed.

Lemma filter_perm {A : Type} (p : A -> bool) (l l' : list A) :
  Permutation l l' -> Permutation (filter p l) (filter p l').
Proof.
  induction 1 as [|x l l' _ IH|x y l|l l' l'' _ IH1 _ IH2]; simpl.
  - apply perm_nil.
  - destruct (p x); [apply perm_skip|]; exact IH.
  - destruct (p x), (p y); try apply Permutation_refl. apply perm_swap.
  - eapply perm_trans; eassumption.
Qed.

Lemma unique_In (x : Z) (l : list Z) : In x (Pd.unique l) <-> In x l.
Proof.
  induction l as [|y l IH]; simpl; [reflexivity|].
  rewrite filter_In, IH. destruct (Z.eq_dec y x) as [->|Hne].
  - intuition.
  - split; [intuition|]. intros [H|H]; [contradiction|]. right. split; [exact H|].
    apply negb_true_iff, Z.eqb_neq. exact Hne.
Qed.

Lemma unique_NoDup (l : list Z) : NoDup (Pd.unique l).
Proof.
  induction l as [|y l IH]; simpl; [constructor|]. constructor.
  - rewrite filter_In. intros [_ H]. rewrite Z.eqb_refl in H. discriminate.
  - apply NoDup_filter. exact IH.
Qed.

Lemma fold_add_otm_call (e : Z) (l : list Pd.Row) (st : ExpiryState) :
  expiry_results (fold_left (add_otm_call e) l st)
  = expiry_results st
    ++ map (fun row => otm_record e (Pd.strike row) (Pd.mid row) "call") l.
Proof.
  revert st. induction l as [|row l IH]; intro st; simpl.
  - rewrite app_nil_r. reflexivity.
  - rewrite IH. cbn [add_otm_call expiry_results]. rewrite <- app_assoc. reflexivity.
Qed.

Lemma fold_add_otm_put (e : Z) (spot r T : R) (l : list Pd.Row) (st : ExpiryState) :
  expiry_results (fold_left (add_otm_put e spot r T) l st)
  = expiry_results st
    ++ flat_map (fun p => if Rltb 0 (Pd.mid p + spot - Pd.strike p * exp (- r * T))
                          then [synthetic_call e spot r T p] else []) l.
Proof.
  revert st. induction l as [|row l IH]; intro st; simpl.
  - rewrite app_nil_r. reflexivity.
  - rewrite IH. unfold add_otm_put, synthetic_call. cbv zeta.
    destruct (Rltb 0 _); cbn [expiry_results].
    + rewrite <- app_assoc. reflexivity.
    + reflexivity.
Qed.

Lemma add_atm_call_rows (e : Z) (st : ExpiryState) (row : Pd.Row) :
  expiry_results (add_atm_call e st row) = expiry_results st
  \/ (filter (fun x => Reqb (Pd.strike x) (Pd.strike row)) (expiry_results st) = []
      /\ expiry_results (add_atm_call e st row)
         = expiry_results st
           ++ [otm_record e (Pd.strike row) (Pd.mid row) "call"]).
Proof.
  unfold add_atm_call. cbv zeta.
  destruct (filter _ (expiry_results st)) eqn:E; [right | left]; auto.
Qed.
Lemma fold_add_atm_call_at (e : Z) (K : R) (l : list Pd.Row) (st : ExpiryState) :
  filter (fun x => Reqb (Pd.strike x) K) (expiry_results st) <> [] ->
  filter (fun x => Reqb (Pd.strike x) K)
         (expiry_results (fold_left (add_atm_call e) l st))
  = filter (fun x => Reqb (Pd.strike x) K) (expiry_results st).
Proof.
  revert st. induction l as [|row l IH]; intros st Hne; [reflexivity|].
  cbn [fold_left].
  destruct (add_atm_call_rows e st row) as [E|[Hnone E]].
  - rewrite IH; rewrite E; [reflexivity | exact Hne].
  - assert (HK : Reqb (Pd.strike row) K = false).
    { destruct (Reqb (Pd.strike row) K) eqn:EK; [|reflexivity].
      apply Reqb_spec in EK. rewrite EK in Hnone. contradiction. }
    assert (E' : filter (fun x => Reqb (Pd.strike x) K)
                        (expiry_results (add_atm_call e st row))
                 = filter (fun x => Reqb (Pd.strike x) K) (expiry_results st)).
    { rewrite E, filter_app. cbn [filter otm_record Pd.strike]. rewrite HK.
      apply app_nil_r. }
    rewrite IH; rewrite E'; [reflexivity | exact Hne].
Qed.

Lemma fold_add_atm_call_Forall (e : Z) (P : Pd.Row -> Prop) (l : list Pd.Row)
    (st : ExpiryState) :
  (forall row, P (otm_record e (Pd.strike row) (Pd.mid row) "call")) ->
  Forall P (expiry_results st) ->
  Forall P (expiry_results (fold_left (add_atm_call e) l st)).
Proof.
  intro HP. revert st. induction l as [|row l IH]; intros st H; [exact H|].
  cbn [fold_left]. apply IH.
  destruct (add_atm_call_rows e st row) as [E|[_ E]]; rewrite E; [exact H|].
  apply Forall_app. split; [exact H|]. constructor; [apply HP | constructor].
Qed.

Lemma calls_not_at_strike (e : Z) (spot K : R) (l : list Pd.Row) :
  K < spot ->
  filter (fun x => Reqb (Pd.strike x) K)
         (map (fun row => otm_record e (Pd.strike row) (Pd.mid row) "call")
              (filter (fun q => String.eqb (Pd.right q) "C" && Rltb spot (Pd.strike q)) l))
  = [].
Proof.
  intro HK. induction l as [|q l IH]; [reflexivity|]. cbn [filter].
  destruct (String.eqb (Pd.right q) "C" && Rltb spot (Pd.strike q)) eqn:E;
    [|exact IH].
  apply andb_true_iff in E. destruct E as [_ E]. apply Rltb_spec in E.
  cbn [map filter otm_record Pd.strike]. rewrite Reqb_false by lra. exact IH.
Qed.

Lemma puts_at_strike (e : Z) (spot r T K : R) (l : list Pd.Row) :
  filter (fun x => Reqb (Pd.strike x) K)
         (flat_map (fun p => if Rltb 0 (Pd.mid p + spot - Pd.strike p * exp (- r * T))
                             then [synthetic_call e spot r T p] else [])
                   (filter (fun q => String.eqb (Pd.right q) "P"
                                     && Rltb (Pd.strike q) spot) l))
  = map (synthetic_call e spot r T) (filter (gives_synthetic_at spot r T K) l).
Proof.
  induction l as [|q l IH]; [reflexivity|]. cbn [filter]. unfold gives_synthetic_at at 1.
  destruct (String.eqb (Pd.right q) "P" && Rltb (Pd.strike q) spot);
    cbn [andb flat_map]; [|exact IH].
  destruct (Rltb 0 (Pd.mid q + spot - Pd.strike q * exp (- r * T)));
    cbn [andb app filter]; [|exact IH].
  change (Pd.strike (synthetic_call e spot r T q)) with (Pd.strike q).
  destruct (Reqb (Pd.strike q) K); cbn [map]; rewrite IH; reflexivity.
Qed.

(** The rows of one expiry at a strike below the spot where a put gives a
    synthetic call: the synthetic calls, and nothing else. *)
Lemma process_expiry_at (first : Pd.Row) (rest : list Pd.Row) (e : Z)
    (spot r K : R) (st : ExpiryState) :
  let exp_df := first :: rest in
  let T := IZR (Pd.dte first) / 365 in
  K < spot ->
  process_expiry exp_df e spot r = inr st ->
  filter (gives_synthetic_at spot r T K) exp_df <> [] ->
  filter (fun x => Reqb (Pd.strike x) K) (expiry_results st)
  = map (synthetic_call e spot r T) (filter (gives_synthetic_at spot r T K) exp_df).
Proof.
  intros exp_df T HK Hst Hne.
  set (base := fold_left (add_otm_put e spot r T)
                 (filter (fun q => String.eqb (Pd.right q) "P"
                                   && Rltb (Pd.strike q) spot) exp_df)
                 (fold_left (add_otm_call e)
                    (filter (fun q => String.eqb (Pd.right q) "C"
                                      && Rltb spot (Pd.strike q)) exp_df)
                    (mkState [] 0 0))).
  set (atm_calls := filter (fun q => String.eqb (Pd.right q) "C"
                                     && Rleb (spot * (99 / 100)) (Pd.strike q)
                                     && Rleb (Pd.strike q) (spot * (101 / 100)))
                           exp_df).
  assert (Est : st = fold_left (add_atm_call e) atm_calls base).
  { change (process_expiry exp_df e spot r)
      with (@inr string _ (fold_left (add_atm_call e) atm_calls base)) in Hst.
    congruence. }
  assert (Hbase : filter (fun x => Reqb (Pd.strike x) K) (expiry_results base)
                  = map (synthetic_call e spot r T)
                        (filter (gives_synthetic_at spot r T K) exp_df)).
  { unfold base. rewrite fold_add_otm_put, fold_add_otm_call.
    cbn [expiry_results app].
    rewrite filter_app, (calls_not_at_strike e spot K exp_df HK), puts_at_strike.
    reflexivity. }
  rewrite Est, fold_add_atm_call_at; [exact Hbase|].
  rewrite Hbase. intro E. apply map_eq_nil in E. contradiction.
Qed.

Lemma process_expiry_expiry (exp_df : list Pd.Row) (e : Z) (spot r : R)
    (st : ExpiryState) :
  process_expiry exp_df e spot r = inr st ->
  Forall (fun row => Pd.expiry row = e) (expiry_results st).
Proof.
  unfold process_expiry. destruct exp_df as [|first rest]; [discriminate|].
  cbv zeta. intro H. injection H as <-.
  apply fold_add_atm_call_Forall; [reflexivity|].
  rewrite fold_add_otm_put, fold_add_otm_call. cbn [expiry_results app].
  apply Forall_app. split.
  - apply Forall_forall. intros x Hx. apply in_map_iff in Hx.
    destruct Hx as [q [<- _]]. reflexivity.
  - apply Forall_forall. intros x Hx. apply in_flat_map in Hx.
    destruct Hx as [q [_ Hx]]. destruct (Rltb 0 _); [|contradiction].
    destruct Hx as [<-|[]]. reflexivity.
Qed.

Lemma expiry_loop_results (rows : list Pd.Row) (spot r : R) (es : list Z)
    (acc : list Pd.Row) (qd : QualityDict) (out : list Pd.Row * QualityDict) :
  expiry_loop rows spot r es acc qd = inr out ->
  exists sts,
    Forall2 (fun e st =>
               process_expiry (filter (fun q => Z.eqb (Pd.expiry q) e) rows) e spot r
               = inr st) es sts
    /\ fst out = acc ++ flat_map expiry_results sts.
Proof.
  revert acc qd. induction es as [|e es IH]; intros acc qd H.
  - cbn in H. injection H as <-. exists []. split; [constructor|].
    cbn. rewrite app_nil_r. reflexivity.
  - cbn [expiry_loop] in H. apply bind_inr in H. destruct H as [st [Hst H]].
    apply IH in H. destruct H as [sts [HF E]]. exists (st :: sts).
    split; [constructor; assumption|]. rewrite E. cbn [flat_map].
    rewrite app_assoc. reflexivity.
Qed.

Lemma rows_at_others (e : Z) (K : R) (rows : list Pd.Row) (spot r : R)
    (es : list Z) (sts : list ExpiryState) :
  Forall2 (fun e' st =>
             process_expiry (filter (fun q => Z.eqb (Pd.expiry q) e') rows) e' spot r
             = inr st) es sts ->
  ~ In e es ->
  rows_at e K (flat_map expiry_results sts) = [].
Proof.
  induction 1 as [|e' st es sts Hst _ IH]; intro Hnin; [reflexivity|].
  cbn [flat_map]. unfold rows_at in *. rewrite filter_app, IH.
  - rewrite app_nil_r. apply process_expiry_expiry in Hst.
    induction Hst as [|row l Hrow _ IHl]; [reflexivity|]. cbn [filter].
    replace (Z.eqb (Pd.expiry row) e) with false; [exact IHl|].
    symmetry. apply Z.eqb_neq. rewrite Hrow. intro E. apply Hnin. left. exact E.
  - intro Hin. apply Hnin. right. exact Hin.
Qed.

Lemma rows_at_same (e : Z) (K : R) (l : list Pd.Row) :
  Forall (fun row => Pd.expiry row = e) l ->
  rows_at e K l = filter (fun x => Reqb (Pd.strike x) K) l.
Proof.
  unfold rows_at. induction 1 as [|row l Hrow _ IH]; [reflexivity|]. cbn [filter].
  rewrite Hrow, Z.eqb_refl. cbn [andb]. rewrite IH. reflexivity.
Qed.

(** The unsorted [results] at (expiry, strike), where a put gives a
    synthetic call. *)
Lemma results_at (rows : list Pd.Row) (spot r K : R) (e : Z) (first : Pd.Row)
    (rest : list Pd.Row) (out : list Pd.Row * QualityDict) :
  let T := IZR (Pd.dte first) / 365 in
  expiry_loop rows spot r (Pd.unique (map Pd.expiry rows)) [] [] = inr out ->
  filter (fun q => Z.eqb (Pd.expiry q) e) rows = first :: rest ->
  K < spot ->
  filter (gives_synthetic_at spot r T K) (first :: rest) <> [] ->
  rows_at e K (fst out)
  = map (synthetic_call e spot r T)
        (filter (gives_synthetic_at spot r T K) (first :: rest)).
Proof.
  intros T Hloop Hexp HK Hne.
  apply expiry_loop_results in Hloop. destruct Hloop as [sts [HF Eout]].
  cbn [app] in Eout. rewrite Eout. clear Eout.
  assert (Hin : In e (Pd.unique (map Pd.expiry rows))).
  { apply unique_In. assert (Hf : In first (first :: rest)) by (left; reflexivity).
    rewrite <- Hexp in Hf. apply filter_In in Hf. destruct Hf as [Hf He].
    apply Z.eqb_eq in He. rewrite <- He. apply in_map. exact Hf. }
  pose proof (unique_NoDup (map Pd.expiry rows)) as Hnd.
  destruct (in_split _ _ Hin) as [es1 [es2 Ees]]. rewrite Ees in HF, Hnd.
  apply NoDup_remove_2 in Hnd.
  apply Forall2_app_inv_l in HF. destruct HF as [sts1 [sts' [HF1 [HF2 ->]]]].
  inversion HF2 as [|? st ? sts2 Hst HF3]; subst.
  rewrite flat_map_app. cbn [flat_map]. unfold rows_at. rewrite !filter_app.
  fold (rows_at e K (flat_map expiry_results sts1)).
  fold (rows_at e K (flat_map expiry_results sts2)).
  fold (rows_at e K (expiry_results st)).
  rewrite (rows_at_others e K rows spot r es1 sts1 HF1)
    by (intro H; apply Hnd; apply in_or_app; left; exact H).
  rewrite (rows_at_others e K rows spot r es2 sts2 HF3)
    by (intro H; apply Hnd; apply in_or_app; right; exact H).
  rewrite app_nil_r. cbn [app].
  rewrite (rows_at_same e K _ (process_expiry_expiry _ _ _ _ _ Hst)).
  rewrite Hexp in Hst.
  exact (process_expiry_at first rest e spot r K st HK Hst Hne).
Qed.

(** C3, as the code has it. When one expiry of the chain quotes, at the same
    strike [K] below the spot, a real call inside the ATM band and a put
    whose put-call parity price is positive, the rows of the OTM chain at
    (expiry, [K]) are the synthetic calls of the puts at that strike: the
    put's synthetic call, mid [P + S - K exp(-rT)], is among them, every row
    there has source [put_synthetic], and the real call's record is nowhere
    in the frame. With one such put the frame has exactly one row at the
    key. *)
Theorem synthetic_call_takes_precedence (chain : ref) (spot r K : R) (e : Z)
    (return_quality : bool) (h0 h : Heap) (c : Pd.DataFrame)
    (first : Pd.Row) (rest : list Pd.Row) (call put : Pd.Row)
    (res : ref * option QualityDict) :
  let T := IZR (Pd.dte first) / 365 in
  let exp_df := first :: rest in
  let synthetic :=
    map (synthetic_call e spot r T) (filter (gives_synthetic_at spot r T K) exp_df) in
  nth_error h0 chain = Some c ->
  Pd.empty c = false ->
  filter (fun q => Z.eqb (Pd.expiry q) e) (Pd.rows (with_mid c)) = exp_df ->
  In call exp_df -> Pd.right call = "C" -> Pd.strike call = K ->
  spot * (99 / 100) <= K <= spot * (101 / 100) ->
  In put exp_df -> Pd.right put = "P" -> Pd.strike put = K ->
  K < spot ->
  0 < Pd.mid put + spot - K * exp (- r * T) ->
  build_otm_chain chain spot r return_quality h0 = (inr res, h) ->
  exists frame,
    nth_error h (fst res) = Some frame
    /\ Permutation (rows_at e K (Pd.rows frame)) synthetic
    /\ In (synthetic_call e spot r T put) (rows_at e K (Pd.rows frame))
    /\ Forall (fun row => Pd.source row = "put_synthetic")
              (rows_at e K (Pd.rows frame))
    /\ ~ In (otm_record e K (Pd.mid call) "call") (Pd.rows frame)
    /\ (filter (gives_synthetic_at spot r T K) exp_df = [put] ->
        rows_at e K (Pd.rows frame) = [synthetic_call e spot r T put]).
Proof.
  intros T exp_df synthetic Hc Hempty Hexp Hcall HcallC HcallK Hband
         Hput HputP HputK HK Hpos Hrun.
  assert (Hgives : gives_synthetic_at spot r T K put = true).
  { unfold gives_synthetic_at. rewrite HputP, HputK.
    rewrite (Rltb_true _ _ HK), (Rltb_true _ _ Hpos), (Reqb_true K K eq_refl).
    reflexivity. }
  assert (Hin : In put (filter (gives_synthetic_at spot r T K) exp_df)).
  { apply filter_In. split; assumption. }
  assert (Hne : filter (gives_synthetic_at spot r T K) exp_df <> []).
  { intro E. rewrite E in Hin. exact Hin. }
  pose proof (build_otm_chain_triple chain spot r return_quality h0 c Hc h0 eq_refl)
    as Ht.
  rewrite Hrun, Hempty in Ht. destruct Ht as [out [Hloop Hnew]].
  destruct (newest_lookup _ _ _ _ Hnew) as [frame [Hframe <-]].
  exists (Pd.mkDF otm_columns (Pd.sort_by by_expiry_strike (fst out))).
  cbn [Pd.rows].
  assert (Hperm : Permutation
                    (rows_at e K (Pd.sort_by by_expiry_strike (fst out))) synthetic).
  { unfold synthetic, exp_df, T.
    rewrite <- (results_at _ spot r K e first rest out Hloop Hexp HK Hne).
    apply filter_perm, sort_by_perm. }
  assert (Hall : Forall (fun row => Pd.source row = "put_synthetic")
                        (rows_at e K (Pd.sort_by by_expiry_strike (fst out)))).
  { apply Forall_forall. intros row Hrow.
    apply (Permutation_in _ Hperm) in Hrow. apply in_map_iff in Hrow.
    destruct Hrow as [q [<- _]]. reflexivity. }
  split; [exact Hframe|]. split; [exact Hperm|]. split; [|split; [exact Hall|split]].
  - apply (Permutation_in _ (Permutation_sym Hperm)). apply in_map. exact Hin.
  - intro Hrec. rewrite Forall_forall in Hall.
    assert (Hat : In (otm_record e K (Pd.mid call) "call")
                     (rows_at e K (Pd.sort_by by_expiry_strike (fst out)))).
    { apply filter_In. split; [exact Hrec|]. cbn [otm_record Pd.expiry Pd.strike].
      rewrite Z.eqb_refl, (Reqb_true K K eq_refl). reflexivity. }
    apply Hall in Hat. discriminate Hat.
  - intro Hone. unfold synthetic in Hperm. rewrite Hone in Hperm. cbn [map] in Hperm.
    apply Permutation_sym, Permutation_length_1_inv in Hperm. exact Hperm.
Qed.

Lemma synthetic_call_takes_precedence_witness :
  exists res h frame,
    build_otm_chain 0%nat 100 0 true [atm_chain] = (inr res, h)
    /\ nth_error h (fst res) = Some frame
    /\ rows_at 30 (995 / 10) (Pd.rows frame)
       = [synthetic_call 30 100 0 (IZR 30 / 365) atm_put].
Proof.
  assert (Hexp : exp (- 0 * (IZR 30 / 365)) = 1).
  { replace (- 0 * (IZR 30 / 365)) with 0 by lra. apply exp_0. }
  destruct (build_otm_chain 0%nat 100 0 true [atm_chain]) as [[err|res] h] eqn:Hrun.
  - exfalso.
    unfold build_otm_chain, copy, column, setitem, mbind, read, alloc, lift, mret
      in Hrun.
    cbn [nth_error atm_chain Pd.empty Pd.columns Pd.rows length app Pd.has_col
         existsb String.eqb Ascii.eqb Bool.eqb negb orb Pd.require ret map
         Pd.expiry Pd.unique filter] in Hrun.
    cbn -[expiry_loop] in Hrun.
    unfold expiry_loop, process_expiry, atm_call, atm_put, add_otm_put,
      add_atm_call, add_otm_call, otm_record in Hrun.
    revert Hrun. reval. rewrite Hexp.
    replace (2 + 100 - 995 / 10 * 1) with (5 / 2) by lra. reval. discriminate.
  - destruct (synthetic_call_takes_precedence 0%nat 100 0 (995 / 10) 30 true
                [atm_chain] h atm_chain atm_call [atm_put] atm_call atm_put res)
      as [frame [Hframe [_ [_ [_ [_ Hone]]]]]].
    + reflexivity.
    + reflexivity.
    + reflexivity.
    + left. reflexivity.
    + reflexivity.
    + reflexivity.
    + lra.
    + right. left. reflexivity.
    + reflexivity.
    + reflexivity.
    + lra.
    + cbn [atm_put atm_call Pd.mid Pd.dte]. rewrite Hexp. lra.
    + exact Hrun.
    + exists res, h, frame. split; [reflexivity|]. split; [exact Hframe|].
      apply Hone. unfold gives_synthetic_at, atm_call, atm_put.
      cbn [filter Pd.right Pd.strike Pd.mid Pd.dte String.eqb Ascii.eqb Bool.eqb andb].
      rewrite Hexp. reval. reflexivity.
Defined.

End OtmChain.

(** ** The pipeline run *)

Section PipelineRun.

Import Mem Pipeline.

Variable make_spline : list R -> list R -> R -> Exc Smoothing.UnivariateSpline.
Variable date_str : Z -> string.
Variable get_option_chain : string -> Z -> M ref.
Variable get_spot_price : string -> Z -> M (option R).
Variable save_chain : ref -> string -> Z -> string -> M unit.

Local Abbreviation run_ :=
  (run make_spline date_str get_option_chain get_spot_price save_chain).
Local Abbreviation try_expiry_ := (try_expiry make_spline date_str).
Local Abbreviation expiry_step_ := (expiry_step make_spline date_str).
Local Abbreviation expiry_loop_ := (expiry_loop make_spline date_str).
Local Abbreviation contribution_ := (expiry_contribution make_spline date_str).

(** The [try] body only appends: no result, and at most warnings. *)
Lemma try_expiry_appends (self : RNDPipeline) (otm : Pd.DataFrame)
    (qm : ChainCleaner.QualityDict) (spot : R) (trade_dt e : Z) (st : Locals) :
  let out := try_expiry_ self otm qm spot trade_dt e st in
  let out0 := try_expiry_ self otm qm spot trade_dt e (mkLocals [] [] []) in
  fst out = fst out0
  /\ loc_rnd_results (snd out) = loc_rnd_results st ++ loc_rnd_results (snd out0)
  /\ loc_errors (snd out) = loc_errors st ++ loc_errors (snd out0)
  /\ (forall reason, fst out = inl reason ->
        loc_rnd_results (snd out) = loc_rnd_results st).
Proof.
  unfold try_expiry. cbv zeta.
  destruct (_ <? 10)%nat.
  { cbn. rewrite !app_nil_r. auto. }
  destruct (Smoothing.fit _ _ _ _ _) as [err|smooth_result].
  { cbn. rewrite !app_nil_r. auto. }
  destruct (ArbitrageChecks.check _ _ _) as [err|arb_result].
  { cbn. rewrite !app_nil_r. auto. }
  destruct (RndExtractor.extract _ _ _ _ _) as [err|rnd].
  { destruct (negb _); cbn; rewrite ?app_nil_r; auto. }
  destruct (match Py.dict_get e qm with Some _ => _ | None => _ end) as [err|rnd'].
  { destruct (negb _); cbn; rewrite ?app_nil_r; auto. }
  destruct (negb _); cbn; rewrite ?app_nil_r; repeat split; try reflexivity;
    intros reason Hr; discriminate Hr.
Qed.

Lemma expiry_step_appends (self : RNDPipeline) (otm : Pd.DataFrame)
    (qm : ChainCleaner.QualityDict) (spot : R) (trade_dt e : Z) (st : Locals) :
  let st' := expiry_step_ self otm qm spot trade_dt st e in
  loc_rnd_results st'
  = loc_rnd_results st ++ fst (contribution_ self otm qm spot trade_dt e)
  /\ loc_errors st'
     = loc_errors st ++ snd (contribution_ self otm qm spot trade_dt e).
Proof.
  unfold expiry_contribution, expiry_step. cbv zeta. cbn [fst snd].
  destruct (try_expiry_appends self otm qm spot trade_dt e st) as [H1 [H2 [H3 _]]].
  destruct (try_expiry_ self otm qm spot trade_dt e st) as [[err|[]] st1];
    destruct (try_expiry_ self otm qm spot trade_dt e (mkLocals [] [] []))
      as [[err0|[]] st0]; cbn [fst snd] in *; try discriminate.
  - injection H1 as <-. cbn. rewrite H2, H3, app_assoc. auto.
  - auto.
Qed.

Lemma expiry_loop_appends (self : RNDPipeline) (otm : Pd.DataFrame)
    (qm : ChainCleaner.QualityDict) (spot : R) (trade_dt : Z) (es : list Z)
    (st : Locals) :
  let final := expiry_loop_ self otm qm spot trade_dt es st in
  loc_rnd_results final
  = loc_rnd_results st
    ++ flat_map (fun e => fst (contribution_ self otm qm spot trade_dt e)) es
  /\ loc_errors final
     = loc_errors st
       ++ flat_map (fun e => snd (contribution_ self otm qm spot trade_dt e)) es.
Proof.
  cbv zeta. unfold expiry_loop. revert st.
  induction es as [|e es IH]; intro st; cbn [fold_left flat_map].
  - rewrite !app_nil_r. auto.
  - destruct (IH (expiry_step_ self otm qm spot trade_dt st e)) as [-> ->].
    destruct (expiry_step_appends self otm qm spot trade_dt e st) as [-> ->].
    rewrite !app_assoc. auto.
Qed.

(** What [run] returns: an error result, or the local variables of a loop
    that produced at least one RND. *)
Lemma run_returns (self : RNDPipeline) (symbol : string) (trade_dt : Z)
    (spot_price : option R) (save : bool) (h h' : Heap)
    (result : RNDPipelineResult) :
  run_ self symbol trade_dt spot_price save h = (inr result, h') ->
  (exists msg, result = _error_result symbol trade_dt msg)
  \/ exists otm qm spot,
       let st := expiry_loop_ self otm qm spot trade_dt
                   (Py.sorted (Pd.unique (map Pd.expiry (Pd.rows otm))))
                   (mkLocals [] [] []) in
       loc_rnd_results st <> []
       /\ result = mkResult symbol trade_dt (loc_rnd_results st)
                     (loc_smoothing_results st) (length (loc_rnd_results st))
                     true (loc_errors st).
Proof.
  unfold run, mbind, try_except, mret, mraise. intro H.
  repeat (cbv beta in *;
          match goal with
          | H : context [match ?x with _ => _ end] |- _ =>
              destruct x eqn:?; try discriminate
          end).
  all: repeat match goal with
              | H : (_, _) = (_, _) |- _ => injection H; clear H; intros
              end.
  all: subst.
  all: try discriminate.
  all: repeat match goal with
              | H : inl _ = inl _ |- _ => injection H; clear H; intros; subst
              | H : inr _ = inr _ |- _ => injection H; clear H; intros; subst
              end.
  all: try (left; eexists; reflexivity).
  all: match goal with
       | E : loc_rnd_results (expiry_loop _ _ _ ?otm ?qm ?spot _ _ _) = _ :: _ |- _ =>
           right; exists otm, qm, spot; cbv zeta; rewrite E;
           split; [discriminate | reflexivity]
       end.
Qed.

End PipelineRun.

(** * Further properties of the package *)

(** ** Finite differences *)

Section FiniteDifferences.

Import MathUtils RndExtractor.

Lemma second_diffs_cons (a : R) (l : list R) :
  second_diffs (a :: l)
  = match l with
    | b :: c :: _ => (c - 2 * b + a) :: second_diffs l
    | _ => []
    end.
Proof. destruct l as [|b [|c l]]; reflexivity. Qed.

Lemma second_diffs_samples (g : nat -> R) (s n : nat) :
  second_diffs (map g (seq s (S (S n))))
  = map (fun i => g (S (S i)) - 2 * g (S i) + g i) (seq s n).
Proof.
  revert s. induction n as [|n IH]; intro s; [reflexivity|].
  replace (seq s (S (S (S n)))) with (s :: seq (S s) (S (S n))) by reflexivity.
  cbn [map]. rewrite second_diffs_cons, IH. reflexivity.
Qed.

Lemma map_const_repeat {A : Type} (v : R) (l : list A) :
  map (fun _ => v) l = repeat v (length l).
Proof. induction l as [|a l IH]; simpl; [reflexivity | rewrite IH; reflexivity]. Qed.

Lemma last_repeat (v d : R) (n : nat) : last (repeat v (S n)) d = v.
Proof. induction n as [|n IH]; [reflexivity|]. exact IH. Qed.

Lemma repeat_snoc (v : R) (n : nat) : repeat v n ++ [v] = repeat v (S n).
Proof. induction n as [|n IH]; simpl; [reflexivity | rewrite IH; reflexivity]. Qed.

Lemma central_edges (v : R) (n : nat) :
  v :: repeat v (S n) ++ [last (repeat v (S n)) 0] = repeat v (S (S (S n))).
Proof. rewrite last_repeat, repeat_snoc. reflexivity. Qed.

(** X1. [central_diff_2nd] returns one value per sample, all zero when there
    are fewer than three samples; on the samples of a quadratic
    [a x^2 + b x + c] over a uniform grid of step [h] it returns [2 a] at
    every point, the two edges included. *)
Theorem central_diff_2nd_quadratic (a b c x0 h : R) (n : nat) :
  h <> 0 ->
  let q := fun x => a * x ^ 2 + b * x + c in
  let f := map (fun i => q (x0 + INR i * h)) (seq 0 n) in
  length (central_diff_2nd f h) = n
  /\ ((n < 3)%nat -> central_diff_2nd f h = repeat 0 n)
  /\ ((3 <= n)%nat -> central_diff_2nd f h = repeat (2 * a) n).
Proof.
  intros Hh q f.
  assert (Hcases : (n < 3)%nat \/ exists m, n = S (S (S m))).
  { destruct n as [|[|[|m]]]; [left; lia | left; lia | left; lia | right; eauto]. }
  destruct Hcases as [Hlt|[m ->]].
  - assert (E : central_diff_2nd f h = repeat 0 n).
    { destruct n as [|[|[|n]]]; [reflexivity | reflexivity | reflexivity | lia]. }
    rewrite E, repeat_length. split; [reflexivity|]. split; [auto | lia].
  - assert (E : central_diff_2nd f h = repeat (2 * a) (S (S (S m)))).
    { unfold central_diff_2nd, f.
      rewrite (second_diffs_samples (fun i => q (x0 + INR i * h)) 0 (S m)), map_map.
      rewrite (map_ext _ (fun _ => 2 * a)).
      - rewrite map_const_repeat, length_seq. exact (central_edges (2 * a) m).
      - intro i. unfold q. rewrite !S_INR. field. exact Hh. }
    rewrite E, repeat_length. split; [reflexivity|]. split; [lia | auto].
Qed.

Lemma central_diff_2nd_quadratic_witness :
  central_diff_2nd [3 * 1 ^ 2 + 0 * 1 + 1; 3 * 3 ^ 2 + 0 * 3 + 1;
                    3 * 5 ^ 2 + 0 * 5 + 1; 3 * 7 ^ 2 + 0 * 7 + 1] 2
  = [2 * 3; 2 * 3; 2 * 3; 2 * 3].
Proof.
  destruct (central_diff_2nd_quadratic 3 0 1 1 2 4) as [_ [_ H]]; [lra|].
  cbn [map seq repeat] in H. rewrite <- H by lia.
  f_equal. repeat (f_equal; try (simpl; lra)).
Defined.

(** X2. When [_finite_diff_2nd] returns, the grid has at least two strikes,
    the callable gave at least three prices, and the result is what
    [central_diff_2nd] computes from those prices with the first strike step;
    it raises [IndexError] exactly when the grid or the prices are too short,
    where [central_diff_2nd] returns zeros. *)
Theorem finite_diff_2nd_is_central_diff (C : list R -> list R) (strikes : list R) :
  match _finite_diff_2nd C strikes with
  | inr d2C =>
      exists k0 k1 ks,
        strikes = k0 :: k1 :: ks
        /\ (3 <= length (C strikes))%nat
        /\ d2C = central_diff_2nd (C strikes) (k1 - k0)
  | inl msg =>
      ((length strikes < 2)%nat /\ msg = "index 1 is out of bounds"%string)
      \/ ((2 <= length strikes)%nat /\ (length (C strikes) < 3)%nat
          /\ msg = "index 2 is out of bounds"%string)
  end.
Proof.
  unfold _finite_diff_2nd.
  destruct strikes as [|k0 [|k1 ks]]; [left; simpl; split; [lia|reflexivity]
                                      |left; simpl; split; [lia|reflexivity]|].
  cbv zeta. destruct (C (k0 :: k1 :: ks)) as [|p0 [|p1 [|p2 ps]]] eqn:EC.
  - right. simpl. repeat split; lia.
  - right. simpl. repeat split; lia.
  - right. simpl. repeat split; lia.
  - exists k0, k1, ks. split; [reflexivity|]. split; [simpl; lia|].
    unfold central_diff_2nd. reflexivity.
Qed.

End FiniteDifferences.

(** ** Densities: normalisation, moments, quantiles, probabilities *)

Section Densities.

Import MathUtils RndExtractor.

Lemma trapz_nonneg_le (y x : list R) :
  Forall (fun v => 0 <= v) y -> StronglySorted Rle x -> 0 <= Np.trapz y x.
Proof.
  intros Hy. revert x. induction Hy as [|y0 y H0 Hy IH]; intros x Hx; simpl; [lra|].
  destruct y as [|y1 y]; [lra|]. destruct x as [|x0 [|x1 x]]; try lra.
  inversion Hx as [|? ? Hs Hh]; subst. inversion Hh; subst.
  inversion Hy; subst. specialize (IH (x1 :: x) Hs).
  change (0 <= (x1 - x0) * (y1 + y0) / 2 + Np.trapz (y1 :: y) (x1 :: x)).
  assert (0 <= (x1 - x0) * (y1 + y0)) by (apply Rmult_le_pos; lra). lra.
Qed.

Lemma sorted_lt_le (x : list R) : Sorted Rlt x -> StronglySorted Rle x.
Proof.
  intro H. apply Sorted_StronglySorted in H; [|intros a b c; apply Rlt_trans].
  induction H as [|a l _ IH Ha]; constructor; [exact IH|].
  eapply Forall_impl; [|exact Ha]. intros b Hb. lra.
Qed.

Lemma sorted_bounds (x0 : R) (x : list R) :
  StronglySorted Rle (x0 :: x) ->
  Forall (fun v => x0 <= v <= last x x0) (x0 :: x).
Proof.
  revert x0. induction x as [|x1 x IH]; intros x0 H.
  - constructor; [simpl; lra | constructor].
  - inversion H as [|? ? Hs Hall]; subst. inversion Hall as [|? ? H01 _]; subst.
    specialize (IH x1 Hs). rewrite last_cons.
    inversion IH as [|? ? H1 Hrest]; subst.
    constructor; [lra|]. constructor; [lra|].
    eapply Forall_impl; [|exact Hrest]. simpl. intros v Hv. lra.
Qed.

(** X3. On a strictly increasing grid of at least two points,
    [normalize_density] always takes its division branch: each value is the
    input floored at [1e-10] and divided by the integral of the floored
    input, so no value is zero or negative, a value at or below the floor
    comes out as [1e-10 / integral], and the result integrates to one. *)
Theorem normalize_density_floor (d x : list R) :
  length d = length x -> (2 <= length x)%nat -> Sorted Rlt x ->
  let integral := Np.trapz (Np.maximum d min_value) x in
  0 < integral
  /\ normalize_density d x = map (fun v => Rmax v min_value / integral) d
  /\ Forall (fun v => min_value / integral <= v) (normalize_density d x)
  /\ Np.trapz (normalize_density d x) x = 1.
Proof.
  intros Hlen Hn Hx integral.
  destruct (normalize_density_unit d x Hlen Hn Hx) as [_ Hunit].
  assert (HI : 0 < integral).
  { unfold integral. pose proof (maximum_pos d) as Hpos.
    assert (Hl : length (Np.maximum d min_value) = length x)
      by (unfold Np.maximum; rewrite length_map; exact Hlen).
    destruct x as [|x0 [|x1 x]]; simpl in Hn; try lia.
    destruct (Np.maximum d min_value) as [|c0 [|c1 c]]; simpl in Hl; try lia.
    apply trapz_pos; assumption. }
  assert (E : normalize_density d x = map (fun v => Rmax v min_value / integral) d).
  { unfold normalize_density. fold integral. rewrite (Rltb_true _ _ HI).
    unfold Np.maximum. rewrite map_map. reflexivity. }
  split; [exact HI|]. split; [exact E|]. split; [|exact Hunit].
  rewrite E. apply Forall_forall. intros v Hv. apply in_map_iff in Hv.
  destruct Hv as [u [<- _]]. unfold Rdiv.
  apply Rmult_le_compat_r; [left; apply Rinv_0_lt_compat; exact HI | apply Rmax_r].
Qed.

Lemma normalize_density_floor_witness :
  normalize_density [-1; 0] [0; 1]
  = map (fun v => Rmax v min_value / Np.trapz (Np.maximum [-1; 0] min_value) [0; 1])
        [-1; 0].
Proof.
  destruct (normalize_density_floor [-1; 0] [0; 1]) as [_ [H _]].
  - reflexivity.
  - simpl. lia.
  - repeat constructor. lra.
  - exact H.
Defined.

(** *** Moments *)

Lemma trapz_weighted_affine (a b : R) (x d : list R) :
  length d = length x ->
  Np.trapz (map (fun xd => (a * fst xd + b) * snd xd) (combine x d)) x
  = a * Np.trapz (map (fun xd => fst xd * snd xd) (combine x d)) x
    + b * Np.trapz d x.
Proof.
  revert d. induction x as [|x0 x IH]; intros d Hlen.
  - destruct d; [simpl; ring | discriminate].
  - destruct d as [|d0 d]; [discriminate|]. injection Hlen as Hlen.
    destruct x as [|x1 x]; [destruct d; [simpl; ring | discriminate]|].
    destruct d as [|d1 d]; [discriminate|].
    specialize (IH (d1 :: d) Hlen). cbn [combine map fst snd] in *.
    rewrite !trapz_cons2, IH. lra.
Qed.

Lemma weighted_nonneg (g : R -> R) (x d : list R) :
  Forall (fun v => 0 <= g v) x -> Forall (fun v => 0 <= v) d ->
  Forall (fun v => 0 <= v) (map (fun xd => g (fst xd) * snd xd) (combine x d)).
Proof.
  intros Hx. revert d. induction Hx as [|x0 x H0 _ IH]; intros d Hd; [constructor|].
  destruct Hd as [|d0 d Hd0 Hd]; [constructor|]. cbn [combine map fst snd].
  constructor; [apply Rmult_le_pos; assumption | apply IH; exact Hd].
Qed.

(** X4. For a non-negative density that integrates to one over a strictly
    increasing grid, the mean [compute_density_moments] returns lies between
    the first and the last grid point, and the standard deviation is
    non-negative. *)
Theorem density_mean_in_range (density x : list R) :
  length density = length x -> Sorted Rlt x ->
  Forall (fun f => 0 <= f) density ->
  Np.trapz density x = 1 ->
  let m := compute_density_moments density x in
  hd 0 x <= m_mean m <= last x 0 /\ 0 <= m_std m.
Proof.
  intros Hlen Hx Hd Hone m.
  assert (Hm : m_mean m
               = Np.trapz (map (fun xd => fst xd * snd xd) (combine x density)) x
               /\ 0 <= m_std m).
  { unfold m, compute_density_moments. cbv zeta.
    destruct (Rltb 0 _); cbn [m_mean m_std]; (split; [reflexivity | apply sqrt_pos]). }
  destruct Hm as [Hmean Hstd]. split; [|exact Hstd]. rewrite Hmean.
  pose proof (sorted_lt_le x Hx) as Hs.
  destruct x as [|x0 x].
  { destruct density; [simpl in Hone; lra | discriminate]. }
  cbn [hd]. rewrite last_cons.
  pose proof (sorted_bounds x0 x Hs) as Hb.
  split.
  - pose proof (trapz_weighted_affine 1 (- x0) (x0 :: x) density Hlen) as E.
    rewrite Hone in E.
    assert (0 <= Np.trapz
                   (map (fun xd => (1 * fst xd + - x0) * snd xd)
                        (combine (x0 :: x) density)) (x0 :: x)).
    { apply trapz_nonneg_le; [|exact Hs].
      apply (weighted_nonneg (fun v => 1 * v + - x0)); [|exact Hd].
      eapply Forall_impl; [|exact Hb]. simpl. intros v Hv. lra. }
    lra.
  - pose proof (trapz_weighted_affine (-1) (last x x0) (x0 :: x) density Hlen) as E.
    rewrite Hone in E.
    assert (0 <= Np.trapz
                   (map (fun xd => (-1 * fst xd + last x x0) * snd xd)
                        (combine (x0 :: x) density)) (x0 :: x)).
    { apply trapz_nonneg_le; [|exact Hs].
      apply (weighted_nonneg (fun v => -1 * v + last x x0)); [|exact Hd].
      eapply Forall_impl; [|exact Hb]. simpl. intros v Hv. lra. }
    lra.
Qed.

Lemma density_mean_in_range_witness :
  let m := compute_density_moments [1 / 2; 1 / 2; 1 / 2] [1; 2; 3] in
  1 <= m_mean m <= 3 /\ 0 <= m_std m.
Proof.
  apply (density_mean_in_range [1 / 2; 1 / 2; 1 / 2] [1; 2; 3]).
  - reflexivity.
  - repeat constructor; lra.
  - repeat constructor; lra.
  - simpl. lra.
Defined.

End Densities.

Section QuantilesAndTails.

Import MathUtils RndExtractor.

Lemma interp_from_between (q : R) (c x : list R) (c0 f0 : R) :
  StronglySorted Rle (f0 :: x) -> c0 <= q ->
  f0 <= Np.interp_from q c0 f0 c x <= last x f0.
Proof.
  revert x c0 f0. induction c as [|c1 c IH]; intros x c0 f0 Hs Hq.
  - destruct x as [|f1 x]; cbn [Np.interp_from].
    + simpl. lra.
    + pose proof (sorted_bounds f0 (f1 :: x) Hs) as Hb.
      inversion Hb; subst. lra.
  - destruct x as [|f1 x]; cbn [Np.interp_from]; [simpl; lra|].
    pose proof (sorted_bounds f0 (f1 :: x) Hs) as Hb.
    inversion Hb as [|? ? H0 Hb']; subst. inversion Hb' as [|? ? H1 _]; subst.
    inversion Hs as [|? ? Hs' _]; subst.
    destruct (Rltb q c1) eqn:E.
    + apply Rltb_spec in E.
      set (t := (q - c0) / (c1 - c0)).
      assert (Ht : 0 <= t <= 1).
      { unfold t. split.
        - apply Rmult_le_pos; [lra | left; apply Rinv_0_lt_compat; lra].
        - apply div_le_of_le_mul; lra. }
      replace ((f1 - f0) / (c1 - c0) * (q - c0) + f0) with ((f1 - f0) * t + f0)
        by (unfold t; field; lra).
      assert (0 <= (f1 - f0) * t) by (apply Rmult_le_pos; lra).
      assert ((f1 - f0) * t <= (f1 - f0) * 1)
        by (apply Rmult_le_compat_l; lra).
      lra.
    + assert (Hc : c1 <= q).
      { destruct (Rle_dec c1 q) as [H|H]; [exact H|].
        rewrite (Rltb_true q c1) in E by lra. discriminate. }
      specialize (IH x c1 f1 Hs' Hc). rewrite last_cons. lra.
Qed.

Lemma interp1_between (q c0 f0 : R) (c x : list R) :
  StronglySorted Rle (f0 :: x) ->
  f0 <= Np.interp1 q (c0 :: c) (f0 :: x) <= last x f0.
Proof.
  intro Hs. cbn [Np.interp1]. destruct (Rltb q c0) eqn:E.
  - pose proof (sorted_bounds f0 x Hs) as Hb. inversion Hb; subst. lra.
  - apply interp_from_between; [exact Hs|].
    destruct (Rle_dec c0 q) as [H|H]; [exact H|].
    rewrite (Rltb_true q c0) in E by lra. discriminate.
Qed.

(** X5. When [compute_quantiles] returns on a strictly increasing grid and
    a non-negative density, it returns one strike per requested level, every
    one of them between the first and the last grid strike; when the
    density has a positive sum, every level at or above 1 gives the last
    grid strike. *)
Theorem compute_quantiles_in_range (density x quantiles out : list R) :
  Sorted Rlt x ->
  Forall (fun f => 0 <= f) density ->
  compute_quantiles density x quantiles = inr out ->
  length out = length quantiles
  /\ Forall (fun v => hd 0 x <= v <= last x 0) out
  /\ (0 < Rsum density ->
      forall i, (i < length quantiles)%nat -> 1 <= nth i quantiles 0 ->
                nth i out 0 = last x 0).
Proof.
  intros Hx Hd Hrun. unfold compute_quantiles in Hrun.
  destruct x as [|x0 [|x1 x]]; try discriminate. cbv zeta in Hrun.
  assert (Hdx : 0 < x1 - x0).
  { inversion Hx as [|? ? _ Hh]; subst. inversion Hh; subst. lra. }
  set (dx := x1 - x0) in *.
  destruct density as [|d0 ds]; [discriminate|].
  set (cs := Np.cumsum (d0 :: ds)) in *.
  assert (Hcs : cs = (0 + d0) :: Np.cumsum_from (0 + d0) ds) by reflexivity.
  set (cdf := map (fun v => v * dx) cs) in *.
  assert (Hcdf : cdf = (0 + d0) * dx :: map (fun v => v * dx) (Np.cumsum_from (0 + d0) ds))
    by (unfold cdf; rewrite Hcs; reflexivity).
  rewrite Hcdf in Hrun. rewrite <- Hcdf in Hrun.
  set (total := last cdf ((0 + d0) * dx)) in *.
  assert (Htotal : total = Rsum (d0 :: ds) * dx).
  { unfold total, cdf.
    rewrite (last_map (fun v => v * dx) cs (0 + d0)).
    unfold cs, Np.cumsum. rewrite cumsum_from_last by discriminate. lra. }
  set (cdf' := if Rltb 0 total then map (fun v => v / total) cdf else cdf) in *.
  destruct (length cdf' =? length (x0 :: x1 :: x))%nat eqn:El; [|discriminate].
  apply Nat.eqb_eq in El. injection Hrun as <-.
  pose proof (sorted_lt_le _ Hx) as Hs.
  assert (Hne : exists c0 c, cdf' = c0 :: c).
  { destruct cdf' as [|c0 c]; [discriminate|]. eauto. }
  destruct Hne as [c0 [c Ec]].
  split; [apply interp_length|]. split.
  - unfold Np.interp. apply Forall_forall. intros v Hv. apply in_map_iff in Hv.
    destruct Hv as [q [<- _]]. rewrite Ec. cbn [hd].
    replace (last (x0 :: x1 :: x) 0) with (last (x1 :: x) x0) by (symmetry; apply last_cons).
    apply interp1_between. exact Hs.
  - intros Hsum i Hi Hq.
    assert (Htot : 0 < total) by (rewrite Htotal; apply Rmult_lt_0_compat; assumption).
    unfold Np.interp.
    rewrite (nth_indep _ 0 (Np.interp1 0 cdf' (x0 :: x1 :: x)))
      by (rewrite length_map; exact Hi).
    rewrite (map_nth (fun q => Np.interp1 q cdf' (x0 :: x1 :: x))).
    apply interp1_past_end_list; [rewrite Ec; discriminate | exact El |].
    unfold cdf'. rewrite (Rltb_true _ _ Htot).
    apply Forall_forall. intros v Hv. apply in_map_iff in Hv.
    destruct Hv as [u [<- Hu]]. unfold cdf in Hu. apply in_map_iff in Hu.
    destruct Hu as [w [<- Hw]].
    pose proof (cumsum_from_bounds 0 (d0 :: ds) Hd) as Hb.
    rewrite Forall_forall in Hb. specialize (Hb w Hw).
    apply Rle_trans with 1; [|exact Hq].
    apply div_le_of_le_mul; [exact Htot|]. rewrite Htotal.
    rewrite Rmult_1_l. apply Rmult_le_compat_r; lra.
Qed.

Lemma compute_quantiles_in_range_witness :
  exists out,
    compute_quantiles [1; 1; 2] [10; 20; 30] [1 / 2; 1] = inr out
    /\ length out = 2%nat
    /\ Forall (fun v => 10 <= v <= 30) out.
Proof.
  destruct (compute_quantiles [1; 1; 2] [10; 20; 30] [1 / 2; 1]) as [e|out] eqn:E.
  - exfalso. unfold compute_quantiles in E. revert E. reval. discriminate.
  - exists out. split; [reflexivity|].
    destruct (compute_quantiles_in_range [1; 1; 2] [10; 20; 30] [1 / 2; 1] out)
      as [Hl [Hr _]].
    + repeat constructor; lra.
    + repeat constructor; lra.
    + exact E.
    + split; [exact Hl | exact Hr].
Defined.

(** *** [probability_below] as a function of the strike *)

Lemma split_at_level (xs : list R) (K : R) :
  StronglySorted Rle xs ->
  exists n, (n <= length xs)%nat
            /\ Forall (fun k => k <= K) (firstn n xs)
            /\ Forall (fun k => K < k) (skipn n xs).
Proof.
  induction 1 as [|x xs Hs IH Hall].
  - exists 0%nat. simpl. auto.
  - destruct (Rle_dec x K) as [Hle|Hgt].
    + destruct IH as [n [Hn [H1 H2]]]. exists (S n). cbn [firstn skipn length].
      split; [lia|]. split; [constructor; assumption | exact H2].
    + exists 0%nat. cbn [firstn skipn]. split; [simpl; lia|]. split; [constructor|].
      constructor; [lra|]. eapply Forall_impl; [|exact Hall]. simpl. intros. lra.
Qed.

Lemma probability_below_firstn (res : RNDResult) (K : R) (n : nat) :
  length (density res) = length (strikes res) ->
  (n <= length (strikes res))%nat ->
  Forall (fun k => k <= K) (firstn n (strikes res)) ->
  Forall (fun k => K < k) (skipn n (strikes res)) ->
  probability_below res K
  = Np.trapz (firstn n (density res)) (firstn n (strikes res)).
Proof.
  intros Hlen Hn H1 H2. destruct n as [|n].
  - cbn [firstn skipn] in *. unfold probability_below.
    rewrite (mask_all_false _ _ H2). reflexivity.
  - apply (probability_below_split res (firstn (S n) (strikes res))
             (skipn (S n) (strikes res)) (firstn (S n) (density res))
             (skipn (S n) (density res)) K).
    + symmetry. apply firstn_skipn.
    + symmetry. apply firstn_skipn.
    + rewrite !length_firstn, Hlen. reflexivity.
    + destruct (strikes res); [simpl in Hn; lia | discriminate].
    + exact H1.
    + exact H2.
Qed.

Lemma trapz_nil_r (y : list R) : Np.trapz y [] = 0.
Proof. destruct y as [|y0 [|y1 y]]; reflexivity. Qed.

Lemma trapz_firstn_step (d x : list R) (n : nat) :
  Forall (fun v => 0 <= v) d -> StronglySorted Rle x ->
  Np.trapz (firstn n d) (firstn n x) <= Np.trapz (firstn (S n) d) (firstn (S n) x).
Proof.
  intros Hd. revert x n. induction Hd as [|y0 d H0 Hd IH]; intros x n Hx.
  - destruct n; simpl; lra.
  - destruct x as [|x0 x].
    { rewrite !firstn_nil, !trapz_nil_r. lra. }
    inversion Hx as [|? ? Hs Hall]; subst.
    destruct n as [|n].
    + cbn [firstn]. destruct d as [|y1 d]; simpl; lra.
    + destruct d as [|y1 d].
      { cbn [firstn]. destruct n; simpl; lra. }
      destruct x as [|x1 x].
      { cbn [firstn]. destruct n; simpl; lra. }
      inversion Hall as [|? ? H01 _]; subst. inversion Hd as [|? ? H1 _]; subst.
      specialize (IH (x1 :: x) n Hs).
      destruct n as [|n].
      * cbn [firstn]. rewrite trapz_cons2.
        assert (0 <= (x1 - x0) * (y1 + y0)) by (apply Rmult_le_pos; lra).
        simpl. lra.
      * change (firstn (S (S n)) (y0 :: y1 :: d))
          with (y0 :: y1 :: firstn n d).
        change (firstn (S (S n)) (x0 :: x1 :: x))
          with (x0 :: x1 :: firstn n x).
        change (firstn (S (S (S n))) (y0 :: y1 :: d))
          with (y0 :: firstn (S (S n)) (y1 :: d)).
        change (firstn (S (S (S n))) (x0 :: x1 :: x))
          with (x0 :: firstn (S (S n)) (x1 :: x)).
        change (firstn (S (S n)) (y1 :: d)) with (y1 :: firstn (S n) d) in *.
        change (firstn (S (S n)) (x1 :: x)) with (x1 :: firstn (S n) x) in *.
        change (firstn (S n) (y1 :: d)) with (y1 :: firstn n d) in IH.
        change (firstn (S n) (x1 :: x)) with (x1 :: firstn n x) in IH.
        rewrite !trapz_cons2. lra.
Qed.

Lemma trapz_firstn_le (d x : list R) (n m : nat) :
  Forall (fun v => 0 <= v) d -> StronglySorted Rle x -> (n <= m)%nat ->
  Np.trapz (firstn n d) (firstn n x) <= Np.trapz (firstn m d) (firstn m x).
Proof.
  intros Hd Hx Hnm. induction Hnm as [|m _ IH]; [lra|].
  eapply Rle_trans; [exact IH | apply trapz_firstn_step; assumption].
Qed.

(** X6. For a non-negative density on a non-decreasing strike grid,
    [probability_below] is non-decreasing in the strike, starts at zero and
    never exceeds the integral of the whole density, which it reaches from
    the last grid strike on; [probability_above] is non-increasing. *)
Theorem probability_below_monotone (res : RNDResult) (K1 K2 : R) :
  length (density res) = length (strikes res) ->
  StronglySorted Rle (strikes res) ->
  Forall (fun f => 0 <= f) (density res) ->
  K1 <= K2 ->
  0 <= probability_below res K1 <= probability_below res K2
  /\ probability_below res K2 <= Np.trapz (density res) (strikes res)
  /\ probability_above res K2 <= probability_above res K1
  /\ (Forall (fun k => k <= K2) (strikes res) ->
      probability_below res K2 = Np.trapz (density res) (strikes res)).
Proof.
  intros Hlen Hs Hd HK.
  destruct (split_at_level (strikes res) K1 Hs) as [n1 [Hn1 [Ha1 Hb1]]].
  destruct (split_at_level (strikes res) K2 Hs) as [n2 [Hn2 [Ha2 Hb2]]].
  rewrite (probability_below_firstn res K1 n1 Hlen Hn1 Ha1 Hb1).
  assert (Hn12 : (n1 <= n2)%nat).
  { destruct (le_lt_dec n1 n2) as [H|H]; [exact H|]. exfalso.
    assert (Hin1 : In (nth n2 (strikes res) 0) (firstn n1 (strikes res))).
    { rewrite <- (firstn_skipn n1 (strikes res)) at 1.
      rewrite app_nth1 by (rewrite length_firstn; lia).
      apply nth_In. rewrite length_firstn. lia. }
    assert (Hin2 : In (nth n2 (strikes res) 0) (skipn n2 (strikes res))).
    { rewrite <- (firstn_skipn n2 (strikes res)) at 1.
      rewrite app_nth2 by (rewrite length_firstn; lia).
      rewrite length_firstn. replace (n2 - Init.Nat.min n2 _)%nat with 0%nat by lia.
      destruct (skipn n2 (strikes res)) as [|k ks] eqn:E.
      - assert (Hl : length (skipn n2 (strikes res)) = 0%nat) by (rewrite E; reflexivity).
        rewrite length_skipn in Hl. lia.
      - left. reflexivity. }
    rewrite Forall_forall in Ha1, Hb2.
    specialize (Ha1 _ Hin1). specialize (Hb2 _ Hin2). lra. }
  assert (Hfull : Np.trapz (density res) (strikes res)
                  = Np.trapz (firstn (length (strikes res)) (density res))
                             (firstn (length (strikes res)) (strikes res))).
  { rewrite firstn_all. rewrite <- Hlen, firstn_all. reflexivity. }
  assert (H12 : Np.trapz (firstn n1 (density res)) (firstn n1 (strikes res))
                <= Np.trapz (firstn n2 (density res)) (firstn n2 (strikes res)))
    by (apply trapz_firstn_le; assumption).
  assert (H0 : 0 <= Np.trapz (firstn n1 (density res)) (firstn n1 (strikes res))).
  { pose proof (trapz_firstn_le (density res) (strikes res) 0 n1 Hd Hs) as H.
    cbn [firstn] in H. simpl in H. apply H. lia. }
  assert (H2 : Np.trapz (firstn n2 (density res)) (firstn n2 (strikes res))
               <= Np.trapz (density res) (strikes res)).
  { rewrite Hfull. apply trapz_firstn_le; assumption. }
  unfold probability_above.
  rewrite (probability_below_firstn res K1 n1 Hlen Hn1 Ha1 Hb1).
  rewrite (probability_below_firstn res K2 n2 Hlen Hn2 Ha2 Hb2).
  split; [lra|]. split; [exact H2|]. split; [lra|].
  intro Hall.
  assert (Hn : n2 = length (strikes res)).
  { destruct (Nat.eq_dec n2 (length (strikes res))) as [E|E]; [exact E|]. exfalso.
    assert (Hin2 : In (nth n2 (strikes res) 0) (skipn n2 (strikes res))).
    { rewrite <- (firstn_skipn n2 (strikes res)) at 1.
      rewrite app_nth2 by (rewrite length_firstn; lia).
      rewrite length_firstn. replace (n2 - Init.Nat.min n2 _)%nat with 0%nat by lia.
      destruct (skipn n2 (strikes res)) as [|k ks] eqn:E'.
      - assert (Hl : length (skipn n2 (strikes res)) = 0%nat) by (rewrite E'; reflexivity).
        rewrite length_skipn in Hl. lia.
      - left. reflexivity. }
    rewrite Forall_forall in Hall, Hb2.
    specialize (Hb2 _ Hin2).
    assert (Hin : In (nth n2 (strikes res) 0) (strikes res)) by (apply nth_In; lia).
    specialize (Hall _ Hin). lra. }
  rewrite Hn. symmetry. exact Hfull.
Qed.

Lemma probability_below_monotone_witness :
  let res := mkRND [1; 2; 3] [1 / 2; 1 / 2; 1 / 2] 30 1 2 0 0 0 0 None in
  0 <= probability_below res (3 / 2) <= probability_below res (5 / 2)
  /\ probability_below res (5 / 2) <= Np.trapz (density res) (strikes res).
Proof.
  intro res.
  destruct (probability_below_monotone res (3 / 2) (5 / 2)) as [H1 [H2 _]].
  - reflexivity.
  - repeat constructor; simpl; lra.
  - repeat constructor; simpl; lra.
  - lra.
  - split; [exact H1 | exact H2].
Defined.

End QuantilesAndTails.

(** ** Chain quality metrics *)

Section ChainQualityBounds.

Import ChainQuality.

Lemma insert_by_Rle_sorted (v : R) (l : list R) :
  StronglySorted Rle l -> StronglySorted Rle (Pd.insert_by Rleb v l).
Proof.
  induction 1 as [|y l Hs IH Hall]; cbn [Pd.insert_by]; [repeat constructor|].
  destruct (Rleb v y) eqn:E.
  - apply Rleb_spec in E. constructor; [constructor; assumption|].
    constructor; [exact E|]. eapply Forall_impl; [|exact Hall]. simpl. intros. lra.
  - assert (Hyv : y <= v).
    { destruct (Rle_dec y v) as [H|H]; [exact H|].
      rewrite (Rleb_true v y) in E by lra. discriminate. }
    constructor; [exact IH|]. apply Forall_forall. intros u Hu.
    apply In_insert_by in Hu. destruct Hu as [->|Hu]; [exact Hyv|].
    rewrite Forall_forall in Hall. apply Hall. exact Hu.
Qed.

Lemma sort_by_Rle_sorted (l : list R) : StronglySorted Rle (Pd.sort_by Rleb l).
Proof.
  induction l as [|v l IH]; cbn [Pd.sort_by fold_right]; [constructor|].
  apply insert_by_Rle_sorted. exact IH.
Qed.

Lemma insert_by_length {A : Type} (le : A -> A -> bool) (v : A) (l : list A) :
  length (Pd.insert_by le v l) = S (length l).
Proof.
  induction l as [|y l IH]; cbn [Pd.insert_by]; [reflexivity|].
  destruct (le v y); cbn [length]; [reflexivity | rewrite IH; reflexivity].
Qed.

Lemma sort_by_length {A : Type} (le : A -> A -> bool) (l : list A) :
  length (Pd.sort_by le l) = length l.
Proof.
  induction l as [|v l IH]; [reflexivity|]. cbn [Pd.sort_by fold_right length].
  rewrite insert_by_length. f_equal. exact IH.
Qed.

Lemma np_diff_nonneg (l : list R) :
  StronglySorted Rle l -> Forall (fun g => 0 <= g) (np_diff l).
Proof.
  induction 1 as [|x l Hs IH Hall]; [constructor|].
  destruct l as [|y l]; [constructor|]. cbn [np_diff].
  inversion Hall; subst. constructor; [lra | exact IH].
Qed.

Lemma np_diff_length (l : list R) : length (np_diff l) = (length l - 1)%nat.
Proof.
  induction l as [|x l IH]; [reflexivity|]. destruct l as [|y l]; [reflexivity|].
  cbn [np_diff length] in *. rewrite IH. lia.
Qed.

Lemma fold_plus_init (l : list R) (a : R) :
  fold_left Rplus l a = a + fold_left Rplus l 0.
Proof.
  revert a. induction l as [|v l IH]; intro a; cbn [fold_left]; [lra|].
  rewrite (IH (a + v)), (IH (0 + v)). lra.
Qed.

(** The gaps of an array telescope to its last value minus its first. *)
Lemma np_diff_sum (x : R) (l : list R) :
  Smoothing.np_sum (np_diff (x :: l)) = last l x - x.
Proof.
  unfold Smoothing.np_sum. revert x. induction l as [|y l IH]; intro x.
  - simpl. lra.
  - change (np_diff (x :: y :: l)) with ((y - x) :: np_diff (y :: l)).
    cbn [fold_left]. rewrite fold_plus_init, IH, last_cons. lra.
Qed.

Lemma fold_max_upper (l : list R) (a : R) :
  Forall (fun v => v <= fold_left Rmax l a) (a :: l).
Proof.
  revert a. induction l as [|v l IH]; intro a; cbn [fold_left].
  - constructor; [lra | constructor].
  - specialize (IH (Rmax a v)). inversion IH as [|? ? H0 Hrest]; subst.
    constructor; [eapply Rle_trans; [apply Rmax_l | exact H0]|].
    constructor; [eapply Rle_trans; [apply Rmax_r | exact H0] | exact Hrest].
Qed.

Lemma fold_min_lower (l : list R) (a : R) :
  Forall (fun v => fold_left Rmin l a <= v) (a :: l).
Proof.
  revert a. induction l as [|v l IH]; intro a; cbn [fold_left].
  - constructor; [lra | constructor].
  - specialize (IH (Rmin a v)). inversion IH as [|? ? H0 Hrest]; subst.
    constructor; [eapply Rle_trans; [exact H0 | apply Rmin_l]|].
    constructor; [eapply Rle_trans; [exact H0 | apply Rmin_r] | exact Hrest].
Qed.

Lemma fold_max_In (l : list R) (a : R) : In (fold_left Rmax l a) (a :: l).
Proof.
  revert a. induction l as [|v l IH]; intro a; cbn [fold_left]; [left; reflexivity|].
  destruct (IH (Rmax a v)) as [H|H].
  - unfold Rmax in H at 1. destruct (Rle_dec a v); [right; left | left]; exact H.
  - right. right. exact H.
Qed.

Lemma fold_min_In (l : list R) (a : R) : In (fold_left Rmin l a) (a :: l).
Proof.
  revert a. induction l as [|v l IH]; intro a; cbn [fold_left]; [left; reflexivity|].
  destruct (IH (Rmin a v)) as [H|H].
  - unfold Rmin in H at 1. destruct (Rle_dec a v); [left | right; left]; exact H.
  - right. right. exact H.
Qed.

Lemma max_strike_gap_nonneg (m : ChainQualityMetrics) : 0 <= max_strike_gap m.
Proof.
  unfold max_strike_gap. destruct (_ <? 2)%nat; [lra|].
  pose proof (np_diff_nonneg _ (sort_by_Rle_sorted (strikes m))) as Hg.
  destruct (np_diff _) as [|g gaps]; [lra|].
  inversion Hg; subst. eapply Rle_trans; [eassumption|].
  apply fold_max_ge_init.
Qed.

Lemma Rmin_unit (v : R) : 0 <= v -> 0 <= Rmin v 1 <= 1.
Proof.
  intro H. split; [apply Rmin_glb; lra | apply Rmin_r].
Qed.

(** X7. With a positive spot, [quality_score] raises on an empty strike
    array and otherwise returns a score between 0 and 46/45; the score is at
    most 1 whenever the largest strike gap is at least 5. *)
Theorem quality_score_bounds (m : ChainQualityMetrics) :
  0 < spot m ->
  (strikes m = [] -> exists msg, quality_score m = inl msg)
  /\ (strikes m <> [] ->
      exists s, quality_score m = inr s
                /\ 0 <= s <= 46 / 45
                /\ (5 <= max_strike_gap m -> s <= 1)).
Proof.
  intro Hspot. split.
  - intro E. unfold quality_score, cov_score, strike_coverage, strikes_max.
    rewrite E. eexists. reflexivity.
  - intro Hne. unfold quality_score, cov_score, strike_coverage, strikes_max,
      strikes_min.
    destruct (strikes m) as [|k ks] eqn:E; [contradiction|]. cbn [bind ret].
    eexists. split; [reflexivity|].
    assert (Hn : 0 <= n_score m <= 1).
    { unfold n_score. apply Rmin_unit. apply Rmult_le_pos; [apply pos_INR | lra]. }
    assert (Hcov : 0 <= Rmin ((Smoothing.np_max k ks - Smoothing.np_min k ks)
                                / spot m / (6 / 10)) 1 <= 1).
    { apply Rmin_unit.
      pose proof (fold_max_ge_init ks k). pose proof (fold_min_le_init ks k).
      unfold Smoothing.np_max, Smoothing.np_min.
      apply Rmult_le_pos; [|lra].
      apply Rmult_le_pos; [lra | left; apply Rinv_0_lt_compat; exact Hspot]. }
    assert (Hbal : 0 <= balance_score m <= 1).
    { unfold balance_score. destruct (0 <? num_otm m)%nat eqn:Ep; [|lra].
      apply Nat.ltb_lt in Ep. apply Rmin_unit.
      apply Rmult_le_pos; [apply pos_INR|].
      left. apply Rinv_0_lt_compat.
      assert (0 < INR (num_otm m)) by (apply lt_0_INR; exact Ep). lra. }
    pose proof (max_strike_gap_nonneg m) as Hg.
    assert (Hgap : 0 <= gap_score m <= 10 / 9).
    { unfold gap_score. split; [apply Rmax_l|]. apply Rmax_lub; lra. }
    split; [lra|]. intro H5.
    assert (gap_score m <= 1).
    { unfold gap_score. apply Rmax_lub; lra. }
    lra.
Qed.

Lemma quality_score_bounds_witness :
  exists s, quality_score Samples.narrow_gap_metrics = inr s /\ 0 <= s <= 46 / 45.
Proof.
  destruct (quality_score_bounds Samples.narrow_gap_metrics) as [_ H].
  - simpl. lra.
  - destruct H as [s [Hs [Hb _]]]; [discriminate|]. exists s. split; assumption.
Defined.

Lemma last_In (a : R) (l : list R) : In (last l a) (a :: l).
Proof.
  revert a. induction l as [|b l IH]; intro a; [left; reflexivity|].
  right. rewrite last_cons. apply IH.
Qed.

Lemma sorted_hd_last (k : R) (ks : list R) :
  match Pd.sort_by Rleb (k :: ks) with
  | [] => False
  | s0 :: s => s0 = Smoothing.np_min k ks /\ last s s0 = Smoothing.np_max k ks
  end.
Proof.
  pose proof (sort_by_Rle_sorted (k :: ks)) as Hs.
  pose proof (sort_by_length Rleb (k :: ks)) as Hl.
  destruct (Pd.sort_by Rleb (k :: ks)) as [|s0 s] eqn:E; [discriminate|].
  pose proof (sorted_bounds s0 s Hs) as Hb. rewrite Forall_forall in Hb.
  assert (Hin : forall v, In v (s0 :: s) <-> In v (k :: ks)).
  { intro v. rewrite <- E. apply In_sort_by. }
  pose proof (fold_min_In ks k) as Hmin. pose proof (fold_max_In ks k) as Hmax.
  pose proof (fold_min_lower ks k) as Hlo. pose proof (fold_max_upper ks k) as Hhi.
  rewrite Forall_forall in Hlo, Hhi. unfold Smoothing.np_min, Smoothing.np_max.
  split; apply Rle_antisym.
  - apply Hb, Hin, Hmin.
  - apply Hlo, Hin. left. reflexivity.
  - apply Hhi, Hin. apply last_In.
  - apply Hb, Hin, Hmax.
Qed.

Lemma np_sum_le (M : R) (l : list R) :
  Forall (fun v => v <= M) l -> Smoothing.np_sum l <= INR (length l) * M.
Proof.
  unfold Smoothing.np_sum. induction 1 as [|v l Hv _ IH].
  - simpl. lra.
  - cbn [fold_left]. rewrite fold_plus_init.
    change (length (v :: l)) with (S (length l)). rewrite S_INR. lra.
Qed.

(** X8. For a chain with at least two strikes, the average strike gap times
    the number of gaps is the strike range (the gaps of the sorted strikes
    telescope), and the average gap lies between zero and the largest
    gap. *)
Theorem strike_gaps_telescope (m : ChainQualityMetrics) :
  (2 <= length (strikes m))%nat ->
  exists lo hi,
    strike_range m = inr (lo, hi)
    /\ avg_strike_gap m * INR (length (strikes m) - 1) = hi - lo
    /\ 0 <= avg_strike_gap m <= max_strike_gap m.
Proof.
  intro Hn. unfold strike_range, strikes_min, strikes_max, avg_strike_gap,
    max_strike_gap.
  destruct (strikes m) as [|k ks] eqn:E; [simpl in Hn; lia|].
  exists (Smoothing.np_min k ks), (Smoothing.np_max k ks).
  split; [reflexivity|].
  replace (length (k :: ks) <? 2)%nat with false
    by (symmetry; apply Nat.ltb_ge; exact Hn).
  pose proof (sorted_hd_last k ks) as Hs.
  pose proof (sort_by_length Rleb (k :: ks)) as Hl.
  pose proof (np_diff_nonneg _ (sort_by_Rle_sorted (k :: ks))) as Hpos.
  destruct (Pd.sort_by Rleb (k :: ks)) as [|s0 s] eqn:Es; [contradiction|].
  destruct Hs as [Hmin Hmax].
  assert (Hsum : Smoothing.np_sum (np_diff (s0 :: s))
                 = Smoothing.np_max k ks - Smoothing.np_min k ks).
  { rewrite np_diff_sum, Hmax. f_equal. f_equal. exact Hmin. }
  pose proof (np_diff_length (s0 :: s)) as Hlen. rewrite Hl in Hlen.
  revert Hsum Hlen Hpos.
  destruct (np_diff (s0 :: s)) as [|g gaps]; intros Hsum Hlen Hpos.
  { simpl in Hlen, Hn. lia. }
  rewrite Hlen.
  assert (Hcount : 0 < INR (length (k :: ks) - 1)).
  { apply lt_0_INR. lia. }
  rewrite Hsum. split; [field; lra|].
  pose proof (fold_max_upper gaps g) as Hup.
  assert (Hge : 0 <= Smoothing.np_max k ks - Smoothing.np_min k ks).
  { pose proof (fold_max_ge_init ks k). pose proof (fold_min_le_init ks k).
    unfold Smoothing.np_max, Smoothing.np_min. lra. }
  split.
  - apply Rmult_le_pos; [exact Hge | left; apply Rinv_0_lt_compat; exact Hcount].
  - apply div_le_of_le_mul; [exact Hcount|].
    rewrite <- Hsum, <- Hlen, Rmult_comm. apply np_sum_le. exact Hup.
Qed.

Lemma strike_gaps_telescope_witness :
  exists lo hi,
    strike_range Samples.narrow_gap_metrics = inr (lo, hi)
    /\ avg_strike_gap Samples.narrow_gap_metrics
       * INR (length (strikes Samples.narrow_gap_metrics) - 1) = hi - lo.
Proof.
  destruct (strike_gaps_telescope Samples.narrow_gap_metrics) as [lo [hi [H1 [H2 _]]]].
  - simpl. lia.
  - exists lo, hi. split; assumption.
Defined.

End ChainQualityBounds.

(** ** What [fit] returns *)

Section FitShape.

Import Smoothing.

Variable make_spline : list R -> list R -> R -> Exc UnivariateSpline.

Lemma drop_repeats_sorted (l : list R) :
  StronglySorted Rle l -> StronglySorted Rlt (drop_repeats l).
Proof.
  induction 1 as [|x l Hs IH Hall]; [constructor|].
  destruct l as [|y l]; [repeat constructor|].
  change (drop_repeats (x :: y :: l))
    with (if Reqb x y then drop_repeats (y :: l) else x :: drop_repeats (y :: l)).
  destruct (Reqb x y) eqn:E; [exact IH|].
  constructor; [exact IH|]. apply Forall_forall. intros v Hv.
  apply In_drop_repeats in Hv.
  inversion Hall as [|? ? Hxy Hrest]; subst.
  assert (Hne : x <> y).
  { intro Heq. rewrite (Reqb_true x y Heq) in E. discriminate. }
  inversion Hs as [|? ? _ Hy]; subst. rewrite Forall_forall in Hy.
  destruct Hv as [<-|Hv]; [lra|]. specialize (Hy v Hv). lra.
Qed.

Lemma select_Forall {A : Type} (P : A -> Prop) (mask : list bool) (a : list A) :
  Forall P a -> Forall P (Np.select mask a).
Proof.
  intro H. revert mask. induction H as [|v a Hv _ IH]; intro mask.
  - destruct mask; constructor.
  - destruct mask as [|b mask]; [constructor|]. cbn [Np.select].
    destruct b; [constructor; [exact Hv | apply IH] | apply IH].
Qed.

Lemma select_at_value {A : Type} (u : R) (f : A -> R) (g : A -> R) (l : list A) :
  In u (map f l) -> Np.select (map (Reqb u) (map f l)) (map g l) <> [].
Proof.
  induction l as [|a l IH]; [contradiction|]. cbn [map Np.select In].
  intros [Hu|Hu].
  - rewrite (Reqb_true u (f a)) by (symmetry; exact Hu). discriminate.
  - destruct (Reqb u (f a)); [discriminate | apply IH; exact Hu].
Qed.

Lemma np_sum_pos (l : list R) :
  Forall (fun v => 0 < v) l -> l <> [] -> 0 < np_sum l.
Proof.
  unfold np_sum. intros H Hne. destruct H as [|v l Hv Hl]; [contradiction|].
  clear Hne. revert v Hv. induction Hl as [|w l Hw _ IH]; intros v Hv.
  - simpl. lra.
  - cbn [fold_left] in *. rewrite fold_plus_init.
    specialize (IH w Hw). rewrite fold_plus_init in IH. lra.
Qed.

Lemma fit_arrays_shape (self : CallPriceSmoother) (chain : Pd.DataFrame)
    (price_col : string) (ks ps : list R) :
  fit_arrays self chain price_col = inr (ks, ps) ->
  StronglySorted Rlt ks
  /\ Forall (fun k => 0 < k) ks
  /\ Forall (fun p => 0 < p) ps
  /\ length ps = length ks
  /\ (min_points self <= length ks)%nat.
Proof.
  intro Hfit. pose proof (fit_arrays_positive self chain price_col ks ps Hfit) as Hpos.
  unfold fit_arrays in Hfit. cbv zeta in Hfit.
  apply bind_inr in Hfit. destruct Hfit as [calls [_ H]].
  destruct (_ <? _)%nat; [discriminate|].
  apply bind_inr in H. destruct H as [_ [_ H]].
  apply bind_inr in H. destruct H as [_ [_ H]].
  apply bind_inr in H. destruct H as [price [_ H]].
  destruct (_ <? _)%nat eqn:El; [discriminate|].
  apply Nat.ltb_ge in El. injection H as <- <-.
  set (valid := filter _ _) in *.
  split; [apply drop_repeats_sorted, sort_by_Rle_sorted|].
  split; [exact Hpos|]. split; [|split; [apply length_map | exact El]].
  apply Forall_forall. intros p Hp. apply in_map_iff in Hp.
  destruct Hp as [u [<- Hu]].
  assert (Hin : In u (map Pd.strike valid)).
  { apply In_drop_repeats in Hu. apply In_sort_by in Hu. exact Hu. }
  assert (Hall : Forall (fun v => 0 < v) (map price valid)).
  { apply Forall_forall. intros v Hv. apply in_map_iff in Hv.
    destruct Hv as [q [<- Hq]]. unfold valid in Hq. apply filter_In in Hq.
    destruct Hq as [_ Hq]. apply andb_true_iff in Hq. destruct Hq as [Hq _].
    apply Rltb_spec. exact Hq. }
  pose proof (select_at_value u Pd.strike price valid Hin) as Hne.
  pose proof (select_Forall _ (map (Reqb u) (map Pd.strike valid)) _ Hall) as Hsel.
  apply Rdiv_lt_0_compat; [apply np_sum_pos; assumption|].
  apply lt_0_INR. destruct (Np.select _ _); [contradiction | simpl; lia].
Qed.

Lemma sorted_lt_hd_last (k0 : R) (ks : list R) :
  StronglySorted Rlt (k0 :: ks) ->
  np_min k0 ks = k0 /\ np_max k0 ks = last ks k0.
Proof.
  intro Hs.
  assert (Hle : StronglySorted Rle (k0 :: ks)).
  { clear -Hs. induction Hs as [|a l _ IH Ha]; constructor; [exact IH|].
    eapply Forall_impl; [|exact Ha]. simpl. intros. lra. }
  pose proof (sorted_bounds k0 ks Hle) as Hb. rewrite Forall_forall in Hb.
  pose proof (fold_min_In ks k0) as Hmin. pose proof (fold_max_In ks k0) as Hmax.
  pose proof (fold_min_lower ks k0) as Hlo. pose proof (fold_max_upper ks k0) as Hhi.
  rewrite Forall_forall in Hlo, Hhi. unfold np_min, np_max.
  split; apply Rle_antisym.
  - apply Hlo. left. reflexivity.
  - apply Hb, Hmin.
  - apply Hb, Hmax.
  - apply Hhi, last_In.
Qed.

(** What [fit] returns, field by field. *)
Lemma fit_returns (self : CallPriceSmoother) (chain : Pd.DataFrame)
    (spot_price : option R) (price_col : string) (res : SmoothingResult) :
  fit make_spline self chain spot_price price_col = inr res ->
  exists k0 ks ps spl,
    fit_arrays self chain price_col = inr (k0 :: ks, ps)
    /\ res = mkSmoothingResult (k0 :: ks) ps
               (map (smooth_point spl (ln k0) (ln (last ks k0))))
               match spot_price with
               | Some v => v
               | None => nth (length (k0 :: ks) / 2) (k0 :: ks) 0
               end
               k0 (last ks k0) (Some spl).
Proof.
  unfold fit. intro H. apply bind_inr in H. destruct H as [[ks ps] [Ha H]].
  cbn [fst snd] in H.
  destruct (fit_arrays_shape self chain price_col ks ps Ha)
    as [Hs [Hpos [Hpp [Hlen Hmin]]]].
  unfold fit_spline in H. cbv zeta in H.
  apply bind_inr in H. destruct H as [spot [Hspot H]].
  apply bind_inr in H. destruct H as [spl [_ H]].
  destruct ks as [|k0 ks]; [discriminate|]. cbn [map] in H.
  inversion Hpos as [|? ? Hk0 Hks]; subst.
  destruct (sorted_lt_hd_last k0 ks Hs) as [Emin Emax].
  assert (Hlast : 0 < last ks k0).
  { pose proof (last_In k0 ks) as Hin. rewrite Forall_forall in Hpos.
    apply Hpos. exact Hin. }
  rewrite ln_np_min, ln_np_max in H by assumption.
  unfold SmoothingResult_init in H. rewrite Emin, Emax in H.
  rewrite (Reqb_false k0 0) in H by lra.
  rewrite (Reqb_false (last ks k0) 0) in H by lra.
  cbn [bind ret] in H. injection H as <-.
  exists k0, ks, ps, spl. split; [exact Ha|]. f_equal.
  destruct spot_price as [v|]; [injection Hspot as <-; reflexivity|].
  destruct (nth_error (k0 :: ks) (length (k0 :: ks) / 2)) as [v|] eqn:En;
    [|discriminate].
  injection Hspot as <-. symmetry. apply nth_error_nth. exact En.
Qed.

(** X9. Whatever the chain, a smoothing result that [fit] returns has
    strictly increasing positive strikes (so no duplicates), one positive
    price per strike, at least [min_points] of them, [strike_min] and
    [strike_max] equal to the first and last strike, and the spot price
    that was given or else the middle strike; with [min_points >= 2] the
    bounds satisfy [0 < strike_min < strike_max]. *)
Theorem fit_result_shape (self : CallPriceSmoother) (chain : Pd.DataFrame)
    (spot_price : option R) (price_col : string) (res : SmoothingResult) :
  fit make_spline self chain spot_price price_col = inr res ->
  StronglySorted Rlt (strikes res)
  /\ Forall (fun k => 0 < k) (strikes res)
  /\ Forall (fun p => 0 < p) (prices res)
  /\ length (prices res) = length (strikes res)
  /\ (Nat.max 1 (min_points self) <= length (strikes res))%nat
  /\ strike_min res = hd 0 (strikes res)
  /\ strike_max res = last (strikes res) 0
  /\ Smoothing.spot_price res
     = match spot_price with
       | Some v => v
       | None => nth (length (strikes res) / 2) (strikes res) 0
       end
  /\ ((2 <= min_points self)%nat -> 0 < strike_min res < strike_max res).
Proof.
  intro H. destruct (fit_returns _ _ _ _ _ H) as [k0 [ks [ps [spl [Ha ->]]]]].
  destruct (fit_arrays_shape self chain price_col _ _ Ha)
    as [Hs [Hpos [Hpp [Hlen Hmin]]]].
  cbn [strikes prices strike_min strike_max Smoothing.spot_price hd].
  split; [exact Hs|]. split; [exact Hpos|]. split; [exact Hpp|].
  split; [exact Hlen|].
  split; [apply Nat.max_lub; [cbn [length]; lia | exact Hmin]|]. split; [reflexivity|].
  split; [symmetry; apply last_cons|]. split; [reflexivity|].
  intro H2. inversion Hpos as [|? ? Hk0 _]; subst. split; [exact Hk0|].
  destruct ks as [|k1 ks]; [simpl in Hmin; lia|].
  inversion Hs as [|? ? Hs' Hall]; subst. rewrite Forall_forall in Hall.
  apply Hall. rewrite last_cons. apply last_In.
Qed.

End FitShape.

Lemma fit_result_shape_witness :
  let make_spline := fun (_ _ : list R) (_ : R) =>
    @inr string _ (Smoothing.mkSpline (fun x => 1 - x) (fun _ => None)) in
  let quote := fun K m => Pd.mkRow 30 K "C" 0 0 0 0 m 30 "call" in
  let chain := Pd.mkDF ["strike"; "mid"] [quote 2 1; quote 1 2; quote 2 3] in
  exists res,
    Smoothing.fit make_spline (Smoothing.mkSmoother None 2) chain None "mid" = inr res
    /\ StronglySorted Rlt (Smoothing.strikes res)
    /\ 0 < Smoothing.strike_min res < Smoothing.strike_max res.
Proof.
  intros make_spline quote chain.
  assert (Hfit : exists res,
             Smoothing.fit make_spline (Smoothing.mkSmoother None 2) chain None "mid"
             = inr res).
  { unfold Smoothing.fit, Smoothing.fit_arrays, Smoothing.fit_spline,
      Smoothing.SmoothingResult_init, chain, quote.
    reval.
    repeat match goal with
           | |- context [Reqb ?a ?b] => destruct (Reqb a b)
           end; cbn [bind ret]; eexists; reflexivity. }
  destruct Hfit as [res Hres]. exists res. split; [exact Hres|].
  destruct (fit_result_shape make_spline _ _ _ _ res Hres)
    as [Hs [_ [_ [_ [_ [_ [_ [_ Hb]]]]]]]].
  split; [exact Hs | apply Hb; simpl; lia].
Defined.

Section FitExtract.

Import Smoothing RndExtractor.

Variable make_spline : list R -> list R -> R -> Exc UnivariateSpline.
Variable date_str : Z -> string.

(** X10. [fit] followed by [extract]: for a smoother with
    [min_points >= 2], an extractor with [num_points >= 3] and an expiry
    after the trade date, [extract] returns on every smoothing result that
    [fit] returned, and the density it returns is positive everywhere and
    integrates to one over the grid that runs from the smallest to the
    largest fitted strike. *)
Theorem fit_then_extract (smoother : CallPriceSmoother) (extractor : RNDExtractor)
    (chain : Pd.DataFrame) (spot : option R) (price_col : string)
    (sr : SmoothingResult) (expiry trade_date : Z) :
  (2 <= min_points smoother)%nat ->
  (3 <= num_points extractor)%nat ->
  (trade_date < expiry)%Z ->
  fit make_spline smoother chain spot price_col = inr sr ->
  exists res,
    extract date_str extractor sr expiry trade_date = inr res
    /\ RndExtractor.strikes res
       = Np.linspace (hd 0 (Smoothing.strikes sr)) (last (Smoothing.strikes sr) 0)
                     (num_points extractor)
    /\ length (density res) = num_points extractor
    /\ Forall (fun f => 0 < f) (density res)
    /\ Np.trapz (density res) (RndExtractor.strikes res) = 1
    /\ RndExtractor.spot_price res = Smoothing.spot_price sr
    /\ RndExtractor.expiry res = expiry.
Proof.
  intros Hmin Hn Hdate Hfit.
  destruct (fit_returns make_spline _ _ _ _ _ Hfit) as [k0 [ks [ps [spl [Ha ->]]]]].
  destruct (fit_arrays_shape smoother chain price_col _ _ Ha)
    as [Hs [_ [_ [_ Hlen]]]].
  assert (Hb : k0 < last ks k0).
  { destruct ks as [|k1 ks]; [simpl in Hlen; lia|].
    inversion Hs as [|? ? _ Hall]; subst. rewrite Forall_forall in Hall.
    apply Hall. rewrite last_cons. apply last_In. }
  set (sr := mkSmoothingResult _ _ _ _ _ _ _).
  assert (HT : 0 < IZR (expiry - trade_date) / 365).
  { apply Rdiv_lt_0_compat; [|lra]. apply IZR_lt. lia. }
  unfold extract. rewrite Rleb_false by lra.
  set (grid := get_strike_grid sr (num_points extractor)) in *.
  assert (Hgl : length grid = num_points extractor) by apply linspace_length.
  assert (Hgs : Sorted Rlt grid) by (apply linspace_sorted; exact Hb).
  destruct (d2C_dK2_returns (smooth_fn sr) grid (Some sr)) as [d2C [Hd Hl]];
    [lia | apply length_map |].
  unfold _compute_density. rewrite Hd. cbn [bind ret].
  set (raw := map (fun v => exp (r extractor * (IZR (expiry - trade_date) / 365)) * v)
                  d2C).
  assert (Hrl : length raw = length grid)
    by (unfold raw; rewrite length_map; exact Hl).
  destruct (normalize_density_unit raw grid Hrl) as [Hpos Hint]; [lia | exact Hgs |].
  eexists. split; [reflexivity|].
  cbn [RndExtractor.strikes density RndExtractor.spot_price RndExtractor.expiry].
  split; [unfold grid, get_strike_grid, sr;
          cbn [strike_min strike_max Smoothing.strikes hd];
          rewrite last_cons; reflexivity|].
  split; [rewrite normalize_density_length; lia|].
  repeat split; assumption.
Qed.

End FitExtract.

Lemma fit_then_extract_witness :
  let make_spline := fun (_ _ : list R) (_ : R) =>
    @inr string _ (Smoothing.mkSpline (fun x => 1 - x) (fun _ => None)) in
  let quote := fun K m => Pd.mkRow 30 K "C" 0 0 0 0 m 30 "call" in
  let chain := Pd.mkDF ["strike"; "mid"] [quote 1 2; quote 2 1] in
  exists sr res,
    Smoothing.fit make_spline (Smoothing.mkSmoother None 2) chain None "mid" = inr sr
    /\ RndExtractor.extract (fun _ => "") (RndExtractor.mkExtractor (5 / 100) 3)
         sr 30 0 = inr res
    /\ Forall (fun f => 0 < f) (RndExtractor.density res)
    /\ Np.trapz (RndExtractor.density res) (RndExtractor.strikes res) = 1.
Proof.
  intros make_spline quote chain.
  assert (Hfit : exists sr,
             Smoothing.fit make_spline (Smoothing.mkSmoother None 2) chain None "mid"
             = inr sr).
  { unfold Smoothing.fit, Smoothing.fit_arrays, Smoothing.fit_spline,
      Smoothing.SmoothingResult_init, chain, quote.
    reval.
    repeat match goal with
           | |- context [Reqb ?a ?b] => destruct (Reqb a b)
           end; cbn [bind ret]; eexists; reflexivity. }
  destruct Hfit as [sr Hsr]. exists sr.
  destruct (fit_then_extract make_spline (fun _ => "") (Smoothing.mkSmoother None 2)
              (RndExtractor.mkExtractor (5 / 100) 3) chain None "mid" sr 30 0)
    as [res [H1 [_ [_ [H2 [H3 _]]]]]].
  - simpl. lia.
  - simpl. lia.
  - lia.
  - exact Hsr.
  - exists res. auto.
Defined.

(** ** The arbitrage check *)

Section ArbitrageCheck.

Import ArbitrageChecks.

Lemma count_zero (p : R -> bool) (a : list R) :
  count p a = 0%nat <-> forall i, (i < length a)%nat -> p (nth i a 0) = false.
Proof.
  unfold count. induction a as [|v a IH]; cbn [filter length].
  - split; [intros _ i Hi; lia | reflexivity].
  - destruct (p v) eqn:E; cbn [length].
    + split; [discriminate|]. intro H. specialize (H 0%nat). cbn [nth] in H.
      rewrite E in H. discriminate H. lia.
    + rewrite IH. split.
      * intros H [|i] Hi; [exact E | apply H; lia].
      * intros H i Hi. apply (H (S i)). lia.
Qed.

Lemma np_diff_nth (l : list R) (i : nat) :
  (S i < length l)%nat ->
  nth i (ChainQuality.np_diff l) 0 = nth (S i) l 0 - nth i l 0.
Proof.
  revert i. induction l as [|x l IH]; intros i Hi; [simpl in Hi; lia|].
  destruct l as [|y l]; [simpl in Hi; lia|].
  change (ChainQuality.np_diff (x :: y :: l))
    with ((y - x) :: ChainQuality.np_diff (y :: l)).
  destruct i as [|i]; [reflexivity|].
  change (nth (S i) ((y - x) :: ChainQuality.np_diff (y :: l)) 0)
    with (nth i (ChainQuality.np_diff (y :: l)) 0).
  rewrite IH by (simpl in *; lia). reflexivity.
Qed.

Lemma divide_nth (a b : list R) (i : nat) :
  length a = length b -> (i < length a)%nat ->
  nth i (map (fun p => fst p / snd p) (combine a b)) 0 = nth i a 0 / nth i b 0.
Proof.
  revert b i. induction a as [|x a IH]; intros b i Hl Hi; [simpl in Hi; lia|].
  destruct b as [|y b]; [discriminate|]. destruct i as [|i]; [reflexivity|].
  cbn [combine map nth]. apply IH; simpl in *; lia.
Qed.

(** X11. [check] returns whenever the grid has at least two strikes and
    the callable gives one price per strike. Then [is_valid] holds exactly
    when no violation was counted, monotonicity holds exactly when every
    slope between neighbouring strikes is at most the tolerance, and
    convexity holds exactly when every second difference, scaled by the
    square of the first strike step, is at least the convexity
    tolerance. *)
Theorem check_valid_iff (self : ArbitrageChecker) (smooth_fn : list R -> list R)
    (strikes : list R) :
  (2 <= length strikes)%nat ->
  length (smooth_fn strikes) = length strikes ->
  let C := fun i => nth i (smooth_fn strikes) 0 in
  let K := fun i => nth i strikes 0 in
  exists res,
    check self smooth_fn strikes = inr res
    /\ is_valid res = monotonicity_ok res && convexity_ok res
    /\ (is_valid res = true <-> num_violations res = 0%nat)
    /\ (monotonicity_ok res = true <->
        forall i, (S i < length strikes)%nat ->
                  (C (S i) - C i) / (K (S i) - K i) <= monotonicity_tol self)
    /\ (convexity_ok res = true <->
        forall i, (i + 2 < length strikes)%nat ->
                  convexity_tol self
                  <= (C (i + 2)%nat - 2 * C (i + 1)%nat + C i) / (K 1%nat - K 0%nat) ^ 2).
Proof.
  intros Hn Hlen C K. unfold check. cbv zeta.
  set (prices := smooth_fn strikes) in *.
  assert (Hd : length (ChainQuality.np_diff prices)
               = length (ChainQuality.np_diff strikes))
    by (rewrite !np_diff_length, Hlen; reflexivity).
  unfold np_divide. rewrite Hd, Nat.eqb_refl. cbn [bind ret].
  destruct strikes as [|k0 [|k1 ks]]; [simpl in Hn; lia | simpl in Hn; lia|].
  cbn [bind ret]. set (strikes := k0 :: k1 :: ks) in *.
  set (slopes := map _ (combine _ _)).
  set (curv := map _ (MathUtils.second_diffs prices)).
  eexists. split; [reflexivity|].
  cbn [is_valid num_violations monotonicity_ok convexity_ok].
  split; [reflexivity|]. split; [|split].
  - rewrite andb_true_iff, !Nat.eqb_eq. lia.
  - rewrite Nat.eqb_eq, count_zero.
    assert (Hsl : length slopes = (length strikes - 1)%nat).
    { unfold slopes. rewrite length_map, length_combine, Hd, Nat.min_id.
      apply np_diff_length. }
    split; intros H i Hi.
    + specialize (H i). rewrite Hsl in H.
      assert (Hi' : (i < length strikes - 1)%nat) by lia. specialize (H Hi').
      unfold slopes in H.
      rewrite divide_nth in H by (rewrite ?Hd, ?np_diff_length; lia).
      rewrite !np_diff_nth in H by lia.
      destruct (Rle_dec ((C (S i) - C i) / (K (S i) - K i)) (monotonicity_tol self))
        as [Hle|Hgt]; [exact Hle|].
      unfold C, K in Hgt. rewrite Rltb_true in H by lra. discriminate.
    + rewrite Hsl in Hi. unfold slopes.
      rewrite divide_nth by (rewrite ?Hd, ?np_diff_length; lia).
      rewrite !np_diff_nth by lia.
      apply Rltb_false. specialize (H i). unfold C, K in H.
      assert (S i < length strikes)%nat by lia. specialize (H H0). lra.
  - rewrite Nat.eqb_eq, count_zero.
    assert (Hcl : length curv = (length strikes - 2)%nat).
    { unfold curv. rewrite length_map, second_diffs_length, Hlen. reflexivity. }
    assert (HdK : K 1%nat - K 0%nat = k1 - k0) by reflexivity.
    split; intros H i Hi.
    + specialize (H i). rewrite Hcl in H.
      assert (Hi' : (i < length strikes - 2)%nat) by lia. specialize (H Hi').
      unfold curv in H.
      rewrite nth_map_in in H by (rewrite second_diffs_length, Hlen; lia).
      rewrite second_diffs_nth in H by (rewrite Hlen; lia).
      rewrite HdK. unfold C.
      match type of H with
      | Rltb ?a ?b = false =>
          destruct (Rle_dec b a) as [Hle|Hgt]; [exact Hle|];
          rewrite (Rltb_true a b) in H by lra; discriminate
      end.
    + rewrite Hcl in Hi. unfold curv.
      rewrite nth_map_in by (rewrite second_diffs_length, Hlen; lia).
      rewrite second_diffs_nth by (rewrite Hlen; lia).
      apply Rltb_false. specialize (H i). rewrite HdK in H. unfold C in H.
      assert (i + 2 < length strikes)%nat by lia. specialize (H H0). lra.
Qed.

Lemma check_valid_iff_witness :
  exists res,
    check default_checker (map (fun K : R => 3 - K)) [1; 2; 3] = inr res
    /\ (is_valid res = true <-> num_violations res = 0%nat).
Proof.
  destruct (check_valid_iff default_checker (map (fun K : R => 3 - K)) [1; 2; 3])
    as [res [H1 [_ [H2 _]]]].
  - simpl. lia.
  - reflexivity.
  - exists res. split; assumption.
Defined.

End ArbitrageCheck.

(** ** What [clean] returns *)

Section CleanExact.

Import Mem ChainCleaner.

(** On the newest object the primitive operations never raise. *)
Lemma triple_read_newest_ok (h0 : Heap) (P : Pd.DataFrame -> Prop) (r : ref)
    (Exn : Heap -> Prop) :
  triple (newest h0 P r) (read r) (fun d h => P d /\ newest h0 (eq d) r h) Exn.
Proof.
  intros h [ext [df [-> [-> HP]]]]. unfold read.
  rewrite nth_error_app2 by lia. rewrite Nat.sub_diag. cbn.
  split; [exact HP|]. exists ext, df. auto.
Qed.

Lemma triple_getitem_ok (h0 : Heap) (P Q : Pd.DataFrame -> Prop) (r : ref)
    (keep : Pd.Row -> bool) (Exn : Heap -> Prop) :
  (forall df, P df -> Q (Pd.filter_rows keep df)) ->
  triple (newest h0 P r) (getitem r keep) (fun r' h => newest h0 Q r' h) Exn.
Proof.
  intros HPQ h [ext [df [-> [-> HP]]]]. unfold getitem, mbind, read, alloc.
  rewrite nth_error_app2 by lia. rewrite Nat.sub_diag. cbn.
  exists (ext ++ [df]), (Pd.filter_rows keep df).
  rewrite !app_assoc. auto.
Qed.

Lemma triple_copy_ok (h0 : Heap) (P : Pd.DataFrame -> Prop) (r : ref)
    (Exn : Heap -> Prop) :
  triple (newest h0 P r) (copy r) (fun r' h => newest h0 P r' h) Exn.
Proof.
  intros h [ext [df [-> [-> HP]]]]. unfold copy, mbind, read, alloc.
  rewrite nth_error_app2 by lia. rewrite Nat.sub_diag. cbn.
  exists (ext ++ [df]), df. rewrite !app_assoc. auto.
Qed.

Lemma triple_setitem_ok (h0 : Heap) (P Q : Pd.DataFrame -> Prop) (r : ref)
    (name : string) (upd : Pd.Row -> Pd.Row) (Exn : Heap -> Prop) :
  (forall df, P df -> Q (Pd.assign name upd df)) ->
  triple (newest h0 P r) (setitem r name upd) (fun _ h => newest h0 Q r h) Exn.
Proof.
  intros HPQ h [ext [df [-> [-> HP]]]]. unfold setitem, mbind, read, write.
  rewrite nth_error_app2 by lia. rewrite Nat.sub_diag. cbn.
  rewrite update_newest. exists ext, (Pd.assign name upd df). auto.
Qed.

(** Reading a column that is there. *)
Lemma triple_column_ok (h0 : Heap) (P : Pd.DataFrame -> Prop) (r : ref)
    (name : string) (Exn : Heap -> Prop) :
  (forall df, P df -> Pd.has_col name df = true) ->
  triple (newest h0 P r) (column r name) (fun _ h => newest h0 P r h) Exn.
Proof.
  intros Hcol h [ext [df [-> [-> HP]]]]. unfold column, mbind, read, lift.
  rewrite nth_error_app2 by lia. rewrite Nat.sub_diag. cbn. unfold Pd.require.
  rewrite (Hcol df HP). cbn. exists ext, df. auto.
Qed.

(** Reading a column that is missing. *)
Lemma triple_column_missing {A : Type} (h0 : Heap) (P : Pd.DataFrame -> Prop)
    (r : ref) (name : string) (k : unit -> M A) (Post : A -> Heap -> Prop) :
  (forall df, P df -> Pd.has_col name df = false) ->
  triple (newest h0 P r) (mbind (column r name) k) Post
         (fun h => newest h0 P r h).
Proof.
  intros Hcol h [ext [df [-> [-> HP]]]]. unfold column, mbind, read, lift.
  rewrite nth_error_app2 by lia. rewrite Nat.sub_diag. cbn. unfold Pd.require.
  rewrite (Hcol df HP). cbn. exists ext, df. auto.
Qed.

Lemma triple_read_old_ok (h0 : Heap) (r : ref) (c : Pd.DataFrame)
    (Exn : Heap -> Prop) :
  nth_error h0 r = Some c ->
  triple (eq h0) (read r) (fun d h => d = c /\ h = h0) Exn.
Proof. intros Hc h <-. unfold read. rewrite Hc. auto. Qed.

Lemma triple_copy_old_ok (h0 : Heap) (r : ref) (c : Pd.DataFrame)
    (Exn : Heap -> Prop) :
  nth_error h0 r = Some c ->
  triple (eq h0) (copy r) (fun r' h => newest h0 (eq c) r' h) Exn.
Proof.
  intros Hc h <-. unfold copy, mbind, read, alloc. rewrite Hc.
  exists [], c. rewrite app_nil_r. auto.
Qed.

Lemma triple_newest_ret_ok (h0 : Heap) (P Q : Pd.DataFrame -> Prop) (r : ref)
    (Exn : Heap -> Prop) :
  (forall df, P df -> Q df) ->
  triple (newest h0 P r) (mret r) (fun r' h => newest h0 Q r' h) Exn.
Proof. intros HPQ h H. exact (newest_weaken _ _ _ _ _ HPQ H). Qed.

Lemma filter_filter {A : Type} (p q : A -> bool) (l : list A) :
  filter p (filter q l) = filter (fun x => q x && p x) l.
Proof.
  induction l as [|x l IH]; [reflexivity|]. cbn [filter].
  destruct (q x); cbn [filter andb]; [destruct (p x)|]; rewrite IH; reflexivity.
Qed.

Lemma has_col_with_mid (name : string) (c : Pd.DataFrame) :
  Pd.has_col name c = true -> Pd.has_col name (with_mid c) = true.
Proof.
  intro H. unfold with_mid. destruct (Pd.has_col "mid" c); [exact H|].
  apply has_col_assign_other. exact H.
Qed.

Lemma has_col_mid_with_mid (c : Pd.DataFrame) : Pd.has_col "mid" (with_mid c) = true.
Proof.
  unfold with_mid. destruct (Pd.has_col "mid" c) eqn:E; [exact E|].
  apply has_col_assign_same.
Qed.

(** The stages of [clean] on the frame, one filter after the other, keep
    the rows that pass all the tests. *)
Lemma staged_filters (self : ChainCleaner) (d : Pd.DataFrame) :
  let d2 := Pd.filter_rows (fun q => Rleb (Pd.bid q) (Pd.ask q) && Rleb 0 (Pd.bid q)
                                     && Rltb 0 (Pd.ask q)) d in
  let d3 := if (0 <? min_volume self)%Z
            then Pd.filter_rows (fun q => (min_volume self <=? Pd.volume q)%Z) d2
            else d2 in
  let d4 := if (0 <? min_oi self)%Z
            then Pd.filter_rows (fun q => (min_oi self <=? Pd.open_interest q)%Z) d3
            else d3 in
  let d5 := if Rltb 0 (max_spread_pct self)
            then Pd.filter_rows
                   (fun q => if Reqb (Pd.mid q) 0 then false
                             else Rleb ((Pd.ask q - Pd.bid q) / Pd.mid q)
                                       (max_spread_pct self)) d4
            else d4 in
  d5 = Pd.filter_rows (passes self) d.
Proof.
  cbv zeta. unfold Pd.filter_rows, passes, spread_ok, quote_ok.
  destruct (0 <? min_volume self)%Z, (0 <? min_oi self)%Z,
    (Rltb 0 (max_spread_pct self)); cbn [Pd.columns Pd.rows negb orb];
    rewrite ?filter_filter; f_equal; apply filter_ext; intro q;
    rewrite ?andb_true_r, ?andb_assoc; reflexivity.
Qed.

Lemma clean_exact (self : ChainCleaner) (chain : ref) (trade_date : option Z)
    (h0 : Heap) (c : Pd.DataFrame) (Exn : Heap -> Prop) :
  nth_error h0 chain = Some c ->
  Pd.empty c = false ->
  Pd.has_col "bid" c = true ->
  Pd.has_col "ask" c = true ->
  ((0 < min_volume self)%Z -> Pd.has_col "volume" c = true) ->
  ((0 < min_oi self)%Z -> Pd.has_col "open_interest" c = true) ->
  triple (eq h0) (clean self chain trade_date)
         (fun res h => newest h0 (eq (cleaned self trade_date c)) res h) Exn.
Proof.
  intros Hc Hne Hbid Hask Hvol Hoi. unfold clean.
  eapply triple_bind; [apply (triple_read_old_ok h0 chain c Exn Hc)|].
  intros d h [Hd Hh]. subst d h. rewrite Hne.
  refine ((_ : triple (eq h0) _ _ Exn) h0 eq_refl).
  eapply triple_bind; [apply (triple_copy_old_ok h0 chain c Exn Hc)|]. intros df.
  eapply triple_bind; [apply triple_read_newest_ok|]. intros d.
  apply triple_pure. intros Hd. subst d.
  apply triple_bind with (Mid := fun _ h => newest h0 (eq (with_mid c)) df h).
  { unfold with_mid. destruct (Pd.has_col "mid" c) eqn:Em; cbn [negb].
    - apply triple_ret. auto.
    - eapply triple_bind;
        [apply triple_column_ok; intros x Hx; subst x; exact Hbid|]. intros [].
      eapply triple_bind;
        [apply triple_column_ok; intros x Hx; subst x; exact Hask|]. intros [].
      apply triple_setitem_ok. intros x Hx. subst x. reflexivity. }
  intros [].
  eapply triple_bind;
    [apply triple_column_ok; intros x Hx; subst x; apply has_col_with_mid, Hbid|].
  intros [].
  eapply triple_bind;
    [apply triple_column_ok; intros x Hx; subst x; apply has_col_with_mid, Hask|].
  intros [].
  pose proof (staged_filters self (with_mid c)) as Hstaged. cbv zeta in Hstaged.
  set (d2 := Pd.filter_rows _ (with_mid c)) in *.
  eapply triple_bind; [apply (triple_getitem_ok h0 _ (eq d2))|].
  { intros x Hx. subst x. reflexivity. }
  intros df1.
  set (d3 := if (0 <? min_volume self)%Z then Pd.filter_rows _ d2 else d2) in *.
  apply triple_bind with (Mid := fun r h => newest h0 (eq d3) r h).
  { unfold d3. destruct (0 <? min_volume self)%Z eqn:Ev.
    - apply Z.ltb_lt in Ev.
      eapply triple_bind; [apply triple_column_ok|].
      { intros x Hx. subst x. apply (has_col_with_mid "volume"), Hvol, Ev. }
      intros []. apply triple_getitem_ok. intros x Hx. subst x. reflexivity.
    - apply triple_newest_ret_ok. auto. }
  intros df2.
  set (d4 := if (0 <? min_oi self)%Z then Pd.filter_rows _ d3 else d3) in *.
  assert (Hcols3 : Pd.columns d3 = Pd.columns (with_mid c)).
  { unfold d3. destruct (0 <? min_volume self)%Z; reflexivity. }
  apply triple_bind with (Mid := fun r h => newest h0 (eq d4) r h).
  { unfold d4. destruct (0 <? min_oi self)%Z eqn:Eo.
    - apply Z.ltb_lt in Eo.
      eapply triple_bind; [apply triple_column_ok|].
      { intros x Hx. subst x. unfold Pd.has_col. rewrite Hcols3.
        apply (has_col_with_mid "open_interest"), Hoi, Eo. }
      intros []. apply triple_getitem_ok. intros x Hx. subst x. reflexivity.
    - apply triple_newest_ret_ok. auto. }
  intros df3.
  assert (Hcols4 : Pd.columns d4 = Pd.columns (with_mid c)).
  { unfold d4. destruct (0 <? min_oi self)%Z; [exact Hcols3 | exact Hcols3]. }
  set (d5 := if Rltb 0 (max_spread_pct self) then Pd.filter_rows _ d4 else d4) in *.
  apply triple_bind with (Mid := fun r h => newest h0 (eq d5) r h).
  { unfold d5. destruct (Rltb 0 (max_spread_pct self)).
    - eapply triple_bind; [apply triple_column_ok|].
      { intros x Hx. subst x. unfold Pd.has_col. rewrite Hcols4.
        apply has_col_with_mid, Hask. }
      intros [].
      eapply triple_bind; [apply triple_column_ok|].
      { intros x Hx. subst x. unfold Pd.has_col. rewrite Hcols4.
        apply has_col_with_mid, Hbid. }
      intros [].
      eapply triple_bind; [apply triple_column_ok|].
      { intros x Hx. subst x. unfold Pd.has_col. rewrite Hcols4.
        apply has_col_mid_with_mid. }
      intros []. apply triple_getitem_ok. intros x Hx. subst x. reflexivity.
    - apply triple_newest_ret_ok. auto. }
  intros df4. rewrite Hstaged. clear Hstaged d5 Hcols4 d4 Hcols3 d3 d2.
  eapply triple_bind; [apply triple_read_newest_ok|]. intros d.
  apply triple_pure. intros Hd. subst d.
  apply triple_bind with (Mid := fun r h => newest h0 (eq (cleaned self trade_date c)) r h).
  { unfold cleaned. cbv zeta. destruct trade_date as [today|].
    - change (Pd.has_col "expiry" (Pd.filter_rows (passes self) (with_mid c)))
        with (Pd.has_col "expiry" (with_mid c)).
      destruct (Pd.has_col "expiry" c) eqn:Ee.
      + rewrite (has_col_with_mid "expiry" c Ee).
        eapply triple_bind;
          [apply (triple_setitem_ok h0 _
                    (eq (Pd.assign "dte" (fun q => Pd.set_dte (Pd.expiry q - today) q)
                           (Pd.filter_rows (passes self) (with_mid c)))))|].
        { intros x Hx. subst x. reflexivity. }
        intros []. apply triple_getitem_ok. intros x Hx. subst x. reflexivity.
      + assert (Hno : Pd.has_col "expiry" (with_mid c) = false).
        { unfold with_mid. destruct (Pd.has_col "mid" c) eqn:Em; [exact Ee|].
          unfold Pd.assign. rewrite Em. unfold Pd.has_col in *. cbn [Pd.columns].
          rewrite existsb_app, Ee. reflexivity. }
        rewrite Hno. apply triple_newest_ret_ok. auto.
    - apply triple_newest_ret_ok. auto. }
  intros df5. apply triple_copy_ok.
Qed.

Lemma filter_all {A : Type} (p : A -> bool) (l : list A) :
  Forall (fun x => p x = true) l -> filter p l = l.
Proof.
  induction 1 as [|x l Hx _ IH]; [reflexivity|]. cbn [filter].
  rewrite Hx, IH. reflexivity.
Qed.

Lemma filter_Forall {A : Type} (p : A -> bool) (l : list A) :
  Forall (fun x => p x = true) (filter p l).
Proof.
  apply Forall_forall. intros x Hx. apply filter_In in Hx. apply Hx.
Qed.



Lemma has_col_cleaned (name : string) (self : ChainCleaner) (trade_date : option Z)
    (c : Pd.DataFrame) :
  Pd.has_col name c = true -> Pd.has_col name (cleaned self trade_date c) = true.
Proof.
  intro H. pose proof (has_col_with_mid name c H) as Hm.
  unfold cleaned. cbv zeta. destruct trade_date as [today|]; [|exact Hm].
  destruct (Pd.has_col "expiry" c); [|exact Hm].
  change (Pd.has_col name
            (Pd.assign "dte" (fun q => Pd.set_dte (Pd.expiry q - today) q)
               (Pd.filter_rows (passes self) (with_mid c))) = true).
  apply has_col_assign_other. exact Hm.
Qed.

Lemma has_col_mid_cleaned (self : ChainCleaner) (trade_date : option Z)
    (c : Pd.DataFrame) :
  Pd.has_col "mid" (cleaned self trade_date c) = true.
Proof.
  pose proof (has_col_mid_with_mid c) as Hm.
  unfold cleaned. cbv zeta. destruct trade_date as [today|]; [|exact Hm].
  destruct (Pd.has_col "expiry" c); [|exact Hm].
  change (Pd.has_col "mid"
            (Pd.assign "dte" (fun q => Pd.set_dte (Pd.expiry q - today) q)
               (Pd.filter_rows (passes self) (with_mid c))) = true).
  apply has_col_assign_other. exact Hm.
Qed.

(** The rows of the cleaned frame pass every test. *)
Lemma cleaned_rows (self : ChainCleaner) (trade_date : option Z) (c : Pd.DataFrame) :
  Forall (fun q => passes self q = true) (Pd.rows (cleaned self trade_date c))
  /\ (forall today, trade_date = Some today -> Pd.has_col "expiry" c = true ->
        Forall (fun q => Pd.dte q = (Pd.expiry q - today)%Z /\ dte_ok self q = true)
               (Pd.rows (cleaned self trade_date c)))
  /\ (length (Pd.rows (cleaned self trade_date c)) <= length (Pd.rows c))%nat.
Proof.
  assert (Hlen : (length (filter (passes self) (Pd.rows (with_mid c)))
                  <= length (Pd.rows c))%nat).
  { eapply Nat.le_trans; [apply filter_length_le|].
    unfold with_mid. destruct (Pd.has_col "mid" c); [lia|].
    cbn [Pd.assign Pd.rows]. rewrite length_map. lia. }
  unfold cleaned. cbv zeta. destruct trade_date as [today|].
  - destruct (Pd.has_col "expiry" c) eqn:Ee.
    + cbn [Pd.filter_rows Pd.assign Pd.rows]. split; [|split].
      * apply Forall_forall. intros q Hq. apply filter_In in Hq.
        destruct Hq as [Hq _]. apply in_map_iff in Hq. destruct Hq as [q0 [<- Hq0]].
        apply filter_In in Hq0. exact (proj2 Hq0).
      * intros today' Ht _. injection Ht as <-.
        apply Forall_forall. intros q Hq. apply filter_In in Hq.
        destruct Hq as [Hq Hd]. split; [|exact Hd].
        apply in_map_iff in Hq. destruct Hq as [q0 [<- _]]. reflexivity.
      * eapply Nat.le_trans; [apply filter_length_le|]. rewrite length_map. exact Hlen.
    + cbn [Pd.filter_rows Pd.rows]. split; [apply filter_Forall|].
      split; [intros today' _ He; discriminate | exact Hlen].
  - cbn [Pd.filter_rows Pd.rows]. split; [apply filter_Forall|].
    split; [discriminate | exact Hlen].
Qed.


(** X12. On a non-empty chain that has the columns [clean] reads ([bid],
    [ask], and [volume] and [open_interest] when their thresholds are
    positive), [clean] returns a new object and leaves the chain as it was.
    Every row of the result has [bid <= ask], [bid >= 0], [ask > 0], volume
    and open interest at their thresholds, a non-zero [mid] with relative
    spread within [max_spread_pct], and, given a trade date and an [expiry]
    column, [dte = expiry - trade date] within [[min_dte, max_dte]]; no row
    is added. *)
Theorem clean_keeps_valid_rows (self : ChainCleaner) (chain : ref)
    (trade_date : option Z) (h0 : Heap) (c : Pd.DataFrame) :
  nth_error h0 chain = Some c ->
  Pd.empty c = false ->
  Pd.has_col "bid" c = true ->
  Pd.has_col "ask" c = true ->
  ((0 < min_volume self)%Z -> Pd.has_col "volume" c = true) ->
  ((0 < min_oi self)%Z -> Pd.has_col "open_interest" c = true) ->
  exists res h df,
    clean self chain trade_date h0 = (inr res, h)
    /\ res <> chain
    /\ nth_error h chain = Some c
    /\ nth_error h res = Some df
    /\ df = cleaned self trade_date c
    /\ (length (Pd.rows df) <= length (Pd.rows c))%nat
    /\ Forall (fun q =>
                 Pd.bid q <= Pd.ask q /\ 0 <= Pd.bid q /\ 0 < Pd.ask q
                 /\ ((0 < min_volume self)%Z -> (min_volume self <= Pd.volume q)%Z)
                 /\ ((0 < min_oi self)%Z -> (min_oi self <= Pd.open_interest q)%Z)
                 /\ (0 < max_spread_pct self ->
                     Pd.mid q <> 0
                     /\ (Pd.ask q - Pd.bid q) / Pd.mid q <= max_spread_pct self))
              (Pd.rows df)
    /\ (forall today, trade_date = Some today -> Pd.has_col "expiry" c = true ->
          Forall (fun q => Pd.dte q = (Pd.expiry q - today)%Z
                           /\ (min_dte self <= Pd.dte q <= max_dte self)%Z)
                 (Pd.rows df)).
Proof.
  intros Hc Hne Hbid Hask Hvol Hoi.
  pose proof (clean_exact self chain trade_date h0 c (fun _ => False)
                Hc Hne Hbid Hask Hvol Hoi h0 eq_refl) as H.
  destruct (clean self chain trade_date h0) as [[err|res] h]; [contradiction|].
  destruct (newest_lookup _ _ _ _ H) as [df [Hdf <-]].
  pose proof (newest_fresh _ _ _ _ H) as Hfresh.
  pose proof (extends_lookup _ _ _ _ (newest_extends _ _ _ _ H) Hc) as Hkeep.
  assert (Hlt : (chain < length h0)%nat)
    by (apply nth_error_Some; rewrite Hc; discriminate).
  destruct (cleaned_rows self trade_date c) as [Hpass [Hdte Hlen]].
  exists res, h, (cleaned self trade_date c).
  split; [reflexivity|]. split; [lia|]. split; [exact Hkeep|].
  split; [exact Hdf|]. split; [reflexivity|]. split; [exact Hlen|]. split.
  - eapply Forall_impl; [|exact Hpass]. intros q Hq. unfold passes in Hq.
    apply andb_true_iff in Hq. destruct Hq as [Hq Hs].
    apply andb_true_iff in Hq. destruct Hq as [Hq Ho].
    apply andb_true_iff in Hq. destruct Hq as [Hq Hv].
    unfold quote_ok in Hq.
    apply andb_true_iff in Hq. destruct Hq as [Hq Ha].
    apply andb_true_iff in Hq. destruct Hq as [Hba Hb].
    apply Rleb_spec in Hba, Hb. apply Rltb_spec in Ha.
    repeat split; try assumption.
    + intro Hp. apply Z.ltb_lt in Hp. rewrite Hp in Hv. apply Z.leb_le. exact Hv.
    + intro Hp. apply Z.ltb_lt in Hp. rewrite Hp in Ho. apply Z.leb_le. exact Ho.
    + intro Hm. rewrite (Rltb_true _ _ H0) in Hs. cbn [negb orb] in Hs.
      unfold spread_ok in Hs. rewrite (Reqb_true _ _ Hm) in Hs. discriminate.
    + rewrite (Rltb_true _ _ H0) in Hs. cbn [negb orb] in Hs.
      unfold spread_ok in Hs. destruct (Reqb (Pd.mid q) 0); [discriminate|].
      apply Rleb_spec. exact Hs.
  - intros today Ht He. eapply Forall_impl; [|exact (Hdte today Ht He)].
    intros q [Hq1 Hq2]. split; [exact Hq1|]. unfold dte_ok in Hq2.
    apply andb_true_iff in Hq2. destruct Hq2 as [H1 H2].
    apply Z.leb_le in H1, H2. lia.
Qed.

Lemma clean_keeps_valid_rows_witness :
  exists res h df,
    clean (mkCleaner 10 100 (20 / 100) 1 365) 0%nat (Some 0%Z) [Samples.raw_chain]
    = (inr res, h)
    /\ nth_error h res = Some df
    /\ Forall (fun q => Pd.bid q <= Pd.ask q /\ 0 < Pd.ask q) (Pd.rows df).
Proof.
  destruct (clean_keeps_valid_rows (mkCleaner 10 100 (20 / 100) 1 365) 0%nat
              (Some 0%Z) [Samples.raw_chain] Samples.raw_chain)
    as [res [h [df [H1 [_ [_ [H2 [_ [_ [H3 _]]]]]]]]]];
    try reflexivity.
  exists res, h, df. split; [exact H1|]. split; [exact H2|].
  eapply Forall_impl; [|exact H3]. intros q Hq. split; apply Hq.
Defined.



End CleanExact.

(** ** What [build_otm_chain] returns *)

Section OtmChainRows.

Import Mem ChainCleaner.

Lemma triple_lift_ok {A : Type} (Pre : Heap -> Prop) (e : Exc A) (a0 : A)
    (Exn : Heap -> Prop) :
  e = inr a0 -> triple Pre (lift e) (fun a h => a = a0 /\ Pre h) Exn.
Proof. intros -> h HP. unfold lift. auto. Qed.

Lemma triple_alloc_newest_ok (h0 : Heap) (P0 P : Pd.DataFrame -> Prop) (r0 : ref)
    (df : Pd.DataFrame) (Exn : Heap -> Prop) :
  P df -> triple (newest h0 P0 r0) (alloc df) (fun r h => newest h0 P r h) Exn.
Proof.
  intros HP h [ext [d [-> [-> _]]]]. unfold alloc.
  exists (ext ++ [d]), df. rewrite !app_assoc. auto.
Qed.

(** The loop over expiries never raises: each expiry it visits has rows. *)
Lemma expiry_loop_total (rows : list Pd.Row) (spot r : R) (es : list Z)
    (acc : list Pd.Row) (qd : QualityDict) :
  Forall (fun e => In e (map Pd.expiry rows)) es ->
  exists out, expiry_loop rows spot r es acc qd = inr out.
Proof.
  intro H. revert acc qd. induction H as [|e es He _ IH]; intros acc qd.
  - eexists. reflexivity.
  - cbn [expiry_loop].
    assert (Hne : filter (fun q => Z.eqb (Pd.expiry q) e) rows <> []).
    { apply in_map_iff in He. destruct He as [q [Hq Hin]].
      intro E. assert (Hf : In q (filter (fun q => Z.eqb (Pd.expiry q) e) rows)).
      { apply filter_In. split; [exact Hin | apply Z.eqb_eq; exact Hq]. }
      rewrite E in Hf. exact Hf. }
    unfold process_expiry at 1.
    destruct (filter (fun q => Z.eqb (Pd.expiry q) e) rows) as [|first rest] eqn:E;
      [contradiction|].
    cbv zeta. cbn [bind ret]. apply IH.
Qed.

Lemma build_otm_chain_exact (chain : ref) (spot r : R) (return_quality : bool)
    (h0 : Heap) (c : Pd.DataFrame) (Exn : Heap -> Prop) :
  nth_error h0 chain = Some c ->
  Pd.empty c = false ->
  Pd.has_col "mid" c = true \/ (Pd.has_col "bid" c = true /\ Pd.has_col "ask" c = true) ->
  Pd.has_col "dte" c = true ->
  Pd.has_col "expiry" c = true ->
  Pd.has_col "right" c = true ->
  Pd.has_col "strike" c = true ->
  exists out,
    expiry_loop (Pd.rows (with_mid c)) spot r
      (Pd.unique (map Pd.expiry (Pd.rows (with_mid c)))) [] [] = inr out
    /\ triple (eq h0) (build_otm_chain chain spot r return_quality)
         (fun res h =>
            newest h0 (eq (Pd.mkDF otm_columns (Pd.sort_by by_expiry_strike (fst out))))
                   (fst res) h
            /\ snd res = if return_quality
                         then Some (match fst out with [] => [] | _ :: _ => snd out end)
                         else None)
         Exn.
Proof.
  intros Hc Hne Hmid Hdte Hexp Hright Hstrike.
  destruct (expiry_loop_total (Pd.rows (with_mid c)) spot r
              (Pd.unique (map Pd.expiry (Pd.rows (with_mid c)))) [] []) as [out Hout].
  { apply Forall_forall. intros e He. apply unique_In. exact He. }
  exists out. split; [exact Hout|]. unfold build_otm_chain.
  eapply triple_bind; [apply (triple_read_old_ok h0 chain c Exn Hc)|].
  intros d h [Hd Hh]. subst d h. rewrite Hne.
  refine ((_ : triple (eq h0) _ _ Exn) h0 eq_refl).
  eapply triple_bind; [apply (triple_copy_old_ok h0 chain c Exn Hc)|]. intros df.
  eapply triple_bind; [apply triple_read_newest_ok|]. intros d.
  apply triple_pure. intros Hd. subst d.
  apply triple_bind with (Mid := fun _ h => newest h0 (eq (with_mid c)) df h).
  { unfold with_mid. destruct (Pd.has_col "mid" c) eqn:Em; cbn [negb].
    - apply triple_ret. auto.
    - destruct Hmid as [Hmid|[Hbid Hask]]; [discriminate|].
      eapply triple_bind;
        [apply triple_column_ok; intros x Hx; subst x; exact Hbid|]. intros [].
      eapply triple_bind;
        [apply triple_column_ok; intros x Hx; subst x; exact Hask|]. intros [].
      apply triple_setitem_ok. intros x Hx. subst x. reflexivity. }
  intros [].
  eapply triple_bind; [apply triple_read_newest_ok|]. intros d.
  apply triple_pure. intros Hd. subst d.
  rewrite (has_col_with_mid "dte" c Hdte). cbn [negb].
  eapply triple_bind;
    [apply triple_column_ok; intros x Hx; subst x; apply has_col_with_mid, Hexp|].
  intros [].
  eapply triple_bind;
    [apply triple_column_ok; intros x Hx; subst x; apply has_col_with_mid, Hright|].
  intros [].
  eapply triple_bind;
    [apply triple_column_ok; intros x Hx; subst x; apply has_col_with_mid, Hstrike|].
  intros [].
  eapply triple_bind; [apply (triple_lift_ok _ _ out Exn Hout)|].
  intros out'. apply triple_pure. intros ->.
  destruct (fst out) as [|row rows] eqn:Eout.
  - eapply triple_bind;
      [apply (triple_alloc_newest_ok h0 _ (eq (Pd.mkDF otm_columns [])));
       reflexivity|].
    intros res. apply triple_ret. intros h H. cbn [fst snd]. split; [exact H|].
    reflexivity.
  - eapply triple_bind;
      [apply (triple_alloc_newest_ok h0 _
                (eq (Pd.mkDF otm_columns
                       (Pd.sort_by by_expiry_strike (row :: rows)))));
       reflexivity|].
    intros res. apply triple_ret. intros h H. cbn [fst snd]. split; [exact H|].
    reflexivity.
Qed.

(** *** Sorted output *)

Lemma insert_by_sorted {A : Type} (le : A -> A -> bool) (x : A) (l : list A) :
  (forall a b, le a b = false -> le b a = true) ->
  (forall a b c, le a b = true -> le b c = true -> le a c = true) ->
  StronglySorted (fun a b => le a b = true) l ->
  StronglySorted (fun a b => le a b = true) (Pd.insert_by le x l).
Proof.
  intros Htot Htrans. induction 1 as [|y l Hs IH Hall]; cbn [Pd.insert_by].
  - repeat constructor.
  - destruct (le x y) eqn:E.
    + constructor; [constructor; assumption|]. constructor; [exact E|].
      eapply Forall_impl; [|exact Hall]. intros z Hz. exact (Htrans _ _ _ E Hz).
    + constructor; [exact IH|]. apply Forall_forall. intros z Hz.
      apply In_insert_by in Hz. destruct Hz as [->|Hz]; [apply Htot; exact E|].
      rewrite Forall_forall in Hall. apply Hall. exact Hz.
Qed.

Lemma sort_by_sorted {A : Type} (le : A -> A -> bool) (l : list A) :
  (forall a b, le a b = false -> le b a = true) ->
  (forall a b c, le a b = true -> le b c = true -> le a c = true) ->
  StronglySorted (fun a b => le a b = true) (Pd.sort_by le l).
Proof.
  intros Htot Htrans. induction l as [|x l IH]; cbn [Pd.sort_by fold_right];
    [constructor|].
  apply insert_by_sorted; assumption.
Qed.

Lemma StronglySorted_impl {A : Type} (R1 R2 : A -> A -> Prop) (l : list A) :
  (forall a b, R1 a b -> R2 a b) -> StronglySorted R1 l -> StronglySorted R2 l.
Proof.
  intros H. induction 1 as [|a l _ IH Hall]; constructor; [exact IH|].
  eapply Forall_impl; [|exact Hall]. intros b Hb. apply H. exact Hb.
Qed.

Lemma by_expiry_strike_spec (a b : Pd.Row) :
  by_expiry_strike a b = true
  <-> (Pd.expiry a < Pd.expiry b)%Z
      \/ (Pd.expiry a = Pd.expiry b /\ Pd.strike a <= Pd.strike b).
Proof.
  unfold by_expiry_strike. rewrite orb_true_iff, andb_true_iff, Z.ltb_lt, Z.eqb_eq,
    Rleb_spec. reflexivity.
Qed.

Lemma by_expiry_strike_total (a b : Pd.Row) :
  by_expiry_strike a b = false -> by_expiry_strike b a = true.
Proof.
  intro H. apply by_expiry_strike_spec.
  destruct (Z.lt_trichotomy (Pd.expiry a) (Pd.expiry b)) as [Hlt|[Heq|Hgt]].
  - assert (by_expiry_strike a b = true) by (apply by_expiry_strike_spec; auto).
    congruence.
  - destruct (Rle_dec (Pd.strike a) (Pd.strike b)) as [Hle|Hnle].
    + assert (by_expiry_strike a b = true) by (apply by_expiry_strike_spec; auto).
      congruence.
    + right. split; [auto | lra].
  - left. lia.
Qed.

Lemma by_expiry_strike_trans (a b c : Pd.Row) :
  by_expiry_strike a b = true -> by_expiry_strike b c = true ->
  by_expiry_strike a c = true.
Proof.
  rewrite !by_expiry_strike_spec. intros [H1|[H1 H1']] [H2|[H2 H2']].
  - left. lia.
  - left. lia.
  - left. lia.
  - right. split; [lia | lra].
Qed.

(** *** Rows and counters of one expiry *)

Lemma fold_left_inv {A B : Type} (f : A -> B -> A) (I : A -> Prop) (l : list B)
    (P : B -> Prop) (a : A) :
  (forall st x, P x -> I st -> I (f st x)) -> Forall P l -> I a ->
  I (fold_left f l a).
Proof.
  intros Hstep Hl. revert a. induction Hl as [|x l Hx _ IH]; intros a Ha; [exact Ha|].
  cbn [fold_left]. apply IH. apply Hstep; assumption.
Qed.

Lemma process_expiry_inv (exp_df : list Pd.Row) (e : Z) (spot r : R)
    (st : ExpiryState) :
  process_expiry exp_df e spot r = inr st ->
  Forall (fun row =>
            Pd.expiry row = e
            /\ ((Pd.source row = "call"%string
                 /\ (spot < Pd.strike row
                     \/ spot * (99 / 100) <= Pd.strike row <= spot * (101 / 100)))
                \/ (Pd.source row = "put_synthetic"%string
                    /\ Pd.strike row < spot /\ 0 < Pd.mid row)))
         (expiry_results st)
  /\ length (expiry_results st) = (num_calls st + num_puts_synthetic st)%nat.
Proof.
  unfold process_expiry. destruct exp_df as [|first rest]; [discriminate|].
  cbv zeta. intro H. injection H as <-.
  set (OK := fun row : Pd.Row =>
               Pd.expiry row = e
               /\ ((Pd.source row = "call"%string
                    /\ (spot < Pd.strike row
                        \/ spot * (99 / 100) <= Pd.strike row <= spot * (101 / 100)))
                   \/ (Pd.source row = "put_synthetic"%string
                       /\ Pd.strike row < spot /\ 0 < Pd.mid row))).
  set (I := fun s : ExpiryState =>
              Forall OK (expiry_results s)
              /\ length (expiry_results s) = (num_calls s + num_puts_synthetic s)%nat).
  change (I (fold_left (add_atm_call e)
               (filter (fun q => String.eqb (Pd.right q) "C"
                                 && Rleb (spot * (99 / 100)) (Pd.strike q)
                                 && Rleb (Pd.strike q) (spot * (101 / 100)))
                       (first :: rest))
               (fold_left (add_otm_put e spot r (IZR (Pd.dte first) / 365))
                  (filter (fun q => String.eqb (Pd.right q) "P"
                                    && Rltb (Pd.strike q) spot) (first :: rest))
                  (fold_left (add_otm_call e)
                     (filter (fun q => String.eqb (Pd.right q) "C"
                                       && Rltb spot (Pd.strike q)) (first :: rest))
                     (mkState [] 0 0))))).
  eapply fold_left_inv; [| apply filter_Forall |].
  { intros s q Hq [HF HL]. cbv beta in Hq.
    apply andb_true_iff in Hq. destruct Hq as [Hq Hhi].
    apply andb_true_iff in Hq. destruct Hq as [_ Hlo].
    apply Rleb_spec in Hlo, Hhi.
    unfold add_atm_call. cbv zeta. destruct (filter _ (expiry_results s)).
    - split; cbn [expiry_results num_calls num_puts_synthetic].
      + apply Forall_app. split; [exact HF|]. constructor; [|constructor].
        split; [reflexivity|]. left. split; [reflexivity|]. right.
        cbn [otm_record Pd.strike]. lra.
      + rewrite length_app. cbn [length]. lia.
    - split; assumption. }
  eapply fold_left_inv; [| apply filter_Forall |].
  { intros s q Hq [HF HL]. cbv beta in Hq.
    apply andb_true_iff in Hq. destruct Hq as [_ Hlt]. apply Rltb_spec in Hlt.
    unfold add_otm_put. cbv zeta. destruct (Rltb 0 _) eqn:EC.
    - apply Rltb_spec in EC.
      split; cbn [expiry_results num_calls num_puts_synthetic].
      + apply Forall_app. split; [exact HF|]. constructor; [|constructor].
        split; [reflexivity|]. right. split; [reflexivity|].
        cbn [otm_record Pd.strike Pd.mid]. split; assumption.
      + rewrite length_app. cbn [length]. lia.
    - split; assumption. }
  eapply fold_left_inv; [| apply filter_Forall |].
  { intros s q Hq [HF HL]. cbv beta in Hq.
    apply andb_true_iff in Hq. destruct Hq as [_ Hgt]. apply Rltb_spec in Hgt.
    unfold add_otm_call. split; cbn [expiry_results num_calls num_puts_synthetic].
    - apply Forall_app. split; [exact HF|]. constructor; [|constructor].
      split; [reflexivity|]. left. split; [reflexivity|]. left.
      cbn [otm_record Pd.strike]. exact Hgt.
    - rewrite length_app. cbn [length]. lia. }
  split; [constructor | reflexivity].
Qed.

(** *** The loop over expiries *)

Lemma dict_set_Forall {V : Type} (P : Z * V -> Prop) (k : Z) (v : V)
    (d : list (Z * V)) :
  P (k, v) -> Forall P d -> Forall P (Py.dict_set k v d).
Proof.
  intros Hkv. induction 1 as [|[k' v'] d Hx Hd IH]; cbn [Py.dict_set].
  - constructor; [exact Hkv | constructor].
  - destruct (Z.eqb k k'); constructor; assumption.
Qed.

Lemma expiry_loop_inv (Prow : Pd.Row -> Prop) (Pentry : Z * ChainQuality.ChainQualityMetrics -> Prop)
    (rows : list Pd.Row) (spot r : R) (es : list Z) :
  (forall e st, In e es ->
     process_expiry (filter (fun q => Z.eqb (Pd.expiry q) e) rows) e spot r = inr st ->
     Forall Prow (expiry_results st)
     /\ Forall (fun row => Pd.expiry row = e) (expiry_results st)
     /\ (expiry_results st <> [] ->
         Pentry (e, ChainQuality.mkMetrics
                      (length (filter (fun q => Z.eqb (Pd.expiry q) e) rows))
                      (length (filter (fun q => Z.eqb (Pd.expiry q) e) rows))
                      (length (expiry_results st)) (num_calls st)
                      (num_puts_synthetic st)
                      (map Pd.strike (expiry_results st)) spot))) ->
  forall acc qd out,
    expiry_loop rows spot r es acc qd = inr out ->
    Forall Prow acc -> Forall Pentry qd ->
    (forall e, In e (Py.dict_keys qd) <-> exists row, In row acc /\ Pd.expiry row = e) ->
    Forall Prow (fst out) /\ Forall Pentry (snd out)
    /\ (forall e, In e (Py.dict_keys (snd out))
                  <-> exists row, In row (fst out) /\ Pd.expiry row = e).
Proof.
  induction es as [|e es IH]; intros Hstep acc qd out Hrun Hacc Hqd Hkeys.
  - cbn in Hrun. injection Hrun as <-. auto.
  - cbn [expiry_loop] in Hrun. apply bind_inr in Hrun. destruct Hrun as [st [Hst Hrun]].
    destruct (Hstep e st (or_introl eq_refl) Hst) as [Hrows [Hexp Hentry]].
    apply IH in Hrun; [exact Hrun | | | |].
    + intros e' st' He'. apply Hstep. right. exact He'.
    + apply Forall_app. split; assumption.
    + destruct (expiry_results st) as [|row0 rs] eqn:Er; [exact Hqd|].
      apply dict_set_Forall; [|exact Hqd]. apply Hentry. discriminate.
    + intro e'. destruct (expiry_results st) as [|row0 rs] eqn:Er.
      * rewrite app_nil_r. apply Hkeys.
      * rewrite Forall_forall in Hexp. rewrite dict_keys_set, Hkeys. split.
        -- intros [->|[row [Hin He]]].
           ++ exists row0. split; [apply in_or_app; right; left; reflexivity|].
              apply Hexp. left. reflexivity.
           ++ exists row. split; [apply in_or_app; left; exact Hin | exact He].
        -- intros [row [Hin He]]. apply in_app_or in Hin. destruct Hin as [Hin|Hin].
           ++ right. exists row. split; assumption.
           ++ left. rewrite <- He. apply Hexp. exact Hin.
Qed.

Lemma with_mid_expiries (c : Pd.DataFrame) (e : Z) :
  map Pd.expiry (Pd.rows (with_mid c)) = map Pd.expiry (Pd.rows c)
  /\ length (filter (fun q => Z.eqb (Pd.expiry q) e) (Pd.rows (with_mid c)))
     = length (filter (fun q => Z.eqb (Pd.expiry q) e) (Pd.rows c)).
Proof.
  unfold with_mid. destruct (Pd.has_col "mid" c); [split; reflexivity|].
  cbn [Pd.assign Pd.rows]. induction (Pd.rows c) as [|q l [IH1 IH2]];
    [split; reflexivity|].
  cbn [map filter]. change (Pd.expiry (compute_mid q)) with (Pd.expiry q).
  split; [f_equal; exact IH1|].
  destruct (Z.eqb (Pd.expiry q) e); cbn [length]; lia.
Qed.

(** The rows and the quality entries of the loop that [build_otm_chain]
    runs. *)
Lemma otm_loop_facts (c : Pd.DataFrame) (spot r : R)
    (out : list Pd.Row * QualityDict) :
  expiry_loop (Pd.rows (with_mid c)) spot r
    (Pd.unique (map Pd.expiry (Pd.rows (with_mid c)))) [] [] = inr out ->
  Forall (fun row =>
            In (Pd.expiry row) (map Pd.expiry (Pd.rows c))
            /\ ((Pd.source row = "call"%string
                 /\ (spot < Pd.strike row
                     \/ spot * (99 / 100) <= Pd.strike row <= spot * (101 / 100)))
                \/ (Pd.source row = "put_synthetic"%string
                    /\ Pd.strike row < spot /\ 0 < Pd.mid row)))
         (fst out)
  /\ Forall (fun entry =>
               let qm := snd entry in
               ChainQuality.num_otm qm
               = (ChainQuality.num_calls qm + ChainQuality.num_puts_synthetic qm)%nat
               /\ length (ChainQuality.strikes qm) = ChainQuality.num_otm qm
               /\ (1 <= ChainQuality.num_otm qm)%nat
               /\ ChainQuality.num_raw qm
                  = length (filter (fun q => Z.eqb (Pd.expiry q) (fst entry)) (Pd.rows c))
               /\ ChainQuality.num_after_clean qm = ChainQuality.num_raw qm
               /\ ChainQuality.spot qm = spot)
            (snd out)
  /\ (forall e, In e (Py.dict_keys (snd out))
                <-> exists row, In row (fst out) /\ Pd.expiry row = e).
Proof.
  intro Hrun.
  refine (expiry_loop_inv _ _ _ _ _ _ _ [] [] out Hrun (Forall_nil _) (Forall_nil _) _).
  - intros e0 st He Hst. destruct (process_expiry_inv _ _ _ _ _ Hst) as [Hrows Hlen].
    split; [|split].
    + eapply Forall_impl; [|exact Hrows]. intros row [Hexp Hok]. split; [|exact Hok].
      rewrite Hexp. apply (proj1 (unique_In _ _)) in He.
      rewrite (proj1 (with_mid_expiries c e0)) in He. exact He.
    + eapply Forall_impl; [|exact Hrows]. intros row [Hexp _]. exact Hexp.
    + intro Hne. cbn [snd fst ChainQuality.num_otm ChainQuality.num_calls
                      ChainQuality.num_puts_synthetic ChainQuality.strikes
                      ChainQuality.num_raw ChainQuality.num_after_clean
                      ChainQuality.spot].
      rewrite length_map. repeat split; try assumption; try reflexivity.
      * destruct (expiry_results st); [contradiction | simpl; lia].
      * apply (proj2 (with_mid_expiries c e0)).
  - intro e0. cbn. split; [intros [] | intros [row [[] _]]].
Qed.

(** X14. On a non-empty chain with the columns it reads ([dte], [expiry],
    [right], [strike], and [mid] or else [bid] and [ask]),
    [build_otm_chain] returns a new frame with the columns [expiry],
    [strike], [mid], [source], sorted by expiry and then by strike, and
    leaves the chain as it was. *)
Theorem build_otm_chain_sorted (chain : ref) (spot r : R) (return_quality : bool)
    (h0 : Heap) (c : Pd.DataFrame) :
  nth_error h0 chain = Some c ->
  Pd.empty c = false ->
  Pd.has_col "mid" c = true \/ (Pd.has_col "bid" c = true /\ Pd.has_col "ask" c = true) ->
  Pd.has_col "dte" c = true ->
  Pd.has_col "expiry" c = true ->
  Pd.has_col "right" c = true ->
  Pd.has_col "strike" c = true ->
  exists res h frame,
    build_otm_chain chain spot r return_quality h0 = (inr res, h)
    /\ fst res <> chain
    /\ nth_error h chain = Some c
    /\ nth_error h (fst res) = Some frame
    /\ Pd.columns frame = ["expiry"; "strike"; "mid"; "source"]%string
    /\ StronglySorted
         (fun a b => (Pd.expiry a < Pd.expiry b)%Z
                     \/ (Pd.expiry a = Pd.expiry b /\ Pd.strike a <= Pd.strike b))
         (Pd.rows frame).
Proof.
  intros Hc Hne Hmid Hdte Hexp Hright Hstrike.
  destruct (build_otm_chain_exact chain spot r return_quality h0 c (fun _ => False)
              Hc Hne Hmid Hdte Hexp Hright Hstrike) as [out [_ Ht]].
  specialize (Ht h0 eq_refl).
  destruct (build_otm_chain chain spot r return_quality h0) as [[err|res] h];
    [contradiction|].
  destruct Ht as [Hnew _].
  destruct (newest_lookup _ _ _ _ Hnew) as [frame [Hframe <-]].
  pose proof (newest_fresh _ _ _ _ Hnew) as Hfresh.
  assert (Hlt : (chain < length h0)%nat)
    by (apply nth_error_Some; rewrite Hc; discriminate).
  eexists res, h, _. split; [reflexivity|]. split; [lia|].
  split; [exact (extends_lookup _ _ _ _ (newest_extends _ _ _ _ Hnew) Hc)|].
  split; [exact Hframe|]. split; [reflexivity|]. cbn [Pd.rows].
  eapply StronglySorted_impl;
    [|exact (sort_by_sorted by_expiry_strike (fst out) by_expiry_strike_total
               by_expiry_strike_trans)].
  intros a b Hab. apply by_expiry_strike_spec. exact Hab.
Qed.

Lemma build_otm_chain_sorted_witness :
  exists res h frame,
    build_otm_chain 0%nat 100 0 false [Samples.atm_chain] = (inr res, h)
    /\ nth_error h (fst res) = Some frame
    /\ Pd.columns frame = ["expiry"; "strike"; "mid"; "source"]%string.
Proof.
  destruct (build_otm_chain_sorted 0%nat 100 0 false [Samples.atm_chain]
              Samples.atm_chain)
    as [res [h [frame [H1 [_ [_ [H2 [H3 _]]]]]]]]; try reflexivity.
  - left. reflexivity.
  - exists res, h, frame. auto.
Defined.

(** X15. Under the same conditions every row of the OTM chain carries an
    expiry of the input chain and is either a [call] row, with strike above
    the spot or inside the band from 0.99 to 1.01 times the spot, or a
    [put_synthetic] row, with strike below the spot and a positive price. *)
Theorem build_otm_chain_rows (chain : ref) (spot r : R) (return_quality : bool)
    (h0 : Heap) (c : Pd.DataFrame) :
  nth_error h0 chain = Some c ->
  Pd.empty c = false ->
  Pd.has_col "mid" c = true \/ (Pd.has_col "bid" c = true /\ Pd.has_col "ask" c = true) ->
  Pd.has_col "dte" c = true ->
  Pd.has_col "expiry" c = true ->
  Pd.has_col "right" c = true ->
  Pd.has_col "strike" c = true ->
  exists res h frame,
    build_otm_chain chain spot r return_quality h0 = (inr res, h)
    /\ nth_error h (fst res) = Some frame
    /\ Forall (fun row =>
                 In (Pd.expiry row) (map Pd.expiry (Pd.rows c))
                 /\ ((Pd.source row = "call"%string
                      /\ (spot < Pd.strike row
                          \/ spot * (99 / 100) <= Pd.strike row <= spot * (101 / 100)))
                     \/ (Pd.source row = "put_synthetic"%string
                         /\ Pd.strike row < spot /\ 0 < Pd.mid row)))
              (Pd.rows frame).
Proof.
  intros Hc Hne Hmid Hdte Hexp Hright Hstrike.
  destruct (build_otm_chain_exact chain spot r return_quality h0 c (fun _ => False)
              Hc Hne Hmid Hdte Hexp Hright Hstrike) as [out [Hout Ht]].
  specialize (Ht h0 eq_refl).
  destruct (build_otm_chain chain spot r return_quality h0) as [[err|res] h];
    [contradiction|].
  destruct Ht as [Hnew _].
  destruct (newest_lookup _ _ _ _ Hnew) as [frame [Hframe <-]].
  destruct (otm_loop_facts c spot r out Hout) as [Hrows _].
  eexists res, h, _. split; [reflexivity|]. split; [exact Hframe|]. cbn [Pd.rows].
  apply Forall_forall. intros row Hrow. apply In_sort_by in Hrow.
  rewrite Forall_forall in Hrows. apply Hrows. exact Hrow.
Qed.

Lemma build_otm_chain_rows_witness :
  exists res h frame,
    build_otm_chain 0%nat 100 0 false [Samples.atm_chain] = (inr res, h)
    /\ nth_error h (fst res) = Some frame
    /\ Forall (fun row => In (Pd.expiry row) [30%Z; 30%Z]) (Pd.rows frame).
Proof.
  destruct (build_otm_chain_rows 0%nat 100 0 false [Samples.atm_chain]
              Samples.atm_chain)
    as [res [h [frame [H1 [H2 H3]]]]]; try reflexivity.
  - left. reflexivity.
  - exists res, h, frame. split; [exact H1|]. split; [exact H2|].
    eapply Forall_impl; [|exact H3]. intros row Hrow. exact (proj1 Hrow).
Defined.

(** X16. With [return_quality], the metrics dictionary has one entry for
    each expiry that has a row in the OTM chain and no other; in every
    entry [num_otm = num_calls + num_puts_synthetic] is the number of
    strikes and is at least one, [num_raw] and [num_after_clean] are the
    number of chain rows of that expiry, and [spot] is the spot given. *)
Theorem build_otm_chain_quality (chain : ref) (spot r : R)
    (h0 : Heap) (c : Pd.DataFrame) :
  nth_error h0 chain = Some c ->
  Pd.empty c = false ->
  Pd.has_col "mid" c = true \/ (Pd.has_col "bid" c = true /\ Pd.has_col "ask" c = true) ->
  Pd.has_col "dte" c = true ->
  Pd.has_col "expiry" c = true ->
  Pd.has_col "right" c = true ->
  Pd.has_col "strike" c = true ->
  exists res quality h frame,
    build_otm_chain chain spot r true h0 = (inr (res, Some quality), h)
    /\ nth_error h res = Some frame
    /\ (forall e, In e (Py.dict_keys quality)
                  <-> exists row, In row (Pd.rows frame) /\ Pd.expiry row = e)
    /\ Forall (fun entry =>
                 let qm := snd entry in
                 ChainQuality.num_otm qm
                 = (ChainQuality.num_calls qm + ChainQuality.num_puts_synthetic qm)%nat
                 /\ length (ChainQuality.strikes qm) = ChainQuality.num_otm qm
                 /\ (1 <= ChainQuality.num_otm qm)%nat
                 /\ ChainQuality.num_raw qm
                    = length (filter (fun q => Z.eqb (Pd.expiry q) (fst entry))
                                     (Pd.rows c))
                 /\ ChainQuality.num_after_clean qm = ChainQuality.num_raw qm
                 /\ ChainQuality.spot qm = spot)
              quality.
Proof.
  intros Hc Hne Hmid Hdte Hexp Hright Hstrike.
  destruct (build_otm_chain_exact chain spot r true h0 c (fun _ => False)
              Hc Hne Hmid Hdte Hexp Hright Hstrike) as [out [Hout Ht]].
  specialize (Ht h0 eq_refl).
  destruct (build_otm_chain chain spot r true h0) as [[err|[res q]] h];
    [contradiction|].
  destruct Ht as [Hnew Hq]. cbn [fst snd] in Hnew, Hq. subst q.
  destruct (newest_lookup _ _ _ _ Hnew) as [frame [Hframe <-]].
  destruct (otm_loop_facts c spot r out Hout) as [_ [Hentries Hkeys]].
  eexists res, _, h, _. split; [reflexivity|]. split; [exact Hframe|].
  cbn [Pd.rows]. destruct (fst out) as [|row0 rows0] eqn:Eout.
  - split; [|constructor]. intro e. cbn. split; [intros [] | intros [row [[] _]]].
  - split; [|exact Hentries]. intro e. rewrite Hkeys. split.
    + intros [row [Hin He]]. exists row. split; [apply In_sort_by; exact Hin | exact He].
    + intros [row [Hin He]]. exists row. split; [apply In_sort_by in Hin; exact Hin | exact He].
Qed.

Lemma build_otm_chain_quality_witness :
  exists res quality h,
    build_otm_chain 0%nat 100 0 true [Samples.atm_chain] = (inr (res, Some quality), h)
    /\ Forall (fun entry =>
                 ChainQuality.num_otm (snd entry)
                 = (ChainQuality.num_calls (snd entry)
                    + ChainQuality.num_puts_synthetic (snd entry))%nat)
              quality.
Proof.
  destruct (build_otm_chain_quality 0%nat 100 0 [Samples.atm_chain] Samples.atm_chain)
    as [res [quality [h [frame [H1 [_ [_ H2]]]]]]]; try reflexivity.
  - left. reflexivity.
  - exists res, quality, h. split; [exact H1|].
    eapply Forall_impl; [|exact H2]. intros entry Hentry. exact (proj1 Hentry).
Defined.

End OtmChainRows.

(** ** What the pipeline returns *)

Section PipelineResults.

Import Mem Pipeline.

Variable make_spline : list R -> list R -> R -> Exc Smoothing.UnivariateSpline.
Variable date_str : Z -> string.
Variable get_option_chain : string -> Z -> M ref.
Variable get_spot_price : string -> Z -> M (option R).
Variable save_chain : ref -> string -> Z -> string -> M unit.

Local Abbreviation run_ :=
  (run make_spline date_str get_option_chain get_spot_price save_chain).
Local Abbreviation try_expiry_ := (try_expiry make_spline date_str).
Local Abbreviation expiry_step_ := (expiry_step make_spline date_str).
Local Abbreviation expiry_loop_ := (expiry_loop make_spline date_str).
Local Abbreviation contribution_ := (expiry_contribution make_spline date_str).

(** [extract] on a smoothing result that [fit] returned. *)
Lemma extract_of_fit (smoother : Smoothing.CallPriceSmoother)
    (extractor : RndExtractor.RNDExtractor) (chain : Pd.DataFrame) (spot : option R)
    (price_col : string) (sr : Smoothing.SmoothingResult) (expiry trade_date : Z)
    (rnd : RndExtractor.RNDResult) :
  (2 <= Smoothing.min_points smoother)%nat ->
  (3 <= RndExtractor.num_points extractor)%nat ->
  Smoothing.fit make_spline smoother chain spot price_col = inr sr ->
  RndExtractor.extract date_str extractor sr expiry trade_date = inr rnd ->
  (trade_date < expiry)%Z
  /\ RndExtractor.expiry rnd = expiry
  /\ RndExtractor.time_to_expiry rnd = IZR (expiry - trade_date) / 365
  /\ RndExtractor.spot_price rnd = Smoothing.spot_price sr
  /\ RndExtractor.data_quality rnd = None
  /\ length (RndExtractor.strikes rnd) = RndExtractor.num_points extractor
  /\ length (RndExtractor.density rnd) = RndExtractor.num_points extractor
  /\ Forall (fun f => 0 < f) (RndExtractor.density rnd)
  /\ Np.trapz (RndExtractor.density rnd) (RndExtractor.strikes rnd) = 1.
Proof.
  intros Hmin Hn Hfit Hex.
  destruct (fit_returns make_spline _ _ _ _ _ Hfit) as [k0 [ks [ps [spl [Ha ->]]]]].
  destruct (fit_arrays_shape smoother chain price_col _ _ Ha)
    as [Hs [_ [_ [_ Hlen]]]].
  assert (Hb : k0 < last ks k0).
  { destruct ks as [|k1 ks]; [simpl in Hlen; lia|].
    inversion Hs as [|? ? _ Hall]; subst. rewrite Forall_forall in Hall.
    apply Hall. rewrite last_cons. apply last_In. }
  set (sr := Smoothing.mkSmoothingResult _ _ _ _ _ _ _) in *.
  unfold RndExtractor.extract in Hex.
  destruct (Rleb (IZR (expiry - trade_date) / 365) 0) eqn:ET; [discriminate|].
  assert (HT : 0 < IZR (expiry - trade_date) / 365).
  { destruct (Rle_dec (IZR (expiry - trade_date) / 365) 0) as [H|H]; [|lra].
    rewrite (Rleb_true _ _ H) in ET. discriminate. }
  assert (Hdate : (trade_date < expiry)%Z).
  { destruct (Z_lt_le_dec trade_date expiry) as [H|H]; [exact H|]. exfalso.
    assert (IZR (expiry - trade_date) <= 0) by (apply IZR_le; lia).
    lra. }
  set (grid := Smoothing.get_strike_grid sr (RndExtractor.num_points extractor)) in *.
  assert (Hgl : length grid = RndExtractor.num_points extractor)
    by apply linspace_length.
  assert (Hgs : Sorted Rlt grid) by (apply linspace_sorted; exact Hb).
  destruct (d2C_dK2_returns (Smoothing.smooth_fn sr) grid (Some sr)) as [d2C [Hd Hl]];
    [lia | apply length_map |].
  unfold RndExtractor._compute_density in Hex. rewrite Hd in Hex.
  cbn [bind ret] in Hex.
  set (raw := map (fun v => exp (RndExtractor.r extractor
                                 * (IZR (expiry - trade_date) / 365)) * v) d2C) in *.
  assert (Hrl : length raw = length grid)
    by (unfold raw; rewrite length_map; exact Hl).
  destruct (normalize_density_unit raw grid Hrl) as [Hpos Hint]; [lia | exact Hgs |].
  injection Hex as <-.
  cbn [RndExtractor.strikes RndExtractor.density RndExtractor.spot_price
       RndExtractor.expiry RndExtractor.time_to_expiry RndExtractor.data_quality].
  split; [exact Hdate|]. repeat split; try assumption.
  rewrite normalize_density_length. lia.
Qed.

(** What the turn of one expiry adds to [rnd_results]: nothing, or the
    result of [extract] on the fit of that expiry's rows, with or without
    quality metrics attached. *)
Lemma contribution_rnd (self : RNDPipeline) (otm : Pd.DataFrame)
    (qm : ChainCleaner.QualityDict) (spot : R) (trade_dt e : Z) :
  fst (contribution_ self otm qm spot trade_dt e) = []
  \/ exists sr rnd0 rnd,
       Smoothing.fit make_spline (smoother self)
         (Pd.filter_rows (fun q => Z.eqb (Pd.expiry q) e) otm) (Some spot) "mid"
       = inr sr
       /\ RndExtractor.extract date_str (rnd_extractor self) sr e trade_dt = inr rnd0
       /\ (rnd = rnd0 \/ exists q, rnd = RndExtractor.set_data_quality rnd0 q)
       /\ fst (contribution_ self otm qm spot trade_dt e) = [rnd].
Proof.
  unfold expiry_contribution, expiry_step, try_expiry. cbv zeta. cbn [fst].
  destruct (_ <? 10)%nat; [left; reflexivity|].
  destruct (Smoothing.fit _ _ _ _ _) as [err|sr] eqn:Efit; [left; reflexivity|].
  destruct (ArbitrageChecks.check _ _ _) as [err|arb]; [left; reflexivity|].
  destruct (RndExtractor.extract _ _ _ _ _) as [err|rnd0] eqn:Eex.
  { left. destruct (negb _); reflexivity. }
  destruct (Py.dict_get e qm) as [metrics|].
  - destruct (data_quality_of metrics) as [err|q]; cbn [bind ret].
    + left. destruct (negb _); reflexivity.
    + right. exists sr, rnd0, (RndExtractor.set_data_quality rnd0 q).
      split; [reflexivity|]. split; [exact Eex|]. split; [right; eauto|].
      destruct (negb _); reflexivity.
  - right. exists sr, rnd0, rnd0.
    split; [reflexivity|]. split; [exact Eex|]. split; [left; reflexivity|].
    destruct (negb _); reflexivity.
Qed.

Lemma loop_rnds_Forall (P : RndExtractor.RNDResult -> Prop) (self : RNDPipeline)
    (otm : Pd.DataFrame) (qm : ChainCleaner.QualityDict) (spot : R) (trade_dt : Z)
    (es : list Z) (st : Locals) :
  (forall e, Forall P (fst (contribution_ self otm qm spot trade_dt e))) ->
  Forall P (loc_rnd_results st) ->
  Forall P (loc_rnd_results (expiry_loop_ self otm qm spot trade_dt es st)).
Proof.
  intros Hc Hst.
  destruct (expiry_loop_appends make_spline date_str self otm qm spot trade_dt es st)
    as [-> _].
  apply Forall_app. split; [exact Hst|]. apply Forall_flat_map.
  apply Forall_forall. intros e _. apply Hc.
Qed.

(** X17. Every RND in a result that [run] returns, for a pipeline whose
    smoother needs at least two points and whose extractor uses at least
    three grid points (the defaults are 10 and 500), has its expiry after
    the trade date, [time_to_expiry = (expiry - trade date) / 365], one
    density value per grid strike, a density that is positive everywhere and
    integrates to one; [num_expiries] is the number of RNDs. *)
Theorem run_rnds_normalized (self : RNDPipeline) (symbol : string) (trade_dt : Z)
    (spot_price : option R) (save : bool) (h h' : Heap)
    (result : RNDPipelineResult) :
  (2 <= Smoothing.min_points (smoother self))%nat ->
  (3 <= RndExtractor.num_points (rnd_extractor self))%nat ->
  run_ self symbol trade_dt spot_price save h = (inr result, h') ->
  num_expiries result = length (rnd_results result)
  /\ Forall (fun rnd =>
               (trade_dt < RndExtractor.expiry rnd)%Z
               /\ RndExtractor.time_to_expiry rnd
                  = IZR (RndExtractor.expiry rnd - trade_dt) / 365
               /\ length (RndExtractor.strikes rnd)
                  = RndExtractor.num_points (rnd_extractor self)
               /\ length (RndExtractor.density rnd)
                  = RndExtractor.num_points (rnd_extractor self)
               /\ Forall (fun f => 0 < f) (RndExtractor.density rnd)
               /\ Np.trapz (RndExtractor.density rnd) (RndExtractor.strikes rnd) = 1)
            (rnd_results result).
Proof.
  intros Hmin Hn Hrun.
  apply (run_returns make_spline date_str) in Hrun.
  destruct Hrun as [[msg ->]|[otm [qm [spot [_ ->]]]]]; cbn [num_expiries rnd_results].
  - split; [reflexivity | constructor].
  - split; [reflexivity|]. apply loop_rnds_Forall; [|constructor].
    intro e. destruct (contribution_rnd self otm qm spot trade_dt e)
      as [->|[sr [rnd0 [rnd [Hfit [Hex [Hrnd ->]]]]]]]; [constructor|].
    constructor; [|constructor].
    destruct (extract_of_fit _ _ _ _ _ _ _ _ _ Hmin Hn Hfit Hex)
      as [H1 [H2 [H3 [_ [_ [H6 [H7 [H8 H9]]]]]]]].
    destruct Hrnd as [->|[q ->]];
      cbn [RndExtractor.set_data_quality RndExtractor.expiry
           RndExtractor.time_to_expiry RndExtractor.strikes RndExtractor.density];
      rewrite ?H2; auto 10.
Qed.

Lemma sorted_unique_strict (l : list Z) :
  StronglySorted Z.lt (Py.sorted (Pd.unique l)).
Proof.
  pose proof (sorted_StronglySorted (Pd.unique l)) as Hs.
  assert (Hnd : NoDup (Py.sorted (Pd.unique l))).
  { eapply Permutation_NoDup; [|apply unique_NoDup].
    apply Permutation_sym. apply sort_by_perm. }
  induction Hs as [|x xs _ IH Hall]; [constructor|].
  inversion Hnd as [|? ? Hnin Hnd']; subst. constructor; [apply IH; exact Hnd'|].
  apply Forall_forall. intros y Hy. rewrite Forall_forall in Hall.
  specialize (Hall y Hy). assert (x <> y) by (intros ->; contradiction). lia.
Qed.

Lemma flat_map_keys_sorted {A : Type} (key : A -> Z) (f : Z -> list A) (es : list Z) :
  (forall e, f e = [] \/ exists a, f e = [a] /\ key a = e) ->
  StronglySorted Z.lt es ->
  StronglySorted Z.lt (map key (flat_map f es))
  /\ Forall (fun k => In k es) (map key (flat_map f es)).
Proof.
  intros Hf. induction 1 as [|e es Hs [IH1 IH2] Hall]; [split; constructor|].
  cbn [flat_map]. rewrite map_app.
  assert (Hin : Forall (fun k => In k (e :: es)) (map key (flat_map f es))).
  { eapply Forall_impl; [|exact IH2]. intros k Hk. right. exact Hk. }
  destruct (Hf e) as [->|[a [-> Ha]]]; cbn [map app]; [split; assumption|].
  split.
  - constructor; [exact IH1|]. rewrite Ha. apply Forall_forall. intros k Hk.
    rewrite Forall_forall in IH2, Hall. apply Hall, IH2, Hk.
  - constructor; [left; symmetry; exact Ha | exact Hin].
Qed.

(** X18. The RNDs of a result that [run] returns are in strictly ascending
    order of expiry: no expiry occurs twice. *)
Theorem run_results_ascending (self : RNDPipeline) (symbol : string) (trade_dt : Z)
    (spot_price : option R) (save : bool) (h h' : Heap)
    (result : RNDPipelineResult) :
  run_ self symbol trade_dt spot_price save h = (inr result, h') ->
  StronglySorted Z.lt (map RndExtractor.expiry (rnd_results result))
  /\ NoDup (map RndExtractor.expiry (rnd_results result)).
Proof.
  intro Hrun.
  assert (Hs : StronglySorted Z.lt (map RndExtractor.expiry (rnd_results result))).
  { apply (run_returns make_spline date_str) in Hrun.
    destruct Hrun as [[msg ->]|[otm [qm [spot [_ ->]]]]]; cbn [rnd_results];
      [constructor|].
    destruct (expiry_loop_appends make_spline date_str self otm qm spot trade_dt
                (Py.sorted (Pd.unique (map Pd.expiry (Pd.rows otm))))
                (mkLocals [] [] [])) as [-> _].
    cbn [loc_rnd_results app].
    apply flat_map_keys_sorted; [|apply sorted_unique_strict].
    intro e. destruct (contribution_rnd self otm qm spot trade_dt e)
      as [->|[sr [rnd0 [rnd [Hfit [Hex [Hrnd ->]]]]]]]; [left; reflexivity|].
    right. exists rnd. split; [reflexivity|].
    assert (He : RndExtractor.expiry rnd0 = e).
    { unfold RndExtractor.extract in Hex. destruct (Rleb _ 0); [discriminate|].
      apply bind_inr in Hex. destruct Hex as [d [_ Hex]]. injection Hex as <-.
      reflexivity. }
    destruct Hrnd as [->|[q ->]]; exact He. }
  split; [exact Hs|].
  induction Hs as [|x xs _ IH Hall]; constructor; [|exact IH].
  intro Hin. rewrite Forall_forall in Hall. specialize (Hall x Hin). lia.
Qed.

(** X19. A turn of the loop for an expiry with fewer than ten rows in the
    OTM chain adds nothing: no RND and no error entry. Whatever the expiry,
    the turn adds at most one RND and at most two error entries (the
    arbitrage warning and the exception), each of them starting with the
    expiry's date and a colon. *)
Theorem expiry_turn_is_tagged (self : RNDPipeline) (otm : Pd.DataFrame)
    (qm : ChainCleaner.QualityDict) (spot : R) (trade_dt e : Z) :
  let added := contribution_ self otm qm spot trade_dt e in
  ((length (filter (fun q => Z.eqb (Pd.expiry q) e) (Pd.rows otm)) < 10)%nat ->
   added = ([], []))
  /\ (length (fst added) <= 1)%nat
  /\ (length (snd added) <= 2)%nat
  /\ Forall (fun msg => exists reason, msg = (date_str e ++ ": " ++ reason)%string)
            (snd added).
Proof.
  unfold expiry_contribution, expiry_step, try_expiry, ret. cbv zeta.
  cbn [Pd.filter_rows Pd.rows].
  assert (Htag : forall reason tl,
             Forall (fun msg => exists reason', msg = (date_str e ++ ": " ++ reason')%string) tl ->
             Forall (fun msg => exists reason', msg = (date_str e ++ ": " ++ reason')%string)
                    ((date_str e ++ ": " ++ reason)%string :: tl)).
  { intros reason tl Htl. constructor; [exists reason; reflexivity | exact Htl]. }
  destruct (_ <? 10)%nat eqn:E10.
  { cbn [fst snd loc_rnd_results loc_errors length]. repeat split; try lia.
    constructor. }
  apply Nat.ltb_ge in E10. split; [intro Hlt; lia|].
  destruct (Smoothing.fit _ _ _ _ _) as [err|sr].
  { cbn [fst snd loc_rnd_results loc_errors append_error length app].
    repeat split; try lia. apply Htag. constructor. }
  destruct (ArbitrageChecks.check _ _ _) as [err|arb].
  { cbn [fst snd loc_rnd_results loc_errors append_error set_smoothing length app].
    repeat split; try lia. apply Htag. constructor. }
  destruct (RndExtractor.extract _ _ _ _ _) as [err|rnd0].
  { destruct (negb _);
      cbn [fst snd loc_rnd_results loc_errors append_error set_smoothing length app];
      repeat split; try lia; repeat (apply Htag); constructor. }
  destruct (match Py.dict_get e qm with Some _ => _ | None => _ end) as [err|rnd];
    destruct (negb _);
    cbn [fst snd loc_rnd_results loc_errors append_error append_rnd set_smoothing
         length app];
    repeat split; try lia; repeat (apply Htag); constructor.
Qed.

(** X20. When [run] returns a failed result, that result is the error
    result with exactly one message, and the message is one of five: the
    chain was empty, fetching it raised, nothing was left after cleaning,
    the OTM chain was empty, or no expiry gave an RND. The per-expiry
    messages collected before are not in it. *)
Theorem run_failure_message (self : RNDPipeline) (symbol : string) (trade_dt : Z)
    (spot_price : option R) (save : bool) (h h' : Heap)
    (result : RNDPipelineResult) :
  run_ self symbol trade_dt spot_price save h = (inr result, h') ->
  success result = false ->
  exists msg,
    result = _error_result symbol trade_dt msg
    /\ errors result = [msg]
    /\ (msg = "Empty chain returned"%string
        \/ (exists reason, msg = ("Failed to fetch chain: " ++ reason)%string)
        \/ msg = "No valid options after cleaning"%string
        \/ msg = "No valid OTM options"%string
        \/ msg = "No RNDs extracted"%string).
Proof.
  unfold run, mbind, try_except, mret, mraise. intros H Hfail.
  repeat (cbv beta in *;
          match goal with
          | H : context [match ?x with _ => _ end] |- _ =>
              destruct x eqn:?; try discriminate
          end).
  all: repeat match goal with
              | H : (_, _) = (_, _) |- _ => injection H; clear H; intros
              end.
  all: subst.
  all: try discriminate.
  all: repeat match goal with
              | H : inl _ = inl _ |- _ => injection H; clear H; intros; subst
              | H : inr _ = inr _ |- _ => injection H; clear H; intros; subst
              end.
  all: try discriminate.
  all: eexists; split; [reflexivity|]; split; [reflexivity|].
  all: first [ left; reflexivity
             | right; left; eexists; reflexivity
             | right; right; left; reflexivity
             | right; right; right; left; reflexivity
             | right; right; right; right; reflexivity ].
Qed.

(** X21. The file store is used only by a run that succeeds with [save]
    set: a run with [save = False], and a run that returns a failed result,
    give the same outcome and the same heap with any other file store. *)
Theorem run_saves_only_on_success
    (other_store : ref -> string -> Z -> string -> M unit)
    (self : RNDPipeline) (symbol : string) (trade_dt : Z)
    (spot_price : option R) (save : bool) (h : Heap) :
  save = false
  \/ (exists result h',
        run_ self symbol trade_dt spot_price save h = (inr result, h')
        /\ success result = false) ->
  run make_spline date_str get_option_chain get_spot_price other_store
      self symbol trade_dt spot_price save h
  = run_ self symbol trade_dt spot_price save h.
Proof.
  unfold run, mbind, try_except, mret, mraise. intros Hcase.
  repeat (cbv beta in *;
          match goal with
          | |- context [match ?x with _ => _ end] =>
              lazymatch x with
              | context [other_store] => fail
              | context [save_chain] => fail
              | _ => destruct x eqn:?
              end
          end).
  all: try reflexivity.
  all: destruct Hcase as [Hsave|[result [h' [Hrun Hfail]]]]; [discriminate|].
  all: destruct (save_chain _ _ _ _ _) as [[err|[]] hs]; [discriminate|].
  all: injection Hrun as <- _; discriminate Hfail.
Qed.

End PipelineResults.

Lemma run_failure_message_witness :
  exists msg,
    Pipeline.run Samples.no_spline Samples.day_number Samples.empty_client
      Samples.no_spot Samples.read_only_store
      (Pipeline.RNDPipeline_init (5 / 100) 30 180) "ES" 19000 None true []
    = (inr (Pipeline._error_result "ES" 19000 msg), [Samples.empty_chain]).
Proof.
  destruct (run_failure_message Samples.no_spline Samples.day_number
              Samples.empty_client Samples.no_spot Samples.read_only_store
              (Pipeline.RNDPipeline_init (5 / 100) 30 180) "ES" 19000 None true
              [] [Samples.empty_chain] _ eq_refl eq_refl) as [msg [Hmsg _]].
  exists msg. rewrite <- Hmsg. reflexivity.
Defined.

Lemma run_saves_only_on_success_witness :
  Pipeline.run Samples.no_spline Samples.day_number Samples.empty_client
    Samples.no_spot (fun _ _ _ _ => Mem.mret tt)
    (Pipeline.RNDPipeline_init (5 / 100) 30 180) "ES" 19000 None true []
  = Pipeline.run Samples.no_spline Samples.day_number Samples.empty_client
      Samples.no_spot Samples.read_only_store
      (Pipeline.RNDPipeline_init (5 / 100) 30 180) "ES" 19000 None true [].
Proof.
  apply run_saves_only_on_success. right.
  exists (Pipeline._error_result "ES" 19000 "Empty chain returned"),
    [Samples.empty_chain].
  split; reflexivity.
Defined.

(** ** From a validated chain to the OTM chain *)

Section ValidatedChain.

Import Mem ChainCleaner BaseClient.


(** X22. [validate_chain] returns [True] exactly when the frame has the
    five columns [expiry], [strike], [right], [bid] and [ask]; it never
    returns [False], and otherwise raises with the missing columns listed in
    that order. *)
Theorem validate_chain_spec (df : Pd.DataFrame) :
  (validate_chain df = inr true
   <-> Forall (fun col => Pd.has_col col df = true) required)
  /\ validate_chain df <> inr false
  /\ (forall msg, validate_chain df = inl msg ->
        exists missing,
          missing = filter (fun col => negb (Pd.has_col col df)) required
          /\ missing <> []
          /\ msg = ("Chain missing required columns: " ++ py_repr_list missing)%string).
Proof.
  unfold validate_chain. cbv zeta.
  destruct (filter (fun col => negb (Pd.has_col col df)) required) as [|m ms] eqn:E.
  - split; [|split; [discriminate | discriminate]].
    split; [intros _ | reflexivity].
    apply Forall_forall. intros col Hcol.
    destruct (Pd.has_col col df) eqn:Ec; [reflexivity|]. exfalso.
    assert (Hin : In col (filter (fun col => negb (Pd.has_col col df)) required)).
    { apply filter_In. split; [exact Hcol | rewrite Ec; reflexivity]. }
    rewrite E in Hin. exact Hin.
  - split; [|split; [discriminate|]].
    + split; [discriminate|]. intro Hall. exfalso.
      assert (Hin : In m (filter (fun col => negb (Pd.has_col col df)) required))
        by (rewrite E; left; reflexivity).
      apply filter_In in Hin. destruct Hin as [Hin Hneg].
      rewrite Forall_forall in Hall. rewrite (Hall m Hin) in Hneg. discriminate.
    + intros msg Hmsg. injection Hmsg as <-. exists (m :: ms).
      split; [reflexivity|]. split; [discriminate | reflexivity].
Qed.

Lemma has_col_dte_cleaned (self : ChainCleaner) (today : Z) (c : Pd.DataFrame) :
  Pd.has_col "expiry" c = true ->
  Pd.has_col "dte" (cleaned self (Some today) c) = true.
Proof.
  intro He. unfold cleaned. cbv zeta. rewrite He.
  change (Pd.has_col "dte"
            (Pd.assign "dte" (fun q => Pd.set_dte (Pd.expiry q - today) q)
               (Pd.filter_rows (passes self) (with_mid c))) = true).
  apply has_col_assign_same.
Qed.



End ValidatedChain.

(** ** Calls, puts and the columns the stages ask for *)

Section CleanerEdges.

Import Mem ChainCleaner.

Lemma filter_frame (keep : Pd.Row -> bool) (chain : ref) (h0 : Heap) (c : Pd.DataFrame) :
  nth_error h0 chain = Some c ->
  Pd.has_col "right" c = true ->
  (_ <~ column chain "right" ;; df <~ getitem chain keep ;; copy df) h0
  = (inr (S (length h0)),
     h0 ++ [Pd.filter_rows keep c; Pd.filter_rows keep c]).
Proof.
  intros Hc Hr.
  unfold mbind, column, getitem, copy, read, lift, alloc, mbind, Pd.require, ret.
  rewrite Hc, Hr. cbv beta iota. rewrite Hc. cbv beta iota.
  rewrite nth_error_app2 by lia. rewrite Nat.sub_diag. cbn [nth_error].
  rewrite length_app. cbn [length]. rewrite Nat.add_1_r, <- app_assoc.
  reflexivity.
Qed.

Lemma lookup_lt (h : Heap) (r : ref) (c : Pd.DataFrame) :
  nth_error h r = Some c -> (r < length h)%nat.
Proof. intro H. apply nth_error_Some. rewrite H. discriminate. Qed.

Lemma lookup_app (h h' : Heap) (r : ref) (c : Pd.DataFrame) :
  nth_error h r = Some c -> nth_error (h ++ h') r = Some c.
Proof.
  intro H. rewrite nth_error_app1 by (eapply lookup_lt; exact H). exact H.
Qed.

(** X24. On a frame with a [right] column, [filter_calls] and
    [filter_puts] each return a new frame with the columns of the chain and
    exactly its rows marked ["C"], respectively ["P"], in their order; the
    two share no row, together they hold no more rows than the chain, and the
    chain itself is left as it was. Without the column either one raises
    [KeyError] and allocates nothing. *)
Theorem filter_calls_puts_split (chain : ref) (h0 : Heap) (c : Pd.DataFrame) :
  nth_error h0 chain = Some c ->
  (Pd.has_col "right" c = false ->
   filter_calls chain h0 = (inl "KeyError: right"%string, h0)
   /\ filter_puts chain h0 = (inl "KeyError: right"%string, h0))
  /\ (Pd.has_col "right" c = true ->
      exists rc h1 rp h2 calls puts,
        filter_calls chain h0 = (inr rc, h1)
        /\ filter_puts chain h1 = (inr rp, h2)
        /\ nth_error h2 rc = Some calls /\ nth_error h2 rp = Some puts
        /\ nth_error h2 chain = Some c
        /\ rc <> chain /\ rp <> chain /\ rc <> rp
        /\ Pd.columns calls = Pd.columns c /\ Pd.columns puts = Pd.columns c
        /\ Pd.rows calls
           = filter (fun q => String.eqb (Pd.right q) "C") (Pd.rows c)
        /\ Pd.rows puts
           = filter (fun q => String.eqb (Pd.right q) "P") (Pd.rows c)
        /\ (forall q, In q (Pd.rows calls) -> ~ In q (Pd.rows puts))
        /\ (length (Pd.rows calls) + length (Pd.rows puts)
            <= length (Pd.rows c))%nat).
Proof.
  intro Hc. split.
  - intro Hr. unfold filter_calls, filter_puts, mbind, column, mbind, read, lift, Pd.require, raise.
    cbv beta. rewrite Hc, Hr. split; reflexivity.
  - intro Hr.
    set (isC := fun q => String.eqb (Pd.right q) "C").
    set (isP := fun q => String.eqb (Pd.right q) "P").
    pose proof (lookup_lt _ _ _ Hc) as Hlt.
    set (h1 := h0 ++ [Pd.filter_rows isC c; Pd.filter_rows isC c]).
    assert (Hc1 : nth_error h1 chain = Some c) by (apply lookup_app; exact Hc).
    assert (Hl1 : length h1 = S (S (length h0)))
      by (unfold h1; rewrite length_app; cbn [length]; lia).
    exists (S (length h0)), h1, (S (length h1)),
      (h1 ++ [Pd.filter_rows isP c; Pd.filter_rows isP c]),
      (Pd.filter_rows isC c), (Pd.filter_rows isP c).
    split; [exact (filter_frame isC chain h0 c Hc Hr)|].
    split; [exact (filter_frame isP chain h1 c Hc1 Hr)|].
    split.
    { apply lookup_app. unfold h1. rewrite nth_error_app2 by lia.
      replace (S (length h0) - length h0)%nat with 1%nat by lia. reflexivity. }
    split.
    { rewrite nth_error_app2 by lia.
      replace (S (length h1) - length h1)%nat with 1%nat by lia. reflexivity. }
    split; [apply lookup_app; exact Hc1|].
    split; [lia|]. split; [lia|]. split; [lia|].
    split; [reflexivity|]. split; [reflexivity|].
    split; [reflexivity|]. split; [reflexivity|].
    split.
    + cbn [Pd.filter_rows Pd.rows]. intros q Hq Hq'.
      apply filter_In in Hq. apply filter_In in Hq'.
      destruct Hq as [_ Hq]. destruct Hq' as [_ Hq']. unfold isC, isP in *.
      apply String.eqb_eq in Hq. rewrite Hq in Hq'. discriminate.
    + cbn [Pd.filter_rows Pd.rows]. clear.
      induction (Pd.rows c) as [|q l IH]; [simpl; lia|].
      cbn [filter length]. unfold isC, isP in *.
      destruct (String.eqb (Pd.right q) "C") eqn:EC.
      * apply String.eqb_eq in EC. rewrite EC. cbn [String.eqb Ascii.eqb Bool.eqb].
        cbn [length]. lia.
      * destruct (String.eqb (Pd.right q) "P"); cbn [length]; lia.
Qed.

Lemma filter_calls_puts_split_witness :
  exists rc h1 rp h2 calls puts,
    filter_calls 0%nat [Samples.atm_chain] = (inr rc, h1)
    /\ filter_puts 0%nat h1 = (inr rp, h2)
    /\ nth_error h2 rc = Some calls /\ nth_error h2 rp = Some puts
    /\ nth_error h2 0%nat = Some Samples.atm_chain
    /\ rc <> 0%nat /\ rp <> 0%nat /\ rc <> rp
    /\ Pd.columns calls = Pd.columns Samples.atm_chain
    /\ Pd.columns puts = Pd.columns Samples.atm_chain
    /\ Pd.rows calls
       = filter (fun q => String.eqb (Pd.right q) "C") (Pd.rows Samples.atm_chain)
    /\ Pd.rows puts
       = filter (fun q => String.eqb (Pd.right q) "P") (Pd.rows Samples.atm_chain)
    /\ (forall q, In q (Pd.rows calls) -> ~ In q (Pd.rows puts))
    /\ (length (Pd.rows calls) + length (Pd.rows puts)
        <= length (Pd.rows Samples.atm_chain))%nat.
Proof.
  apply (proj2 (filter_calls_puts_split 0%nat [Samples.atm_chain] Samples.atm_chain
                  eq_refl)).
  reflexivity.
Defined.

Lemma has_col_assign_new (name name' : string) (upd : Pd.Row -> Pd.Row)
    (df : Pd.DataFrame) :
  String.eqb name name' = false ->
  Pd.has_col name (Pd.assign name' upd df) = Pd.has_col name df.
Proof.
  intro Hne. unfold Pd.assign.
  destruct (Pd.has_col name' df); unfold Pd.has_col; cbn [Pd.columns]; [reflexivity|].
  rewrite existsb_app. cbn [existsb]. rewrite Hne, !orb_false_r. reflexivity.
Qed.

Lemma update_app_last (h : Heap) (d d' : Pd.DataFrame) :
  update (length h) d' (h ++ [d]) = h ++ [d'].
Proof. induction h as [|x h IH]; cbn; [reflexivity|]. rewrite IH. reflexivity. Qed.

(** X25. [build_otm_chain] on a non-empty chain without a [dte] column
    raises: [ValueError] with the advice to run [clean] first when the chain
    has a [mid] column or the [bid] and [ask] columns to compute it from, and
    [KeyError] for the first of [bid], [ask] that is missing otherwise. The
    caller's chain is left as it was; only the working copy is added. *)
Theorem build_otm_chain_requires_dte (chain : ref) (spot r : R)
    (return_quality : bool) (h0 : Heap) (c : Pd.DataFrame) :
  nth_error h0 chain = Some c ->
  Pd.empty c = false ->
  Pd.has_col "dte" c = false ->
  exists copy_of_chain,
    build_otm_chain chain spot r return_quality h0
    = (inl (if Pd.has_col "mid" c
            then "Chain must have 'dte' column. Run clean() first."
            else if negb (Pd.has_col "bid" c) then "KeyError: bid"
            else if negb (Pd.has_col "ask" c) then "KeyError: ask"
            else "Chain must have 'dte' column. Run clean() first.")%string,
       h0 ++ [copy_of_chain])
    /\ nth_error (h0 ++ [copy_of_chain]) chain = Some c.
Proof.
  intros Hc Hne Hdte.
  assert (Hnew : forall d, nth_error (h0 ++ [d]) (length h0) = Some d).
  { intro d. rewrite nth_error_app2 by lia. rewrite Nat.sub_diag. reflexivity. }
  assert (Hold : forall d, nth_error (h0 ++ [d]) chain = Some c)
    by (intro d; apply lookup_app; exact Hc).
  unfold build_otm_chain, mbind, copy, mbind, read, alloc, mret, mraise.
  cbv beta. rewrite Hc, Hne. cbv beta iota. rewrite Hc. cbv beta iota.
  rewrite Hnew. cbv beta iota.
  destruct (Pd.has_col "mid" c) eqn:Em; cbn [negb]; cbv beta iota.
  - rewrite Hnew. cbv beta iota. rewrite Hdte. cbn [negb].
    exists c. split; [reflexivity | apply Hold].
  - unfold column, setitem, mbind, read, lift, write, Pd.require, ret, raise.
    cbv beta. rewrite Hnew. cbv beta iota.
    destruct (Pd.has_col "bid" c) eqn:Eb; cbn [negb]; cbv beta iota;
      [|exists c; split; [reflexivity | apply Hold]].
    rewrite Hnew. cbv beta iota.
    destruct (Pd.has_col "ask" c) eqn:Ea; cbn [negb]; cbv beta iota;
      [|exists c; split; [reflexivity | apply Hold]].
    rewrite Hnew. cbv beta iota.
    rewrite update_app_last. rewrite Hnew. cbv beta iota.
    rewrite has_col_assign_new by reflexivity. rewrite Hdte. cbn [negb].
    eexists. split; [reflexivity | apply Hold].
Qed.

Lemma build_otm_chain_requires_dte_witness :
  exists copy_of_chain,
    build_otm_chain 0%nat 100 0 true [Samples.raw_chain]
    = (inl (if Pd.has_col "mid" Samples.raw_chain
            then "Chain must have 'dte' column. Run clean() first."
            else if negb (Pd.has_col "bid" Samples.raw_chain) then "KeyError: bid"
            else if negb (Pd.has_col "ask" Samples.raw_chain) then "KeyError: ask"
            else "Chain must have 'dte' column. Run clean() first.")%string,
       [Samples.raw_chain] ++ [copy_of_chain])
    /\ nth_error ([Samples.raw_chain] ++ [copy_of_chain]) 0%nat = Some Samples.raw_chain.
Proof.
  apply (build_otm_chain_requires_dte 0%nat 100 0 true [Samples.raw_chain]
           Samples.raw_chain); reflexivity.
Defined.

End CleanerEdges.

(** ** Rejections of [extract] and [fit] *)

Section Rejections.

Import Smoothing RndExtractor.

Variable make_spline : list R -> list R -> R -> Exc UnivariateSpline.
Variable date_str : Z -> string.

(** X26. [extract] raises the [ValueError] "Expiry ... must be after trade
    date ..." exactly when the expiry is not after the trade date, whatever
    the smoothing result and the extractor: the dates are checked first, and
    no later failure carries that message. *)
Theorem extract_rejects_past_expiry (self : RNDExtractor) (sr : SmoothingResult)
    (expiry trade_date : Z) :
  extract date_str self sr expiry trade_date
  = inl ("Expiry " ++ date_str expiry ++ " must be after trade date "
                   ++ date_str trade_date)%string
  <-> (expiry <= trade_date)%Z.
Proof.
  unfold extract. cbv zeta.
  destruct (Rleb (IZR (expiry - trade_date) / 365) 0) eqn:E.
  - split; [intros _ | reflexivity].
    apply Rleb_spec in E.
    assert (H : IZR (expiry - trade_date) <= 0) by lra.
    apply le_IZR in H. lia.
  - split.
    + unfold _compute_density, d2C_dK2, _finite_diff_2nd, bind, ret, raise.
      cbv zeta.
      repeat match goal with
             | |- context [match ?x with _ => _ end] =>
                 lazymatch x with
                 | context [match _ with _ => _ end] => fail
                 | _ => destruct x
                 end
             end; discriminate.
    + intro Hle. exfalso.
      assert (H : IZR (expiry - trade_date) <= 0) by (apply IZR_le; lia).
      rewrite Rleb_true in E by lra. discriminate.
Qed.

Lemma drop_repeats_length (l : list R) : (length (drop_repeats l) <= length l)%nat.
Proof.
  induction l as [|a l IH]; [apply Nat.le_refl|].
  destruct l as [|b l]; [apply Nat.le_refl|].
  change (drop_repeats (a :: b :: l))
    with (if Reqb a b then drop_repeats (b :: l) else a :: drop_repeats (b :: l)).
  destruct (Reqb a b); cbn [length] in *; lia.
Qed.

Lemma np_unique_length (l : list R) : (length (np_unique l) <= length l)%nat.
Proof.
  unfold np_unique. eapply Nat.le_trans; [apply drop_repeats_length|].
  rewrite sort_by_length. apply Nat.le_refl.
Qed.

Lemma sorted_perm_eq (l l' : list R) :
  StronglySorted Rle l -> StronglySorted Rle l' -> Permutation l l' -> l = l'.
Proof.
  revert l'. induction l as [|a l IH]; intros l' Hl Hl' Hp.
  - apply Permutation_nil in Hp. symmetry. exact Hp.
  - destruct l' as [|b l'];
      [apply Permutation_sym, Permutation_nil in Hp; discriminate|].
    apply StronglySorted_inv in Hl. destruct Hl as [Hl Ha].
    apply StronglySorted_inv in Hl'. destruct Hl' as [Hl' Hb].
    rewrite Forall_forall in Ha, Hb.
    assert (Hab : a = b).
    { assert (Hina : In a (b :: l'))
        by (eapply Permutation_in; [exact Hp | left; reflexivity]).
      assert (Hinb : In b (a :: l))
        by (eapply Permutation_in; [apply Permutation_sym; exact Hp | left; reflexivity]).
      destruct Hina as [Hina|Hina]; [symmetry; exact Hina|].
      destruct Hinb as [Hinb|Hinb]; [exact Hinb|].
      specialize (Ha b Hinb). specialize (Hb a Hina). lra. }
    subst b. apply Permutation_cons_inv in Hp.
    rewrite (IH l' Hl Hl' Hp). reflexivity.
Qed.

Lemma np_unique_perm (l l' : list R) : Permutation l l' -> np_unique l = np_unique l'.
Proof.
  intro Hp. unfold np_unique. apply f_equal.
  apply sorted_perm_eq; try apply sort_by_Rle_sorted.
  eapply perm_trans; [apply sort_by_perm|].
  eapply perm_trans; [exact Hp|]. apply Permutation_sym, sort_by_perm.
Qed.

(** X27. On a chain with [strike] and [mid] columns, [fit] on the [mid]
    price raises [ValueError] whenever fewer than [min_points] of its calls
    have a positive mid and a positive strike (all rows count as calls when
    there is no [right] column): "Need at least ... calls, got n" with the
    number [n] of calls when already the calls are too few, and otherwise
    "Not enough valid prices after cleaning: k" with [k], the number of
    distinct usable strikes. The spot price and the spline fit play no
    part. *)
Theorem fit_rejects_thin_chain (self : CallPriceSmoother) (chain : Pd.DataFrame)
    (spot_price : option R) :
  Pd.has_col "mid" chain = true ->
  Pd.has_col "strike" chain = true ->
  let calls := if Pd.has_col "right" chain
               then filter (fun q => String.eqb (Pd.right q) "C") (Pd.rows chain)
               else Pd.rows chain in
  let usable := filter (fun q => Rltb 0 (Pd.mid q) && Rltb 0 (Pd.strike q)) calls in
  (length usable < min_points self)%nat ->
  exists msg,
    fit make_spline self chain spot_price "mid" = inl msg
    /\ ((length calls < min_points self)%nat ->
        msg = ("Need at least " ++ str_of_nat (min_points self) ++ " calls, got "
                 ++ str_of_nat (length calls))%string)
    /\ ((min_points self <= length calls)%nat ->
        exists k, (k <= length usable)%nat
          /\ k = length (np_unique (map Pd.strike usable))
          /\ msg = ("Not enough valid prices after cleaning: " ++ str_of_nat k)%string).
Proof.
  intros Hmid Hstrike calls usable Hthin.
  unfold fit, fit_arrays. cbv zeta.
  set (frame := if Pd.has_col "right" chain
                then Pd.filter_rows (fun q => String.eqb (Pd.right q) "C") chain
                else chain).
  assert (Hcols : Pd.columns frame = Pd.columns chain)
    by (unfold frame; destruct (Pd.has_col "right" chain); reflexivity).
  assert (Hrows : Pd.rows frame = calls)
    by (unfold frame, calls; destruct (Pd.has_col "right" chain); reflexivity).
  assert (Hm : Pd.has_col "mid" frame = true)
    by (unfold Pd.has_col; rewrite Hcols; exact Hmid).
  assert (Hs : Pd.has_col "strike" frame = true)
    by (unfold Pd.has_col; rewrite Hcols; exact Hstrike).
  rewrite Hm. cbn [String.eqb Ascii.eqb Bool.eqb negb andb bind ret].
  rewrite Hrows.
  destruct (length calls <? min_points self)%nat eqn:En.
  - apply Nat.ltb_lt in En. eexists. split; [reflexivity|].
    split; [intros _; reflexivity | intro Hge; lia].
  - apply Nat.ltb_ge in En. unfold Pd.require. rewrite Hs, Hm.
    cbn [bind ret Pd.float_col String.eqb Ascii.eqb Bool.eqb].
    set (sorted := Pd.sort_by (fun a b => Rleb (Pd.strike a) (Pd.strike b)) calls).
    set (valid := filter (fun q => Rltb 0 (Pd.mid q) && Rltb 0 (Pd.strike q)) sorted).
    assert (Hlen : length valid = length usable).
    { apply Permutation_length. unfold valid, usable.
      apply filter_perm. apply sort_by_perm. }
    assert (Hk : (length (np_unique (map Pd.strike valid)) <= length usable)%nat).
    { eapply Nat.le_trans; [apply np_unique_length|].
      rewrite length_map, Hlen. apply Nat.le_refl. }
    assert (Hlt : (length (np_unique (map Pd.strike valid)) <? min_points self)%nat = true)
      by (apply Nat.ltb_lt; lia).
    rewrite Hlt. eexists. split; [reflexivity|].
    split; [intro Hlt'; lia|]. intros _.
    exists (length (np_unique (map Pd.strike valid))).
    split; [exact Hk|]. split; [|reflexivity].
    apply f_equal. apply np_unique_perm. apply Permutation_map.
    unfold valid, usable. apply filter_perm. apply sort_by_perm.
Qed.

End Rejections.

Lemma fit_rejects_thin_chain_witness :
  exists msg,
    Smoothing.fit Samples.no_spline Smoothing.default_smoother Samples.atm_chain None "mid" = inl msg
    /\ ((length (filter (fun q => String.eqb (Pd.right q) "C")
                         (Pd.rows Samples.atm_chain)) < 10)%nat ->
        msg = ("Need at least " ++ str_of_nat 10 ++ " calls, got "
                 ++ str_of_nat (length (filter (fun q => String.eqb (Pd.right q) "C")
                                               (Pd.rows Samples.atm_chain))))%string).
Proof.
  destruct (fit_rejects_thin_chain Samples.no_spline Smoothing.default_smoother
              Samples.atm_chain None eq_refl eq_refl)
    as [msg [Hfit [Hfew _]]].
  - eapply Nat.le_lt_trans; [apply filter_length_le|]. cbn. lia.
  - exists msg. split; [exact Hfit | exact Hfew].
Defined.

(** ** The data quality attached to the RNDs of a run *)

Section AttachedQuality.

Import Mem Pipeline.

Variable make_spline : list R -> list R -> R -> Exc Smoothing.UnivariateSpline.
Variable date_str : Z -> string.
Variable get_option_chain : string -> Z -> M ref.
Variable get_spot_price : string -> Z -> M (option R).
Variable save_chain : ref -> string -> Z -> string -> M unit.

Local Abbreviation run_ :=
  (run make_spline date_str get_option_chain get_spot_price save_chain).
Local Abbreviation expiry_loop_ := (expiry_loop make_spline date_str).
Local Abbreviation contribution_ := (expiry_contribution make_spline date_str).

(** [build_otm_chain] with [return_quality]: the frame and the dictionary
    it returns, from the loop over the expiries of the working copy. *)
Lemma build_otm_chain_outcome (chain : ref) (spot r : R) (h0 : Heap)
    (c : Pd.DataFrame) :
  nth_error h0 chain = Some c ->
  Pd.empty c = false ->
  triple (eq h0) (ChainCleaner.build_otm_chain chain spot r true)
    (fun res h =>
       exists out,
         ChainCleaner.expiry_loop (Pd.rows (with_mid c)) spot r
           (Pd.unique (map Pd.expiry (Pd.rows (with_mid c)))) [] [] = inr out
         /\ nth_error h (fst res)
            = Some (Pd.mkDF ChainCleaner.otm_columns
                      (Pd.sort_by ChainCleaner.by_expiry_strike (fst out)))
         /\ snd res = Some (match fst out with [] => [] | _ :: _ => snd out end))
    (fun _ => True).
Proof.
  intros Hc Hne h <-.
  assert (Hnew : forall d, nth_error (h0 ++ [d]) (length h0) = Some d).
  { intro d. rewrite nth_error_app2 by lia. rewrite Nat.sub_diag. reflexivity. }
  unfold ChainCleaner.build_otm_chain, mbind, ChainCleaner.copy, mbind, read, alloc,
    mret, mraise.
  cbv beta. rewrite Hc, Hne. cbv beta iota. rewrite Hc. cbv beta iota.
  rewrite Hnew. cbv beta iota.
  assert (Hbody : forall hw,
    nth_error hw (length h0) = Some (with_mid c) ->
    match
      (let (e, h') := match nth_error hw (length h0) with
                      | Some df => (inr df, hw)
                      | None => (inl "dangling reference"%string, hw)
                      end in
       match e with
       | inl e0 => (inl e0, h')
       | inr d =>
           (if negb (Pd.has_col "dte" d)
            then fun h1 => (inl "Chain must have 'dte' column. Run clean() first."%string, h1)
            else
              _ <~ ChainCleaner.column (length h0) "expiry" ;;
              _ <~ ChainCleaner.column (length h0) "right" ;;
              _ <~ ChainCleaner.column (length h0) "strike" ;;
              out <~ lift (ChainCleaner.expiry_loop (Pd.rows d) spot r
                             (Pd.unique (map Pd.expiry (Pd.rows d))) [] []) ;;
              match fst out with
              | [] =>
                  res <~ alloc (Pd.mkDF ChainCleaner.otm_columns []) ;;
                  (fun h1 => (inr (res, Some []), h1))
              | _ :: _ =>
                  res <~ alloc (Pd.mkDF ChainCleaner.otm_columns
                                  (Pd.sort_by ChainCleaner.by_expiry_strike (fst out))) ;;
                  (fun h1 => (inr (res, Some (snd out)), h1))
              end) h'
       end)
    with
    | (inr res, h1) =>
        exists out,
          ChainCleaner.expiry_loop (Pd.rows (with_mid c)) spot r
            (Pd.unique (map Pd.expiry (Pd.rows (with_mid c)))) [] [] = inr out
          /\ nth_error h1 (fst res)
             = Some (Pd.mkDF ChainCleaner.otm_columns
                       (Pd.sort_by ChainCleaner.by_expiry_strike (fst out)))
          /\ snd res = Some (match fst out with [] => [] | _ :: _ => snd out end)
    | (inl _, _) => True
    end).
  { intros hw Hw. rewrite Hw. cbv beta iota.
    destruct (negb (Pd.has_col "dte" (with_mid c))); [exact I|].
    unfold ChainCleaner.column, mbind, read, lift, alloc, Pd.require, ret, raise.
    cbv beta. rewrite Hw. cbv beta iota.
    destruct (Pd.has_col "expiry" (with_mid c)); [|exact I]. rewrite Hw. cbv beta iota.
    destruct (Pd.has_col "right" (with_mid c)); [|exact I]. rewrite Hw. cbv beta iota.
    destruct (Pd.has_col "strike" (with_mid c)); [|exact I].
    destruct (ChainCleaner.expiry_loop _ _ _ _ _ _) as [err|out] eqn:Eout; [exact I|].
    destruct (fst out) as [|row rows] eqn:Ef; cbv beta iota.
    - exists out. split; [reflexivity|]. rewrite Ef. cbn [fst snd].
      split; [|reflexivity].
      rewrite nth_error_app2 by lia. rewrite Nat.sub_diag. reflexivity.
    - exists out. split; [reflexivity|]. rewrite Ef. cbn [fst snd].
      split; [|reflexivity].
      rewrite nth_error_app2 by lia. rewrite Nat.sub_diag. reflexivity. }
  unfold with_mid in *.
  destruct (Pd.has_col "mid" c) eqn:Em; cbn [negb]; cbv beta iota.
  - apply Hbody. apply Hnew.
  - unfold ChainCleaner.column at 1 2, ChainCleaner.setitem, mbind, read, lift, write,
      Pd.require, ret, raise.
    cbv beta. rewrite Hnew. cbv beta iota.
    destruct (Pd.has_col "bid" c); [|exact I]. rewrite Hnew. cbv beta iota.
    destruct (Pd.has_col "ask" c); [|exact I]. rewrite Hnew. cbv beta iota.
    rewrite update_newest.
    apply (Hbody (h0 ++ [Pd.assign "mid" ChainCleaner.compute_mid c])). apply Hnew.
Qed.

Lemma In_dict_set {V : Type} (x : Z * V) (k : Z) (v : V) (d : list (Z * V)) :
  In x (Py.dict_set k v d) -> x = (k, v) \/ In x d.
Proof.
  induction d as [|[k0 v0] d IH]; cbn [Py.dict_set].
  - intros [H|[]]. left. symmetry. exact H.
  - destruct (Z.eqb k k0).
    + intros [H|H]; [left; symmetry; exact H | right; right; exact H].
    + intros [H|H]; [right; left; exact H|].
      destruct (IH H) as [H'|H']; [left; exact H' | right; right; exact H'].
Qed.

Lemma dict_get_In {V : Type} (k : Z) (v : V) (d : list (Z * V)) :
  Py.dict_get k d = Some v -> In (k, v) d.
Proof.
  induction d as [|[k0 v0] d IH]; cbn [Py.dict_get]; [discriminate|].
  destruct (Z.eqb k k0) eqn:E.
  - apply Z.eqb_eq in E. subst k0. intro H. injection H as ->. left. reflexivity.
  - intro H. right. apply IH. exact H.
Qed.

Lemma filter_none {A : Type} (p : A -> bool) (l : list A) :
  Forall (fun x => p x = false) l -> filter p l = [].
Proof.
  induction 1 as [|x l Hx _ IH]; [reflexivity|]. cbn [filter].
  rewrite Hx. exact IH.
Qed.

(** The loop of [build_otm_chain] over distinct expiries: [num_otm] of an
    entry of the dictionary counts the rows of its expiry in [results]. *)
Lemma otm_loop_counts (rows : list Pd.Row) (spot r : R) (es : list Z) :
  NoDup es ->
  forall acc qd out,
    (forall e row, In e es -> In row acc -> Pd.expiry row <> e) ->
    (forall entry, In entry qd -> exists row, In row acc /\ Pd.expiry row = fst entry) ->
    Forall (fun entry =>
              ChainQuality.num_otm (snd entry)
              = length (filter (fun q => Z.eqb (Pd.expiry q) (fst entry)) acc)) qd ->
    ChainCleaner.expiry_loop rows spot r es acc qd = inr out ->
    Forall (fun entry =>
              ChainQuality.num_otm (snd entry)
              = length (filter (fun q => Z.eqb (Pd.expiry q) (fst entry)) (fst out)))
           (snd out).
Proof.
  induction 1 as [|e es Hnin Hnd IH]; intros acc qd out Hfresh Hkeys Hcount Hrun.
  - cbn in Hrun. injection Hrun as <-. exact Hcount.
  - cbn [ChainCleaner.expiry_loop] in Hrun. apply bind_inr in Hrun.
    destruct Hrun as [st [Hst Hrun]].
    pose proof (process_expiry_expiry _ _ _ _ _ Hst) as Hexp.
    assert (Hacc : filter (fun q => Z.eqb (Pd.expiry q) e) acc = []).
    { apply filter_none. apply Forall_forall. intros row Hrow. apply Z.eqb_neq.
      apply (Hfresh e row); [left; reflexivity | exact Hrow]. }
    assert (Hold : forall entry, In entry qd ->
              filter (fun q => Z.eqb (Pd.expiry q) (fst entry))
                     (ChainCleaner.expiry_results st) = []).
    { intros entry Hentry. destruct (Hkeys entry Hentry) as [row [Hrow Hkey]].
      apply filter_none. eapply Forall_impl; [|exact Hexp].
      intros row' Hrow'. cbv beta in Hrow'. apply Z.eqb_neq. rewrite Hrow', <- Hkey.
      intro E. apply (Hfresh e row); [left; reflexivity | exact Hrow | ].
      symmetry. exact E. }
    assert (Hcount' : Forall (fun entry =>
              ChainQuality.num_otm (snd entry)
              = length (filter (fun q => Z.eqb (Pd.expiry q) (fst entry))
                               (acc ++ ChainCleaner.expiry_results st))) qd).
    { rewrite Forall_forall in *. intros entry Hentry.
      rewrite filter_app, length_app, (Hold entry Hentry), (Hcount entry Hentry).
      cbn [length]. lia. }
    apply IH in Hrun; [exact Hrun | | |].
    + intros e' row He' Hrow. apply in_app_or in Hrow. destruct Hrow as [Hrow|Hrow].
      * apply Hfresh; [right; exact He' | exact Hrow].
      * rewrite Forall_forall in Hexp. rewrite (Hexp row Hrow).
        intro E. apply Hnin. rewrite E. exact He'.
    + intros entry Hentry.
      destruct (ChainCleaner.expiry_results st) as [|row0 rs] eqn:Er.
      * destruct (Hkeys entry Hentry) as [row [Hrow Hkey]].
        exists row. split; [apply in_or_app; left; exact Hrow | exact Hkey].
      * apply In_dict_set in Hentry. destruct Hentry as [->|Hentry].
        -- exists row0. split; [apply in_or_app; right; left; reflexivity|].
           cbn [fst]. apply Forall_inv in Hexp. exact Hexp.
        -- destruct (Hkeys entry Hentry) as [row [Hrow Hkey]].
           exists row. split; [apply in_or_app; left; exact Hrow | exact Hkey].
    + destruct (ChainCleaner.expiry_results st) as [|row0 rs] eqn:Er; [exact Hcount'|].
      apply dict_set_Forall; [|exact Hcount'].
      cbn [fst snd ChainQuality.num_otm].
      rewrite filter_app, Hacc. cbn [app]. rewrite filter_all; [reflexivity|].
      eapply Forall_impl; [|exact Hexp]. intros row Hrow. cbv beta in Hrow.
      apply Z.eqb_eq. exact Hrow.
Qed.

Lemma read_inv (r : ref) (h h' : Heap) (d : Pd.DataFrame) :
  read r h = (inr d, h') -> nth_error h r = Some d /\ h' = h.
Proof.
  unfold read. destruct (nth_error h r) as [df|]; [|discriminate].
  intro H. injection H as -> ->. auto.
Qed.

(** A successful [run]: its results are those of the loop over the OTM
    frame and the dictionary that [build_otm_chain] made from a non-empty
    cleaned chain. *)
Lemma run_success_built (self : RNDPipeline) (symbol : string) (trade_dt : Z)
    (spot_price : option R) (save : bool) (h h' : Heap)
    (result : RNDPipelineResult) :
  run_ self symbol trade_dt spot_price save h = (inr result, h') ->
  success result = true ->
  exists cc spot out,
    Pd.empty cc = false
    /\ ChainCleaner.expiry_loop (Pd.rows (with_mid cc)) spot (r self)
         (Pd.unique (map Pd.expiry (Pd.rows (with_mid cc)))) [] [] = inr out
    /\ rnd_results result
       = loc_rnd_results
           (expiry_loop_ self
              (Pd.mkDF ChainCleaner.otm_columns
                 (Pd.sort_by ChainCleaner.by_expiry_strike (fst out)))
              (match fst out with [] => [] | _ :: _ => snd out end)
              spot trade_dt
              (Py.sorted (Pd.unique (map Pd.expiry
                 (Pd.sort_by ChainCleaner.by_expiry_strike (fst out)))))
              (mkLocals [] [] [])).
Proof.
  unfold run, mbind, try_except, mret, mraise. intros H Hok.
  repeat (cbv beta in *;
          match goal with
          | H : context [match ?x with _ => _ end] |- _ =>
              destruct x eqn:?; try discriminate
          end).
  all: repeat match goal with
              | H : (_, _) = (_, _) |- _ => injection H; clear H; intros
              end.
  all: subst.
  all: try discriminate.
  all: repeat match goal with
              | H : inl _ = inl _ |- _ => injection H; clear H; intros; subst
              | H : inr _ = inr _ |- _ => injection H; clear H; intros; subst
              end.
  all: try discriminate.
  all: match goal with
       | Hcc : read ?cref _ = (inr ?cc, ?hb),
         Hb : ChainCleaner.build_otm_chain ?cref ?sp _ true ?hb
              = (inr (?oref, Some ?q), ?hc),
         Ho : read ?oref ?hc = (inr ?otm, _),
         He : Pd.empty ?cc = false,
         E : loc_rnd_results _ = _ :: _ |- _ =>
           apply read_inv in Hcc; destruct Hcc as [Hcc Ehb]; rewrite <- Ehb in Hcc;
           apply read_inv in Ho; destruct Ho as [Ho _];
           pose proof (build_otm_chain_outcome cref sp (r self) hb cc Hcc He hb eq_refl)
             as Hout;
           rewrite Hb in Hout; destruct Hout as [out [Hloop [Hfr Hq]]];
           cbn [fst snd] in Hfr, Hq; rewrite Ho in Hfr;
           injection Hfr as Hfr; injection Hq as Hq;
           exists cc, sp, out; split; [exact He|]; split; [exact Hloop|];
           cbn [rnd_results]; rewrite <- E, Hfr, Hq; reflexivity
       end.
Qed.

Lemma data_quality_of_fields (m : ChainQuality.ChainQualityMetrics)
    (q : RndExtractor.DataQuality) :
  data_quality_of m = inr q ->
  RndExtractor.num_raw_options q = ChainQuality.num_raw m
  /\ RndExtractor.num_otm_options q = ChainQuality.num_otm m
  /\ RndExtractor.num_calls q = ChainQuality.num_calls m
  /\ RndExtractor.num_puts_synthetic q = ChainQuality.num_puts_synthetic m.
Proof.
  unfold data_quality_of. cbv zeta. intro H.
  apply bind_inr in H. destruct H as [sr [_ H]].
  apply bind_inr in H. destruct H as [sc [_ H]].
  apply bind_inr in H. destruct H as [mr [_ H]].
  apply bind_inr in H. destruct H as [qs [_ H]].
  injection H as <-. cbn. auto.
Qed.

(** The RND an expiry contributes: the expiry has at least ten rows in the
    OTM frame, and when the dictionary has its metrics they are attached. *)
Lemma contribution_quality (self : RNDPipeline) (otm : Pd.DataFrame)
    (qm : ChainCleaner.QualityDict) (spot : R) (trade_dt e : Z) :
  Forall (fun rnd =>
            (10 <= length (filter (fun q => Z.eqb (Pd.expiry q) e) (Pd.rows otm)))%nat
            /\ forall m, Py.dict_get e qm = Some m ->
                 exists q, data_quality_of m = inr q
                           /\ RndExtractor.data_quality rnd = Some q)
         (fst (contribution_ self otm qm spot trade_dt e)).
Proof.
  unfold expiry_contribution, expiry_step, try_expiry. cbv zeta.
  cbn [fst Pd.filter_rows Pd.rows].
  destruct (_ <? 10)%nat eqn:E10; [constructor|]. apply Nat.ltb_ge in E10.
  destruct (Smoothing.fit _ _ _ _ _) as [err|sr]; [constructor|].
  destruct (ArbitrageChecks.check _ _ _) as [err|arb]; [constructor|].
  destruct (RndExtractor.extract _ _ _ _ _) as [err|rnd0].
  { destruct (negb _); constructor. }
  destruct (Py.dict_get e qm) as [metrics|].
  - destruct (data_quality_of metrics) as [err|q] eqn:Eq; cbn [bind ret].
    + destruct (negb _); constructor.
    + destruct (negb _); cbn [loc_rnd_results append_rnd append_error set_smoothing app];
        (constructor; [|constructor]); (split; [exact E10|]);
        intros m Hm; injection Hm as <-; exists q; (split; [exact Eq | reflexivity]).
  - cbn [ret]. destruct (negb _);
      cbn [loc_rnd_results append_rnd append_error set_smoothing app];
      (constructor; [|constructor]); (split; [exact E10|]); intros m Hm; discriminate Hm.
Qed.

(** X28. Every RND in a result that [run] returns carries a
    [data_quality] record, taken from the metrics that [build_otm_chain]
    computed for its expiry: it counts at least ten OTM options, and that
    count is the number of OTM calls plus the number of synthetic calls made
    from puts. *)
Theorem run_attaches_quality (self : RNDPipeline) (symbol : string) (trade_dt : Z)
    (spot_price : option R) (save : bool) (h h' : Heap)
    (result : RNDPipelineResult) :
  run_ self symbol trade_dt spot_price save h = (inr result, h') ->
  Forall (fun rnd =>
            exists q,
              RndExtractor.data_quality rnd = Some q
              /\ (10 <= RndExtractor.num_otm_options q)%nat
              /\ RndExtractor.num_otm_options q
                 = (RndExtractor.num_calls q + RndExtractor.num_puts_synthetic q)%nat)
         (rnd_results result).
Proof.
  intro Hrun.
  destruct (run_returns make_spline date_str _ _ _ _ _ _ _ _ _ _ _ Hrun)
    as [[msg Hres]|[otm0 [qm0 [spot0 [_ Hres]]]]].
  { rewrite Hres. constructor. }
  assert (Hok : success result = true) by (rewrite Hres; reflexivity).
  clear otm0 qm0 spot0 Hres.
  destruct (run_success_built self symbol trade_dt spot_price save h h' result Hrun Hok)
    as [cc [spot [out [_ [Hloop ->]]]]].
  destruct (otm_loop_facts cc spot (r self) out Hloop) as [_ [Hentries Hkeys]].
  assert (Hcounts := otm_loop_counts _ _ _ _ (unique_NoDup _) [] [] out
                       (fun _ _ _ (F : In _ []) => match F with end)
                       (fun _ (F : In _ []) => match F with end)
                       (Forall_nil _) Hloop).
  destruct (expiry_loop_appends make_spline date_str self
              (Pd.mkDF ChainCleaner.otm_columns
                 (Pd.sort_by ChainCleaner.by_expiry_strike (fst out)))
              (match fst out with [] => [] | _ :: _ => snd out end) spot trade_dt
              (Py.sorted (Pd.unique (map Pd.expiry
                 (Pd.sort_by ChainCleaner.by_expiry_strike (fst out)))))
              (mkLocals [] [] [])) as [-> _].
  cbn [loc_rnd_results app]. apply Forall_flat_map. apply Forall_forall.
  intros e He.
  apply In_sort_by in He. apply (proj1 (unique_In _ _)) in He.
  apply in_map_iff in He. destruct He as [row [Hrow Hin]].
  apply In_sort_by in Hin.
  assert (Hkey : In e (Py.dict_keys (snd out)))
    by (apply Hkeys; exists row; split; assumption).
  destruct (fst out) as [|row0 rows0] eqn:Ef; [destruct Hin|]. rewrite <- Ef in *.
  destruct (dict_get_key e (snd out) Hkey) as [m Hm].
  pose proof (dict_get_In e m (snd out) Hm) as Hentry.
  rewrite Forall_forall in Hentries, Hcounts.
  specialize (Hentries (e, m) Hentry). specialize (Hcounts (e, m) Hentry).
  cbn [fst snd] in Hentries, Hcounts. destruct Hentries as [Hsum _].
  eapply Forall_impl;
    [|apply (contribution_quality self
               (Pd.mkDF ChainCleaner.otm_columns
                  (Pd.sort_by ChainCleaner.by_expiry_strike (fst out)))
               (snd out) spot trade_dt e)].
  intros rnd [H10 Hq]. destruct (Hq m Hm) as [q [Hdq Hsome]].
  destruct (data_quality_of_fields m q Hdq) as [_ [Hotm [Hcalls Hputs]]].
  exists q. split; [exact Hsome|]. rewrite Hotm, Hcalls, Hputs.
  split; [|exact Hsum]. rewrite Hcounts.
  cbn [Pd.rows] in H10.
  rewrite (Permutation_length
             (filter_perm (fun q0 => Z.eqb (Pd.expiry q0) e) _ _
                (sort_by_perm ChainCleaner.by_expiry_strike (fst out)))) in H10.
  exact H10.
Qed.

End AttachedQuality.

(** ** The density matrices of the plots *)

Section SurfaceShape.

Import RndExtractor Surface.

Lemma fold_Zmax_In (l : list Z) (x : Z) : In (fold_left Z.max l x) (x :: l).
Proof.
  revert x. induction l as [|y l IH]; intro x; cbn [fold_left]; [left; reflexivity|].
  destruct (IH (Z.max x y)) as [H|H]; [|right; right; exact H].
  rewrite <- H. destruct (Z.max_spec x y) as [[_ ->]|[_ ->]];
    [right; left; reflexivity | left; reflexivity].
Qed.

Lemma fold_Zmin_In (l : list Z) (x : Z) : In (fold_left Z.min l x) (x :: l).
Proof.
  revert x. induction l as [|y l IH]; intro x; cbn [fold_left]; [left; reflexivity|].
  destruct (IH (Z.min x y)) as [H|H]; [|right; right; exact H].
  rewrite <- H. destruct (Z.min_spec x y) as [[_ ->]|[_ ->]];
    [left; reflexivity | right; left; reflexivity].
Qed.

Lemma py_max_In (l : list Z) : l <> [] -> exists m, Py.max l = inr m /\ In m l.
Proof.
  destruct l as [|x l]; [contradiction|]. intros _.
  exists (fold_left Z.max l x). split; [reflexivity | apply fold_Zmax_In].
Qed.

Lemma py_min_In (l : list Z) : l <> [] -> exists m, Py.min l = inr m /\ In m l.
Proof.
  destruct l as [|x l]; [contradiction|]. intros _.
  exists (fold_left Z.min l x). split; [reflexivity | apply fold_Zmin_In].
Qed.

Lemma last_in_list {A : Type} (l : list A) (d : A) : l <> [] -> In (last l d) l.
Proof.
  induction l as [|a l IH]; [contradiction|]. intros _.
  destruct l as [|b l]; [left; reflexivity|].
  right. apply IH. discriminate.
Qed.

Lemma blend_length (w : R) (zl zh : list R) :
  length zl = length zh -> length (blend w zl zh) = length zl.
Proof.
  intro H. unfold blend. rewrite length_map, length_combine, H. apply Nat.min_id.
Qed.

(** The column at any target DTE, for RNDs that [np.interp] accepts. *)
Lemma density_column_total (grid : list R) (rnd_results : list RNDResult) (d : R) :
  rnd_results <> [] ->
  Forall (fun r => strikes r <> [] /\ length (density r) = length (strikes r))
         rnd_results ->
  exists col, density_column grid rnd_results d = inr col
              /\ length col = length grid.
Proof.
  intros Hne Hok.
  pose proof (rnd_by_dte_keys rnd_results) as Hkeys.
  assert (Hcol : forall k, In k (Py.sorted (Py.dict_keys (rnd_by_dte rnd_results))) ->
            exists res, dict_item (rnd_by_dte rnd_results) k = inr res
                        /\ interp_density grid res
                           = inr (Np.interp grid (strikes res) (density res))).
  { intros k Hk. destruct (dict_item_key rnd_results k Hk) as [res [Hget Hitem]].
    exists res. split; [exact Hitem|]. apply interp_density_total.
    apply rnd_by_dte_get in Hget. destruct Hget as [Hin _].
    rewrite Forall_forall in Hok. destruct (Hok res Hin) as [Hs Hl].
    split; [exact Hs|]. intro Hd. rewrite Hd in Hl. cbn in Hl.
    destruct (strikes res); [contradiction | discriminate]. }
  unfold density_column. cbv zeta.
  destruct (Py.sorted (Py.dict_keys (rnd_by_dte rnd_results))) as [|first rest] eqn:Edtes.
  { destruct rnd_results as [|r0 rs]; [contradiction|].
    exfalso. apply (proj2 (Hkeys (dte_of r0))). exists r0. split; [left|]; reflexivity. }
  set (dtes := first :: rest) in *.
  assert (Hone : forall k, In k dtes ->
            exists col, (rnd <- dict_item (rnd_by_dte rnd_results) k ;;
                         interp_density grid rnd) = inr col
                        /\ length col = length grid).
  { intros k Hk. destruct (Hcol k Hk) as [res [-> Hint]]. cbn [bind]. rewrite Hint.
    eexists. split; [reflexivity | apply interp_length]. }
  destruct (Rleb d (IZR first)) eqn:E1.
  { apply Hone. left. reflexivity. }
  destruct (Rleb (IZR (last dtes first)) d) eqn:E2.
  { apply Hone. apply last_in_list. discriminate. }
  assert (Hlo : filter (fun k => Rleb (IZR k) d) dtes <> []).
  { assert (Hin : In first (filter (fun k => Rleb (IZR k) d) dtes)).
    { apply filter_In. split; [left; reflexivity|]. apply Rleb_true.
      destruct (Rle_dec d (IZR first)) as [H|H]; [|lra].
      rewrite (Rleb_true _ _ H) in E1. discriminate. }
    intro E. rewrite E in Hin. exact Hin. }
  assert (Hhi : filter (fun k => Rleb d (IZR k)) dtes <> []).
  { assert (Hin : In (last dtes first) (filter (fun k => Rleb d (IZR k)) dtes)).
    { apply filter_In. split; [apply last_in_list; discriminate|]. apply Rleb_true.
      destruct (Rle_dec (IZR (last dtes first)) d) as [H|H]; [|lra].
      rewrite (Rleb_true _ _ H) in E2. discriminate. }
    intro E. rewrite E in Hin. exact Hin. }
  destruct (py_max_In _ Hlo) as [lower [-> Hlower]].
  destruct (py_min_In _ Hhi) as [upper [-> Hupper]].
  apply filter_In in Hlower. destruct Hlower as [Hlower _].
  apply filter_In in Hupper. destruct Hupper as [Hupper _].
  cbn [bind].
  destruct (Z.eqb lower upper); [apply Hone; exact Hlower|].
  destruct (Hcol lower Hlower) as [rlo [-> Hzlo]].
  destruct (Hcol upper Hupper) as [rhi [-> Hzhi]].
  cbn [bind]. rewrite Hzlo, Hzhi. cbn [bind ret].
  eexists. split; [reflexivity|].
  rewrite blend_length; rewrite !interp_length; reflexivity.
Qed.

Lemma for_each_total {A B : Type} (P : B -> Prop) (f : A -> Exc B) (l : list A) :
  (forall a, In a l -> exists b, f a = inr b /\ P b) ->
  exists bs, for_each f l = inr bs /\ length bs = length l /\ Forall P bs.
Proof.
  induction l as [|a l IH]; intro H.
  - exists []. repeat split. constructor.
  - destruct (H a (or_introl eq_refl)) as [b [Hb HP]].
    destruct IH as [bs [Hbs [Hlen HF]]]; [intros a' Ha'; apply H; right; exact Ha'|].
    exists (b :: bs). cbn [for_each]. rewrite Hb. cbn [bind]. rewrite Hbs. cbn [bind ret].
    split; [reflexivity|]. split; [cbn; rewrite Hlen; reflexivity|].
    constructor; assumption.
Qed.

Lemma strike_grid_total (lo_frac hi_frac : R) (rnd_results : list RNDResult) :
  rnd_results <> [] ->
  Forall (fun r => strikes r <> [] /\ length (density r) = length (strikes r))
         rnd_results ->
  exists grid, strike_grid lo_frac hi_frac rnd_results = inr grid
               /\ length grid = 200%nat.
Proof.
  intros Hne Hok. unfold strike_grid.
  destruct rnd_results as [|first rs]; [contradiction|].
  apply Forall_inv in Hok. destruct Hok as [Hs _].
  cbn [map concat]. destruct (strikes first) as [|k ks]; [contradiction|].
  cbn [app]. eexists. split; [reflexivity | apply linspace_length].
Qed.

(** X29. For a non-empty list of RNDs, each with at least one strike and
    as many density values as strikes, the density matrix of the 3D surface
    is computed without an exception and has 100 rows (target DTEs) of 200
    values (strikes); the matrix of the heatmap has one column of 200 values
    for each day from 0 to the largest DTE. An empty list is rejected with
    "No RND results to plot". *)
Theorem surface_matrix_shape (rnd_results : list RNDResult) :
  (rnd_results = [] ->
   plot_from_results_Z rnd_results = inl "No RND results to plot"%string
   /\ plot_density_heatmap_Z rnd_results = inl "No RND results to plot"%string)
  /\ (rnd_results <> [] ->
      Forall (fun r => strikes r <> [] /\ length (density r) = length (strikes r))
             rnd_results ->
      (exists Z, plot_from_results_Z rnd_results = inr Z
                 /\ length Z = 100%nat
                 /\ Forall (fun row => length row = 200%nat) Z)
      /\ (exists Z max_dte,
            Py.max (map dte_of rnd_results) = inr max_dte
            /\ plot_density_heatmap_Z rnd_results = inr Z
            /\ length Z = Z.to_nat (max_dte + 1)
            /\ Forall (fun col => length col = 200%nat) Z)).
Proof.
  split.
  { intros ->. split; reflexivity. }
  intros Hne Hok.
  assert (Hdtes : map dte_of rnd_results <> [])
    by (destruct rnd_results; [contradiction | discriminate]).
  split.
  - unfold plot_from_results_Z.
    destruct (strike_grid_total (7 / 10) (13 / 10) rnd_results Hne Hok)
      as [grid [-> Hgrid]].
    cbn [bind].
    assert (Hs : Py.sorted (map dte_of rnd_results) <> []).
    { intro E. apply Hdtes.
      apply Permutation_nil. rewrite <- E.
      unfold Py.sorted. apply sort_by_perm. }
    destruct (py_min_In _ Hs) as [lo [-> _]].
    destruct (py_max_In _ Hs) as [hi [-> _]].
    cbn [bind].
    destruct (for_each_total (fun row => length row = 200%nat)
                (density_column grid rnd_results) (Np.linspace (IZR lo) (IZR hi) 100))
      as [Z [HZ [Hlen HF]]].
    { intros d _. destruct (density_column_total grid rnd_results d Hne Hok)
        as [col [Hcol Hl]].
      exists col. split; [exact Hcol | rewrite Hl; exact Hgrid]. }
    exists Z. split; [exact HZ|]. split; [|exact HF].
    rewrite Hlen. apply linspace_length.
  - unfold plot_density_heatmap_Z.
    destruct (strike_grid_total (75 / 100) (125 / 100) rnd_results Hne Hok)
      as [grid [-> Hgrid]].
    cbn [bind].
    destruct (py_max_In _ Hdtes) as [max_dte [Hmax _]]. rewrite Hmax. cbn [bind].
    destruct (for_each_total (fun col => length col = 200%nat)
                (fun d => density_column grid rnd_results (INR d))
                (seq 0 (Z.to_nat (max_dte + 1))))
      as [Z [HZ [Hlen HF]]].
    { intros d _. destruct (density_column_total grid rnd_results (INR d) Hne Hok)
        as [col [Hcol Hl]].
      exists col. split; [exact Hcol | rewrite Hl; exact Hgrid]. }
    exists Z, max_dte. split; [reflexivity|]. split; [exact HZ|].
    split; [|exact HF]. rewrite Hlen. apply length_seq.
Qed.

End SurfaceShape.

Lemma surface_matrix_shape_witness :
  exists Z, Surface.plot_from_results_Z [Samples.rnd_30d; Samples.rnd_60d] = inr Z
            /\ length Z = 100%nat
            /\ Forall (fun row => length row = 200%nat) Z.
Proof.
  apply (proj2 (surface_matrix_shape [Samples.rnd_30d; Samples.rnd_60d])).
  - discriminate.
  - repeat constructor; discriminate.
Defined.

(** ** [run] on the chain the client delivers *)

(** *** Chains of out-of-the-money calls *)

Lemma with_mid_fixed (c : Pd.DataFrame) :
  Pd.has_col "mid" c = true -> with_mid c = c.
Proof. intro H. unfold with_mid. rewrite H. reflexivity. Qed.

Lemma sort_by_nil {A : Type} (le : A -> A -> bool) (l : list A) :
  Pd.sort_by le l = [] -> l = [].
Proof.
  intro H. apply length_zero_iff_nil. rewrite <- (sort_by_length le l), H. reflexivity.
Qed.

Lemma fold_left_nil_state {A S : Type} (f : S -> A -> S) (st : S) :
  fold_left f [] st = st.
Proof. reflexivity. Qed.

(** On rows that are all calls above the ATM band, the loop body of
    [build_otm_chain] records each row as a call. *)
Lemma process_expiry_calls (exp_df : list Pd.Row) (e : Z) (spot r : R)
    (st : ChainCleaner.ExpiryState) :
  0 <= spot ->
  Forall (fun q => Pd.right q = "C"%string /\ spot * (101 / 100) < Pd.strike q) exp_df ->
  ChainCleaner.process_expiry exp_df e spot r = inr st ->
  ChainCleaner.expiry_results st
  = map (fun row => ChainCleaner.otm_record e (Pd.strike row) (Pd.mid row) "call") exp_df.
Proof.
  intros Hspot Hall. unfold ChainCleaner.process_expiry.
  destruct exp_df as [|first rest] eqn:Edf; [discriminate|]. rewrite <- Edf in *.
  cbv zeta. intro H. injection H as <-.
  assert (Hcalls : filter (fun q => String.eqb (Pd.right q) "C"
                                    && Rltb spot (Pd.strike q)) exp_df = exp_df).
  { apply filter_all. eapply Forall_impl; [|exact Hall]. intros q [Hr Hk].
    cbv beta. rewrite Hr. cbn [String.eqb Ascii.eqb Bool.eqb andb].
    apply Rltb_true. nra. }
  assert (Hputs : filter (fun q => String.eqb (Pd.right q) "P"
                                   && Rltb (Pd.strike q) spot) exp_df = []).
  { apply filter_none. eapply Forall_impl; [|exact Hall]. intros q [Hr _].
    cbv beta. rewrite Hr. reflexivity. }
  assert (Hatm : filter (fun q => String.eqb (Pd.right q) "C"
                                  && Rleb (spot * (99 / 100)) (Pd.strike q)
                                  && Rleb (Pd.strike q) (spot * (101 / 100))) exp_df
                 = []).
  { apply filter_none. eapply Forall_impl; [|exact Hall]. intros q [Hr Hk].
    cbv beta. rewrite (Rleb_false (Pd.strike q)) by lra. apply andb_false_r. }
  rewrite Hcalls, Hputs, Hatm. cbn [fold_left].
  rewrite fold_add_otm_call. reflexivity.
Qed.

Lemma otm_rows_of_calls (rows : list Pd.Row) (spot r : R)
    (out : list Pd.Row * ChainCleaner.QualityDict) :
  0 <= spot ->
  Forall (fun q => Pd.right q = "C"%string /\ spot * (101 / 100) < Pd.strike q) rows ->
  ChainCleaner.expiry_loop rows spot r (Pd.unique (map Pd.expiry rows)) [] [] = inr out ->
  fst out
  = flat_map (fun e => map (fun row => ChainCleaner.otm_record e (Pd.strike row)
                                         (Pd.mid row) "call")
                           (filter (fun q => Z.eqb (Pd.expiry q) e) rows))
             (Pd.unique (map Pd.expiry rows)).
Proof.
  intros Hspot Hall Hloop.
  apply expiry_loop_results in Hloop. destruct Hloop as [sts [HF ->]]. cbn [app].
  induction HF as [|e st es sts Hst _ IH]; [reflexivity|].
  cbn [flat_map]. rewrite IH. f_equal.
  apply (process_expiry_calls _ e spot r st Hspot); [|exact Hst].
  apply Forall_forall. intros q Hq. apply filter_In in Hq.
  rewrite Forall_forall in Hall. apply Hall. apply Hq.
Qed.

(** The rows of one expiry among rows grouped by distinct expiries. *)
Lemma filter_grouped {A : Type} (key : A -> Z) (group : Z -> list A) (es : list Z)
    (e : Z) :
  (forall e' x, In x (group e') -> key x = e') ->
  NoDup es -> In e es ->
  filter (fun x => Z.eqb (key x) e) (flat_map group es) = group e.
Proof.
  intros Hkey Hnd. induction Hnd as [|e' es Hnin Hnd IH]; intro Hin; [destruct Hin|].
  cbn [flat_map]. rewrite filter_app.
  destruct (Z.eq_dec e' e) as [->|Hne].
  - rewrite filter_all.
    + rewrite filter_none; [apply app_nil_r|].
      apply Forall_forall. intros x Hx. apply in_flat_map in Hx.
      destruct Hx as [e'' [He'' Hx]]. apply Z.eqb_neq. rewrite (Hkey e'' x Hx).
      intro E. subst e''. contradiction.
    + apply Forall_forall. intros x Hx. apply Z.eqb_eq. apply (Hkey e x Hx).
  - destruct Hin as [E|Hin]; [contradiction|]. rewrite (IH Hin).
    rewrite filter_none; [reflexivity|].
    apply Forall_forall. intros x Hx. apply Z.eqb_neq. rewrite (Hkey e' x Hx). exact Hne.
Qed.

Lemma drop_repeats_strict (l : list R) :
  StronglySorted Rlt l -> Smoothing.drop_repeats l = l.
Proof.
  induction 1 as [|a l Hl IH Hall]; [reflexivity|].
  destruct l as [|b l]; [reflexivity|].
  change (Smoothing.drop_repeats (a :: b :: l))
    with (if Reqb a b then Smoothing.drop_repeats (b :: l)
          else a :: Smoothing.drop_repeats (b :: l)).
  apply Forall_inv in Hall. rewrite (Reqb_false a b) by lra. rewrite IH. reflexivity.
Qed.

Lemma sort_by_Rle_fixed (l : list R) :
  StronglySorted Rlt l -> Pd.sort_by Rleb l = l.
Proof.
  intro H. apply sorted_perm_eq.
  - apply sort_by_Rle_sorted.
  - eapply StronglySorted_impl; [|exact H]. intros a b Hab. lra.
  - apply sort_by_perm.
Qed.

Lemma np_unique_strict (l : list R) :
  StronglySorted Rlt l -> Smoothing.np_unique l = l.
Proof.
  intro H. unfold Smoothing.np_unique. rewrite (sort_by_Rle_fixed l H).
  apply drop_repeats_strict. exact H.
Qed.

Lemma drop_repeats_const (k : R) (l : list R) :
  Forall (eq k) l -> l <> [] -> Smoothing.drop_repeats l = [k].
Proof.
  induction 1 as [|a l Ha Hl IH]; [contradiction|]. intros _. subst a.
  destruct l as [|b l]; [reflexivity|].
  change (Smoothing.drop_repeats (k :: b :: l))
    with (if Reqb k b then Smoothing.drop_repeats (b :: l)
          else k :: Smoothing.drop_repeats (b :: l)).
  pose proof (Forall_inv Hl) as Hb. rewrite (Reqb_true k b Hb).
  apply IH. discriminate.
Qed.

Lemma np_unique_const (k : R) (l : list R) :
  Forall (eq k) l -> l <> [] -> Smoothing.np_unique l = [k].
Proof.
  intros Hall Hne. unfold Smoothing.np_unique. apply drop_repeats_const.
  - apply Forall_forall. intros x Hx. apply In_sort_by in Hx.
    rewrite Forall_forall in Hall. apply Hall, Hx.
  - intro E. apply sort_by_nil in E. contradiction.
Qed.

Lemma strict_sorted_ext (l1 l2 : list Z) :
  StronglySorted Z.lt l1 -> StronglySorted Z.lt l2 ->
  (forall x, In x l1 <-> In x l2) -> l1 = l2.
Proof.
  intros H1. revert l2. induction H1 as [|a l1 Hl1 IH Ha]; intros l2 H2 Hin.
  - destruct l2 as [|b l2]; [reflexivity|].
    exfalso. apply (proj2 (Hin b)). left. reflexivity.
  - destruct H2 as [|b l2 Hl2 Hb].
    { exfalso. apply (proj1 (Hin a)). left. reflexivity. }
    rewrite Forall_forall in Ha, Hb.
    assert (Hab : a = b).
    { destruct (proj1 (Hin a) (or_introl eq_refl)) as [E|Hina]; [symmetry; exact E|].
      destruct (proj2 (Hin b) (or_introl eq_refl)) as [E|Hinb]; [exact E|].
      specialize (Ha b Hinb). specialize (Hb a Hina). lia. }
    subst b. f_equal. apply IH; [exact Hl2|].
    intro x. split; intro Hx.
    + destruct (proj1 (Hin x) (or_intror Hx)) as [E|Hx']; [|exact Hx'].
      subst x. specialize (Ha a Hx). lia.
    + destruct (proj2 (Hin x) (or_intror Hx)) as [E|Hx']; [|exact Hx'].
      subst x. specialize (Hb a Hx). lia.
Qed.

(** [sorted(unique(...))] of the expiries does not depend on the order of
    the rows. *)
Lemma sorted_expiries_perm (l l' : list Pd.Row) :
  Permutation l l' ->
  Py.sorted (Pd.unique (map Pd.expiry l)) = Py.sorted (Pd.unique (map Pd.expiry l')).
Proof.
  intro Hp. apply strict_sorted_ext; try apply sorted_unique_strict.
  intro x. unfold Py.sorted. rewrite !In_sort_by, !unique_In. split; intro Hx.
  - eapply Permutation_in; [apply Permutation_map; exact Hp | exact Hx].
  - eapply Permutation_in; [apply Permutation_map, Permutation_sym; exact Hp | exact Hx].
Qed.

(** The metrics of an expiry in the dictionary of [build_otm_chain] have
    at least one strike. *)
Lemma loop_metrics_nonempty (c : Pd.DataFrame) (spot r : R)
    (out : list Pd.Row * ChainCleaner.QualityDict) (e : Z)
    (m : ChainQuality.ChainQualityMetrics) :
  Pd.has_col "mid" c = true ->
  ChainCleaner.expiry_loop (Pd.rows c) spot r
    (Pd.unique (map Pd.expiry (Pd.rows c))) [] [] = inr out ->
  Py.dict_get e (snd out) = Some m ->
  ChainQuality.strikes m <> [].
Proof.
  intros Hmid Hloop Hget. rewrite <- (with_mid_fixed c Hmid) in Hloop.
  destruct (otm_loop_facts c spot r out Hloop) as [_ [Hentries _]].
  rewrite Forall_forall in Hentries.
  specialize (Hentries (e, m) (dict_get_In e m (snd out) Hget)).
  cbn [fst snd] in Hentries. destruct Hentries as [_ [Hlen [Hone _]]].
  intro E. rewrite E in Hlen. cbn in Hlen. lia.
Qed.

(** The frame of [clean] when every row passes every test. *)
Lemma cleaned_all_pass (self : ChainCleaner.ChainCleaner) (today : Z)
    (c : Pd.DataFrame) :
  Pd.has_col "mid" c = false ->
  Pd.has_col "expiry" c = true ->
  Forall (fun q => passes self (ChainCleaner.compute_mid q) = true
                   /\ dte_ok self (Pd.set_dte (Pd.expiry q - today)
                                     (ChainCleaner.compute_mid q)) = true)
         (Pd.rows c) ->
  Pd.rows (cleaned self (Some today) c)
  = map (fun q => Pd.set_dte (Pd.expiry q - today) (ChainCleaner.compute_mid q))
        (Pd.rows c).
Proof.
  intros Hmid Hexp Hall. unfold cleaned, with_mid. cbv zeta. rewrite Hmid, Hexp.
  cbn [Pd.filter_rows Pd.assign Pd.rows].
  rewrite (filter_all (passes self)).
  - rewrite filter_all; [|apply Forall_forall; intros q Hq; apply in_map_iff in Hq;
                          destruct Hq as [q0 [<- Hq0]]; apply in_map_iff in Hq0;
                          destruct Hq0 as [q1 [<- Hq1]];
                          rewrite Forall_forall in Hall; apply (Hall q1 Hq1)].
    rewrite map_map. apply map_ext_in. intros q Hq. reflexivity.
  - apply Forall_forall. intros q Hq. apply in_map_iff in Hq.
    destruct Hq as [q0 [<- Hq0]]. rewrite Forall_forall in Hall. apply (Hall q0 Hq0).
Qed.


Section RunOnChain.

Import Mem Pipeline.

Variable make_spline : list R -> list R -> R -> Exc Smoothing.UnivariateSpline.
Variable date_str : Z -> string.
Variable get_option_chain : string -> Z -> M ref.
Variable get_spot_price : string -> Z -> M (option R).
Variable save_chain : ref -> string -> Z -> string -> M unit.

Local Abbreviation run_ :=
  (run make_spline date_str get_option_chain get_spot_price save_chain).
Local Abbreviation try_expiry_ := (try_expiry make_spline date_str).
Local Abbreviation expiry_step_ := (expiry_step make_spline date_str).
Local Abbreviation expiry_loop_ := (expiry_loop make_spline date_str).
Local Abbreviation contribution_ := (expiry_contribution make_spline date_str).

(** [run] on a non-empty chain with the columns the stages read, the spot
    price given: the stages never raise, and the outcome is read off the
    cleaned frame, the loop of [build_otm_chain] and what each expiry of the
    OTM frame contributes by itself. *)
Lemma run_on_chain (self : RNDPipeline) (symbol : string) (trade_dt : Z)
    (spot_price : option R) (save : bool) (h h1 : Heap) (chain : ref)
    (c : Pd.DataFrame) (spot : R) :
  get_option_chain symbol trade_dt h = (inr chain, h1) ->
  nth_error h1 chain = Some c ->
  Pd.empty c = false ->
  spot_price = Some spot ->
  Pd.has_col "bid" c = true ->
  Pd.has_col "ask" c = true ->
  ((0 < ChainCleaner.min_volume (cleaner self))%Z -> Pd.has_col "volume" c = true) ->
  ((0 < ChainCleaner.min_oi (cleaner self))%Z -> Pd.has_col "open_interest" c = true) ->
  Pd.has_col "expiry" c = true ->
  Pd.has_col "right" c = true ->
  Pd.has_col "strike" c = true ->
  let cc := cleaned (cleaner self) (Some trade_dt) c in
  (Pd.empty cc = true ->
   exists h',
     run_ self symbol trade_dt spot_price save h
     = (inr (_error_result symbol trade_dt "No valid options after cleaning"), h'))
  /\ (Pd.empty cc = false ->
      exists out,
        ChainCleaner.expiry_loop (Pd.rows cc) spot (r self)
          (Pd.unique (map Pd.expiry (Pd.rows cc))) [] [] = inr out
        /\ (fst out = [] ->
            exists h',
              run_ self symbol trade_dt spot_price save h
              = (inr (_error_result symbol trade_dt "No valid OTM options"), h'))
        /\ (fst out <> [] ->
            let otm := Pd.mkDF ChainCleaner.otm_columns
                         (Pd.sort_by ChainCleaner.by_expiry_strike (fst out)) in
            let es := Py.sorted (Pd.unique (map Pd.expiry (Pd.rows otm))) in
            let st := expiry_loop_ self otm (snd out) spot trade_dt es
                        (mkLocals [] [] []) in
            let rnds :=
              flat_map (fun e => fst (contribution_ self otm (snd out) spot trade_dt e))
                       es in
            let errs :=
              flat_map (fun e => snd (contribution_ self otm (snd out) spot trade_dt e))
                       es in
            (rnds = [] ->
             exists h',
               run_ self symbol trade_dt spot_price save h
               = (inr (_error_result symbol trade_dt "No RNDs extracted"), h'))
            /\ (rnds <> [] ->
                (save = true ->
                 forall df hs, exists hs',
                   save_chain df symbol trade_dt "processed" hs = (inr tt, hs')) ->
                exists h',
                  run_ self symbol trade_dt spot_price save h
                  = (inr (mkResult symbol trade_dt rnds (loc_smoothing_results st)
                            (length rnds) true errs), h')))).
Proof.
  intros Hget Hc Hne Hspot Hbid Hask Hvol Hoi Hexp Hright Hstrike cc.
  subst spot_price.
  pose proof (clean_exact (cleaner self) chain (Some trade_dt) h1 c (fun _ => False)
                Hc Hne Hbid Hask Hvol Hoi h1 eq_refl) as Hclean.
  destruct (ChainCleaner.clean (cleaner self) chain (Some trade_dt) h1)
    as [[err|cref] h2] eqn:Eclean; [contradiction|].
  destruct (newest_lookup _ _ _ _ Hclean) as [df [Hcc Hdf]]. subst df.
  fold cc in Hcc.
  assert (Hprefix :
            run_ self symbol trade_dt (Some spot) save h
            = (cc' <~ read cref ;;
               if Pd.empty cc' then
                 mret (_error_result symbol trade_dt "No valid options after cleaning")
               else
                 built <~ ChainCleaner.build_otm_chain cref spot (r self) true ;;
                 match built with
                 | (_, None) => mraise "too many values to unpack (expected 2)"
                 | (otm_chain, Some quality_metrics) =>
                     otm <~ read otm_chain ;;
                     if Pd.empty otm then
                       mret (_error_result symbol trade_dt "No valid OTM options")
                     else
                       _ <~ ChainCleaner.column otm_chain "expiry" ;;
                       let st := expiry_loop_ self otm quality_metrics spot trade_dt
                                   (Py.sorted (Pd.unique (map Pd.expiry (Pd.rows otm))))
                                   (mkLocals [] [] []) in
                       match loc_rnd_results st with
                       | [] => mret (_error_result symbol trade_dt "No RNDs extracted")
                       | _ :: _ =>
                           _ <~ (if save
                                 then save_chain cref symbol trade_dt "processed"
                                 else mret tt) ;;
                           mret (mkResult symbol trade_dt (loc_rnd_results st)
                                   (loc_smoothing_results st)
                                   (length (loc_rnd_results st)) true (loc_errors st))
                       end
                 end) h2).
  { unfold run, mbind, try_except, mret, read.
    rewrite Hget. cbv beta iota. rewrite Hc. cbv beta iota. rewrite Hne.
    cbv beta iota. rewrite Eclean. reflexivity. }
  rename Hprefix into Erun.
  unfold mbind at 1 in Erun. unfold read at 1 in Erun. rewrite Hcc in Erun.
  cbv beta iota in Erun.
  destruct (Pd.empty cc) eqn:He.
  { split; [intros _; exists h2; exact Erun | intro F; discriminate F]. }
  split; [intro F; discriminate F|]. intros _.
  assert (Hmid : Pd.has_col "mid" cc = true) by apply has_col_mid_cleaned.
  destruct (build_otm_chain_exact cref spot (r self) true h2 cc (fun _ => False)
              Hcc He (or_introl Hmid)
              (has_col_dte_cleaned (cleaner self) trade_dt c Hexp)
              (has_col_cleaned "expiry" (cleaner self) (Some trade_dt) c Hexp)
              (has_col_cleaned "right" (cleaner self) (Some trade_dt) c Hright)
              (has_col_cleaned "strike" (cleaner self) (Some trade_dt) c Hstrike))
    as [out [Hout Ht]].
  rewrite (with_mid_fixed cc Hmid) in Hout.
  exists out. split; [exact Hout|].
  specialize (Ht h2 eq_refl).
  unfold mbind at 1 in Erun.
  destruct (ChainCleaner.build_otm_chain cref spot (r self) true h2)
    as [[err|[oref qopt]] h3] eqn:Ebuild; [contradiction|].
  cbn [fst snd] in Ht. destruct Ht as [Hnew Hq]. subst qopt.
  destruct (newest_lookup _ _ _ _ Hnew) as [otm [Hotm Heq]]. subst otm.
  unfold mbind at 1 in Erun. unfold read at 1 in Erun. rewrite Hotm in Erun.
  cbv beta iota in Erun.
  destruct (fst out) as [|row0 rows0] eqn:Ef.
  { split; [intros _; exists h3; exact Erun | intro F; contradiction]. }
  split; [intro F; discriminate F|]. intros _. rewrite <- Ef in *. cbv zeta.
  assert (Hnonempty : Pd.empty (Pd.mkDF ChainCleaner.otm_columns
                                  (Pd.sort_by ChainCleaner.by_expiry_strike (fst out)))
                      = false).
  { unfold Pd.empty. cbn [Pd.columns Pd.rows ChainCleaner.otm_columns].
    destruct (Pd.sort_by ChainCleaner.by_expiry_strike (fst out)) eqn:Es; [|reflexivity].
    apply sort_by_nil in Es. rewrite Es in Ef. discriminate. }
  rewrite Hnonempty in Erun.
  unfold mbind at 1 in Erun.
  unfold ChainCleaner.column, mbind, read, lift, Pd.require, ret in Erun.
  rewrite Hotm in Erun.
  cbn [Pd.has_col Pd.columns ChainCleaner.otm_columns existsb
       String.eqb Ascii.eqb Bool.eqb orb] in Erun.
  cbv beta iota in Erun.
  destruct (expiry_loop_appends make_spline date_str self
              (Pd.mkDF ChainCleaner.otm_columns
                 (Pd.sort_by ChainCleaner.by_expiry_strike (fst out)))
              (snd out) spot trade_dt
              (Py.sorted (Pd.unique (map Pd.expiry
                 (Pd.rows (Pd.mkDF ChainCleaner.otm_columns
                    (Pd.sort_by ChainCleaner.by_expiry_strike (fst out)))))))
              (mkLocals [] [] [])) as [Hr He'].
  cbn [loc_rnd_results loc_errors app] in Hr, He'.
  rewrite <- Hr, <- He'.
  destruct (loc_rnd_results _) as [|rnd0 rnds0] eqn:El.
  { split; [intros _; exists h3; exact Erun | intro F; contradiction]. }
  split; [intro F; discriminate F|]. intros _ Hsave.
  destruct save.
  - destruct (Hsave eq_refl cref h3) as [hs' Hs]. rewrite Hs in Erun.
    exists hs'. exact Erun.
  - exists h3. exact Erun.
Qed.

Lemma check_returns (self : ArbitrageChecks.ArbitrageChecker)
    (smooth_fn : list R -> list R) (strikes : list R) :
  (2 <= length strikes)%nat ->
  length (smooth_fn strikes) = length strikes ->
  exists res, ArbitrageChecks.check self smooth_fn strikes = inr res.
Proof.
  intros Hn Hlen. unfold ArbitrageChecks.check. cbv zeta.
  unfold ArbitrageChecks.np_divide.
  rewrite !np_diff_length, Hlen, Nat.eqb_refl. cbn [bind ret].
  destruct strikes as [|k0 [|k1 ks]]; try (simpl in Hn; lia).
  cbn [bind ret]. eexists. reflexivity.
Qed.

Lemma extract_returns_on_fit (smoother : Smoothing.CallPriceSmoother)
    (extractor : RndExtractor.RNDExtractor) (chain : Pd.DataFrame) (spot : option R)
    (price_col : string) (sr : Smoothing.SmoothingResult) (expiry trade_date : Z) :
  (2 <= Smoothing.min_points smoother)%nat ->
  (3 <= RndExtractor.num_points extractor)%nat ->
  (trade_date < expiry)%Z ->
  Smoothing.fit make_spline smoother chain spot price_col = inr sr ->
  exists rnd, RndExtractor.extract date_str extractor sr expiry trade_date = inr rnd.
Proof.
  intros Hmin Hn Hdate Hfit.
  destruct (fit_returns make_spline _ _ _ _ _ Hfit) as [k0 [ks [ps [spl [Ha ->]]]]].
  set (sr := Smoothing.mkSmoothingResult _ _ _ _ _ _ _).
  assert (HT : 0 < IZR (expiry - trade_date) / 365).
  { apply Rdiv_lt_0_compat; [|lra]. apply IZR_lt. lia. }
  unfold RndExtractor.extract. rewrite Rleb_false by lra.
  set (grid := Smoothing.get_strike_grid sr (RndExtractor.num_points extractor)) in *.
  assert (Hgl : length grid = RndExtractor.num_points extractor)
    by apply linspace_length.
  destruct (d2C_dK2_returns (Smoothing.smooth_fn sr) grid (Some sr)) as [d2C [Hd Hl]];
    [lia | apply length_map |].
  unfold RndExtractor._compute_density. rewrite Hd. cbn [bind ret].
  eexists. reflexivity.
Qed.

Lemma data_quality_returns (m : ChainQuality.ChainQualityMetrics) :
  ChainQuality.strikes m <> [] -> exists q, data_quality_of m = inr q.
Proof.
  intro Hs. unfold data_quality_of, ChainQuality.strike_range,
    ChainQuality.strike_coverage, ChainQuality.moneyness_range,
    ChainQuality.quality_score, ChainQuality.cov_score, ChainQuality.strike_coverage,
    ChainQuality.strikes_min, ChainQuality.strikes_max.
  destruct (ChainQuality.strikes m) as [|k ks]; [contradiction|].
  cbn [bind ret]. eexists. reflexivity.
Qed.

(** [fit] on the [mid] price returns when enough distinct strikes have a
    positive price and the spline fit returns. *)
Lemma fit_total (self : Smoothing.CallPriceSmoother) (d : Pd.DataFrame) (spot : R) :
  Pd.has_col "mid" d = true ->
  Pd.has_col "strike" d = true ->
  let calls := if Pd.has_col "right" d
               then filter (fun q => String.eqb (Pd.right q) "C") (Pd.rows d)
               else Pd.rows d in
  let usable := filter (fun q => Rltb 0 (Pd.mid q) && Rltb 0 (Pd.strike q)) calls in
  (1 <= Smoothing.min_points self)%nat ->
  (Smoothing.min_points self
   <= length (Smoothing.np_unique (map Pd.strike usable)))%nat ->
  (forall x y s, exists spl, make_spline x y s = inr spl) ->
  exists sr, Smoothing.fit make_spline self d (Some spot) "mid" = inr sr.
Proof.
  intros Hmid Hstrike calls usable Hone Hmany Hspl.
  unfold Smoothing.fit, Smoothing.fit_arrays. cbv zeta.
  set (frame := if Pd.has_col "right" d
                then Pd.filter_rows (fun q => String.eqb (Pd.right q) "C") d
                else d).
  assert (Hcols : Pd.columns frame = Pd.columns d)
    by (unfold frame; destruct (Pd.has_col "right" d); reflexivity).
  assert (Hrows : Pd.rows frame = calls)
    by (unfold frame, calls; destruct (Pd.has_col "right" d); reflexivity).
  assert (Hm : Pd.has_col "mid" frame = true)
    by (unfold Pd.has_col; rewrite Hcols; exact Hmid).
  assert (Hs : Pd.has_col "strike" frame = true)
    by (unfold Pd.has_col; rewrite Hcols; exact Hstrike).
  rewrite Hm. cbn [String.eqb Ascii.eqb Bool.eqb negb andb bind ret].
  rewrite Hrows.
  assert (Hu : (length (Smoothing.np_unique (map Pd.strike usable))
                <= length calls)%nat).
  { eapply Nat.le_trans; [apply np_unique_length|]. rewrite length_map.
    apply filter_length_le. }
  replace (length calls <? Smoothing.min_points self)%nat with false
    by (symmetry; apply Nat.ltb_ge; lia).
  unfold Pd.require. rewrite Hs, Hm.
  cbn [bind ret Pd.float_col String.eqb Ascii.eqb Bool.eqb].
  set (sorted := Pd.sort_by (fun a b => Rleb (Pd.strike a) (Pd.strike b)) calls).
  set (valid := filter (fun q => Rltb 0 (Pd.mid q) && Rltb 0 (Pd.strike q)) sorted).
  assert (Hsame : Smoothing.np_unique (map Pd.strike valid)
                  = Smoothing.np_unique (map Pd.strike usable)).
  { apply np_unique_perm. apply Permutation_map. unfold valid, usable.
    apply filter_perm. apply sort_by_perm. }
  rewrite Hsame.
  replace (length (Smoothing.np_unique (map Pd.strike usable))
           <? Smoothing.min_points self)%nat with false
    by (symmetry; apply Nat.ltb_ge; lia).
  cbn [bind ret fst snd]. unfold Smoothing.fit_spline. cbv zeta. cbn [bind ret].
  match goal with
  | |- context [make_spline ?x ?y ?s] => destruct (Hspl x y s) as [spl ->]
  end.
  cbn [bind ret].
  destruct (Smoothing.np_unique (map Pd.strike usable)) as [|k0 ks] eqn:Eu;
    [simpl in Hmany; lia|].
  cbn [map]. unfold Smoothing.SmoothingResult_init.
  destruct (Reqb _ 0); destruct (Reqb _ 0); cbn [bind ret]; eexists; reflexivity.
Qed.

(** The turn of an expiry with at least ten OTM rows on which the stages
    return: one RND, for that expiry. *)
Lemma contribution_total (self : RNDPipeline) (otm : Pd.DataFrame)
    (qm : ChainCleaner.QualityDict) (spot : R) (trade_dt e : Z) :
  (10 <= length (filter (fun q => Z.eqb (Pd.expiry q) e) (Pd.rows otm)))%nat ->
  (exists sr,
     Smoothing.fit make_spline (smoother self)
       (Pd.filter_rows (fun q => Z.eqb (Pd.expiry q) e) otm) (Some spot) "mid"
     = inr sr) ->
  (2 <= Smoothing.min_points (smoother self))%nat ->
  (3 <= RndExtractor.num_points (rnd_extractor self))%nat ->
  (trade_dt < e)%Z ->
  (forall m, Py.dict_get e qm = Some m -> ChainQuality.strikes m <> []) ->
  exists rnd errs,
    contribution_ self otm qm spot trade_dt e = ([rnd], errs)
    /\ RndExtractor.expiry rnd = e.
Proof.
  intros H10 [sr Hfit] Hmin Hn Hdate Hqm.
  unfold expiry_contribution, expiry_step, try_expiry. cbv zeta.
  cbn [Pd.filter_rows Pd.rows].
  replace (length (filter (fun q => Z.eqb (Pd.expiry q) e) (Pd.rows otm)) <? 10)%nat
    with false by (symmetry; apply Nat.ltb_ge; exact H10).
  rewrite Hfit.
  destruct (extract_returns_on_fit _ _ _ _ _ _ e trade_dt Hmin Hn Hdate Hfit)
    as [rnd0 Hex].
  assert (He : RndExtractor.expiry rnd0 = e).
  { unfold RndExtractor.extract in Hex. destruct (Rleb _ 0); [discriminate|].
    apply bind_inr in Hex. destruct Hex as [dens [_ Hex]]. injection Hex as <-.
    reflexivity. }
  destruct (fit_returns make_spline _ _ _ _ _ Hfit) as [k0 [ks [ps [spl [_ Hsr]]]]].
  destruct (check_returns (arb_checker self) (Smoothing.smooth_fn sr)
              (Smoothing.get_strike_grid sr 200)) as [arb Harb].
  { unfold Smoothing.get_strike_grid. rewrite linspace_length. lia. }
  { rewrite Hsr. cbn [Smoothing.smooth_fn]. apply length_map. }
  rewrite Harb, Hex.
  destruct (Py.dict_get e qm) as [m|] eqn:Em.
  - destruct (data_quality_returns m (Hqm m eq_refl)) as [q Hq]. rewrite Hq.
    cbn [bind ret].
    exists (RndExtractor.set_data_quality rnd0 q).
    destruct (negb _); eexists; (split; [reflexivity | exact He]).
  - cbn [ret]. exists rnd0. destruct (negb _); eexists; (split; [reflexivity | exact He]).
Qed.

(** The turn of an expiry with at least ten OTM rows on which [fit]
    raises: no RND, and the exception under the expiry's date. *)
Lemma contribution_fit_fails (self : RNDPipeline) (otm : Pd.DataFrame)
    (qm : ChainCleaner.QualityDict) (spot : R) (trade_dt e : Z) (reason : string) :
  (10 <= length (filter (fun q => Z.eqb (Pd.expiry q) e) (Pd.rows otm)))%nat ->
  Smoothing.fit make_spline (smoother self)
    (Pd.filter_rows (fun q => Z.eqb (Pd.expiry q) e) otm) (Some spot) "mid"
  = inl reason ->
  contribution_ self otm qm spot trade_dt e
  = ([], [(date_str e ++ ": " ++ reason)%string]).
Proof.
  intros H10 Hfit.
  unfold expiry_contribution, expiry_step, try_expiry. cbv zeta.
  cbn [Pd.filter_rows Pd.rows].
  replace (length (filter (fun q => Z.eqb (Pd.expiry q) e) (Pd.rows otm)) <? 10)%nat
    with false by (symmetry; apply Nat.ltb_ge; exact H10).
  rewrite Hfit. reflexivity.
Qed.

(** [fit] on the [mid] price when the calls are enough but their distinct
    usable strikes are not. *)
Lemma fit_not_enough (self : Smoothing.CallPriceSmoother) (d : Pd.DataFrame)
    (spot : R) :
  Pd.has_col "mid" d = true ->
  Pd.has_col "strike" d = true ->
  let calls := if Pd.has_col "right" d
               then filter (fun q => String.eqb (Pd.right q) "C") (Pd.rows d)
               else Pd.rows d in
  let usable := filter (fun q => Rltb 0 (Pd.mid q) && Rltb 0 (Pd.strike q)) calls in
  (Smoothing.min_points self <= length calls)%nat ->
  (length (Smoothing.np_unique (map Pd.strike usable)) < Smoothing.min_points self)%nat ->
  Smoothing.fit make_spline self d (Some spot) "mid"
  = inl ("Not enough valid prices after cleaning: "
           ++ str_of_nat (length (Smoothing.np_unique (map Pd.strike usable))))%string.
Proof.
  intros Hmid Hstrike calls usable Hcalls Hfew.
  unfold Smoothing.fit, Smoothing.fit_arrays. cbv zeta.
  set (frame := if Pd.has_col "right" d
                then Pd.filter_rows (fun q => String.eqb (Pd.right q) "C") d
                else d).
  assert (Hcols : Pd.columns frame = Pd.columns d)
    by (unfold frame; destruct (Pd.has_col "right" d); reflexivity).
  assert (Hrows : Pd.rows frame = calls)
    by (unfold frame, calls; destruct (Pd.has_col "right" d); reflexivity).
  assert (Hm : Pd.has_col "mid" frame = true)
    by (unfold Pd.has_col; rewrite Hcols; exact Hmid).
  assert (Hs : Pd.has_col "strike" frame = true)
    by (unfold Pd.has_col; rewrite Hcols; exact Hstrike).
  rewrite Hm. cbn [String.eqb Ascii.eqb Bool.eqb negb andb bind ret].
  rewrite Hrows.
  replace (length calls <? Smoothing.min_points self)%nat with false
    by (symmetry; apply Nat.ltb_ge; lia).
  unfold Pd.require. rewrite Hs, Hm.
  cbn [bind ret Pd.float_col String.eqb Ascii.eqb Bool.eqb].
  set (sorted := Pd.sort_by (fun a b => Rleb (Pd.strike a) (Pd.strike b)) calls).
  set (valid := filter (fun q => Rltb 0 (Pd.mid q) && Rltb 0 (Pd.strike q)) sorted).
  assert (Hsame : Smoothing.np_unique (map Pd.strike valid)
                  = Smoothing.np_unique (map Pd.strike usable)).
  { apply np_unique_perm. apply Permutation_map. unfold valid, usable.
    apply filter_perm. apply sort_by_perm. }
  rewrite Hsame.
  replace (length (Smoothing.np_unique (map Pd.strike usable))
           <? Smoothing.min_points self)%nat with true
    by (symmetry; apply Nat.ltb_lt; lia).
  reflexivity.
Qed.

End RunOnChain.

Section SampleRun.

Import Mem Pipeline.

Lemma ladder_sorted : StronglySorted Rlt Samples.ladder.
Proof.
  unfold Samples.ladder.
  repeat (constructor; [|repeat (constructor; [lra|]); constructor]).
  constructor.
Qed.

Lemma call_quote_passes (e : Z) (K : R) :
  passes (cleaner (RNDPipeline_init (5 / 100) 30 180))
         (ChainCleaner.compute_mid (Samples.call_quote e K)) = true.
Proof.
  unfold passes, quote_ok, spread_ok, ChainCleaner.compute_mid, Samples.call_quote.
  cbn [Pd.bid Pd.ask Pd.mid Pd.volume Pd.open_interest Pd.set_mid cleaner
       RNDPipeline_init ChainCleaner.min_volume ChainCleaner.min_oi
       ChainCleaner.max_spread_pct].
  replace ((10 - 9) / ((9 + 10) / 2)) with (2 / 19) by (field).
  rdecide. reflexivity.
Qed.

Lemma sample_quotes (q : Pd.Row) :
  In q (Pd.rows Samples.three_expiry_chain) ->
  exists e K, q = Samples.call_quote e K
              /\ (e = 19100 \/ e = 19070 \/ e = 19040)%Z
              /\ 102 <= K.
Proof.
  unfold Samples.three_expiry_chain. cbn [Pd.rows]. intro Hq.
  assert (Hl : Forall (fun K => 102 <= K) Samples.ladder)
    by (unfold Samples.ladder; repeat (constructor; [lra|]); constructor).
  assert (Hr : Forall (fun K => 102 <= K) (repeat 105 10))
    by (cbn [repeat]; repeat (constructor; [lra|]); constructor).
  rewrite Forall_forall in Hl, Hr.
  apply in_app_or in Hq. destruct Hq as [Hq|Hq]; [|apply in_app_or in Hq; destruct Hq as [Hq|Hq]];
    apply in_map_iff in Hq; destruct Hq as [K [<- HK]].
  - exists 19100%Z, K. auto.
  - exists 19070%Z, K. auto.
  - exists 19040%Z, K. auto.
Qed.

Lemma sample_cleaned :
  Pd.rows (cleaned (cleaner (RNDPipeline_init (5 / 100) 30 180)) (Some 19000%Z)
             Samples.three_expiry_chain)
  = Samples.cleaned_quotes.
Proof.
  apply cleaned_all_pass; try reflexivity.
  apply Forall_forall. intros q Hq.
  destruct (sample_quotes q Hq) as [e [K [-> [He _]]]].
  split; [apply call_quote_passes|].
  destruct He as [He|[He|He]]; subst e; reflexivity.
Qed.

Lemma sample_cleaned_calls :
  Forall (fun q => Pd.right q = "C"%string /\ 100 * (101 / 100) < Pd.strike q)
         Samples.cleaned_quotes.
Proof.
  apply Forall_forall. intros q Hq. unfold Samples.cleaned_quotes in Hq.
  apply in_map_iff in Hq. destruct Hq as [q0 [<- Hq0]].
  destruct (sample_quotes q0 Hq0) as [e [K [-> [_ HK]]]].
  split; [reflexivity|]. cbn. lra.
Qed.

Lemma sample_expiries :
  Pd.unique (map Pd.expiry Samples.cleaned_quotes) = [19100; 19070; 19040]%Z.
Proof. reflexivity. Qed.

Lemma sample_group_ladder (e : Z) :
  e = 19100%Z \/ e = 19040%Z ->
  Samples.otm_group e
  = map (fun K => ChainCleaner.otm_record e K ((9 + 10) / 2) "call") Samples.ladder.
Proof. intros [He|He]; subst e; reflexivity. Qed.

Lemma sample_group_flat :
  Samples.otm_group 19070
  = map (fun K => ChainCleaner.otm_record 19070 K ((9 + 10) / 2) "call") (repeat 105 10).
Proof. reflexivity. Qed.

Lemma sample_group_expiry (e : Z) (x : Pd.Row) :
  In x (Samples.otm_group e) -> Pd.expiry x = e.
Proof.
  unfold Samples.otm_group. intro Hx. apply in_map_iff in Hx.
  destruct Hx as [row [<- _]]. reflexivity.
Qed.

(** The rows of one expiry in the sorted OTM frame of the sample. *)
Lemma sample_expiry_data (rows : list Pd.Row) (e : Z) :
  rows = flat_map Samples.otm_group [19100; 19070; 19040]%Z ->
  In e [19100; 19070; 19040]%Z ->
  Permutation
    (filter (fun q => Z.eqb (Pd.expiry q) e)
            (Pd.sort_by ChainCleaner.by_expiry_strike rows))
    (Samples.otm_group e).
Proof.
  intros -> He.
  eapply perm_trans; [apply filter_perm, sort_by_perm|].
  rewrite (filter_grouped Pd.expiry Samples.otm_group [19100; 19070; 19040]%Z e);
    [apply Permutation_refl | exact sample_group_expiry | | exact He].
  rewrite <- sample_expiries. apply unique_NoDup.
Qed.

Lemma sample_usable_strikes (rows : list Pd.Row) (ks : list R) (e : Z) :
  Permutation rows (map (fun K => ChainCleaner.otm_record e K ((9 + 10) / 2) "call") ks) ->
  Forall (fun K => 102 <= K) ks ->
  Smoothing.np_unique
    (map Pd.strike (filter (fun q => Rltb 0 (Pd.mid q) && Rltb 0 (Pd.strike q)) rows))
  = Smoothing.np_unique ks.
Proof.
  intros Hp Hks.
  rewrite (np_unique_perm _ _ (Permutation_map Pd.strike (filter_perm _ _ _ Hp))).
  rewrite filter_all.
  - rewrite map_map. cbn [ChainCleaner.otm_record Pd.strike]. rewrite map_id.
    reflexivity.
  - apply Forall_forall. intros q Hq. apply in_map_iff in Hq.
    destruct Hq as [K [<- HK]]. rewrite Forall_forall in Hks. specialize (Hks K HK).
    cbn [ChainCleaner.otm_record Pd.strike Pd.mid].
    rewrite (Rltb_true 0 ((9 + 10) / 2)) by lra. rewrite (Rltb_true 0 K) by lra.
    reflexivity.
Qed.

Local Abbreviation sample_pipeline := (RNDPipeline_init (5 / 100) 30 180).
Local Abbreviation sample_otm out :=
  (Pd.mkDF ChainCleaner.otm_columns
     (Pd.sort_by ChainCleaner.by_expiry_strike (fst out))).
Local Abbreviation sample_loop out :=
  (ChainCleaner.expiry_loop Samples.cleaned_quotes 100 (5 / 100)
     (Pd.unique (map Pd.expiry Samples.cleaned_quotes)) [] [] = inr out).

Lemma sample_otm_rows (out : list Pd.Row * ChainCleaner.QualityDict) :
  sample_loop out -> fst out = flat_map Samples.otm_group [19100; 19070; 19040]%Z.
Proof.
  intro Hloop.
  rewrite (otm_rows_of_calls Samples.cleaned_quotes 100 (5 / 100) out);
    [| lra | exact sample_cleaned_calls | exact Hloop].
  rewrite sample_expiries. reflexivity.
Qed.

Lemma sample_loop_expiries (out : list Pd.Row * ChainCleaner.QualityDict) :
  sample_loop out ->
  Py.sorted (Pd.unique (map Pd.expiry (Pd.rows (sample_otm out))))
  = [19040; 19070; 19100]%Z.
Proof.
  intro Hloop. cbn [Pd.rows].
  rewrite (sorted_expiries_perm _ _ (sort_by_perm ChainCleaner.by_expiry_strike (fst out))).
  rewrite (sample_otm_rows out Hloop). reflexivity.
Qed.

Lemma sample_ten_rows (out : list Pd.Row * ChainCleaner.QualityDict) (e : Z) :
  sample_loop out ->
  In e [19100; 19070; 19040]%Z ->
  length (filter (fun q => Z.eqb (Pd.expiry q) e) (Pd.rows (sample_otm out))) = 10%nat.
Proof.
  intros Hloop He. cbn [Pd.rows].
  rewrite (Permutation_length (sample_expiry_data _ e (sample_otm_rows out Hloop) He)).
  destruct He as [He|[He|[He|[]]]]; subst e; reflexivity.
Qed.

(** An expiry of the sample with ten strikes contributes an RND. *)
Lemma sample_good_expiry (out : list Pd.Row * ChainCleaner.QualityDict) (e : Z) :
  sample_loop out ->
  e = 19100%Z \/ e = 19040%Z ->
  exists rnd errs,
    expiry_contribution Samples.constant_spline Samples.day_number sample_pipeline
      (sample_otm out) (snd out) 100 19000 e = ([rnd], errs)
    /\ RndExtractor.expiry rnd = e.
Proof.
  intros Hloop He.
  assert (Hin : In e [19100; 19070; 19040]%Z)
    by (destruct He as [He|He]; subst e; cbn; auto).
  apply contribution_total.
  - rewrite (sample_ten_rows out e Hloop Hin). lia.
  - apply fit_total; try reflexivity.
    + cbn. lia.
    + change (Pd.rows (Pd.filter_rows (fun q => Z.eqb (Pd.expiry q) e) (sample_otm out)))
        with (filter (fun q => Z.eqb (Pd.expiry q) e)
                     (Pd.sort_by ChainCleaner.by_expiry_strike (fst out))).
      rewrite (sample_usable_strikes _ Samples.ladder e).
      * rewrite (np_unique_strict _ ladder_sorted). cbn. lia.
      * rewrite <- (sample_group_ladder e He).
        apply sample_expiry_data; [exact (sample_otm_rows out Hloop) | exact Hin].
      * unfold Samples.ladder. repeat (constructor; [lra|]). constructor.
    + intros x y s. eexists. reflexivity.
  - cbn. lia.
  - cbn. lia.
  - destruct He as [He|He]; subst e; lia.
  - intros m Hm.
    apply (loop_metrics_nonempty
             (Pd.mkDF ["mid"%string] Samples.cleaned_quotes) 100 (5 / 100) out e m);
      [reflexivity | exact Hloop | exact Hm].
Qed.

(** The expiry of the sample with one strike raises in [fit]. *)
Lemma sample_bad_expiry (out : list Pd.Row * ChainCleaner.QualityDict) :
  sample_loop out ->
  expiry_contribution Samples.constant_spline Samples.day_number sample_pipeline
    (sample_otm out) (snd out) 100 19000 19070
  = ([], ["19070: Not enough valid prices after cleaning: 1"%string]).
Proof.
  intro Hloop.
  assert (Hin : In 19070%Z [19100; 19070; 19040]%Z) by (cbn; auto).
  assert (Hks : Smoothing.np_unique
                  (map Pd.strike
                     (filter (fun q => Rltb 0 (Pd.mid q) && Rltb 0 (Pd.strike q))
                        (filter (fun q => Z.eqb (Pd.expiry q) 19070)
                           (Pd.sort_by ChainCleaner.by_expiry_strike (fst out)))))
                = [105]).
  { rewrite (sample_usable_strikes _ (repeat 105 10) 19070).
    - apply np_unique_const; [|discriminate].
      cbn [repeat]. repeat (constructor; [reflexivity|]). constructor.
    - rewrite <- sample_group_flat.
      apply sample_expiry_data; [exact (sample_otm_rows out Hloop) | exact Hin].
    - cbn [repeat]. repeat (constructor; [lra|]). constructor. }
  rewrite (contribution_fit_fails Samples.constant_spline Samples.day_number
             sample_pipeline (sample_otm out) (snd out) 100 19000 19070
             "Not enough valid prices after cleaning: 1");
    [reflexivity | rewrite (sample_ten_rows out 19070 Hloop Hin); lia |].
  rewrite fit_not_enough; try reflexivity.
  - cbn [Pd.has_col Pd.filter_rows Pd.columns ChainCleaner.otm_columns existsb
         String.eqb Ascii.eqb Bool.eqb orb Pd.rows].
    rewrite Hks. reflexivity.
  - cbn [Pd.has_col Pd.filter_rows Pd.columns ChainCleaner.otm_columns existsb
         String.eqb Ascii.eqb Bool.eqb orb Pd.rows].
    pose proof (sample_ten_rows out 19070 Hloop Hin) as H10. cbn [Pd.rows] in H10.
    rewrite H10. cbn. lia.
  - cbn [Pd.has_col Pd.filter_rows Pd.columns ChainCleaner.otm_columns existsb
         String.eqb Ascii.eqb Bool.eqb orb Pd.rows].
    rewrite Hks. cbn. lia.
Qed.


(** [run] on the sample chain: the two expiries with ten strikes give an
    RND each, in the order of their dates, and the exception of the expiry
    between them is recorded under its date. *)
Lemma sample_run :
  exists result h' rnd_a rnd_c,
    run Samples.constant_spline Samples.day_number Samples.three_expiry_client
      Samples.no_spot Samples.read_only_store sample_pipeline "ES" 19000 (Some 100)
      false []
    = (inr result, h')
    /\ success result = true
    /\ num_expiries result = 2%nat
    /\ rnd_results result = [rnd_a; rnd_c]
    /\ RndExtractor.expiry rnd_a = 19040%Z
    /\ RndExtractor.expiry rnd_c = 19100%Z
    /\ In "19070: Not enough valid prices after cleaning: 1"%string (errors result).
Proof.
  destruct (run_on_chain Samples.constant_spline Samples.day_number
              Samples.three_expiry_client Samples.no_spot Samples.read_only_store
              sample_pipeline "ES" 19000 (Some 100) false []
              [Samples.three_expiry_chain] 0%nat Samples.three_expiry_chain 100
              eq_refl eq_refl eq_refl eq_refl eq_refl eq_refl
              (fun _ => eq_refl) (fun _ => eq_refl) eq_refl eq_refl eq_refl)
    as [_ H].
  destruct H as [out [Hloop [_ Hrun]]].
  { unfold Pd.empty. rewrite sample_cleaned. reflexivity. }
  rewrite sample_cleaned in Hloop.
  assert (Hfst := sample_otm_rows out Hloop).
  assert (Hlen : length (fst out) = 30%nat) by (rewrite Hfst; reflexivity).
  assert (Hne : fst out <> []) by (intro E; rewrite E in Hlen; discriminate Hlen).
  specialize (Hrun Hne). cbv zeta in Hrun.
  rewrite (sample_loop_expiries out Hloop) in Hrun. cbn [flat_map] in Hrun.
  destruct (sample_good_expiry out 19040 Hloop (or_intror eq_refl))
    as [rnd_a [errs_a [Ha Hea]]].
  destruct (sample_good_expiry out 19100 Hloop (or_introl eq_refl))
    as [rnd_c [errs_c [Hc Hec]]].
  rewrite Ha, Hc, (sample_bad_expiry out Hloop) in Hrun.
  cbn [fst snd app] in Hrun.
  destruct Hrun as [_ Hrun].
  destruct Hrun as [h' Hrun]; [discriminate | intro F; discriminate F|].
  eexists _, h', rnd_a, rnd_c. split; [exact Hrun|].
  cbn [success num_expiries rnd_results errors length].
  repeat (split; [reflexivity || assumption|]).
  apply in_or_app. right. left. reflexivity.
Qed.

End SampleRun.

(** ** [run] and the expiries of the chain *)

Section PipelineOnChain.

Import Mem Pipeline.

Variable make_spline : list R -> list R -> R -> Exc Smoothing.UnivariateSpline.
Variable date_str : Z -> string.
Variable get_option_chain : string -> Z -> M ref.
Variable get_spot_price : string -> Z -> M (option R).
Variable save_chain : ref -> string -> Z -> string -> M unit.

Local Abbreviation run_ :=
  (run make_spline date_str get_option_chain get_spot_price save_chain).
Local Abbreviation try_expiry_ := (try_expiry make_spline date_str).
Local Abbreviation expiry_step_ := (expiry_step make_spline date_str).
Local Abbreviation expiry_loop_ := (expiry_loop make_spline date_str).
Local Abbreviation contribution_ := (expiry_contribution make_spline date_str).


End PipelineOnChain.


Lemma run_rnds_normalized_witness :
  exists result h',
    Pipeline.run Samples.constant_spline Samples.day_number Samples.three_expiry_client
      Samples.no_spot Samples.read_only_store
      (Pipeline.RNDPipeline_init (5 / 100) 30 180) "ES" 19000 (Some 100) false []
    = (inr result, h')
    /\ length (Pipeline.rnd_results result) = 2%nat
    /\ Forall (fun rnd =>
                 (19000 < RndExtractor.expiry rnd)%Z
                 /\ RndExtractor.time_to_expiry rnd
                    = IZR (RndExtractor.expiry rnd - 19000) / 365
                 /\ length (RndExtractor.strikes rnd) = 500%nat
                 /\ length (RndExtractor.density rnd) = 500%nat
                 /\ Forall (fun f => 0 < f) (RndExtractor.density rnd)
                 /\ Np.trapz (RndExtractor.density rnd) (RndExtractor.strikes rnd) = 1)
              (Pipeline.rnd_results result).
Proof.
  destruct sample_run as [result [h' [rnd_a [rnd_c [Hrun [_ [_ [Hrnds _]]]]]]]].
  exists result, h'. split; [exact Hrun|].
  split; [rewrite Hrnds; reflexivity|].
  exact (proj2 (run_rnds_normalized Samples.constant_spline Samples.day_number
                  Samples.three_expiry_client Samples.no_spot Samples.read_only_store
                  (Pipeline.RNDPipeline_init (5 / 100) 30 180) "ES" 19000 (Some 100)
                  false [] h' result ltac:(simpl; lia) ltac:(simpl; lia) Hrun)).
Defined.

Lemma run_results_ascending_witness :
  exists result h',
    Pipeline.run Samples.constant_spline Samples.day_number Samples.three_expiry_client
      Samples.no_spot Samples.read_only_store
      (Pipeline.RNDPipeline_init (5 / 100) 30 180) "ES" 19000 (Some 100) false []
    = (inr result, h')
    /\ map RndExtractor.expiry (Pipeline.rnd_results result) = [19040; 19100]%Z
    /\ StronglySorted Z.lt (map RndExtractor.expiry (Pipeline.rnd_results result))
    /\ NoDup (map RndExtractor.expiry (Pipeline.rnd_results result)).
Proof.
  destruct sample_run
    as [result [h' [rnd_a [rnd_c [Hrun [_ [_ [Hrnds [Hea [Hec _]]]]]]]]]].
  exists result, h'. split; [exact Hrun|].
  split; [rewrite Hrnds; cbn [map]; rewrite Hea, Hec; reflexivity|].
  exact (run_results_ascending Samples.constant_spline Samples.day_number
           Samples.three_expiry_client Samples.no_spot Samples.read_only_store
           (Pipeline.RNDPipeline_init (5 / 100) 30 180) "ES" 19000 (Some 100)
           false [] h' result Hrun).
Defined.

Lemma run_attaches_quality_witness :
  exists result h',
    Pipeline.run Samples.constant_spline Samples.day_number Samples.three_expiry_client
      Samples.no_spot Samples.read_only_store
      (Pipeline.RNDPipeline_init (5 / 100) 30 180) "ES" 19000 (Some 100) false []
    = (inr result, h')
    /\ length (Pipeline.rnd_results result) = 2%nat
    /\ Forall (fun rnd =>
                 exists q,
                   RndExtractor.data_quality rnd = Some q
                   /\ (10 <= RndExtractor.num_otm_options q)%nat
                   /\ RndExtractor.num_otm_options q
                      = (RndExtractor.num_calls q
                         + RndExtractor.num_puts_synthetic q)%nat)
              (Pipeline.rnd_results result).
Proof.
  destruct sample_run as [result [h' [rnd_a [rnd_c [Hrun [_ [_ [Hrnds _]]]]]]]].
  exists result, h'. split; [exact Hrun|].
  split; [rewrite Hrnds; reflexivity|].
  exact (run_attaches_quality Samples.constant_spline Samples.day_number
           Samples.three_expiry_client Samples.no_spot Samples.read_only_store
           (Pipeline.RNDPipeline_init (5 / 100) 30 180) "ES" 19000 (Some 100)
           false [] h' result Hrun).
Defined.
